(* ===== verification/_CoqProject ===== *)
-Q . S2P
Prelude.v
RustStr.v
Text.v
HttpMsg.v
HttpFraming.v
Float64.v
Ipnet.v
SockAddr.v
Spec.v
Subnet.v
Wire.v
Codecs.v
Tables.v
Registry.v
Scheduler.v
Addresses.v
Services.v
CpWorker.v
CpReconcile.v
CpCommands.v
CpHttp.v
CpSystem.v
CpConcurrency.v
Backoff.v
AgentHost.v
VolumeData.v
Store.v
Ingress.v
Ovh.v
Acme.v
OvhZone.v
Reconciler.v
ReconcilerInv.v
AgentFakes.v
AgentIsolation.v
AgentWorker.v
AgentVolumes.v
Replication.v
ReplicaData.v
AgentHttp.v
Deploy.v
Channel.v
Proxy.v
Registration.v
Keelctl.v
CpServe.v
HostCli.v
Tls.v
Executables.v
Cluster.v
