(* ===== verification/Prelude.v ===== *)
(** * A verification library for keel

    keel runs containers ("jails") on FreeBSD nodes.  A control plane
    ([src/keel-controlplane]) keeps the nodes, the services and where their
    replicas are placed; an agent on every node ([src/keel-agentd]) keeps the
    jails of that node in the state their specifications ask for
    ([src/keel-spec]), through interfaces to jails, ZFS and the network
    ([src/keel-jail], [src/keel-zfs], [src/keel-net]) and to certificates and
    nginx ([src/keel-ingress]).  This library is a shallow embedding of that
    code, operation by operation, with the theorems that make it correct.

    ** How code is represented

    - [Result<T, E>] is [result E T]; code that can panic returns [comp T]; code
      that changes a state, fails and can panic is a state transformer with the
      monadic notation of this file.  A failed operation keeps the changes it
      had made, as in the source.
    - Integers are [N] with their width written out at every operation that can
      leave it ([u32_max], [u64_max], wrapping FNV hash, panicking shifts); plain
      [+] and the like panic when they overflow, as in a debug build (a release
      build wraps instead);
      [f64] is IEEE binary64 in the executable [SpecFloat] form (Float64.v).
    - Strings are byte strings (RustStr.v and Text.v model the [str] methods the
      code uses, SockAddr.v the address parsers of [std::net]).
    - [HashMap] is [gmap].  Where the code iterates over a hash map the order is
      the method of the class [HashOrder], any permutation of the entries; the
      theorems hold for all of them.
    - Third-party code is a class of operations with documented laws and an
      executable instance showing that they can hold: [Ipnet] (Ipnet.v) for the
      crate ipnet, [SerdeYaml] (Spec.v, instances in Codecs.v) for serde_yaml,
      [Httparse] (HttpMsg.v, instance in HttpFraming.v) for httparse, [Host]
      (HostCli.v), without laws, for the programs and files of a FreeBSD host,
      [ZfsData] (VolumeData.v) for what zfs(8) does to data and snapshots,
      [OvhRecords] (OvhZone.v) for the DNS API of OVH.
      The traits of the repository are classes as well, and the repository's
      in-memory implementations their instances (AgentHost.v, Ingress.v).
    - [Instant::now()] is an argument or a nondeterministic choice.

    ** The control plane

    - Spec.v: [keel-spec], the specification types, validators and parsers.
    - Subnet.v: [subnet.rs], hash-derived pod blocks and service addresses.
    - Wire.v, Tables.v: [wire.rs]; [placements.rs], [standbys.rs],
      [pending_fences.rs].
    - Registry.v, Scheduler.v, Addresses.v, Services.v: the files of those names.
    - CpWorker.v: [worker.rs].  [CP] is the state the worker thread owns,
      [handle_command] the dispatcher, one definition per command.
    - CpReconcile.v: the reconciliation pass is sound (live nodes, free and
      distinct addresses, surplus only torn down, stateful replicas pinned) and
      reaches the desired state in one pass.
    - CpCommands.v: discovery, name conflicts, deletion, the forced re-pin.
    - CpHttp.v: [http.rs].  A handler is a tree of worker commands and requests
      forwarded to nodes, [route] the router.
    - CpSystem.v: what a handler running alone does for every node answer ([wp]).
    - CpConcurrency.v: all connection threads and the worker as a transition
      system: no interleaving kills the worker or breaks the tables, no thread
      is stuck, and what overlapping passes can do wrong.

    ** The node agent

    - Backoff.v: [backoff.rs].
    - AgentHost.v: the host traits and in-memory hosts.  VolumeData.v: the data and
      the snapshots behind the names, as documented for the commands of
      [keel-zfs/src/cli.rs], and a pool that keeps them.
    - Store.v: [record.rs], [store.rs], [ingress_store.rs]: one file per record,
      with I/O errors at every operation and crashes at every point.
    - Ingress.v: certificates, DNS, nginx and their in-memory forms.
    - Reconciler.v: [reconciler.rs], every operation, generic in the host.
      ReconcilerInv.v: the invariants all operations keep on any host.
      AgentFakes.v: what a pass and a deletion do to the in-memory host.
      AgentIsolation.v: a pass runs every jail that can run, although others fail.
    - AgentWorker.v: [worker.rs] of the agent; reachability over commands and
      restarts.  AgentVolumes.v: no command but the deletion of a volume ends its
      data, and none but a deletion by name its snapshots.
    - Replication.v: [replication.rs], [replication_loop.rs]: the wire header, the
      receiving side and the sending loop.  ReplicaData.v follows the data: a tick is
      a compare-and-swap on the standby's volume ([tick_compares_and_swaps]); over
      whole runs of two nodes ([pair_step]) the standby refines a lagging copy
      and claims a snapshot only when it has it ([replica_lags]); a tick that reaches the standby catches up
      ([replication_keeps_up]).
    - AgentHttp.v: [http.rs] and [podcidr.rs] of the agent: the router and every
      handler, served by the worker.
    - Registration.v: [registration.rs]: registering, heartbeats, the routes to the
      other nodes.  Proxy.v: [proxy.rs], the proxied services.  Both reach the
      worker through the class [NetWorker] of Channel.v, which the agent's worker
      implements.
    - Ovh.v, Acme.v: the clients of [keel-ingress] behind the interfaces of
      Ingress.v ([ovh.rs], [instant_acme_client.rs]): signed requests to the zone,
      the account file, the DNS-01 challenge.  OvhZone.v puts the second on top of
      the first: what a request leaves in the zone.
    - HostCli.v: the implementations of the host traits that run FreeBSD's tools
      ([keel-zfs/src/cli.rs], [keel-jail/src/process.rs] and [mount_cli.rs],
      [keel-net/src/process.rs], the controllers of [nginx.rs] and [pf.rs],
      [capacity.rs]).

    ** Messages, programs and their composition

    - HttpMsg.v, HttpFraming.v: reading and writing HTTP messages on a stream that
      cuts them anywhere and may break: bounded reading, round trips.
    - CpServe.v: the connections of the control plane, and that forwarding a
      request gives exactly what the agent's handler produced.
    - Deploy.v: what the control plane schedules is accepted and recorded by the
      agent of the node, and runs on the in-memory host.
    - Keelctl.v: [keelctl/src/main.rs], and that a jail applied with it runs.
      CpServe.v has what its commands do at a control plane.
    - Tls.v: the three [tls.rs]: certificates, keys, authorities and revocation
      lists made into configurations, and reloaded while the daemons run.
    - Executables.v: the two [main.rs] and the packet filter loop; every state of a
      control plane started from an accepted command line is safe, and a restarted
      agent resumes.
    - Cluster.v: the control plane and all agents as one transition system
      ([cstep]): interleaved requests, forwards that are lost or arrive late,
      registration loops that hear the control plane's own answers, crashes and
      restarts of either side.  Its invariant [cluster_ok] ties every agent's block
      and jails to its id, whatever the control plane has forgotten; from it,
      that nodes share no address, that what is scheduled runs when it arrives
      ([cluster_runs]), and that a node whose flags can be sent can join.

    ** Bounds and fuel

    No definition needs fuel beyond its data: the probing of [services_apply]
    runs over the [2^(32 - prefix)] addresses of the source's range, the scan of
    [first_free_address] over the hosts of the block, [diff_replicas] over as
    many indices as the present ones can hide; each is proved to find a result
    whenever one exists.  Theorems that need room in a counter (the u32 epair
    ordinals, the u64 tick counter, u32 replica indices) state it as a
    hypothesis.

    The reading loops of HTTP messages recurse over the stream, the list of what
    its reads return, and are shown to use at most [MAX_MESSAGE_BYTES] of it;
    the loops of the daemons are functions of one iteration.

    ** Not modelled

    Copying the bytes of a relayed connection, sockets, TLS sessions, and the
    files that only declare modules.  rustls, the ACME library, SHA-1, JSON and
    HTTPS transport are parameters ([Rustls], [AcmeServer], the environment
    [Outside]), with no laws but, where a theorem needs it, that an account written
    as JSON reads back and, in OvhZone.v, what the API's documentation says of its
    calls.  The accept loops spawn one thread per connection and are
    the acceptance rule of the transition systems.  In Cluster.v the networks of a
    node are those of the in-memory host, and the nodes' disks stay readable across
    restarts; a node's proxy and replication connections are not part of its
    steps, and its ZFS may change arbitrarily between them.  Replication is followed
    between two nodes (ReplicaData.v): the handling of one connection is one step
    there, as is one command of the agent.  The published state of a zone and its
    caches are not modelled, only its records.  What is left
    unmodelled is glue: the listeners and their threads, the byte copying of proxied
    connections, and the second and third copies of code that the repository
    repeats (the TLS variants of the agent's reading loops).

    ** What the theorems show beyond correctness

    Some theorems state behaviour that is likely unintended: a service network
    of prefix length zero stops the worker
    ([zero_service_network_kills_worker]); a deleted service can leave its name
    blocked ([deleted_service_name_blocked]);
    a second re-pin drops a pending fence ([force_repin_forgets_fence]); two
    overlapping passes can assign one address twice
    ([concurrent_apply_duplicates_address]); an IPv6 address puts the agent in a
    crash loop ([ipv6_apply_crash_loop]); the backoff cap is never reached
    ([backoff_discipline]); replication neither resumes after a lost base
    ([replication_never_resyncs]), which one broken stream is enough for
    ([broken_stream_ends_replication]), nor after a jail is applied again
    ([replication_loop_once]); the longest service names are accepted and never
    run ([long_service_never_runs]); a moved node keeps its old gateway
    ([moved_peer_keeps_old_gateway]); a failed bind leaks an alias
    ([unbound_alias_leaks]); a huge [Content-Length] panics its connection
    ([content_length_overflow_panics]); a blank in a mount path defeats the mount
    check ([blank_mount_path_never_mounted]); a restart of the control plane can
    give one block to two nodes ([restart_shares_block]); a failed challenge
    leaves its record in the zone ([failed_challenge_leaves_record]) and an account
    file that cannot be read is replaced ([unreadable_account_replaced]); a standby
    keeps every snapshot it received ([replication_keeps_up]) and a replicated volume
    cannot be deleted ([delete_volume_refused]). *)

From Stdlib Require Export Ascii Lia ZifyBool ZifyN ZifyNat.
From stdpp Require Export base tactics option list list_numbers numbers gmap sorting strings.

#[global] Set Default Goal Selector "!".

(** ** Rust results and panics

    [result E A] is Rust's [Result<A, E>].  [comp A] is a computation that
    either returns or panics (an [assert!], an [expect] on an error, an
    arithmetic overflow, a shift by the width of the type). *)

Inductive result (E A : Type) : Type :=
  | Ok (a : A)
  | Err (e : E).
Arguments Ok {E A} a.
Arguments Err {E A} e.

Inductive comp (A : Type) : Type :=
  | Val (a : A)
  | Panic.
Arguments Val {A} a.
Arguments Panic {A}.

#[global] Instance result_ret {E} : MRet (result E) := fun _ a => Ok a.
#[global] Instance result_bind {E} : MBind (result E) := fun _ _ f m =>
  match m with Ok a => f a | Err e => Err e end.
#[global] Instance result_fmap {E} : FMap (result E) := fun _ _ f m =>
  match m with Ok a => Ok (f a) | Err e => Err e end.
#[global] Instance result_eq_dec {E A} `{EqDecision E, EqDecision A} :
  EqDecision (result E A).
Proof. solve_decision. Defined.

#[global] Instance comp_ret : MRet comp := fun _ a => Val a.
#[global] Instance comp_bind : MBind comp := fun _ _ f m =>
  match m with Val a => f a | Panic => Panic end.

(** [map_err], [ok] and [is_ok] of [Result], [ok_or] of [Option]. *)
Definition map_err {E F A} (f : E -> F) (m : result E A) : result F A :=
  match m with Ok a => Ok a | Err e => Err (f e) end.

Definition res_ok {E A} (m : result E A) : option A :=
  match m with Ok a => Some a | Err _ => None end.

Definition is_ok {E A} (m : result E A) : bool :=
  match m with Ok _ => true | Err _ => false end.

Definition ok_or {E A} (o : option A) (e : E) : result E A :=
  match o with Some a => Ok a | None => Err e end.

Definition is_some {A} (o : option A) : bool :=
  match o with Some _ => true | None => false end.

(** State, errors and panics together, for code that fails without undoing what
    it already did: the state left behind comes with both outcomes. *)
Definition stres (S E A : Type) : Type := S -> comp (result E A * S).

Definition st_ret {S E A} (a : A) : stres S E A := fun s => Val (Ok a, s).
Definition st_err {S E A} (e : E) : stres S E A := fun s => Val (Err e, s).
Definition st_bind {S E A B} (m : stres S E A) (k : A -> stres S E B) : stres S E B :=
  fun s => match m s with
           | Val (Ok a, s') => k a s'
           | Val (Err e, s') => Val (Err e, s')
           | Panic => Panic
           end.
Definition st_get {S E} : stres S E S := fun s => Val (Ok s, s).
Definition st_lift {S E A} (r : result E A) : stres S E A := fun s => Val (r, s).
Definition st_modify {S E} (f : S -> S) : stres S E unit := fun s => Val (Ok tt, f s).
(** [let _ = m;]: the outcome is dropped, the effects stay. *)
Definition st_ignore {S E A} (m : stres S E A) : stres S E unit :=
  fun s => match m s with
           | Val (_, s') => Val (Ok tt, s')
           | Panic => Panic
           end.
(** A [match] that accepts some errors as success. *)
Definition st_tolerate {S E A} (ok : E -> bool) (m : stres S E A) : stres S E unit :=
  fun s => match m s with
           | Val (Ok _, s') => Val (Ok tt, s')
           | Val (Err e, s') => Val (if ok e then Ok tt else Err e, s')
           | Panic => Panic
           end.
(** A [for] loop whose body may fail. *)
Fixpoint st_for {S E A} (l : list A) (f : A -> stres S E unit) : stres S E unit :=
  match l with
  | [] => st_ret tt
  | x :: l => st_bind (f x) (fun _ => st_for l f)
  end.

Declare Scope keel_scope.
Delimit Scope keel_scope with keel.
Notation "x <-! c ;; k" := (st_bind c (fun x => k))
  (at level 100, c at next level, right associativity) : keel_scope.
Notation "c ;;! k" := (st_bind c (fun _ => k))
  (at level 100, right associativity) : keel_scope.

(** ** Machine integers *)

Definition u16_max : N := 65535.
Definition u32_max : N := 4294967295.
Definition u64_max : N := 18446744073709551615.

(** [wrapping_*] on u32, and the checked forms of [+] and [*] that panic. *)
Definition wrap32 (n : N) : N := n mod 4294967296.

Definition add_u32 (a b : N) : comp N :=
  if (a + b <=? u32_max)%N then Val (a + b)%N else Panic.
Definition mul_u32 (a b : N) : comp N :=
  if (a * b <=? u32_max)%N then Val (a * b)%N else Panic.
(** [1u32 << n]: panics for a shift of 32 or more. *)
Definition shl1_u32 (n : N) : comp N :=
  if (n <? 32)%N then Val (2 ^ n)%N else Panic.

Definition checked_mul_u64 (a b : N) : option N :=
  if (a * b <=? u64_max)%N then Some (a * b)%N else None.

(** ** Iteration over a hash map

    The iteration order of a [HashMap] is unspecified.  Every definition that
    iterates over one takes the order from this class, whose only law is that
    the iteration yields each entry exactly once; theorems hold for every
    instance. *)
Class HashOrder : Type := {
  hash_iter : forall {V : Type}, gmap string V -> list (string * V);
  hash_iter_perm : forall {V : Type} (m : gmap string V),
    hash_iter m ≡ₚ map_to_list m
}.

(** A concrete order, used to evaluate the model; it is no instance, so that
    no definition picks it up by accident. *)
Definition list_order : HashOrder := {|
  hash_iter V m := map_to_list m;
  hash_iter_perm V m := reflexivity _
|}.

(** ** Automation *)

Create HintDb keel.


(** Case analysis on every [match] and boolean test of the goal or of a
    hypothesis, closing contradictory branches. *)
Ltac split_match :=
  repeat (case_match; simplify_eq/=; try done).
Ltac split_match_in H :=
  repeat (match type of H with
          | context [match ?x with _ => _ end] => destruct x eqn:?
          end; simplify_eq/=; try done).

Ltac bool_to_prop :=
  repeat match goal with
  | H : (_ && _) = true |- _ => apply andb_true_iff in H as [? ?]
  | H : (_ || _) = false |- _ => apply orb_false_iff in H as [? ?]
  | H : negb _ = true |- _ => apply negb_true_iff in H
  | H : negb _ = false |- _ => apply negb_false_iff in H
  | H : (_ <=? _)%N = true |- _ => apply N.leb_le in H
  | H : (_ <=? _)%N = false |- _ => apply N.leb_gt in H
  | H : (_ <? _)%N = true |- _ => apply N.ltb_lt in H
  | H : (_ <? _)%N = false |- _ => apply N.ltb_ge in H
  | H : (_ =? _)%N = true |- _ => apply N.eqb_eq in H
  | H : (_ =? _)%N = false |- _ => apply N.eqb_neq in H
  | H : (_ <=? _)%nat = true |- _ => apply Nat.leb_le in H
  | H : (_ <=? _)%nat = false |- _ => apply Nat.leb_gt in H
  | H : (_ <? _)%nat = true |- _ => apply Nat.ltb_lt in H
  | H : (_ <? _)%nat = false |- _ => apply Nat.ltb_ge in H
  | H : (_ =? _)%string = true |- _ => apply String.eqb_eq in H
  | H : (_ =? _)%string = false |- _ => apply String.eqb_neq in H
  | H : bool_decide _ = true |- _ => apply bool_decide_eq_true in H
  | H : bool_decide _ = false |- _ => apply bool_decide_eq_false in H
  end.

(** ** Integers *)

Lemma N_sub_mod a b : (b <> 0)%N -> (a - a mod b = b * (a / b))%N.
Proof.
  intros Hb. pose proof (N.div_mod a b Hb) as H. revert H.
  generalize (a mod b)%N (a / b)%N. intros r q. lia.
Qed.

Lemma shl1_u32_Val n : (n < 32)%N -> shl1_u32 n = Val (2 ^ n)%N.
Proof. intros H. unfold shl1_u32. by rewrite (proj2 (N.ltb_lt _ _) H). Qed.

Lemma add_u32_Val a b : (a + b <= u32_max)%N -> add_u32 a b = Val (a + b)%N.
Proof. intros H. unfold add_u32. by rewrite (proj2 (N.leb_le _ _) H). Qed.

Lemma mul_u32_Val a b : (a * b <= u32_max)%N -> mul_u32 a b = Val (a * b)%N.
Proof. intros H. unfold mul_u32. by rewrite (proj2 (N.leb_le _ _) H). Qed.

(** ** Results, options and lists *)

Lemma Val_bind {A B} (a : A) (f : A -> comp B) : (Val a ≫= f) = f a.
Proof. done. Qed.

Lemma Ok_bind {E A B} (a : A) (f : A -> result E B) : (Ok a ≫= f) = f a.
Proof. done. Qed.

Lemma bind_Ok {E A B} (m : result E A) (f : A -> result E B) b :
  (m ≫= f) = Ok b <-> exists a, m = Ok a /\ f a = Ok b.
Proof. destruct m; cbn; naive_solver. Qed.

Lemma bind_Val {A B} (m : comp A) (f : A -> comp B) b :
  (m ≫= f) = Val b <-> exists a, m = Val a /\ f a = Val b.
Proof. destruct m; cbn; naive_solver. Qed.

Lemma is_ok_true {E A} (m : result E A) : is_ok m = true <-> exists a, m = Ok a.
Proof. destruct m; cbn; naive_solver. Qed.

Lemma is_some_true {A} (o : option A) : is_some o = true <-> is_Some o.
Proof. destruct o; cbn; unfold is_Some; naive_solver. Qed.

Lemma is_some_false {A} (o : option A) : is_some o = false <-> o = None.
Proof. destruct o; cbn; naive_solver. Qed.

Section hash_iter_facts.
Context {HO : HashOrder}.
Context {V : Type}.
Implicit Types m : gmap string V.

Lemma elem_of_hash_iter m k v : (k, v) ∈ hash_iter m <-> m !! k = Some v.
Proof. rewrite hash_iter_perm. apply elem_of_map_to_list. Qed.

Lemma NoDup_hash_iter m : NoDup (hash_iter m).
Proof. rewrite hash_iter_perm. apply NoDup_map_to_list. Qed.

Lemma NoDup_fst_hash_iter m : NoDup (hash_iter m).*1.
Proof. rewrite hash_iter_perm. apply NoDup_fst_map_to_list. Qed.
End hash_iter_facts.
#[global] Hint Resolve NoDup_hash_iter NoDup_fst_hash_iter : keel.

(** ** Stateful code

    [preserves R m]: every run of [m] that returns relates the state before to
    the state after by the preorder [R], whatever its outcome.  The lemmas
    follow the shape of the code, so that [preserves_auto] reduces a handler
    to its primitive calls. *)
Definition preserves {S E A} (R : relation S) (m : stres S E A) : Prop :=
  forall s r s', m s = Val (r, s') -> R s s'.

Section preserves_facts.
Context {S E : Type} (R : relation S) `{HR : !PreOrder R}.

Lemma preserves_ret {A} (a : A) : preserves R (st_ret (E := E) a).
Proof. by intros s r s' [= <- <-]. Qed.

Lemma preserves_err {A} (e : E) : preserves R (st_err (A := A) e).
Proof. by intros s r s' [= <- <-]. Qed.

Lemma preserves_get : preserves R (st_get (E := E)).
Proof. by intros s r s' [= <- <-]. Qed.

Lemma preserves_lift {A} (x : result E A) : preserves R (st_lift x).
Proof. by intros s r s' [= <- <-]. Qed.

Lemma preserves_bind {A B} (m : stres S E A) (k : A -> stres S E B) :
  preserves R m -> (forall a, preserves R (k a)) -> preserves R (st_bind m k).
Proof.
  intros Hm Hk s r s'. unfold st_bind. destruct (m s) as [[[a|e] s1]|] eqn:E1; [| |done].
  - intros H. transitivity s1; [by eapply Hm|by eapply Hk].
  - intros [= <- <-]. by eapply Hm.
Qed.

Lemma preserves_ignore {A} (m : stres S E A) : preserves R m -> preserves R (st_ignore m).
Proof.
  intros Hm s r s'. unfold st_ignore. destruct (m s) as [[x s1]|] eqn:E1; [|done].
  intros [= <- <-]. by eapply Hm.
Qed.

Lemma preserves_tolerate {A} ok (m : stres S E A) :
  preserves R m -> preserves R (st_tolerate ok m).
Proof.
  intros Hm s r s'. unfold st_tolerate.
  destruct (m s) as [[[x|e] s1]|] eqn:E1; [| |done]; intros [= <- <-]; by eapply Hm.
Qed.

Lemma preserves_for {A} (l : list A) (f : A -> stres S E unit) :
  (forall x, preserves R (f x)) -> preserves R (st_for l f).
Proof.
  intros Hf. induction l as [|x l IH]; cbn; [apply preserves_ret|].
  apply preserves_bind; [done|]. by intros _.
Qed.
End preserves_facts.
#[global] Hint Resolve preserves_ret preserves_err preserves_get preserves_lift : keel.

Ltac preserves_auto :=
  repeat first
    [ solve [eauto with keel typeclass_instances nocore]
    | apply preserves_bind; [typeclasses eauto| |intros ?]
    | apply preserves_ignore
    | apply preserves_tolerate
    | apply preserves_for; [typeclasses eauto|intros ?]
    | case_match ].

Lemma st_bind_Ok {S E A B} (m : stres S E A) (k : A -> stres S E B) s a s1 :
  m s = Val (Ok a, s1) -> st_bind m k s = k a s1.
Proof. intros E1. unfold st_bind. by rewrite E1. Qed.

Lemma st_bind_Err {S E A B} (m : stres S E A) (k : A -> stres S E B) s e s1 :
  m s = Val (Err e, s1) -> st_bind m k s = Val (Err e, s1).
Proof. intros E1. unfold st_bind. by rewrite E1. Qed.

Lemma st_bind_Panic {S E A B} (m : stres S E A) (k : A -> stres S E B) s :
  m s = Panic -> st_bind m k s = Panic.
Proof. intros E1. unfold st_bind. by rewrite E1. Qed.

(** [no_panic m]: [m] returns, with a value or an error, from every state. *)
Definition no_panic {S E A} (m : stres S E A) : Prop := forall s, m s <> Panic.

Section no_panic_facts.
Context {S E : Type}.

Lemma no_panic_ret {A} (a : A) : no_panic (S := S) (E := E) (st_ret a).
Proof. done. Qed.
Lemma no_panic_err {A} (e : E) : no_panic (S := S) (A := A) (st_err e).
Proof. done. Qed.
Lemma no_panic_get : no_panic (S := S) (E := E) st_get.
Proof. done. Qed.
Lemma no_panic_lift {A} (x : result E A) : no_panic (S := S) (st_lift x).
Proof. done. Qed.
Lemma no_panic_modify (f : S -> S) : no_panic (E := E) (st_modify f).
Proof. done. Qed.

Lemma no_panic_bind {A B} (m : stres S E A) (k : A -> stres S E B) :
  no_panic m -> (forall a, no_panic (k a)) -> no_panic (st_bind m k).
Proof.
  intros Hm Hk s. unfold st_bind. pose proof (Hm s). destruct (m s) as [[[]]|]; [apply Hk|done|done].
Qed.

Lemma no_panic_ignore {A} (m : stres S E A) : no_panic m -> no_panic (st_ignore m).
Proof. intros Hm s. unfold st_ignore. pose proof (Hm s). by destruct (m s) as [[]|]. Qed.

Lemma no_panic_tolerate {A} ok (m : stres S E A) : no_panic m -> no_panic (st_tolerate ok m).
Proof. intros Hm s. unfold st_tolerate. pose proof (Hm s). by destruct (m s) as [[[]]|]. Qed.

Lemma no_panic_for {A} (l : list A) (f : A -> stres S E unit) :
  (forall x, no_panic (f x)) -> no_panic (st_for l f).
Proof.
  intros Hf. induction l as [|x l IH]; cbn; [done|]. apply no_panic_bind; [done|]. by intros _.
Qed.
End no_panic_facts.
#[global] Hint Resolve no_panic_ret no_panic_err no_panic_get no_panic_lift no_panic_modify : keel.

Ltac no_panic_auto :=
  repeat first
    [ solve [eauto with keel nocore]
    | apply no_panic_bind; [|intros ?]
    | apply no_panic_ignore
    | apply no_panic_tolerate
    | apply no_panic_for; intros ?
    | case_match ].
