(* ===== verification/RustStr.v ===== *)
(** * Rust strings

    A Rust [&str]/[String] is a byte sequence; it is modelled by [string],
    whose characters are bytes.  This file models the [str] methods the
    sources use (ASCII classification, [strip_prefix], [split], [split_once],
    [rsplit_once], [trim_start_matches], [parse::<u32/u64>], [to_string] of an
    unsigned integer) and proves the facts the components share. *)

From Stdlib Require Import DecimalString DecimalN DecimalFacts.
From S2P Require Import Prelude.


(** ** Character classes *)

Definition code (c : ascii) : N := N_of_ascii c.

Definition is_ascii_lowercase (c : ascii) : bool :=
  (97 <=? code c)%N && (code c <=? 122)%N.
Definition is_ascii_uppercase (c : ascii) : bool :=
  (65 <=? code c)%N && (code c <=? 90)%N.
Definition is_ascii_digit (c : ascii) : bool :=
  (48 <=? code c)%N && (code c <=? 57)%N.
Definition is_ascii_alphanumeric (c : ascii) : bool :=
  is_ascii_lowercase c || is_ascii_uppercase c || is_ascii_digit c.

Definition ascii_upper (c : ascii) : ascii :=
  if is_ascii_lowercase c then ascii_of_N (code c - 32) else c.

Definition ascii_eqb (a b : ascii) : bool := bool_decide (a = b).

(** ** Traversals *)

Fixpoint str_all (p : ascii -> bool) (s : string) : bool :=
  match s with
  | EmptyString => true
  | String c s => p c && str_all p s
  end.

Fixpoint str_any (p : ascii -> bool) (s : string) : bool :=
  match s with
  | EmptyString => false
  | String c s => p c || str_any p s
  end.

Definition str_is_empty (s : string) : bool :=
  match s with EmptyString => true | _ => false end.

Definition str_first (s : string) : option ascii :=
  match s with EmptyString => None | String c _ => Some c end.

Fixpoint str_last (s : string) : option ascii :=
  match s with
  | EmptyString => None
  | String c EmptyString => Some c
  | String _ s => str_last s
  end.

Definition contains_char (c : ascii) : string -> bool := str_any (ascii_eqb c).

Fixpoint to_ascii_uppercase (s : string) : string :=
  match s with
  | EmptyString => EmptyString
  | String c s => String (ascii_upper c) (to_ascii_uppercase s)
  end.

Fixpoint strip_prefix (p s : string) : option string :=
  match p, s with
  | EmptyString, _ => Some s
  | String a p, String b s => if ascii_eqb a b then strip_prefix p s else None
  | String _ _, EmptyString => None
  end.

(** [strip_suffix] with a one-character pattern. *)
Fixpoint strip_suffix_char (a : ascii) (s : string) : option string :=
  match s with
  | EmptyString => None
  | String c EmptyString => if ascii_eqb a c then Some EmptyString else None
  | String c s =>
      match strip_suffix_char a s with
      | Some r => Some (String c r)
      | None => None
      end
  end.

Fixpoint split (a : ascii) (s : string) : list string :=
  match s with
  | EmptyString => [EmptyString]
  | String c s =>
      if ascii_eqb a c then EmptyString :: split a s
      else match split a s with
           | [] => [String c EmptyString]
           | w :: ws => String c w :: ws
           end
  end.

Fixpoint split_once (a : ascii) (s : string) : option (string * string) :=
  match s with
  | EmptyString => None
  | String c s =>
      if ascii_eqb a c then Some (EmptyString, s)
      else match split_once a s with
           | Some (l, r) => Some (String c l, r)
           | None => None
           end
  end.

Fixpoint rsplit_once (a : ascii) (s : string) : option (string * string) :=
  match s with
  | EmptyString => None
  | String c s =>
      match rsplit_once a s with
      | Some (l, r) => Some (String c l, r)
      | None => if ascii_eqb a c then Some (EmptyString, s) else None
      end
  end.

Fixpoint trim_start_matches (a : ascii) (s : string) : string :=
  match s with
  | EmptyString => EmptyString
  | String c s' => if ascii_eqb a c then trim_start_matches a s' else s
  end.

(** ** Unsigned integers *)

Definition u_to_string (n : N) : string := NilZero.string_of_uint (N.to_uint n).

Definition parse_digits (s : string) : option N :=
  match s with
  | EmptyString => None
  | _ => N.of_uint <$> NilEmpty.uint_of_string s
  end.

(** [str::parse] at an unsigned type whose largest value is [max]: an optional
    leading [+], at least one digit, no overflow. *)
Definition parse_uint (max : N) (s : string) : option N :=
  let digits := match s with
                | String "+"%char rest => rest
                | _ => s
                end in
  n ← parse_digits digits;
  if (n <=? max)%N then Some n else None.

(** ** Append *)

Lemma app_nil_l_str s : EmptyString +:+ s = s.
Proof. done. Qed.

Lemma app_cons_str c s t : String c s +:+ t = String c (s +:+ t).
Proof. done. Qed.
#[global] Hint Rewrite app_nil_l_str app_cons_str : keel_str.
Ltac str_simpl := cbn; autorewrite with keel_str in *; cbn.

Lemma app_nil_r_str s : s +:+ EmptyString = s.
Proof. induction s as [|c s IH]; str_simpl; [done | by rewrite IH]. Qed.

Lemma app_assoc_str s t u : s +:+ (t +:+ u) = (s +:+ t) +:+ u.
Proof. induction s as [|c s IH]; str_simpl; [done | by rewrite IH]. Qed.

Lemma length_app_str s t :
  String.length (s +:+ t) = (String.length s + String.length t)%nat.
Proof. induction s as [|c s IH]; str_simpl; [done | by rewrite IH]. Qed.

Lemma strip_prefix_Some p s r : strip_prefix p s = Some r <-> s = p +:+ r.
Proof.
  revert s; induction p as [|a p IH]; intros s; str_simpl.
  - naive_solver.
  - destruct s as [|b s]; [naive_solver|].
    unfold ascii_eqb; case_bool_decide; subst.
    + rewrite IH. naive_solver.
    + naive_solver.
Qed.

Lemma strip_prefix_app p r : strip_prefix p (p +:+ r) = Some r.
Proof. by apply strip_prefix_Some. Qed.

Lemma str_all_app p s t : str_all p (s +:+ t) = str_all p s && str_all p t.
Proof. induction s as [|c s IH]; str_simpl; [done|]. by rewrite IH, andb_assoc. Qed.

Lemma str_last_app s c t : str_last (s +:+ String c t) = str_last (String c t).
Proof.
  induction s as [|a s IH]; str_simpl; [done|].
  destruct (s +:+ String c t) eqn:E; [by destruct s | exact IH].
Qed.

Lemma str_first_app s t :
  str_first (s +:+ t) = match s with EmptyString => str_first t | String c _ => Some c end.
Proof. by destruct s. Qed.

Lemma trim_start_matches_idem a s :
  trim_start_matches a (trim_start_matches a s) = trim_start_matches a s.
Proof.
  induction s as [|c s IH]; cbn; [done|].
  unfold ascii_eqb; case_bool_decide; [done|].
  cbn. unfold ascii_eqb. by rewrite bool_decide_eq_false_2.
Qed.

(** The text after the last separator determines the split: two strings
    [s ++ a :: d] with no separator in [d] agree on both parts. *)
Lemma app_sep_inj a s1 d1 s2 d2 :
  contains_char a d1 = false -> contains_char a d2 = false ->
  s1 +:+ String a d1 = s2 +:+ String a d2 -> s1 = s2 /\ d1 = d2.
Proof.
  unfold contains_char. intros H1 H2. revert s2.
  induction s1 as [|c s1 IH]; intros [|e s2]; str_simpl; intros [=].
  - done.
  - subst. exfalso. revert H1. clear. induction s2; str_simpl.
    + unfold ascii_eqb. by rewrite bool_decide_eq_true_2.
    + intros [? ?]%orb_false_iff. auto.
  - subst. exfalso. revert H2. clear. induction s1; str_simpl.
    + unfold ascii_eqb. by rewrite bool_decide_eq_true_2.
    + intros [? ?]%orb_false_iff. auto.
  - subst. destruct (IH s2) as [-> ->]; done.
Qed.

(** The text before the first separator is read back. *)
Lemma sep_first_inj c a1 r1 a2 r2 :
  contains_char c a1 = false -> contains_char c a2 = false ->
  a1 +:+ String c r1 = a2 +:+ String c r2 -> a1 = a2 /\ r1 = r2.
Proof.
  unfold contains_char. revert a2. induction a1 as [|x a1 IH]; intros [|y a2] H1 H2; str_simpl; intros [=]; subst.
  - done.
  - cbn in H2. apply orb_false_iff in H2 as [H2 _]. unfold ascii_eqb in H2. by rewrite bool_decide_eq_true_2 in H2.
  - cbn in H1. apply orb_false_iff in H1 as [H1 _]. unfold ascii_eqb in H1. by rewrite bool_decide_eq_true_2 in H1.
  - cbn in H1, H2. apply orb_false_iff in H1 as [_ H1], H2 as [_ H2]. by edestruct IH as [-> ->].
Qed.

Lemma app_inv_l_str a s t : a +:+ s = a +:+ t -> s = t.
Proof. induction a as [|c a IH]; str_simpl; [done|]. intros [= H]. by apply IH. Qed.

Lemma split_once_Some a s l r :
  split_once a s = Some (l, r) <-> s = l +:+ String a r /\ contains_char a l = false.
Proof.
  revert l. induction s as [|c s IH]; intros l; cbn.
  - destruct l; naive_solver.
  - unfold ascii_eqb at 1; case_bool_decide as Hc; subst.
    + split; [by intros [= <- <-]|].
      intros [Heq Hl]. destruct l as [|b l]; autorewrite with keel_str in *; cbn in *; [naive_solver|].
      injection Heq as <- ->. unfold contains_char in Hl. cbn in Hl.
      unfold ascii_eqb in Hl. by rewrite bool_decide_eq_true_2 in Hl.
    + destruct (split_once a s) as [[l' r']|] eqn:E.
      * split.
        -- intros [= <- <-]. destruct (proj1 (IH l') eq_refl) as [-> Hl'].
           split; [done|]. unfold contains_char in *; cbn. rewrite Hl'.
           unfold ascii_eqb. by rewrite bool_decide_eq_false_2.
        -- intros [Heq Hl]. destruct l as [|b l]; autorewrite with keel_str in *; cbn in *; [naive_solver|].
           injection Heq as <- Heq. unfold contains_char in Hl; cbn in Hl.
           apply orb_false_iff in Hl as [_ Hl].
           assert (Some (l', r') = Some (l, r)) as [= -> ->]; [|done].
           by apply IH.
      * split; [done|]. intros [Heq Hl].
        destruct l as [|b l]; autorewrite with keel_str in *; cbn in *; [naive_solver|].
        injection Heq as <- Heq. unfold contains_char in Hl; cbn in Hl.
        apply orb_false_iff in Hl as [_ Hl].
        assert (None = Some (l, r)); [by apply IH | done].
Qed.

Lemma split_no_sep a s : contains_char a s = false -> split a s = [s].
Proof.
  unfold contains_char. induction s as [|c s IH]; cbn; [done|].
  intros [Hc Hs]%orb_false_iff. by rewrite Hc, IH.
Qed.

Lemma split_cons_sep a s r :
  contains_char a s = false -> split a (s +:+ String a r) = s :: split a r.
Proof.
  unfold contains_char. induction s as [|c s IH]; str_simpl.
  - unfold ascii_eqb. by rewrite bool_decide_eq_true_2.
  - intros [Hc Hs]%orb_false_iff. by rewrite Hc, IH.
Qed.

(** ** Printing and parsing unsigned integers *)

Lemma string_of_uint_digits d : str_all is_ascii_digit (NilEmpty.string_of_uint d) = true.
Proof. induction d; cbn; auto. Qed.

Lemma str_any_app p s t : str_any p (s +:+ t) = str_any p s || str_any p t.
Proof. induction s as [|c s IH]; autorewrite with keel_str; cbn; [done|]. by rewrite IH, orb_assoc. Qed.

Lemma str_all_impl (p q : ascii -> bool) s :
  (forall c, p c = true -> q c = true) -> str_all p s = true -> str_all q s = true.
Proof.
  intros H. induction s as [|c s IH]; [done|]. cbn. intros [Hp Hs]%andb_true_iff.
  by rewrite (H c Hp), IH.
Qed.

Lemma contains_char_app a s t :
  contains_char a (s +:+ t) = contains_char a s || contains_char a t.
Proof. apply str_any_app. Qed.

Lemma str_all_no_char (p : ascii -> bool) a s : p a = false -> str_all p s = true -> contains_char a s = false.
Proof.
  intros Ha. unfold contains_char. induction s as [|c s IH]; cbn; [done|].
  intros [Hc Hs]%andb_true_iff. rewrite IH by done. rewrite orb_false_r. unfold ascii_eqb.
  apply bool_decide_eq_false_2. intros <-. congruence.
Qed.

Lemma digits_no_char a s :
  is_ascii_digit a = false -> str_all is_ascii_digit s = true -> contains_char a s = false.
Proof. apply str_all_no_char. Qed.

Lemma to_uint_nonnil n : N.to_uint n <> Decimal.Nil.
Proof.
  intros H. pose proof (Unsigned.to_of (N.to_uint n)) as Hto.
  rewrite Unsigned.of_to in Hto. rewrite Hto in H. by eapply unorm_nonnil.
Qed.

Lemma u_to_string_uint n : u_to_string n = NilEmpty.string_of_uint (N.to_uint n).
Proof.
  unfold u_to_string, NilZero.string_of_uint.
  pose proof (to_uint_nonnil n). by destruct (N.to_uint n).
Qed.

Lemma u_to_string_digits n : str_all is_ascii_digit (u_to_string n) = true.
Proof. rewrite u_to_string_uint. apply string_of_uint_digits. Qed.

Lemma u_to_string_nonempty n : u_to_string n <> EmptyString.
Proof.
  rewrite u_to_string_uint. pose proof (to_uint_nonnil n). by destruct (N.to_uint n).
Qed.

Lemma nb_digits_double d :
  (Decimal.nb_digits (Decimal.Little.double d) <= S (Decimal.nb_digits d))%nat /\
  (Decimal.nb_digits (Decimal.Little.succ_double d) <= S (Decimal.nb_digits d))%nat.
Proof. induction d; cbn; lia. Qed.

Lemma nb_digits_to_little_uint p :
  (Decimal.nb_digits (Pos.to_little_uint p) <= Pos.size_nat p)%nat.
Proof.
  induction p as [p IH|p IH|]; cbn; [| |lia];
    pose proof (nb_digits_double (Pos.to_little_uint p)); lia.
Qed.

Lemma size_nat_bound p k : (N.pos p < 2 ^ N.of_nat k)%N -> (Pos.size_nat p <= k)%nat.
Proof.
  revert k. induction p as [p IH|p IH|]; intros k Hp; (destruct k as [|k]; [cbn in Hp; lia|]);
    cbn [Pos.size_nat]; [| |lia];
    rewrite Nat2N.inj_succ, N.pow_succ_r' in Hp; apply le_n_S, IH; lia.
Qed.

Lemma u_to_string_length n : (String.length (u_to_string n) <= S (N.size_nat n))%nat.
Proof.
  rewrite u_to_string_uint.
  assert (forall d, String.length (NilEmpty.string_of_uint d) = Decimal.nb_digits d) as ->
    by (induction d; cbn; auto).
  destruct n as [|p]; cbn; [lia|]. unfold Pos.to_uint. rewrite nb_digits_rev.
  pose proof (nb_digits_to_little_uint p). lia.
Qed.

Lemma u64_to_string_length n :
  (n <= u64_max)%N -> (String.length (u_to_string n) <= 65)%nat.
Proof.
  intros Hn. etransitivity; [apply u_to_string_length|]. apply le_n_S.
  destruct n as [|p]; [apply Nat.le_0_l|]. apply size_nat_bound.
  eapply N.le_lt_trans; [exact Hn|]. reflexivity.
Qed.

Lemma u_to_string_no_dash n : contains_char "-"%char (u_to_string n) = false.
Proof. apply digits_no_char; [reflexivity | apply u_to_string_digits]. Qed.

Lemma parse_digits_u_to_string n : parse_digits (u_to_string n) = Some n.
Proof.
  unfold parse_digits. destruct (u_to_string n) as [|c s] eqn:E.
  - by apply u_to_string_nonempty in E.
  - rewrite <-E, u_to_string_uint, NilEmpty.usu. cbn. by rewrite Unsigned.of_to.
Qed.

Lemma parse_uint_no_plus max s :
  str_first s <> Some "+"%char ->
  parse_uint max s = (n ← parse_digits s; if (n <=? max)%N then Some n else None).
Proof.
  intros Hs. unfold parse_uint. destruct s as [|c s]; [done|]. cbn in Hs.
  destruct c as [[] [] [] [] [] [] [] []]; done.
Qed.

Lemma u_to_string_no_plus n : str_first (u_to_string n) <> Some "+"%char.
Proof.
  pose proof (u_to_string_digits n) as H. destruct (u_to_string n) as [|c s]; [done|].
  cbn in *. intros [= ->]. done.
Qed.

Lemma parse_uint_u_to_string max n :
  (n <= max)%N -> parse_uint max (u_to_string n) = Some n.
Proof.
  intros Hn. rewrite parse_uint_no_plus by apply u_to_string_no_plus.
  rewrite parse_digits_u_to_string. cbn. apply N.leb_le in Hn. by rewrite Hn.
Qed.

Lemma parse_uint_bound max s n : parse_uint max s = Some n -> (n <= max)%N.
Proof.
  unfold parse_uint. intros H. apply bind_Some in H as (m & _ & H).
  destruct (m <=? max)%N eqn:E; [|done]. bool_to_prop. by simplify_eq.
Qed.

Lemma u_to_string_inj n m : u_to_string n = u_to_string m -> n = m.
Proof.
  intros H. apply (f_equal parse_digits) in H.
  rewrite !parse_digits_u_to_string in H. by simplify_eq.
Qed.
#[global] Instance u_to_string_Inj : Inj (=) (=) u_to_string := u_to_string_inj.

(** ** [sort_by] on a string key

    [Vec::sort_by] with [a.key.cmp(&b.key)]: a stable sort by the bytes of the
    key. *)

Definition key_le {A} (key : A -> string) (a b : A) : Prop := String.le (key a) (key b).
#[global] Instance key_le_dec {A} (key : A -> string) a b : Decision (key_le key a b).
Proof. unfold key_le. apply _. Defined.
#[global] Instance key_le_total {A} (key : A -> string) : Total (key_le key).
Proof. intros a b. unfold key_le. apply (total String.le). Qed.
#[global] Instance key_le_trans {A} (key : A -> string) : Transitive (key_le key).
Proof. intros a b c. unfold key_le. apply transitivity. Qed.

Definition sort_by_key {A} (key : A -> string) (l : list A) : list A :=
  merge_sort (key_le key) l.

Lemma sort_by_key_perm {A} (key : A -> string) l : sort_by_key key l ≡ₚ l.
Proof. apply merge_sort_Permutation. Qed.

Lemma elem_of_sort_by_key {A} (key : A -> string) l x : x ∈ sort_by_key key l <-> x ∈ l.
Proof. by rewrite sort_by_key_perm. Qed.

Lemma sort_by_key_sorted {A} (key : A -> string) l :
  StronglySorted (key_le key) (sort_by_key key l).
Proof. apply Sorted_StronglySorted; [apply _|]. apply Sorted_merge_sort, _. Qed.

Lemma NoDup_fmap_inj_elem {A B} (f : A -> B) l x y :
  NoDup (f <$> l) -> x ∈ l -> y ∈ l -> f x = f y -> x = y.
Proof.
  intros Hnd [i Hi]%list_elem_of_lookup [j Hj]%list_elem_of_lookup Hf.
  assert (i = j) as ->; [|congruence].
  eapply NoDup_lookup; [exact Hnd| |]; rewrite list_lookup_fmap; [by rewrite Hi|].
  by rewrite Hj, Hf.
Qed.

(** Sorting entries with distinct keys forgets the order they came in. *)
Lemma sort_by_key_unique {A} (key : A -> string) l1 l2 :
  NoDup (key <$> l1) -> l1 ≡ₚ l2 -> sort_by_key key l1 = sort_by_key key l2.
Proof.
  intros Hnd Hp. eapply (StronglySorted_unique_strong (key_le key)).
  - intros x y Hx%elem_of_sort_by_key Hy%elem_of_sort_by_key Hxy Hyx.
    rewrite <-Hp in Hy. eapply NoDup_fmap_inj_elem; [exact Hnd|done..|].
    by apply (anti_symm String.le).
  - apply sort_by_key_sorted.
  - apply sort_by_key_sorted.
  - by rewrite !sort_by_key_perm.
Qed.

(** ** [String::from_utf8_lossy]

    Every maximal invalid part of a byte sequence is replaced by U+FFFD; valid
    text is unchanged. *)

Definition in_bytes (lo hi : N) (c : ascii) : bool := (lo <=? code c)%N && (code c <=? hi)%N.
Definition is_cont : ascii -> bool := in_bytes 128 191.

(** The second bytes allowed after the first byte of a three- or four-byte
    encoding. *)
Definition second_of_three (a b : ascii) : bool :=
  ((code a =? 224)%N && in_bytes 160 191 b)
  || (in_bytes 225 236 a && is_cont b)
  || ((code a =? 237)%N && in_bytes 128 159 b)
  || (in_bytes 238 239 a && is_cont b).
Definition second_of_four (a b : ascii) : bool :=
  ((code a =? 240)%N && in_bytes 144 191 b)
  || (in_bytes 241 243 a && is_cont b)
  || ((code a =? 244)%N && in_bytes 128 143 b).

Definition replacement (s : string) : string :=
  String (ascii_of_N 239) (String (ascii_of_N 191) (String (ascii_of_N 189) s)).

Fixpoint from_utf8_lossy (s : string) : string :=
  match s with
  | EmptyString => EmptyString
  | String a s1 =>
      if (code a <? 128)%N then String a (from_utf8_lossy s1)
      else match s1 with
      | EmptyString => replacement EmptyString
      | String b s2 =>
          if in_bytes 194 223 a && is_cont b then String a (String b (from_utf8_lossy s2))
          else if second_of_three a b then
            match s2 with
            | EmptyString => replacement EmptyString
            | String c s3 =>
                if is_cont c then String a (String b (String c (from_utf8_lossy s3)))
                else replacement (from_utf8_lossy s2)
            end
          else if second_of_four a b then
            match s2 with
            | EmptyString => replacement EmptyString
            | String c s3 =>
                if is_cont c then
                  match s3 with
                  | EmptyString => replacement EmptyString
                  | String d s4 =>
                      if is_cont d
                      then String a (String b (String c (String d (from_utf8_lossy s4))))
                      else replacement (from_utf8_lossy s3)
                  end
                else replacement (from_utf8_lossy s2)
            end
          else replacement (from_utf8_lossy s1)
      end
  end.

Lemma from_utf8_lossy_ascii s :
  str_all (fun c => (code c <? 128)%N) s = true -> from_utf8_lossy s = s.
Proof.
  induction s as [|c s IH]; cbn; [done|]. intros [Hc Hs]%andb_true_iff. rewrite Hc. by rewrite IH.
Qed.
