(* ===== verification/Text.v ===== *)
(** * More Rust strings

    The methods of [str] that text protocols and command output need:
    [trim], [lines], [split_whitespace], [contains] and [split_once] with a
    pattern of several characters, [eq_ignore_ascii_case], [from_utf8]; and
    lengths and slices of byte sequences. *)

From S2P Require Import Prelude RustStr.

(** ** Lengths and slices *)

Definition str_len (s : string) : N := N.of_nat (String.length s).

Fixpoint str_drop (n : nat) (s : string) : string :=
  match n, s with
  | O, _ => s
  | S n, String _ s => str_drop n s
  | S _, EmptyString => EmptyString
  end.

Fixpoint str_take (n : nat) (s : string) : string :=
  match n, s with
  | S n, String c s => String c (str_take n s)
  | _, _ => EmptyString
  end.

(** [&s[from..to]] of a byte sequence; the caller has checked the bounds. *)
Definition str_slice (from to : N) (s : string) : string :=
  str_take (N.to_nat to - N.to_nat from) (str_drop (N.to_nat from) s).

Lemma str_len_app s t : str_len (s +:+ t) = (str_len s + str_len t)%N.
Proof. unfold str_len. rewrite length_app_str. lia. Qed.

Lemma str_drop_app s t : str_drop (String.length s) (s +:+ t) = t.
Proof. induction s as [|c s IH]; [done|]. rewrite app_cons_str. exact IH. Qed.

Lemma str_take_app s t : str_take (String.length s) (s +:+ t) = s.
Proof. induction s as [|c s IH]; [by destruct t|]. rewrite app_cons_str. cbn. by rewrite IH. Qed.

Lemma str_take_all s : str_take (String.length s) s = s.
Proof. rewrite <- (app_nil_r_str s) at 2. apply str_take_app. Qed.

Lemma str_slice_app s t u :
  str_slice (str_len s) (str_len s + str_len t) (s +:+ t +:+ u) = t.
Proof.
  unfold str_slice, str_len. rewrite N2Nat.inj_add, !Nat2N.id, str_drop_app.
  replace (_ - _)%nat with (String.length t) by lia. apply str_take_app.
Qed.

Lemma str_len_0 s : str_len s = 0%N <-> s = EmptyString.
Proof. unfold str_len. destruct s; cbn; [done|]. split; [lia|discriminate]. Qed.

(** A byte sequence is cut anywhere by a length. *)
Lemma str_app_inv_len s t u v :
  s +:+ t = u +:+ v -> (str_len s <= str_len u)%N -> exists w, u = s +:+ w /\ t = w +:+ v.
Proof.
  unfold str_len. revert u. induction s as [|c s IH]; intros u H Hl.
  - exists u. rewrite !app_nil_l_str in *. done.
  - destruct u as [|d u]; [cbn in Hl; lia|]. rewrite !app_cons_str in H. injection H as -> H.
    destruct (IH u H) as (w & -> & ->); [cbn in Hl; lia|]. exists w. by rewrite app_cons_str.
Qed.

(** ** Patterns *)

(** [str::split_once] with a pattern of several characters. *)
Fixpoint split_once_str (pat s : string) : option (string * string) :=
  match strip_prefix pat s with
  | Some rest => Some (EmptyString, rest)
  | None =>
      match s with
      | EmptyString => None
      | String c s => '(l, r) ← split_once_str pat s; Some (String c l, r)
      end
  end.

(** [str::contains] with a string pattern. *)
Definition contains_str (pat s : string) : bool := is_some (split_once_str pat s).

Definition starts_with (pat s : string) : bool := is_some (strip_prefix pat s).

Lemma split_once_str_app pat l r :
  (forall a b, l = a +:+ b -> b <> EmptyString -> strip_prefix pat (b +:+ pat +:+ r) = None) ->
  split_once_str pat (l +:+ pat +:+ r) = Some (l, r).
Proof.
  induction l as [|c l IH]; intros H.
  - rewrite app_nil_l_str. destruct (pat +:+ r) as [|d s] eqn:E;
      cbn [split_once_str]; rewrite <-E, strip_prefix_app; done.
  - pose proof (H EmptyString (String c l) eq_refl ltac:(done)) as Hs.
    autorewrite with keel_str in *. cbn [split_once_str]. rewrite Hs, IH; [done|].
    intros a b ->. apply (H (String c a) b). done.
Qed.

Lemma split_once_str_Some pat s l r : split_once_str pat s = Some (l, r) -> s = l +:+ pat +:+ r.
Proof.
  revert l. induction s as [|c s IH]; intros l; cbn [split_once_str];
    destruct (strip_prefix pat _) as [rest|] eqn:E.
  - intros [= <- ->]. apply strip_prefix_Some in E. by rewrite app_nil_l_str.
  - done.
  - intros [= <- ->]. apply strip_prefix_Some in E. by rewrite app_nil_l_str.
  - destruct (split_once_str pat s) as [[l' r']|]; [|done]. intros [= <- ->].
    rewrite app_cons_str. by rewrite (IH l' eq_refl).
Qed.

Definition eq_ignore_ascii_case (a b : string) : bool :=
  String.eqb (to_ascii_uppercase a) (to_ascii_uppercase b).

(** [std::str::from_utf8]: text is valid when nothing has to be replaced. *)
Definition from_utf8 (s : string) : option string :=
  if String.eqb (from_utf8_lossy s) s then Some s else None.

(** ** White space

    The characters with the Unicode property White_Space have encodings of one,
    two or three bytes. *)

Definition ws1 (a : ascii) : bool := in_bytes 9 13 a || (code a =? 32)%N.
Definition ws2 (a b : ascii) : bool := (code a =? 194)%N && ((code b =? 133)%N || (code b =? 160)%N).
Definition ws3 (a b c : ascii) : bool :=
  ((code a =? 225)%N && (code b =? 154)%N && (code c =? 128)%N)
  || ((code a =? 226)%N && (code b =? 128)%N
      && (in_bytes 128 138 c || in_bytes 168 169 c || (code c =? 175)%N))
  || ((code a =? 226)%N && (code b =? 129)%N && (code c =? 159)%N)
  || ((code a =? 227)%N && (code b =? 128)%N && (code c =? 128)%N).

Fixpoint trim_start (s : string) : string :=
  match s with
  | EmptyString => EmptyString
  | String a s1 =>
      if ws1 a then trim_start s1
      else match s1 with
      | EmptyString => s
      | String b s2 =>
          if ws2 a b then trim_start s2
          else match s2 with
          | EmptyString => s
          | String c s3 => if ws3 a b c then trim_start s3 else s
          end
      end
  end.

Fixpoint trim_end (s : string) : string :=
  match s with
  | EmptyString => EmptyString
  | String c s' => if str_is_empty (trim_start s) then EmptyString else String c (trim_end s')
  end.

Definition trim (s : string) : string := trim_end (trim_start s).

(** [str::lines]: the pieces between line feeds, without a final carriage
    return each; nothing after the last line feed is no line. *)
Definition lines (s : string) : list string :=
  let pieces := split (ascii_of_N 10) s in
  let pieces := match last pieces with
                | Some EmptyString => removelast pieces
                | _ => pieces
                end in
  (fun l => default l (strip_suffix_char (ascii_of_N 13) l)) <$> pieces.

(** [str::split_whitespace]; [word] is the part of the current word read so
    far. *)
Fixpoint split_ws (word s : string) : list string :=
  let flush := if str_is_empty word then [] else [word] in
  match s with
  | EmptyString => flush
  | String a s1 =>
      let more := split_ws (word +:+ String a EmptyString) s1 in
      if ws1 a then flush ++ split_ws EmptyString s1
      else match s1 with
      | EmptyString => more
      | String b s2 =>
          if ws2 a b then flush ++ split_ws EmptyString s2
          else match s2 with
          | EmptyString => more
          | String c s3 => if ws3 a b c then flush ++ split_ws EmptyString s3 else more
          end
      end
  end.
Definition split_whitespace (s : string) : list string := split_ws EmptyString s.

(** [slice::join]. *)
Definition join (sep : string) (l : list string) : string := String.concat sep l.

Example split_whitespace_mounts :
  split_whitespace ("/dev/a" +:+ String (ascii_of_N 9) (String (ascii_of_N 9) "/mnt  ufs"))
    = ["/dev/a"; "/mnt"; "ufs"].
Proof. vm_compute. reflexivity. Qed.

Example lines_crlf :
  lines ("S" +:+ String (ascii_of_N 13) (String (ascii_of_N 10) ("Z" +:+ String (ascii_of_N 10) EmptyString)))
    = ["S"; "Z"].
Proof. vm_compute. reflexivity. Qed.

(** ** Text without white space *)

Definition visible (c : ascii) : bool := in_bytes 33 126 c.

Lemma visible_not_ws a : visible a = true -> ws1 a = false /\ (code a < 128)%N.
Proof.
  unfold visible, ws1, in_bytes. intros H. bool_to_prop.
  split; [|lia]. destruct (9 <=? code a)%N eqn:E1, (code a <=? 13)%N eqn:E2, (code a =? 32)%N eqn:E3;
    bool_to_prop; cbn; try done; lia.
Qed.

Lemma ws_lead a b c : (code a < 128)%N -> ws2 a b = false /\ ws3 a b c = false.
Proof.
  intros H. unfold ws2, ws3.
  rewrite !(proj2 (N.eqb_neq (code a) _)) by (unfold code in *; lia). done.
Qed.

Lemma trim_start_visible s : (forall c, str_first s = Some c -> visible c = true) -> trim_start s = s.
Proof.
  destruct s as [|a s]; [done|]. intros H.
  destruct (visible_not_ws a (H a eq_refl)) as [Hw Ha]. cbn [trim_start]. rewrite Hw.
  destruct s as [|b s]; [done|]. destruct (ws_lead a b b Ha) as [-> _].
  destruct s as [|c s]; [done|]. by destruct (ws_lead a b c Ha) as [_ ->].
Qed.

Lemma trim_visible s : str_all visible s = true -> trim s = s.
Proof.
  intros H. unfold trim.
  assert (forall t, str_all visible t = true -> trim_start t = t) as Hs.
  { intros t Ht. apply trim_start_visible. destruct t; cbn in *; [done|].
    intros c [= <-]. by bool_to_prop. }
  rewrite (Hs s H). induction s as [|c s IH]; [done|]. cbn [trim_end]. rewrite (Hs _ H). cbn.
  f_equal. apply IH. cbn in H. by bool_to_prop.
Qed.

(** ** Splitting what was joined *)

Definition plain_segment (a : ascii) (s : string) : Prop := s <> EmptyString /\ contains_char a s = false.

Lemma split_join a l :
  l <> [] -> Forall (fun s => contains_char a s = false) l ->
  split a (join (String a EmptyString) l) = l.
Proof.
  intros Hne Hl. induction Hl as [|s l Hs Hl IH]; [done|]. unfold join in *.
  destruct l as [|t l]; [by apply split_no_sep|].
  change (String.concat (String a EmptyString) (s :: t :: l))
    with (s +:+ String a (String.concat (String a EmptyString) (t :: l))).
  rewrite split_cons_sep, IH by done. done.
Qed.

Lemma trim_start_matches_other a s : str_first s <> Some a -> trim_start_matches a s = s.
Proof.
  destruct s as [|c s]; cbn; [done|]. intros H. unfold ascii_eqb.
  rewrite bool_decide_eq_false_2; [done|]. congruence.
Qed.

Lemma join_first sep s l : s <> EmptyString -> str_first (join sep (s :: l)) = str_first s.
Proof. intros Hs. destruct s as [|c s]; [done|]. by destruct l. Qed.
