(* ===== verification/HttpMsg.v ===== *)
(** * HTTP messages on a stream

    The framing code that the agent ([keel-agentd/src/http.rs],
    [registration.rs]), the control plane ([keel-controlplane/src/http.rs]) and
    [keelctl] share: reading a request, writing a response, sending a request
    and reading its response.  A stream is the list of what its reads return,
    in order; its end is the end of the stream ([Ok(0)]).  Parsing a message
    head is the third-party crate httparse, the class [Httparse] here, whose
    laws are what the crate documents about well-formed messages. *)

From S2P Require Import Prelude RustStr Text.

(** ** Message heads *)

Definition CRLF : string := String (ascii_of_N 13) (String (ascii_of_N 10) EmptyString).

Definition Header : Type := string * string.

Inductive parse_status (H : Type) : Type :=
  | Complete (len : N) (head : H)
  | Partial
  | ParseErr (e : string).
Arguments Complete {H} len head.
Arguments Partial {H}.
Arguments ParseErr {H} e.

Record RequestHead : Type := mkRequestHead {
  rh_method : option string;
  rh_path : option string;
  rh_headers : list Header
}.
Record ResponseHead : Type := mkResponseHead {
  sh_code : option N;
  sh_headers : list Header
}.

(** The text of a head: its first line, its headers, an empty line. *)
Definition header_line (h : Header) : string := h.1 +:+ ": " +:+ h.2 +:+ CRLF.
Fixpoint header_lines (hs : list Header) : string :=
  match hs with [] => CRLF | h :: hs => header_line h +:+ header_lines hs end.
Definition head_text (first : string) (hs : list Header) : string :=
  first +:+ CRLF +:+ header_lines hs.

Definition request_line (method path : string) : string :=
  method +:+ " " +:+ path +:+ " HTTP/1.1".
Definition status_line (status : N) (reason : string) : string :=
  "HTTP/1.1 " +:+ u_to_string status +:+ " " +:+ reason.

(** Parts every HTTP parser accepts: methods of letters, paths of unreserved
    characters, reasons of letters and blanks, header names of letters, digits
    and hyphens, header values of visible characters. *)
Definition is_letter (c : ascii) : bool := is_ascii_lowercase c || is_ascii_uppercase c.
Definition path_char (c : ascii) : bool :=
  is_ascii_alphanumeric c || ascii_eqb c "/" || ascii_eqb c "-" || ascii_eqb c "."
  || ascii_eqb c "_" || ascii_eqb c "~".
Definition reason_char (c : ascii) : bool := is_letter c || ascii_eqb c " ".
Definition name_char (c : ascii) : bool := is_ascii_alphanumeric c || ascii_eqb c "-".
Definition some_all (p : ascii -> bool) (s : string) : bool := negb (str_is_empty s) && str_all p s.
Definition header_plain (h : Header) : bool := some_all name_char h.1 && some_all visible h.2.

(** [req.parse(&buf)] and [response.parse(&buf)] with room for 16 headers: a
    well-formed head is recognised whatever follows it, its proper prefixes are
    partial, and the length of a complete head is that of a part of the
    buffer. *)
Class Httparse : Type := {
  parse_request_head : string -> parse_status RequestHead;
  parse_response_head : string -> parse_status ResponseHead;
  request_head_len buf n h : parse_request_head buf = Complete n h -> (n <= str_len buf)%N;
  response_head_len buf n h : parse_response_head buf = Complete n h -> (n <= str_len buf)%N;
  request_head_complete method path hs rest :
    some_all is_letter method = true -> some_all path_char path = true ->
    Forall (fun h => header_plain h = true) hs -> (length hs <= 16)%nat ->
    let text := head_text (request_line method path) hs in
    parse_request_head (text +:+ rest)
      = Complete (str_len text) (mkRequestHead (Some method) (Some path) hs);
  request_head_partial method path hs l r :
    some_all is_letter method = true -> some_all path_char path = true ->
    Forall (fun h => header_plain h = true) hs -> (length hs <= 16)%nat ->
    head_text (request_line method path) hs = l +:+ r -> r <> EmptyString ->
    parse_request_head l = Partial;
  response_head_complete status reason hs rest :
    (100 <= status <= 999)%N -> some_all reason_char reason = true ->
    Forall (fun h => header_plain h = true) hs -> (length hs <= 16)%nat ->
    let text := head_text (status_line status reason) hs in
    parse_response_head (text +:+ rest)
      = Complete (str_len text) (mkResponseHead (Some status) hs);
  response_head_partial status reason hs l r :
    (100 <= status <= 999)%N -> some_all reason_char reason = true ->
    Forall (fun h => header_plain h = true) hs -> (length hs <= 16)%nat ->
    head_text (status_line status reason) hs = l +:+ r -> r <> EmptyString ->
    parse_response_head l = Partial
}.

(** [headers.iter().find(|h| h.name.eq_ignore_ascii_case("content-length"))]
    and the parsing of its value as an usize. *)
Definition content_length (hs : list Header) : option N :=
  '(_, h) ← list_find (fun h : Header => eq_ignore_ascii_case h.1 "content-length" = true) hs;
  v ← from_utf8 h.2;
  parse_uint u64_max (trim v).

(** ** Servers *)

Inductive IoError : Type :=
  | UnexpectedEof
  | OtherIo (e : string).

Definition Stream : Type := list (result IoError string).

Record ParsedRequest : Type := mkParsedRequest {
  pr_method : string;
  pr_path : string;
  pr_body : string
}.

Definition MAX_MESSAGE_BYTES : N := 64 * 1024.

Section servers.
Context {HP : Httparse}.

(** The first loop of [read_request]: the head with the bytes read so far and
    the rest of the stream, [Ok None] when the connection is given up. *)
Fixpoint read_head (buf : string) (reads : Stream)
    : result IoError (option (N * RequestHead * string * Stream)) :=
  match parse_request_head buf with
  | Complete len head => Ok (Some (len, head, buf, reads))
  | ParseErr _ => Ok None
  | Partial =>
      if (MAX_MESSAGE_BYTES <=? str_len buf)%N then Ok None
      else match reads with
      | [] | Ok EmptyString :: _ => Ok None
      | Err e :: _ => Err e
      | Ok chunk :: reads => read_head (buf +:+ chunk) reads
      end
  end.

(** The second loop, until [total_len] bytes are there. *)
Fixpoint read_body (total_len : N) (buf : string) (reads : Stream)
    : result IoError (option string) :=
  if (str_len buf <? total_len)%N then
    match reads with
    | [] | Ok EmptyString :: _ => Ok None
    | Err e :: _ => Err e
    | Ok chunk :: reads => read_body total_len (buf +:+ chunk) reads
    end
  else Ok (Some buf).

(** The length of the whole message, where the sum may leave the range of
    usize: with overflow checks the addition panics, without them the sum wraps
    to less than [header_len] and the slicing of the body panics. *)
Definition message_len (header_len content_length : N) : comp N :=
  if (header_len + content_length <=? u64_max)%N then Val (header_len + content_length)%N
  else Panic.

Definition read_request (reads : Stream) : comp (result IoError (option ParsedRequest)) :=
  match read_head EmptyString reads with
  | Err e => Val (Err e)
  | Ok None => Val (Ok None)
  | Ok (Some (header_len, head, buf, reads)) =>
      total_len ← message_len header_len (default 0%N (content_length (rh_headers head)));
      if (MAX_MESSAGE_BYTES <? total_len)%N then Val (Ok None)
      else Val match read_body total_len buf reads with
           | Err e => Err e
           | Ok None => Ok None
           | Ok (Some buf) =>
               Ok (Some (mkParsedRequest (default EmptyString (rh_method head))
                           (default EmptyString (rh_path head))
                           (str_slice header_len total_len buf)))
           end
  end.
End servers.

(** The agent's and the control plane's [reason_phrase]. *)
Definition agent_reason_phrase (status : N) : string :=
  if (status =? 200)%N then "OK"
  else if (status =? 400)%N then "Bad Request"
  else if (status =? 401)%N then "Unauthorized"
  else if (status =? 404)%N then "Not Found"
  else if (status =? 409)%N then "Conflict"
  else if (status =? 500)%N then "Internal Server Error"
  else "Unknown".

Definition cp_reason_phrase (status : N) : string :=
  if (status =? 200)%N then "OK"
  else if (status =? 400)%N then "Bad Request"
  else if (status =? 401)%N then "Unauthorized"
  else if (status =? 404)%N then "Not Found"
  else if (status =? 409)%N then "Conflict"
  else if (status =? 500)%N then "Internal Server Error"
  else if (status =? 503)%N then "Service Unavailable"
  else "Unknown".

(** The bytes [write_response] writes. *)
Definition response_text (reason : N -> string) (status : N) (body : string) : string :=
  "HTTP/1.1 " +:+ u_to_string status +:+ " " +:+ reason status +:+ CRLF
  +:+ "Content-Length: " +:+ u_to_string (str_len body) +:+ CRLF
  +:+ "Content-Type: application/yaml" +:+ CRLF +:+ "Connection: close" +:+ CRLF +:+ CRLF
  +:+ body.
Definition agent_write_response : N -> string -> string := response_text agent_reason_phrase.
Definition cp_write_response : N -> string -> string := response_text cp_reason_phrase.

(** ** Clients *)

(** The request [forward] and the two [send_request]s write. *)
Definition request_text (method path body : string) : string :=
  method +:+ " " +:+ path +:+ " HTTP/1.1" +:+ CRLF +:+ "Host: localhost" +:+ CRLF
  +:+ "Content-Length: " +:+ u_to_string (str_len body) +:+ CRLF +:+ CRLF +:+ body.

(** Reading until the peer closes: an unclean close is taken for the end. *)
Fixpoint read_to_close (response : string) (reads : Stream) : result string string :=
  match reads with
  | [] | Ok EmptyString :: _ => Ok response
  | Ok chunk :: reads => read_to_close (response +:+ chunk) reads
  | Err UnexpectedEof :: _ => Ok response
  | Err (OtherIo e) :: _ => Err e
  end.

Section clients.
Context {HP : Httparse}.

(** The checks all clients make of a response: a complete head, a
    [Content-Length] and exactly that many bytes after it.  The messages for
    malformed and incomplete responses differ. *)
Definition framed (malformed : string -> string) (incomplete : string)
    (status_of : option N -> result string N) (response : string) : result string (N * string) :=
  match parse_response_head response with
  | ParseErr e => Err (malformed e)
  | Partial => Err incomplete
  | Complete header_len head =>
      status ← status_of (sh_code head);
      content_length ← ok_or (content_length (sh_headers head))
                         "response missing Content-Length header";
      let actual := (str_len response - header_len)%N in
      if negb (actual =? content_length)%N then
        Err ("truncated response: expected " +:+ u_to_string content_length +:+ " bytes, got "
             +:+ u_to_string actual)
      else Ok (status, str_drop (N.to_nat header_len) response)
  end.

(** [keel-controlplane/src/http.rs]: [forward], once connected and sent. *)
Definition forward_response (reads : Stream) : result string (N * string) :=
  response ← read_to_close EmptyString reads;
  framed id "incomplete response" (fun code => ok_or code "missing status code") response.

(** [keel-agentd/src/registration.rs]: [send_request], once connected and sent. *)
Definition agent_response (reads : Stream) : result string string :=
  response ← map_err (fun e => "failed to read response: " +:+ e) (read_to_close EmptyString reads);
  '(status, body) ← framed (fun e => "malformed response: " +:+ e)
                      "incomplete response from control plane" (fun code => Ok (default 0%N code))
                      response;
  if (200 <=? status)%N && (status <? 300)%N then Ok body
  else Err ("control plane returned status " +:+ u_to_string status).

(** [keelctl/src/main.rs]: [parse_response]. *)
Definition parse_response (response : string) : result string (N * string) :=
  '(status, body) ← framed (fun e => "malformed response: " +:+ e)
                      "incomplete response from server" (fun code => Ok (default 0%N code)) response;
  Ok (status, from_utf8_lossy body).
End clients.

(** ** Reading terminates *)

(** A server never makes more than [MAX_MESSAGE_BYTES] reads for one request. *)
Section reading.
Context {HP : Httparse}.

Lemma str_len_snoc_read buf c chunk :
  (str_len buf + 1 <= str_len (buf +:+ String c chunk))%N.
Proof. rewrite str_len_app. unfold str_len. cbn. lia. Qed.

Lemma read_body_tail total buf reads t :
  (total <= str_len buf + N.of_nat (length reads))%N ->
  read_body total buf (reads ++ t) = read_body total buf reads.
Proof.
  revert buf. induction reads as [|[chunk|e] reads IH]; intros buf Hl.
  - cbn in Hl. destruct t as [|[[]|] t]; cbn [app read_body];
      (destruct (str_len buf <? total)%N eqn:E; [bool_to_prop; lia|done]).
  - cbn [app read_body]. destruct (str_len buf <? total)%N; [|done].
    destruct chunk as [|c chunk]; [done|]. apply IH.
    pose proof (str_len_snoc_read buf c chunk). cbn [length] in Hl. lia.
  - done.
Qed.

(** What [read_head] leaves unread of a stream with a longer tail. *)
Lemma read_head_tail buf reads t :
  (MAX_MESSAGE_BYTES <= str_len buf + N.of_nat (length reads))%N ->
  read_head buf (reads ++ t) =
    match read_head buf reads with
    | Ok (Some (n, head, buf', rest)) => Ok (Some (n, head, buf', rest ++ t))
    | r => r
    end.
Proof.
  revert buf. induction reads as [|[chunk|e] reads IH]; intros buf Hl.
  - cbn in Hl. destruct t as [|[[]|] t]; cbn [app read_head];
      destruct (parse_request_head buf); try done;
      (destruct (MAX_MESSAGE_BYTES <=? str_len buf)%N eqn:E; [done|bool_to_prop; lia]).
  - cbn [app read_head]. destruct (parse_request_head buf); try done.
    destruct (MAX_MESSAGE_BYTES <=? str_len buf)%N; [done|].
    destruct chunk as [|c chunk]; [done|]. apply IH.
    pose proof (str_len_snoc_read buf c chunk). cbn [length] in Hl. lia.
  - cbn [app read_head]. destruct (parse_request_head buf); try done.
    by destruct (MAX_MESSAGE_BYTES <=? str_len buf)%N.
Qed.

(** Every byte read so far is accounted for. *)
Lemma read_head_progress buf reads n head buf' rest :
  read_head buf reads = Ok (Some (n, head, buf', rest)) ->
  (str_len buf + N.of_nat (length reads) <= str_len buf' + N.of_nat (length rest))%N.
Proof.
  revert buf. induction reads as [|[chunk|e] reads IH]; intros buf; cbn [read_head];
    destruct (parse_request_head buf); try done; try (intros [= _ _ <- <-]; lia);
    destruct (MAX_MESSAGE_BYTES <=? str_len buf)%N; try done.
  destruct chunk as [|c chunk]; [done|]. intros H. apply IH in H.
  pose proof (str_len_snoc_read buf c chunk). cbn [length]. lia.
Qed.

Lemma read_request_tail reads t :
  (MAX_MESSAGE_BYTES <= N.of_nat (length reads))%N ->
  read_request (reads ++ t) = read_request reads.
Proof.
  intros Hl. unfold read_request. rewrite read_head_tail by (cbn; lia).
  destruct (read_head EmptyString reads) as [[[[[n head] buf] rest]|]|e] eqn:E; try done.
  apply read_head_progress in E. destruct (message_len _ _) as [total|]; [|done]. rewrite !Val_bind.
  destruct (MAX_MESSAGE_BYTES <? total)%N eqn:Em; [done|]. bool_to_prop.
  rewrite read_body_tail; [done|]. cbn in E. lia.
Qed.
End reading.

(** ** Messages survive the stream *)

Definition text_of (chunks : list string) : string := foldr String.append EmptyString chunks.
Definition chunked (chunks : list string) : Prop := Forall (fun c => c <> EmptyString) chunks.
(** The stream that delivers these chunks and then ends or fails as [t] says. *)
Definition delivers (chunks : list string) (t : Stream) : Stream := (Ok <$> chunks) ++ t.

Lemma digit_facts c : is_ascii_digit c = true -> visible c = true /\ (code c <? 128)%N = true.
Proof.
  unfold is_ascii_digit, visible, in_bytes. intros H. bool_to_prop.
  split; [apply andb_true_iff; split; apply N.leb_le; lia|apply N.ltb_lt; lia].
Qed.

Lemma u_to_string_visible n : str_all visible (u_to_string n) = true.
Proof. eapply str_all_impl, u_to_string_digits. intros c H. apply (digit_facts c H). Qed.

Lemma u_to_string_some_visible n : some_all visible (u_to_string n) = true.
Proof.
  unfold some_all. rewrite u_to_string_visible.
  pose proof (u_to_string_nonempty n). by destruct (u_to_string n).
Qed.

Lemma from_utf8_digits n : from_utf8 (u_to_string n) = Some (u_to_string n).
Proof.
  unfold from_utf8. rewrite from_utf8_lossy_ascii, String.eqb_refl; [done|].
  eapply str_all_impl, u_to_string_digits. intros c H. apply (digit_facts c H).
Qed.

(** A [Content-Length] printed by a sender is read back. *)
Lemma content_length_printed before n after :
  Forall (fun h : Header => eq_ignore_ascii_case h.1 "content-length" = false) before ->
  (n <= u64_max)%N ->
  content_length (before ++ ("Content-Length", u_to_string n) :: after) = Some n.
Proof.
  intros Hb Hn. unfold content_length.
  assert (list_find (fun h : Header => eq_ignore_ascii_case h.1 "content-length" = true)
            (before ++ ("Content-Length", u_to_string n) :: after)
          = Some (length before, ("Content-Length", u_to_string n))) as ->.
  { apply list_find_Some. split; [by apply list_lookup_middle|]. split; [vm_compute; reflexivity|].
    intros j y Hj Hlt. rewrite lookup_app_l in Hj by done.
    pose proof (Forall_lookup_1 _ _ _ _ Hb Hj) as H. cbn in H. rewrite H. discriminate. }
  cbn. rewrite from_utf8_digits. cbn. rewrite trim_visible by apply u_to_string_visible.
  by apply parse_uint_u_to_string.
Qed.

Section round_trips.
Context {HP : Httparse}.

Lemma text_of_app c chunks : text_of (c :: chunks) = c +:+ text_of chunks.
Proof. done. Qed.

Lemma read_head_delivered text body n h chunks t buf :
  (forall rest, parse_request_head (text +:+ rest) = Complete n h) ->
  (forall l r, text = l +:+ r -> r <> EmptyString -> parse_request_head l = Partial) ->
  (str_len text <= MAX_MESSAGE_BYTES)%N -> chunked chunks -> buf +:+ text_of chunks = text +:+ body ->
  exists buf' rest, read_head buf (delivers chunks t) = Ok (Some (n, h, buf', delivers rest t)) /\
    chunked rest /\ buf' +:+ text_of rest = text +:+ body.
Proof.
  intros Hc Hp Hmax. revert buf.
  assert (forall buf chunks, buf +:+ text_of chunks = text +:+ body ->
            (exists w, buf = text +:+ w) \/ (exists r, text = buf +:+ r /\ r <> EmptyString)) as Hcut.
  { intros buf cs E. destruct (decide (str_len text <= str_len buf)%N) as [Hl|Hl].
    - left. symmetry in E. destruct (str_app_inv_len _ _ _ _ E Hl) as (w & -> & _). by exists w.
    - right. destruct (str_app_inv_len _ _ _ _ E ltac:(lia)) as (w & -> & _). exists w.
      split; [done|]. intros ->. rewrite app_nil_r_str in Hl. lia. }
  induction chunks as [|c chunks IH]; intros buf Hch E;
    destruct (Hcut _ _ E) as [[w ->]|(r & Hr & Hne)].
  - exists (text +:+ w), []. split; [|done]. unfold delivers. cbn [fmap list_fmap app].
    destruct t; cbn [read_head]; by rewrite Hc.
  - exfalso. cbn in E. rewrite app_nil_r_str in E. subst buf.
    assert (str_len r <> 0)%N by (by rewrite str_len_0).
    apply (f_equal str_len) in Hr. rewrite !str_len_app in Hr. lia.
  - exists (text +:+ w), (c :: chunks). split; [|done]. unfold delivers. cbn [fmap list_fmap app read_head].
    by rewrite Hc.
  - apply Forall_cons in Hch as [Hc0 Hch]. unfold delivers. cbn [fmap list_fmap app read_head].
    rewrite (Hp buf r Hr Hne). rewrite (proj2 (N.leb_gt MAX_MESSAGE_BYTES (str_len buf))).
    + destruct c as [|a c]; [done|]. apply IH; [done|].
      rewrite <- app_assoc_str. exact E.
    + assert (str_len r <> 0)%N by (by rewrite str_len_0).
      apply (f_equal str_len) in Hr. rewrite str_len_app in Hr. lia.
Qed.

Lemma read_body_delivered whole chunks t buf :
  chunked chunks -> buf +:+ text_of chunks = whole ->
  read_body (str_len whole) buf (delivers chunks t) = Ok (Some whole).
Proof.
  revert buf. induction chunks as [|c chunks IH]; intros buf Hch E.
  - cbn in E. rewrite app_nil_r_str in E. subst.
    unfold delivers. destruct t; cbn [fmap list_fmap app read_body]; by rewrite N.ltb_irrefl.
  - apply Forall_cons in Hch as [Hc0 Hch]. unfold delivers. cbn [fmap list_fmap app read_body].
    rewrite (proj2 (N.ltb_lt _ _)).
    + destruct c as [|a c]; [done|]. apply IH; [done|]. by rewrite <- app_assoc_str.
    + rewrite <- E, text_of_app, !str_len_app.
      assert (str_len c <> 0)%N by (by rewrite str_len_0). lia.
Qed.

Definition request_headers (body : string) : list Header :=
  [("Host", "localhost"); ("Content-Length", u_to_string (str_len body))].

Lemma request_text_head method path body :
  request_text method path body
    = head_text (request_line method path) (request_headers body) +:+ body.
Proof.
  unfold request_text, head_text, request_line, request_headers, header_lines, header_line. cbn [fst snd].
  rewrite <- !app_assoc_str. reflexivity.
Qed.

Lemma request_headers_plain body :
  Forall (fun h => header_plain h = true) (request_headers body).
Proof.
  repeat constructor. unfold header_plain. cbn [fst snd].
  by rewrite u_to_string_some_visible.
Qed.

Lemma content_length_request body :
  (str_len body <= u64_max)%N -> content_length (request_headers body) = Some (str_len body).
Proof.
  intros Hl. apply (content_length_printed [("Host", "localhost")] (str_len body) []); [|done].
  repeat constructor.
Qed.

(** What a well-formed request looks like to the server: the law of the parser
    at the head the clients write. *)
Lemma read_request_delivered method path body chunks t :
  some_all is_letter method = true -> some_all path_char path = true ->
  (str_len (request_text method path body) <= MAX_MESSAGE_BYTES)%N ->
  chunked chunks -> text_of chunks = request_text method path body ->
  read_request (delivers chunks t) = Val (Ok (Some (mkParsedRequest method path body))).
Proof.
  intros Hm Hp Hmax Hch E. rewrite request_text_head in *.
  set (text := head_text (request_line method path) (request_headers body)) in *.
  rewrite str_len_app in Hmax. unfold MAX_MESSAGE_BYTES in Hmax.
  assert (Hplain := request_headers_plain body).
  destruct (read_head_delivered text body (str_len text)
              (mkRequestHead (Some method) (Some path) (request_headers body)) chunks t EmptyString)
    as (buf & rest & Eh & Hrest & Ebuf); [ | | |done| |].
  - intros rest. apply request_head_complete; [done|done|done|cbn; lia].
  - intros l r El Hr.
    apply (request_head_partial method path (request_headers body) l r); [done|done|done|cbn; lia|done|done].
  - unfold MAX_MESSAGE_BYTES. lia.
  - by rewrite app_nil_l_str.
  - unfold read_request. rewrite Eh. cbn [rh_headers rh_method rh_path].
    rewrite content_length_request by (unfold u64_max; lia). change (default 0%N (Some (str_len body))) with (str_len body).
    unfold message_len. rewrite (proj2 (N.leb_le _ _)) by (unfold u64_max; lia). rewrite Val_bind.
    rewrite (proj2 (N.ltb_ge _ _)) by (unfold MAX_MESSAGE_BYTES; lia).
    rewrite <- str_len_app, (read_body_delivered (text +:+ body)) by done.
    rewrite str_len_app. rewrite <- (app_nil_r_str (text +:+ body)), <- app_assoc_str.
    by rewrite str_slice_app.
Qed.

Definition response_headers (body : string) : list Header :=
  [("Content-Length", u_to_string (str_len body)); ("Content-Type", "application/yaml");
   ("Connection", "close")].

Lemma response_text_head reason status body :
  response_text reason status body
    = head_text (status_line status (reason status)) (response_headers body) +:+ body.
Proof.
  unfold response_text, head_text, status_line, response_headers, header_lines, header_line. cbn [fst snd].
  rewrite <- !app_assoc_str. reflexivity.
Qed.

Lemma response_headers_plain body :
  Forall (fun h => header_plain h = true) (response_headers body).
Proof.
  repeat constructor. unfold header_plain. cbn [fst snd]. by rewrite u_to_string_some_visible.
Qed.

Lemma content_length_response body :
  (str_len body <= u64_max)%N -> content_length (response_headers body) = Some (str_len body).
Proof. intros Hl. by apply (content_length_printed []). Qed.

Lemma response_headers_length body : (length (response_headers body) <= 16)%nat.
Proof. cbn. lia. Qed.

#[local] Arguments response_headers : simpl never.
#[local] Arguments content_length : simpl never.

(** A response, whole and cut short. *)
Lemma framed_whole malformed incomplete status_of reason status body :
  (100 <= status <= 999)%N -> some_all reason_char (reason status) = true ->
  (str_len body <= u64_max)%N -> status_of (Some status) = Ok status ->
  framed malformed incomplete status_of (response_text reason status body) = Ok (status, body).
Proof.
  intros Hs Hr Hl Hst. rewrite response_text_head. unfold framed.
  rewrite response_head_complete by auto using response_headers_plain, response_headers_length.
  cbn [sh_code sh_headers].
  rewrite Hst. cbn.
  rewrite content_length_response by done. cbn.
  rewrite str_len_app, N.add_comm, N.add_sub, N.eqb_refl. cbn.
  unfold str_len at 1. by rewrite Nat2N.id, str_drop_app.
Qed.

Lemma framed_cut malformed incomplete status_of reason status body l r :
  (100 <= status <= 999)%N -> some_all reason_char (reason status) = true ->
  (str_len body <= u64_max)%N -> response_text reason status body = l +:+ r -> r <> EmptyString ->
  is_ok (framed malformed incomplete status_of l) = false.
Proof.
  intros Hs Hr Hl E Hne. rewrite response_text_head in E. unfold framed.
  set (text := head_text _ _) in *.
  destruct (decide (str_len text <= str_len l)%N) as [Hle|Hlt].
  - destruct (str_app_inv_len _ _ _ _ E Hle) as (w & -> & ->).
    unfold text. rewrite response_head_complete by (auto using response_headers_plain, response_headers_length).
    cbn [sh_code sh_headers]. destruct (status_of _); [|done]. cbn.
    rewrite content_length_response by done. cbn.
    rewrite !str_len_app in *. rewrite (proj2 (N.eqb_neq _ _)); [done|].
    assert (str_len r <> 0)%N by (by rewrite str_len_0). lia.
  - symmetry in E. destruct (str_app_inv_len _ _ _ _ E ltac:(lia)) as (w & Ew & _).
    rewrite (response_head_partial status (reason status) (response_headers body) l w);
      [done|done|done|apply response_headers_plain|apply response_headers_length|done|].
    intros ->. rewrite app_nil_r_str in Ew. rewrite Ew in Hlt. lia.
Qed.

(** The ends of a stream a client takes for the close of the connection. *)
Definition closes (t : Stream) : Prop :=
  t = [] \/ (exists t', t = Err UnexpectedEof :: t') \/ (exists t', t = Ok EmptyString :: t').

Lemma read_to_close_delivered chunks t buf :
  chunked chunks -> closes t ->
  read_to_close buf (delivers chunks t) = Ok (buf +:+ text_of chunks).
Proof.
  intros Hch Ht. revert buf. induction chunks as [|c chunks IH]; intros buf.
  - cbn. rewrite app_nil_r_str. unfold delivers. cbn.
    destruct Ht as [->|[[t' ->]|[t' ->]]]; done.
  - apply Forall_cons in Hch as [Hc Hch]. unfold delivers. cbn [fmap list_fmap app read_to_close].
    destruct c as [|a c]; [done|]. etransitivity; [by apply IH|]. by rewrite text_of_app, app_assoc_str.
Qed.
End round_trips.
