(* ===== verification/HttpFraming.v ===== *)
(** * Messages survive their connection

    The theorems about [HttpMsg]: reading terminates, a request or response
    that was sent whole is received as it was sent however the stream cuts it
    into pieces, one that was cut short is never taken for a whole one.  An
    executable head parser shows that the laws of [Httparse] hold together. *)

From S2P Require Import Prelude RustStr Text HttpMsg.

(** ** An executable parser of message heads *)

Definition CR : ascii := ascii_of_N 13.
Definition LF : ascii := ascii_of_N 10.

Definition head_end : string := CRLF +:+ CRLF.
Definition strip_cr (l : string) : string := default l (strip_suffix_char CR l).

Definition split_head (buf : string) : option (list string * N) :=
  '(h, _) ← split_once_str head_end buf;
  Some (strip_cr <$> split LF h, str_len h + 4)%N.

Definition model_request_head (buf : string) : parse_status RequestHead :=
  match split_head buf with
  | None => Partial
  | Some (first :: hs, n) =>
      match split " "%char first, mapM (split_once_str ": ") hs with
      | [m; p; _], Some hs => Complete n (mkRequestHead (Some m) (Some p) hs)
      | _, _ => ParseErr "invalid token"
      end
  | Some ([], _) => ParseErr "invalid token"
  end.

Definition model_response_head (buf : string) : parse_status ResponseHead :=
  match split_head buf with
  | None => Partial
  | Some (first :: hs, n) =>
      match ('(_, rest) ← split_once " "%char first; split_once " "%char rest),
            mapM (split_once_str ": ") hs with
      | Some (code, _), Some hs => Complete n (mkResponseHead (parse_uint 999 code) hs)
      | _, _ => ParseErr "invalid status"
      end
  | Some ([], _) => ParseErr "invalid status"
  end.

Definition no_break (s : string) : bool := str_all (fun c => negb (ascii_eqb CR c || ascii_eqb LF c)) s.

Lemma no_break_char s : no_break s = true -> contains_char CR s = false /\ contains_char LF s = false.
Proof.
  unfold no_break, contains_char. induction s as [|c s IH]; [done|]. cbn.
  intros [Hc Hs]%andb_true_iff. apply negb_true_iff, orb_false_iff in Hc as [-> ->]. by apply IH.
Qed.

Lemma no_break_impl p s :
  (forall c, p c = true -> (14 <=? code c)%N = true) -> str_all p s = true -> no_break s = true.
Proof.
  intros H. apply str_all_impl. intros c Hc. apply H in Hc. unfold ascii_eqb.
  rewrite !bool_decide_eq_false_2; [done| |]; intros <-; vm_compute in Hc; discriminate.
Qed.

(** The lines of a head. *)
Definition plain_line (h : Header) : string := h.1 +:+ ": " +:+ h.2.
Definition head_lines (first : string) (hs : list Header) : list string := first :: (plain_line <$> hs).

Lemma concat_cons sep x y l :
  String.concat sep (x :: y :: l) = x +:+ sep +:+ String.concat sep (y :: l).
Proof. done. Qed.

Lemma head_text_lines first hs : head_text first hs = String.concat CRLF (head_lines first hs) +:+ head_end.
Proof.
  unfold head_lines, head_text, head_end. revert first.
  induction hs as [|h hs IH]; intros first; [done|]. cbn [fmap list_fmap].
  rewrite concat_cons, <- !app_assoc_str. f_equal. cbn [header_lines]. unfold header_line.
  rewrite <- !app_assoc_str. f_equal. change (list_fmap Header string plain_line hs) with (plain_line <$> hs).
  rewrite <- IH. unfold plain_line at 1. by rewrite <- !app_assoc_str.
Qed.

(** Finding the end of a head. *)
Lemma split_once_str_skip c pat' l s :
  contains_char c l = false ->
  split_once_str (String c pat') (l +:+ s)
    = '(a, r) ← split_once_str (String c pat') s; Some (l +:+ a, r).
Proof.
  unfold contains_char. induction l as [|d l IH]; cbn [str_any].
  - intros _. rewrite app_nil_l_str. destruct (split_once_str _ s) as [[a r]|]; cbn; [|done].
    by rewrite app_nil_l_str.
  - intros [Hd Hl]%orb_false_iff. rewrite app_cons_str. cbn [split_once_str strip_prefix].
    rewrite Hd, (IH Hl). destruct (split_once_str _ s) as [[a r]|]; cbn; [|done].
    by rewrite app_cons_str.
Qed.

Lemma split_head_end_skip l s :
  contains_char CR l = false ->
  split_once_str head_end (l +:+ s) = '(a, r) ← split_once_str head_end s; Some (l +:+ a, r).
Proof. exact (split_once_str_skip CR (String LF CRLF) l s). Qed.

Lemma split_once_str_line_break c s :
  ascii_eqb CR c = false ->
  split_once_str head_end (CRLF +:+ String c s)
    = '(a, r) ← split_once_str head_end (String c s); Some (CRLF +:+ a, r).
Proof.
  intros Hc. change head_end with (String CR (String LF (String CR (String LF EmptyString)))).
  change (CRLF +:+ String c s) with (String CR (String LF (String c s))).
  cbn [split_once_str strip_prefix]. rewrite Hc. change (ascii_eqb CR LF) with false. cbn [ascii_eqb].
  change (bool_decide (CR = CR)) with true. change (bool_decide (LF = LF)) with true. cbn iota.
  by destruct (split_once_str _ s) as [[a r]|].
Qed.

Definition solid (s : string) : Prop := no_break s = true /\ s <> EmptyString.

Lemma split_once_str_head ls rest :
  ls <> [] -> Forall solid ls ->
  split_once_str head_end (String.concat CRLF ls +:+ head_end +:+ rest)
    = Some (String.concat CRLF ls, rest).
Proof.
  intros Hne Hls. induction Hls as [|l ls [Hb Hl] Hls IH]; [done|]. clear Hne.
  destruct (no_break_char l Hb) as [HCR _].
  assert (split_once_str head_end (head_end +:+ rest) = Some (EmptyString, rest)) as Hend.
  { rewrite <- (app_nil_l_str (head_end +:+ rest)). apply split_once_str_app.
    intros [|] [|]; done. }
  destruct ls as [|l' ls].
  - cbn [String.concat]. rewrite (split_head_end_skip l _ HCR), Hend. cbn. by rewrite app_nil_r_str.
  - rewrite concat_cons, <- !app_assoc_str.
    rewrite (split_head_end_skip l _ HCR).
    specialize (IH ltac:(done)). apply Forall_cons in Hls as [[Hb' Hne'] _].
    assert (exists c s, String.concat CRLF (l' :: ls) +:+ head_end +:+ rest = String c s
              /\ ascii_eqb CR c = false) as (c & s & E & Hc).
    { destruct l' as [|c l']; [done|]. cbn in Hb'. exists c.
      apply andb_true_iff in Hb' as [Hc _]. apply negb_true_iff, orb_false_iff in Hc as [Hc _].
      destruct ls; cbn [String.concat]; rewrite !app_cons_str; eauto. }
    rewrite E in *. rewrite (split_once_str_line_break c s Hc), IH. done.
Qed.

Lemma split_once_str_first pat l x h r :
  split_once_str pat (l +:+ pat +:+ x) = Some (h, r) -> (str_len h <= str_len l)%N.
Proof.
  revert h. induction l as [|c l IH]; intros h.
  - rewrite app_nil_l_str.
    destruct (pat +:+ x) as [|d s] eqn:E; cbn [split_once_str]; rewrite <- E, strip_prefix_app;
      intros [= <- _]; cbn; lia.
  - rewrite app_cons_str. cbn [split_once_str]. destruct (strip_prefix pat _).
    + intros [= <- _]. unfold str_len. cbn. lia.
    + destruct (split_once_str pat (l +:+ pat +:+ x)) as [[h' r']|]; [|done].
      intros [= <- <-]. specialize (IH _ eq_refl). unfold str_len in *. cbn. lia.
Qed.

Lemma strip_cr_line l : strip_cr (l +:+ String CR EmptyString) = l.
Proof.
  unfold strip_cr. assert (strip_suffix_char CR (l +:+ String CR EmptyString) = Some l) as ->; [|done].
  induction l as [|c l IH]; [done|]. rewrite app_cons_str. cbn [strip_suffix_char].
  rewrite IH. destruct l as [|d l]; done.
Qed.

Lemma strip_cr_none l : contains_char CR l = false -> strip_cr l = l.
Proof.
  intros H. unfold strip_cr. assert (strip_suffix_char CR l = None) as ->; [|done].
  revert H. unfold contains_char. induction l as [|c l IH]; [done|]. cbn [str_any strip_suffix_char].
  intros [Hc Hl]%orb_false_iff. destruct l as [|d l]; [by rewrite Hc|]. by rewrite (IH Hl).
Qed.

Lemma split_lines ls :
  ls <> [] -> Forall solid ls -> strip_cr <$> split LF (String.concat CRLF ls) = ls.
Proof.
  intros Hne Hls. induction Hls as [|l ls [Hb Hl] Hls IH]; [done|]. clear Hne.
  destruct (no_break_char l Hb) as [HCR HLF].
  destruct ls as [|l' ls].
  - cbn [String.concat]. rewrite split_no_sep by done. cbn. by rewrite strip_cr_none.
  - rewrite concat_cons.
    change (CRLF +:+ ?s) with (String CR EmptyString +:+ String LF s).
    rewrite app_assoc_str, split_cons_sep.
    + rewrite fmap_cons, strip_cr_line. f_equal. by apply IH.
    + unfold contains_char in *. clear -HLF. induction l as [|c l IH]; [done|].
      rewrite app_cons_str. cbn [str_any] in *. apply orb_false_iff in HLF as [-> H]. by apply IH.
Qed.

Lemma split_head_text ls rest :
  ls <> [] -> Forall solid ls ->
  split_head (String.concat CRLF ls +:+ head_end +:+ rest)
    = Some (ls, str_len (String.concat CRLF ls +:+ head_end)).
Proof.
  intros Hne Hls. unfold split_head. rewrite split_once_str_head by done. cbn.
  by rewrite split_lines, str_len_app.
Qed.

Lemma split_head_partial ls l r :
  ls <> [] -> Forall solid ls -> String.concat CRLF ls +:+ head_end = l +:+ r -> r <> EmptyString ->
  split_head l = None.
Proof.
  intros Hne Hls E Hr. unfold split_head.
  destruct (split_once_str head_end l) as [[h x]|] eqn:El; [exfalso|done].
  apply split_once_str_Some in El as ->.
  pose proof (split_once_str_head ls EmptyString Hne Hls) as H. rewrite app_nil_r_str, E in H.
  rewrite <- !app_assoc_str in H. apply split_once_str_first in H.
  apply (f_equal str_len) in E. rewrite !str_len_app in E.
  assert (str_len r <> 0)%N by (by rewrite str_len_0). lia.
Qed.

Lemma split_head_len buf ls n : split_head buf = Some (ls, n) -> (n <= str_len buf)%N.
Proof.
  unfold split_head. destruct (split_once_str head_end buf) as [[h r]|] eqn:E; [|done].
  intros [= _ <-]. apply split_once_str_Some in E as ->. rewrite !str_len_app.
  change (str_len head_end) with 4%N. lia.
Qed.

(** The instance. *)
Lemma mapM_plain_lines hs :
  Forall (fun h => header_plain h = true) hs -> mapM (split_once_str ": ") (plain_line <$> hs) = Some hs.
Proof.
  induction 1 as [|[n v] hs H Hs IH]; [done|].
  rewrite fmap_cons. cbn [mapM].
  assert (contains_char ":" n = false) as Hn.
  { unfold header_plain, some_all in H. cbn in H. bool_to_prop. clear -H2. unfold contains_char.
    induction n as [|c n IH]; [done|]. cbn in *. bool_to_prop. rewrite IH, orb_false_r by done.
    unfold ascii_eqb. apply bool_decide_eq_false_2. intros <-. vm_compute in H. discriminate. }
  assert (split_once_str ": " (plain_line (n, v)) = Some (n, v)) as ->; [|cbn; by rewrite IH].
  etransitivity; [exact (split_once_str_skip ":"%char " " n (": " +:+ v) Hn)|].
  rewrite <- (app_nil_l_str (": " +:+ v)), split_once_str_app by (intros [|] [|]; done).
  cbn. by rewrite app_nil_r_str.
Qed.

Lemma solid_of p s :
  (forall c, p c = true -> (14 <=? code c)%N = true) -> some_all p s = true -> solid s.
Proof.
  intros Hp H. unfold some_all in H. bool_to_prop. split; [by eapply no_break_impl|].
  intros ->. done.
Qed.

Lemma no_break_app s t : no_break (s +:+ t) = no_break s && no_break t.
Proof. apply str_all_app. Qed.

Lemma solid_app_l s t : solid s -> no_break t = true -> solid (s +:+ t).
Proof.
  intros [Hs Hn] Ht. split; [by rewrite no_break_app, Hs, Ht|]. by destruct s.
Qed.

Lemma name_char_code c : name_char c = true -> (14 <=? code c)%N = true.
Proof.
  unfold name_char, is_ascii_alphanumeric, is_ascii_lowercase, is_ascii_uppercase, is_ascii_digit, ascii_eqb.
  intros H. apply N.leb_le. rewrite !orb_true_iff, !andb_true_iff, !N.leb_le, bool_decide_eq_true in H.
  destruct H as [[[|]|]|H]; [lia|lia|lia|subst; vm_compute; discriminate].
Qed.

Lemma visible_code c : visible c = true -> (14 <=? code c)%N = true.
Proof. unfold visible, in_bytes. intros H. bool_to_prop. apply N.leb_le. lia. Qed.

Lemma plain_lines_solid hs :
  Forall (fun h => header_plain h = true) hs -> Forall solid (plain_line <$> hs).
Proof.
  intros H. apply Forall_fmap. eapply Forall_impl; [exact H|]. intros [n v] Hh.
  unfold header_plain in Hh. cbn in Hh. apply andb_true_iff in Hh as [Hn Hv].
  unfold plain_line. cbn. apply solid_app_l; [by eapply solid_of, Hn; apply name_char_code|].
  rewrite no_break_app. cbn. by destruct (solid_of _ _ visible_code Hv).
Qed.

Lemma no_char_of p c s : p c = false -> str_all p s = true -> contains_char c s = false.
Proof.
  intros Hc. unfold contains_char. induction s as [|d s IH]; [done|]. cbn. intros [Hd Hs]%andb_true_iff.
  rewrite IH, orb_false_r by done. unfold ascii_eqb. apply bool_decide_eq_false_2. congruence.
Qed.

Lemma letter_code c : is_letter c = true -> (14 <=? code c)%N = true.
Proof.
  unfold is_letter, is_ascii_lowercase, is_ascii_uppercase. intros H. apply N.leb_le.
  rewrite orb_true_iff, !andb_true_iff, !N.leb_le in H. lia.
Qed.

Lemma path_code c : path_char c = true -> (14 <=? code c)%N = true.
Proof.
  unfold path_char, ascii_eqb. intros H. rewrite !orb_true_iff, !bool_decide_eq_true in H.
  destruct H as [[[[[H| ->]| ->]| ->]| ->]| ->]; try reflexivity.
  apply name_char_code. unfold name_char. by rewrite H.
Qed.

Lemma reason_code c : reason_char c = true -> (14 <=? code c)%N = true.
Proof.
  unfold reason_char, ascii_eqb. intros H. apply orb_true_iff in H as [H|H]; [by apply letter_code|].
  apply bool_decide_eq_true in H as ->. reflexivity.
Qed.

Lemma some_all_all p s : some_all p s = true -> str_all p s = true.
Proof. unfold some_all. intros H. by bool_to_prop. Qed.

Lemma request_lines_solid method path hs :
  some_all is_letter method = true -> some_all path_char path = true ->
  Forall (fun h => header_plain h = true) hs ->
  Forall solid (head_lines (request_line method path) hs).
Proof.
  intros Hm Hp Hh. constructor; [|by apply plain_lines_solid].
  apply solid_app_l; [by eapply solid_of, Hm; apply letter_code|].
  change (" " +:+ path +:+ " HTTP/1.1") with (String " "%char (path +:+ " HTTP/1.1")).
  cbn [no_break str_all]. fold (no_break (path +:+ " HTTP/1.1")). rewrite no_break_app.
  destruct (solid_of _ _ path_code Hp) as [-> _]. done.
Qed.

Lemma status_lines_solid status reason hs :
  some_all reason_char reason = true -> Forall (fun h => header_plain h = true) hs ->
  Forall solid (head_lines (status_line status reason) hs).
Proof.
  intros Hr Hh. constructor; [|by apply plain_lines_solid].
  apply solid_app_l; [split; done|]. rewrite no_break_app.
  destruct (solid_of _ _ visible_code (u_to_string_some_visible status)) as [-> _].
  change (" " +:+ reason) with (String " "%char reason). cbn [no_break str_all].
  destruct (solid_of _ _ reason_code Hr) as [Hb _]. exact Hb.
Qed.

Lemma split_request_line method path :
  some_all is_letter method = true -> some_all path_char path = true ->
  split " "%char (request_line method path) = [method; path; "HTTP/1.1"].
Proof.
  intros Hm Hp. unfold request_line.
  change (" " +:+ path +:+ " HTTP/1.1") with (String " "%char (path +:+ String " "%char "HTTP/1.1")).
  rewrite split_cons_sep by (by eapply no_char_of, some_all_all, Hm).
  by rewrite split_cons_sep by (by eapply no_char_of, some_all_all, Hp).
Qed.

Lemma split_status_line status reason :
  ('(_, rest) ← split_once " "%char (status_line status reason); split_once " "%char rest)
    = Some (u_to_string status, reason).
Proof.
  unfold status_line.
  change ("HTTP/1.1 " +:+ ?s) with ("HTTP/1.1" +:+ String " "%char s).
  rewrite (proj2 (split_once_Some " "%char _ "HTTP/1.1" _)) by done. cbn [mbind option_bind].
  change (" " +:+ reason) with (String " "%char reason). apply split_once_Some. split; [done|].
  by eapply no_char_of, u_to_string_visible.
Qed.

Lemma head_lines_nonempty first hs : head_lines first hs <> [].
Proof. done. Qed.

Definition httparse_model : Httparse.
Proof.
  refine {| parse_request_head := model_request_head; parse_response_head := model_response_head |}.
  - intros buf n h. unfold model_request_head. destruct (split_head buf) as [[[|l ls] m]|] eqn:E; try done.
    apply split_head_len in E. split_match. intros [= <- _]. done.
  - intros buf n h. unfold model_response_head. destruct (split_head buf) as [[[|l ls] m]|] eqn:E; try done.
    apply split_head_len in E. split_match. intros [= <- _]. done.
  - intros method path hs rest Hm Hp Hh _. cbn zeta. rewrite head_text_lines, <- app_assoc_str.
    unfold model_request_head. rewrite split_head_text by (done || by apply request_lines_solid).
    unfold head_lines at 1. by rewrite split_request_line, mapM_plain_lines.
  - intros method path hs l r Hm Hp Hh _ E Hr. rewrite head_text_lines in E.
    unfold model_request_head. by rewrite (split_head_partial _ l r (head_lines_nonempty _ _)
      (request_lines_solid _ _ _ Hm Hp Hh) E Hr).
  - intros status reason hs rest Hs Hr Hh _. cbn zeta. rewrite head_text_lines, <- app_assoc_str.
    unfold model_response_head. rewrite split_head_text by (done || by apply status_lines_solid).
    unfold head_lines at 1. rewrite split_status_line, mapM_plain_lines by done.
    by rewrite parse_uint_u_to_string by lia.
  - intros status reason hs l r Hs Hr Hh _ E Hne. rewrite head_text_lines in E.
    unfold model_response_head. by rewrite (split_head_partial _ l r (head_lines_nonempty _ _)
      (status_lines_solid _ _ _ Hr Hh) E Hne).
Defined.

(** ** The theorems *)

Section theorems.
Context {HP : Httparse}.

(** C26: reading a request terminates.  However long a client keeps sending, one
    byte at a time if it likes, the server stops after at most
    [MAX_MESSAGE_BYTES] reads: what the stream holds after that many reads has
    no influence on the outcome. *)
Theorem read_request_terminates (stream : nat -> result IoError string) (m : nat) :
  (N.to_nat MAX_MESSAGE_BYTES <= m)%nat ->
  read_request (stream <$> seq 0 m) = read_request (stream <$> seq 0 (N.to_nat MAX_MESSAGE_BYTES)).
Proof.
  intros Hm. replace m with (N.to_nat MAX_MESSAGE_BYTES + (m - N.to_nat MAX_MESSAGE_BYTES))%nat by lia.
  rewrite seq_app, fmap_app. apply read_request_tail. rewrite length_fmap, length_seq. lia.
Qed.

(** C25: a request arrives as it was sent.  A request of at most 64 KiB, whose
    method is made of letters and whose path of letters, digits and the characters
    [/ - . _ ~] ([path_char]), is read back by a server with the same method, path
    and body, into however many pieces the stream cuts it and whatever follows.
    The paths of resources with valid names are of these characters.  [keelctl] does not validate the names of its command line, so this says
    nothing of a request like that of [keelctl delete-volume 'a b'], whose blank
    ends the path on the request line. *)
Theorem request_roundtrip method path body chunks t :
  some_all is_letter method = true -> some_all path_char path = true ->
  (str_len (request_text method path body) <= MAX_MESSAGE_BYTES)%N ->
  chunked chunks -> text_of chunks = request_text method path body ->
  read_request (delivers chunks t) = Val (Ok (Some (mkParsedRequest method path body))).
Proof. apply read_request_delivered. Qed.

Lemma reason_phrases status :
  some_all reason_char (agent_reason_phrase status) = true /\
  some_all reason_char (cp_reason_phrase status) = true.
Proof. unfold agent_reason_phrase, cp_reason_phrase. split; repeat case_match; reflexivity. Qed.

Lemma response_received reason status body chunks lost t :
  some_all reason_char (reason status) = true ->
  (100 <= status <= 999)%N -> (str_len body <= u64_max)%N -> chunked chunks -> closes t ->
  text_of chunks +:+ lost = response_text reason status body ->
  if str_is_empty lost then
    forward_response (delivers chunks t) = Ok (status, body) /\
    agent_response (delivers chunks t)
      = (if (200 <=? status)%N && (status <? 300)%N then Ok body
         else Err ("control plane returned status " +:+ u_to_string status)) /\
    parse_response (text_of chunks) = Ok (status, from_utf8_lossy body)
  else
    is_ok (forward_response (delivers chunks t)) = false /\
    is_ok (agent_response (delivers chunks t)) = false /\
    is_ok (parse_response (text_of chunks)) = false.
Proof.
  intros Hr Hs Hl Hch Ht E.
  unfold forward_response, agent_response, parse_response.
  rewrite !read_to_close_delivered by done. cbn [map_err]. rewrite !Ok_bind, !app_nil_l_str.
  destruct lost as [|c lost]; cbn [str_is_empty].
  - rewrite app_nil_r_str in E. rewrite E, !framed_whole by done. done.
  - split; [by eapply framed_cut|].
    split; match goal with |- is_ok (mbind ?f ?x) = _ => assert (is_ok x = false) as Hx
             by (by eapply framed_cut); by destruct x end.
Qed.

(** A response is received whole or not at all.  What an agent or the control
    plane answers is what the control plane's [forward], the agent's
    registration loop and [keelctl] get, status and body unchanged, into however
    many pieces the stream cuts it; if the connection is lost before the last
    byte, cleanly or not, all of them report an error and never a shortened
    body. *)
Theorem response_roundtrip write status body chunks lost t :
  write = agent_write_response \/ write = cp_write_response ->
  (100 <= status <= 999)%N -> (str_len body <= u64_max)%N -> chunked chunks -> closes t ->
  text_of chunks +:+ lost = write status body ->
  if str_is_empty lost then
    forward_response (delivers chunks t) = Ok (status, body) /\
    agent_response (delivers chunks t)
      = (if (200 <=? status)%N && (status <? 300)%N then Ok body
         else Err ("control plane returned status " +:+ u_to_string status)) /\
    parse_response (text_of chunks) = Ok (status, from_utf8_lossy body)
  else
    is_ok (forward_response (delivers chunks t)) = false /\
    is_ok (agent_response (delivers chunks t)) = false /\
    is_ok (parse_response (text_of chunks)) = false.
Proof.
  destruct (reason_phrases status) as [Ha Hc].
  intros [->| ->] Hs Hl Hch Ht E; [eapply (response_received agent_reason_phrase)
    | eapply (response_received cp_reason_phrase)]; done.
Qed.

(** C40: a request can panic its connection.  A head whose [Content-Length] is so
    large that head and body together do not fit an usize is not refused like
    other oversized requests: the length computation overflows and the
    connection's thread panics. *)
Theorem content_length_overflow_panics method path n chunks t :
  some_all is_letter method = true -> some_all path_char path = true ->
  (n <= u64_max)%N ->
  let text := head_text (request_line method path) [("Content-Length", u_to_string n)] in
  (u64_max < str_len text + n)%N -> (str_len text <= MAX_MESSAGE_BYTES)%N ->
  chunked chunks -> text_of chunks = text ->
  read_request (delivers chunks t) = Panic.
Proof.
  intros Hm Hp Hn text Hbig Hmax Hch E.
  assert (Forall (fun h => header_plain h = true) [("Content-Length", u_to_string n)]) as Hplain.
  { repeat constructor. unfold header_plain. cbn [fst snd]. by rewrite u_to_string_some_visible. }
  destruct (read_head_delivered text EmptyString (str_len text)
              (mkRequestHead (Some method) (Some path) [("Content-Length", u_to_string n)])
              chunks t EmptyString) as (buf & rest & Eh & _); [| |done|done| |].
  - intros rest. apply request_head_complete; [done|done|done|cbn; lia].
  - intros l r El Hr. eapply request_head_partial; [exact Hm|exact Hp|exact Hplain|cbn; lia|exact El|done].
  - by rewrite app_nil_l_str, app_nil_r_str.
  - unfold read_request. rewrite Eh. cbn [rh_headers].
    assert (content_length [("Content-Length", u_to_string n)] = Some n) as ->
      by (by apply (content_length_printed [])).
    cbn [default].
    unfold message_len. rewrite (proj2 (N.leb_gt _ _)); [done|]. exact Hbig.
Qed.
End theorems.

(** ** Evaluation *)

Lemma read_request_terminates_witness :
  @read_request httparse_model ((fun _ => Ok "a") <$> seq 0 (N.to_nat 70000))
    = @read_request httparse_model ((fun _ => Ok "a") <$> seq 0 (N.to_nat MAX_MESSAGE_BYTES)).
Proof.
  apply (@read_request_terminates httparse_model (fun _ => Ok "a") (N.to_nat 70000)).
  unfold MAX_MESSAGE_BYTES. lia.
Defined.

Lemma request_roundtrip_witness :
  @read_request httparse_model
    (delivers ["PUT /jails/web"; "-0 HTTP/1.1" +:+ CRLF +:+ "Host: localhost" +:+ CRLF
               +:+ "Content-Length: 4" +:+ CRLF +:+ CRLF +:+ "ab"; "cd"] [Err UnexpectedEof])
    = Val (Ok (Some (mkParsedRequest "PUT" "/jails/web-0" "abcd"))).
Proof.
  apply (@request_roundtrip httparse_model);
    [reflexivity | reflexivity | vm_compute; discriminate | repeat constructor; discriminate
    | vm_compute; reflexivity].
Defined.

Lemma response_roundtrip_witness :
  @forward_response httparse_model (delivers [agent_write_response 200 "ok"] [Err UnexpectedEof])
    = Ok (200%N, "ok") /\
  is_ok (@forward_response httparse_model
           (delivers ["HTTP/1.1 200 OK" +:+ CRLF +:+ "Content-Length: 2" +:+ CRLF
                      +:+ "Content-Type: application/yaml" +:+ CRLF +:+ "Connection: close" +:+ CRLF
                      +:+ CRLF +:+ "o"] [])) = false.
Proof.
  split.
  - apply (@response_roundtrip httparse_model agent_write_response 200 "ok"
             [agent_write_response 200 "ok"] EmptyString [Err UnexpectedEof]);
      [by left | lia | vm_compute; discriminate | repeat constructor; vm_compute; discriminate
      | right; left; by exists [] | vm_compute; reflexivity].
  - apply (@response_roundtrip httparse_model agent_write_response 200 "ok" _ "k" []);
      [by left | lia | vm_compute; discriminate | repeat constructor; vm_compute; discriminate
      | by left | vm_compute; reflexivity].
Defined.

Lemma content_length_overflow_panics_witness :
  @read_request httparse_model
    (delivers ["GET / HTTP/1.1" +:+ CRLF +:+ "Content-Length: 18446744073709551615" +:+ CRLF +:+ CRLF] [])
    = Panic.
Proof.
  apply (@content_length_overflow_panics httparse_model "GET" "/" u64_max);
    [reflexivity | reflexivity | vm_compute; discriminate | vm_compute; reflexivity
    | vm_compute; discriminate | repeat constructor; discriminate | vm_compute; reflexivity].
Defined.
