(* ===== verification/Float64.v ===== *)
(** * Binary64 floating point

    [f64] is IEEE 754 binary64 with round-to-nearest-even, in the executable
    specification of the standard library ([SpecFloat] at precision 53 and
    maximal exponent 1024).  This file gives the operations the sources use:
    arithmetic, comparison, [f64::min], [u64 as f64], [f64::round] followed by
    [as u32], and [str::parse::<f64>]; and proves that comparison is a total
    preorder on the values that are not NaN. *)

From Stdlib Require Import SpecFloat.
From Stdlib Require Export SpecFloat.
From S2P Require Import Prelude RustStr.

Abbreviation f64 := spec_float.

Definition f64_add : f64 -> f64 -> f64 := SFadd 53 1024.
Definition f64_sub : f64 -> f64 -> f64 := SFsub 53 1024.
Definition f64_mul : f64 -> f64 -> f64 := SFmul 53 1024.
Definition f64_div : f64 -> f64 -> f64 := SFdiv 53 1024.
Definition f64_ltb : f64 -> f64 -> bool := SFltb.
Definition f64_eqb : f64 -> f64 -> bool := SFeqb.
Definition f64_zero : f64 := S754_zero false.

Definition is_nan (x : f64) : bool :=
  match x with S754_nan => true | _ => false end.
Definition is_finite (x : f64) : bool :=
  match x with S754_zero _ | S754_finite _ _ _ => true | _ => false end.

(** [f64::min]: a NaN argument is ignored. *)
Definition f64_min (a b : f64) : f64 :=
  if is_nan a then b
  else if is_nan b then a
  else if f64_ltb b a then b else a.

(** [u64 as f64]. *)
Definition f64_of_N (n : N) : f64 := binary_normalize 53 1024 (Z.of_N n) 0 false.

(** [x.round() as u32]: half away from zero, then a saturating cast that sends
    NaN and negative values to 0. *)
Definition f64_round_as_u32 (x : f64) : N :=
  match x with
  | S754_nan | S754_zero _ | S754_infinity true | S754_finite true _ _ => 0
  | S754_infinity false => u32_max
  | S754_finite false m e =>
      let r := match e with
               | Zneg k => ((Zpos m + 2 ^ (Zpos k - 1)) / 2 ^ Zpos k)%Z
               | _ => (Zpos m * 2 ^ e)%Z
               end in
      N.min (Z.to_N r) u32_max
  end.

(** ** [str::parse::<f64>] *)

Fixpoint take_digits (s : string) : string * string :=
  match s with
  | EmptyString => (EmptyString, EmptyString)
  | String c s' =>
      if is_ascii_digit c
      then let '(d, r) := take_digits s' in (String c d, r)
      else (EmptyString, s)
  end.

(** Value of a digit string; the empty one has value 0. *)
Definition digits_value (s : string) : N := default 0%N (parse_digits s).

(** [± m * 10^e], correctly rounded. *)
Definition f64_of_decimal (sign : bool) (m : N) (e : Z) : f64 :=
  match m with
  | N0 => S754_zero sign
  | Npos p =>
      match e with
      | Zneg k =>
          let '(q, ez, l) := SFdiv_core_binary 53 1024 (Zpos p) 0 (10 ^ Zpos k)%Z 0 in
          binary_round_aux 53 1024 sign q ez l
      | _ => binary_round 53 1024 sign (p * Z.to_pos (10 ^ e)) 0
      end
  end.

(** The exponent part after the digits: [e]/[E], an optional sign, digits. *)
Definition parse_exponent (s : string) : option Z :=
  match s with
  | EmptyString => Some 0%Z
  | String c rest =>
      if ascii_eqb c "e"%char || ascii_eqb c "E"%char then
        let '(neg, ds) := match rest with
                          | String "-"%char r => (true, r)
                          | String "+"%char r => (false, r)
                          | _ => (false, rest)
                          end in
        match take_digits ds with
        | (d, EmptyString) =>
            if str_is_empty d then None
            else Some (if neg then (- Z.of_N (digits_value d))%Z else Z.of_N (digits_value d))
        | _ => None
        end
      else None
  end.

Definition parse_number (sign : bool) (s : string) : option f64 :=
  let '(int_part, rest) := take_digits s in
  let '(frac_part, rest) :=
    match rest with
    | String "."%char r => take_digits r
    | _ => (EmptyString, rest)
    end in
  if str_is_empty int_part && str_is_empty frac_part then None
  else
    e ← parse_exponent rest;
    Some (f64_of_decimal sign (digits_value (int_part +:+ frac_part))
            (e - Z.of_nat (String.length frac_part))).

Definition parse_f64 (s : string) : option f64 :=
  let '(sign, body) := match s with
                       | String "-"%char r => (true, r)
                       | String "+"%char r => (false, r)
                       | _ => (false, s)
                       end in
  let upper := to_ascii_uppercase body in
  if String.eqb upper "INF" || String.eqb upper "INFINITY" then Some (S754_infinity sign)
  else if String.eqb upper "NAN" then Some S754_nan
  else parse_number sign body.

(** ** Order

    Away from NaN, comparison is the lexicographic comparison of an integer
    key. *)

Definition f64_key (x : f64) : Z * Z * Z :=
  match x with
  | S754_infinity true => (-2, 0, 0)
  | S754_finite true m e => (-1, - e, - Zpos m)
  | S754_zero _ | S754_nan => (0, 0, 0)
  | S754_finite false m e => (1, e, Zpos m)
  | S754_infinity false => (2, 0, 0)
  end%Z.

Definition lex3 (a b : Z * Z * Z) : comparison :=
  let '(a1, a2, a3) := a in
  let '(b1, b2, b3) := b in
  match Z.compare a1 b1 with
  | Eq => match Z.compare a2 b2 with Eq => Z.compare a3 b3 | c => c end
  | c => c
  end.

Lemma SFcompare_key x y :
  is_nan x = false -> is_nan y = false ->
  SFcompare x y = Some (lex3 (f64_key x) (f64_key y)).
Proof.
  destruct x as [[]|[]| |[] m e], y as [[]|[]| |[] m' e']; try done; intros _ _; cbn.
  - replace (- e ?= - e')%Z with (CompOpp (e ?= e')%Z).
    + by destruct (e ?= e')%Z.
    + by rewrite <-Z.compare_antisym, (Z.compare_opp e e').
Qed.

Lemma lex3_antisym a b : lex3 a b = CompOpp (lex3 b a).
Proof.
  destruct a as [[a1 a2] a3], b as [[b1 b2] b3]; cbn.
  rewrite (Z.compare_antisym b1 a1), (Z.compare_antisym b2 a2), (Z.compare_antisym b3 a3).
  by destruct (Z.compare b1 a1), (Z.compare b2 a2), (Z.compare b3 a3).
Qed.

Lemma lex3_trans_lt a b c : lex3 a b <> Gt -> lex3 b c = Lt -> lex3 a c = Lt.
Proof.
  destruct a as [[a1 a2] a3], b as [[b1 b2] b3], c as [[c1 c2] c3]; cbn.
  destruct (Z.compare_spec a1 b1), (Z.compare_spec b1 c1), (Z.compare_spec a1 c1);
    try (intros; done || lia);
  destruct (Z.compare_spec a2 b2), (Z.compare_spec b2 c2), (Z.compare_spec a2 c2);
    try (intros; done || lia);
  destruct (Z.compare_spec a3 b3), (Z.compare_spec b3 c3), (Z.compare_spec a3 c3);
    intros; done || lia.
Qed.

Lemma lex3_trans_le a b c : lex3 a b <> Gt -> lex3 b c <> Gt -> lex3 a c <> Gt.
Proof.
  intros Hab Hbc. destruct (lex3 b c) eqn:E.
  - rewrite lex3_antisym in E. intros Hac. rewrite lex3_antisym in Hac.
    destruct (lex3 c a) eqn:E'; try done.
    rewrite lex3_antisym in Hab.
    assert (lex3 c b <> Gt) as Hcb by (destruct (lex3 c b); done).
    destruct a as [[a1 a2] a3], b as [[b1 b2] b3], c as [[c1 c2] c3]; cbn in *.
    destruct (Z.compare_spec c1 b1), (Z.compare_spec c1 a1), (Z.compare_spec b1 a1);
      cbn in *; try (done || lia);
    destruct (Z.compare_spec c2 b2), (Z.compare_spec c2 a2), (Z.compare_spec b2 a2);
      cbn in *; try (done || lia);
    destruct (Z.compare_spec c3 b3), (Z.compare_spec c3 a3), (Z.compare_spec b3 a3);
      cbn in *; done || lia.
  - by rewrite (lex3_trans_lt a b c).
  - done.
Qed.

Section ltb_facts.
Implicit Types x y z : f64.

Lemma f64_ltb_lex x y :
  is_nan x = false -> is_nan y = false ->
  f64_ltb x y = true <-> lex3 (f64_key x) (f64_key y) = Lt.
Proof.
  intros Hx Hy. unfold f64_ltb, SFltb. rewrite SFcompare_key by done.
  by destruct (lex3 _ _).
Qed.

Lemma f64_eqb_lex x y :
  is_nan x = false -> is_nan y = false ->
  f64_eqb x y = true <-> lex3 (f64_key x) (f64_key y) = Eq.
Proof.
  intros Hx Hy. unfold f64_eqb, SFeqb. rewrite SFcompare_key by done.
  by destruct (lex3 _ _).
Qed.

Lemma f64_min_not_nan x y :
  is_nan (f64_min x y) = is_nan x && is_nan y.
Proof.
  unfold f64_min. destruct (is_nan x) eqn:?, (is_nan y) eqn:?; cbn; try done.
  by destruct (f64_ltb y x).
Qed.
End ltb_facts.

(** ** Conversions from u64 are finite, so their quotients are never NaN *)

Lemma shr_1_m mrs : (0 <= shr_m mrs)%Z -> shr_m (shr_1 mrs) = (shr_m mrs / 2)%Z.
Proof.
  destruct mrs as [[|[p|p|]|p] r s]; cbn; intros H; done || lia.
Qed.

Lemma iter_shr_m p mrs :
  (0 <= shr_m mrs)%Z -> shr_m (SpecFloat.iter_pos shr_1 p mrs) = (shr_m mrs / 2 ^ Zpos p)%Z.
Proof.
  revert mrs. induction p as [p IH|p IH|]; intros mrs H; cbn [SpecFloat.iter_pos];
    try pose proof (Z.pow_pos_nonneg 2 (Zpos p) ltac:(lia) ltac:(lia)) as Hpow.
  - assert (0 <= shr_m (shr_1 mrs))%Z as H1 by (rewrite shr_1_m by done; apply Z.div_pos; lia).
    rewrite !IH, shr_1_m; try done.
    + rewrite !Z.div_div by lia.
      f_equal. rewrite <-Z.pow_add_r by lia.
      rewrite <-Z.pow_succ_r by lia. f_equal. lia.
    + rewrite IH by done. apply Z.div_pos; [done|]. apply Z.pow_pos_nonneg; lia.
  - rewrite !IH; try done.
    + rewrite Z.div_div by lia.
      f_equal. rewrite <-Z.pow_add_r by lia. f_equal. lia.
    + rewrite IH by done. apply Z.div_pos; [done|]. apply Z.pow_pos_nonneg; lia.
  - by rewrite shr_1_m.
Qed.

Lemma digits2_pos_bounds m :
  (2 ^ (Zpos (digits2_pos m) - 1) <= Zpos m < 2 ^ Zpos (digits2_pos m))%Z.
Proof.
  induction m as [m IH|m IH|]; cbn [digits2_pos]; [| |lia];
    rewrite Pos2Z.inj_succ, Z.sub_1_r, Z.pred_succ;
    rewrite Z.pow_succ_r by lia;
    replace (2 ^ Zpos (digits2_pos m))%Z with (2 * 2 ^ (Zpos (digits2_pos m) - 1))%Z in *
      by (rewrite <-Z.pow_succ_r by lia; f_equal; lia); lia.
Qed.

(** What a right shift to the format exponent does to a nonnegative
    mantissa. *)
Lemma shr_fexp_spec m e l :
  (0 <= m)%Z ->
  let k := Z.max 0 (fexp 53 1024 (Zdigits2 m + e) - e) in
  shr_m (fst (shr_fexp 53 1024 m e l)) = (m / 2 ^ k)%Z /\
  snd (shr_fexp 53 1024 m e l) = (e + k)%Z.
Proof.
  intros Hm k. unfold shr_fexp, shr.
  assert (shr_m (shr_record_of_loc m l) = m) as Hl by (by destruct l as [|[]]).
  subst k. destruct (fexp 53 1024 (Zdigits2 m + e) - e)%Z as [|p|p] eqn:E.
  - cbn [fst snd]. rewrite Hl. cbn. rewrite Z.div_1_r. split; lia.
  - cbn [fst snd]. rewrite iter_shr_m by (by rewrite Hl). rewrite Hl.
    replace (Z.max 0 (Z.pos p)) with (Z.pos p) by lia. done.
  - cbn [fst snd]. rewrite Hl. cbn. rewrite Z.div_1_r. split; lia.
Qed.

Lemma round_nearest_even_bounds m l :
  (m <= round_nearest_even m l <= m + 1)%Z.
Proof. destruct l as [|[]]; cbn; try lia. destruct (Z.even m); lia. Qed.

Lemma Zdigits2_le m k : (0 <= m < 2 ^ k)%Z -> (0 <= k)%Z -> (Zdigits2 m <= k)%Z.
Proof.
  destruct m as [|p|p]; cbn; try lia. intros Hp Hk.
  pose proof (digits2_pos_bounds p) as Hd.
  assert (2 ^ (Zpos (digits2_pos p) - 1) < 2 ^ k)%Z as Hlt by lia.
  apply Z.pow_lt_mono_r_iff in Hlt; lia.
Qed.

(** Rounding a nonnegative mantissa never yields NaN. *)
Lemma binary_round_aux_not_nan s m e l :
  (0 <= m)%Z -> is_nan (binary_round_aux 53 1024 s m e l) = false.
Proof.
  intros Hm. unfold binary_round_aux.
  destruct (shr_fexp 53 1024 m e l) as [mrs' e'] eqn:E.
  destruct (shr_fexp_spec m e l Hm) as [Hm' _]. rewrite E in Hm'. cbn [fst] in Hm'.
  assert (0 <= shr_m mrs')%Z as Hp.
  { rewrite Hm'. apply Z.div_pos; [done|]. apply Z.pow_pos_nonneg; lia. }
  pose proof (round_nearest_even_bounds (shr_m mrs') (loc_of_shr_record mrs')) as Hr.
  set (r := round_nearest_even _ _) in *.
  destruct (shr_fexp 53 1024 r e' loc_Exact) as [mrs'' e''] eqn:E'.
  destruct (shr_fexp_spec r e' loc_Exact ltac:(lia)) as [Hm'' _].
  rewrite E' in Hm''. cbn [fst] in Hm''.
  assert (0 <= shr_m mrs'')%Z as Hp''.
  { rewrite Hm''. apply Z.div_pos; [lia|]. apply Z.pow_pos_nonneg; lia. }
  destruct (shr_m mrs''); [done| |lia]. by destruct (_ <=? _)%Z.
Qed.

Lemma binary_normalize_not_nan m e s : is_nan (binary_normalize 53 1024 m e s) = false.
Proof.
  destruct m; cbn [binary_normalize]; [done| |];
    unfold binary_round; destruct (shl_align _ _ _); by apply binary_round_aux_not_nan.
Qed.

Lemma Zdigits2_bounds m :
  (0 < m)%Z -> (1 <= Zdigits2 m)%Z /\ (2 ^ (Zdigits2 m - 1) <= m)%Z.
Proof. destruct m as [|p|p]; cbn; try lia. pose proof (digits2_pos_bounds p). lia. Qed.

Lemma shr_fexp_pos m e l :
  (0 < m)%Z -> (-1000 <= e)%Z ->
  (0 < shr_m (fst (shr_fexp 53 1024 m e l)) <= m)%Z /\
  (e <= snd (shr_fexp 53 1024 m e l) <= Z.max e (Zdigits2 m + e - 53))%Z.
Proof.
  intros Hm He. destruct (shr_fexp_spec m e l ltac:(lia)) as [-> ->].
  destruct (Zdigits2_bounds m Hm) as [Hd Hlow].
  unfold fexp, emin. set (k := Z.max 0 _).
  assert (k = Z.max 0 (Zdigits2 m - 53))%Z as Hk by lia.
  pose proof (Z.pow_pos_nonneg 2 k ltac:(lia) ltac:(lia)) as Hpow.
  assert (2 ^ k <= m)%Z as Hle.
  { transitivity (2 ^ (Zdigits2 m - 1))%Z; [apply Z.pow_le_mono_r; lia | done]. }
  split; [|lia]. split; [apply Z.div_str_pos; lia|].
  apply Z.div_le_upper_bound; [lia|]. nia.
Qed.

Lemma binary_round_aux_finite s m e l :
  (0 < m < 2 ^ 100)%Z -> (-1000 <= e <= 100)%Z ->
  exists m' e', binary_round_aux 53 1024 s m e l = S754_finite s m' e'.
Proof.
  intros Hm He. unfold binary_round_aux.
  destruct (shr_fexp 53 1024 m e l) as [mrs' e'] eqn:E.
  destruct (shr_fexp_pos m e l ltac:(lia) ltac:(lia)) as [Hm' He'].
  rewrite E in Hm', He'. cbn [fst snd] in Hm', He'.
  pose proof (Zdigits2_le m 100 ltac:(lia) ltac:(lia)) as Hdm.
  pose proof (round_nearest_even_bounds (shr_m mrs') (loc_of_shr_record mrs')) as Hr.
  set (r := round_nearest_even _ _) in *.
  destruct (shr_fexp 53 1024 r e' loc_Exact) as [mrs'' e''] eqn:E'.
  destruct (shr_fexp_pos r e' loc_Exact ltac:(lia) ltac:(lia)) as [Hm'' He''].
  rewrite E' in Hm'', He''. cbn [fst snd] in Hm'', He''.
  pose proof (Zdigits2_le r 101 ltac:(lia) ltac:(lia)) as Hdr.
  destruct (shr_m mrs'') as [|p|p]; try lia.
  assert ((e'' <=? 1024 - 53)%Z = true) as -> by lia. eauto.
Qed.

Lemma iter_xO p k : Zpos (Pos.iter xO p k) = (Zpos p * 2 ^ Zpos k)%Z.
Proof.
  induction k as [|k IH] using Pos.peano_ind; [cbn; lia|].
  rewrite Pos.iter_succ, Pos2Z.inj_xO, IH, Pos2Z.inj_succ, Z.pow_succ_r by lia. lia.
Qed.

Lemma f64_of_N_finite n :
  (0 < n <= u64_max)%N -> exists m e, f64_of_N n = S754_finite false m e.
Proof.
  intros Hn. unfold f64_of_N. destruct n as [|p]; [lia|]. cbn [Z.of_N binary_normalize].
  assert (Zpos p < 2 ^ 64)%Z as Hp by (unfold u64_max in Hn; lia).
  unfold binary_round, shl_align, fexp, emin.
  pose proof (digits2_pos_bounds p) as Hd.
  pose proof (Zdigits2_le (Zpos p) 64 ltac:(lia) ltac:(lia)) as Hd64. cbn in Hd64.
  destruct (_ - 0)%Z as [|k|k] eqn:E.
  - apply binary_round_aux_finite; lia.
  - apply binary_round_aux_finite; lia.
  - apply binary_round_aux_finite; [|lia].
    rewrite iter_xO.
    assert (Zpos p * 2 ^ Zpos k < 2 ^ 53)%Z.
    { replace 53%Z with (Zpos (digits2_pos p) + Zpos k)%Z by lia.
      rewrite Z.pow_add_r by lia. apply Z.mul_lt_mono_pos_r; [|lia].
      apply Z.pow_pos_nonneg; lia. }
    pose proof (Z.pow_pos_nonneg 2 (Zpos k) ltac:(lia) ltac:(lia)). lia.
Qed.

Lemma f64_of_N_is_finite n : (n <= u64_max)%N -> is_finite (f64_of_N n) = true.
Proof.
  intros Hn. destruct (decide (n = 0%N)) as [->|]; [done|].
  destruct (f64_of_N_finite n) as (m & e & ->); [lia | done].
Qed.

(** The fraction [(a as f64 - b as f64) / c as f64] of u64 values with [c > 0]
    is not NaN. *)
Lemma u64_fraction_not_nan a b c :
  (a <= u64_max)%N -> (b <= u64_max)%N -> (0 < c <= u64_max)%N ->
  is_nan (f64_div (f64_sub (f64_of_N a) (f64_of_N b)) (f64_of_N c)) = false.
Proof.
  intros Ha Hb Hc. destruct (f64_of_N_finite c Hc) as (mc & ec & ->).
  apply f64_of_N_is_finite in Ha, Hb.
  assert (is_nan (f64_sub (f64_of_N a) (f64_of_N b)) = false) as Hsub.
  { destruct (f64_of_N a) as [[]|[]| |[] ma ea], (f64_of_N b) as [[]|[]| |[] mb eb];
      try done; apply binary_normalize_not_nan. }
  destruct (f64_sub _ _) as [s|s| |s m e]; try done.
  unfold f64_div, SFdiv. unfold SFdiv_core_binary.
  set (m' := match _ with Z0 => _ | Zpos _ => _ | Zneg _ => _ end).
  assert (0 <= m')%Z as Hm'.
  { subst m'. destruct (_ - _ - _)%Z; try lia. apply Z.shiftl_nonneg. lia. }
  pose proof (Z.div_pos m' (Zpos mc) Hm' ltac:(lia)) as Hq.
  unfold Z.div in Hq. destruct (Z.div_eucl m' (Z.pos mc)) as [q r].
  by apply binary_round_aux_not_nan.
Qed.
