(* ===== verification/Ipnet.v ===== *)
(** * IPv4 addresses and the [ipnet] crate

    [Ipv4Addr] is an u32.  [Ipv4Net] is an address with a prefix length; its
    operations belong to the third-party crate [ipnet], so they are the
    methods of the class [Ipnet], whose laws are the documented behaviour of
    that crate.  [ipnet_model] is an executable instance: it shows that the
    laws can hold together and evaluates the model on concrete inputs. *)

From S2P Require Import Prelude RustStr.

(** ** [std::net::Ipv4Addr] *)

Abbreviation Ipv4Addr := N.

Definition octet (a : N) (i : N) : N := (a / 2 ^ (8 * i)) mod 256.

Definition ipv4_to_string (a : Ipv4Addr) : string :=
  u_to_string (octet a 3) +:+ "." +:+ u_to_string (octet a 2) +:+ "." +:+
  u_to_string (octet a 1) +:+ "." +:+ u_to_string (octet a 0).

(** [Ipv4Addr::from_str]: four decimal octets with no leading zero. *)
Definition parse_octet (s : string) : option N :=
  n ← parse_uint 255 s;
  if String.eqb (u_to_string n) s then Some n else None.

Definition parse_ipv4 (s : string) : option Ipv4Addr :=
  match split "."%char s with
  | [s3; s2; s1; s0] =>
      o3 ← parse_octet s3; o2 ← parse_octet s2;
      o1 ← parse_octet s1; o0 ← parse_octet s0;
      Some (o3 * 2 ^ 24 + o2 * 2 ^ 16 + o1 * 2 ^ 8 + o0)%N
  | _ => None
  end.

(** ** [ipnet::Ipv4Net] *)

Record Ipv4Net : Type := mkNet { net_addr : Ipv4Addr; prefix_len : N }.

#[global] Instance Ipv4Net_eq_dec : EqDecision Ipv4Net.
Proof. solve_decision. Defined.

(** The type invariant: [Ipv4Net::new] rejects a prefix length above 32. *)
Definition net_wf (n : Ipv4Net) : Prop :=
  (net_addr n <= u32_max)%N /\ (prefix_len n <= 32)%N.
#[global] Instance net_wf_dec n : Decision (net_wf n).
Proof. unfold net_wf. apply _. Defined.

Definition N_range (lo : N) (n : N) : list N :=
  (fun i => lo + N.of_nat i)%N <$> seq 0 (N.to_nat n).

Definition block_size (n : Ipv4Net) : N := (2 ^ (32 - prefix_len n))%N.
Definition masked (n : Ipv4Net) (a : Ipv4Addr) : Ipv4Addr := (a - a mod block_size n)%N.

Class Ipnet : Type := {
  Ipv6Net : Type;
  net_new : Ipv4Addr -> N -> option Ipv4Net;
  network : Ipv4Net -> Ipv4Addr;
  hosts : Ipv4Net -> list Ipv4Addr;
  net_contains : Ipv4Net -> Ipv4Addr -> bool;
  net_to_string : Ipv4Net -> string;
  net_parse : string -> option Ipv4Net;
  ipnet_parse : string -> result string (Ipv4Net + Ipv6Net);

  net_new_spec : forall a p,
    net_new a p = if (p <=? 32)%N then Some (mkNet a p) else None;
  network_spec : forall n, net_wf n -> network n = masked n (net_addr n);
  hosts_spec : forall n, net_wf n -> (prefix_len n < 31)%N ->
    hosts n = N_range (network n + 1) (block_size n - 2);
  net_contains_spec : forall n a, net_wf n ->
    net_contains n a = (masked n a =? network n)%N;
  net_to_string_spec : forall n,
    net_to_string n = ipv4_to_string (net_addr n) +:+ String "/" (u_to_string (prefix_len n));
  net_parse_to_string : forall n, net_wf n -> net_parse (net_to_string n) = Some n;
  net_parse_wf : forall s n, net_parse s = Some n -> net_wf n;
  ipnet_parse_v4 : forall s n, ipnet_parse s = Ok (inl n) <-> net_parse s = Some n;
  ipnet_parse_v6 : exists n6, ipnet_parse "fd00::/32" = Ok (inr n6)
}.

(** ** Ranges of addresses *)

Lemma elem_of_N_range lo n x : x ∈ N_range lo n <-> (lo <= x < lo + n)%N.
Proof.
  unfold N_range. rewrite list_elem_of_fmap. split.
  - intros (i & -> & Hi%elem_of_seq). lia.
  - intros Hx. exists (N.to_nat (x - lo)). split; [lia|]. apply elem_of_seq. lia.
Qed.

Lemma NoDup_N_range lo n : NoDup (N_range lo n).
Proof. apply NoDup_fmap_2; [intros i j; lia | apply NoDup_seq]. Qed.

Lemma length_N_range lo n : length (N_range lo n) = N.to_nat n.
Proof. unfold N_range. by rewrite length_fmap, length_seq. Qed.
#[global] Hint Resolve NoDup_N_range : keel.

Lemma block_size_pos n : (0 < block_size n)%N.
Proof. unfold block_size. apply N.neq_0_lt_0, N.pow_nonzero. lia. Qed.

Lemma block_size_dvd n : (prefix_len n <= 32)%N ->
  (2 ^ 32 = 2 ^ prefix_len n * block_size n)%N.
Proof. intros Hp. unfold block_size. rewrite <-N.pow_add_r. f_equal. lia. Qed.

(** The whole block of a network fits the address space. *)
Lemma masked_block_bound n a :
  (a <= u32_max)%N -> (prefix_len n <= 32)%N ->
  (masked n a + block_size n <= 2 ^ 32)%N.
Proof.
  intros Ha Hp. unfold masked, u32_max in *.
  pose proof (block_size_pos n) as Hb. pose proof (block_size_dvd n Hp) as Hd.
  set (b := block_size n) in *. set (q := (2 ^ prefix_len n)%N) in *.
  assert (a / b < q)%N as Hq by (apply N.Div0.div_lt_upper_bound; lia).
  rewrite N_sub_mod by lia. revert Hq. generalize (a / b)%N. intros c Hq.
  pose proof (N.mul_le_mono_l (c + 1) q b ltac:(lia)). lia.
Qed.

Lemma masked_le n a : (masked n a <= a)%N.
Proof. apply N.le_sub_l. Qed.

(** Adding an offset inside the block does not leave the network. *)
Lemma masked_add n a i : (i < block_size n)%N -> masked n (masked n a + i) = masked n a.
Proof.
  intros Hi. unfold masked at 1 3. unfold masked.
  pose proof (block_size_pos n) as Hb. set (b := block_size n) in *.
  rewrite (N_sub_mod a b) by lia. generalize (a / b)%N. intros c.
  replace ((b * c + i) mod b)%N with i; [lia|].
  rewrite N.add_comm, N.mul_comm, N.Div0.mod_add, N.mod_small; lia.
Qed.

Section laws.
Context {I : Ipnet}.
Implicit Types n : Ipv4Net.

Lemma network_bound n : net_wf n -> (network n + block_size n <= 2 ^ 32)%N.
Proof. intros Hw. rewrite network_spec by done. apply masked_block_bound; apply Hw. Qed.

Lemma net_contains_offset n i :
  net_wf n -> (i < block_size n)%N -> net_contains n (network n + i) = true.
Proof.
  intros Hw Hi. rewrite net_contains_spec, network_spec by done.
  apply N.eqb_eq. by apply masked_add.
Qed.

Lemma net_to_string_inj n m :
  net_wf n -> net_wf m -> net_to_string n = net_to_string m -> n = m.
Proof.
  intros Hn Hm H. apply (f_equal net_parse) in H.
  rewrite !net_parse_to_string in H by done. by simplify_eq.
Qed.

Lemma elem_of_hosts n a :
  net_wf n -> (prefix_len n < 31)%N ->
  a ∈ hosts n <-> (network n < a < network n + block_size n - 1)%N.
Proof.
  intros Hw Hp. rewrite hosts_spec, elem_of_N_range by done.
  assert (4 <= block_size n)%N; [|lia].
  unfold block_size. change 4%N with (2 ^ 2)%N. apply N.pow_le_mono_r; lia.
Qed.
End laws.

(** ** An executable instance *)

Definition net_parse_model (s : string) : option Ipv4Net :=
  '(a, p) ← split_once "/"%char s;
  a ← parse_ipv4 a;
  p ← parse_uint 32 p;
  Some (mkNet a p).

Definition ipnet_parse_model (s : string) : result string (Ipv4Net + string) :=
  match net_parse_model s with
  | Some n => Ok (inl n)
  | None => if contains_char ":"%char s then Ok (inr s) else Err "invalid IP address syntax"
  end.

Lemma parse_octet_to_string o : (o < 256)%N -> parse_octet (u_to_string o) = Some o.
Proof.
  intros Ho. unfold parse_octet. rewrite parse_uint_u_to_string by lia. cbn.
  by rewrite String.eqb_refl.
Qed.

Lemma octet_lt a i : (octet a i < 256)%N.
Proof. apply N.mod_lt. lia. Qed.

Lemma octets_value a :
  (a <= u32_max)%N ->
  (octet a 3 * 2 ^ 24 + octet a 2 * 2 ^ 16 + octet a 1 * 2 ^ 8 + octet a 0)%N = a.
Proof.
  unfold octet, u32_max. intros Ha. cbn [N.mul Pos.mul]. change (8 * 3)%N with 24%N.
  change (2 ^ (8 * 0))%N with 1%N. rewrite N.div_1_r.
  assert (forall x, x / 2 ^ (8 * 2) = x / 256 / 256)%N as H2.
  { intros x. by rewrite N.Div0.div_div. }
  assert (forall x, x / 2 ^ 24 = x / 256 / 256 / 256)%N as H3.
  { intros x. by rewrite !N.Div0.div_div. }
  rewrite H2, H3. change (2 ^ (8 * 1))%N with 256%N.
  assert (a / 256 / 256 / 256 < 256)%N as Hlt.
  { rewrite !N.Div0.div_div. apply N.Div0.div_lt_upper_bound. lia. }
  rewrite (N.mod_small (a / 256 / 256 / 256)) by done.
  pose proof (N.div_mod a 256 ltac:(lia)) as E0.
  pose proof (N.div_mod (a / 256) 256 ltac:(lia)) as E1.
  pose proof (N.div_mod (a / 256 / 256) 256 ltac:(lia)) as E2.
  revert E0 E1 E2. generalize (a / 256 / 256 / 256)%N. intros c3.
  generalize (a / 256 / 256 mod 256)%N. intros r2. generalize (a / 256 / 256)%N. intros c2.
  generalize (a / 256 mod 256)%N. intros r1. generalize (a / 256)%N. intros c1.
  generalize (a mod 256)%N. intros r0. lia.
Qed.

Lemma parse_ipv4_to_string a : (a <= u32_max)%N -> parse_ipv4 (ipv4_to_string a) = Some a.
Proof.
  intros Ha. unfold parse_ipv4, ipv4_to_string. str_simpl.
  assert (forall o, contains_char "."%char (u_to_string o) = false) as Hdot.
  { intros o. apply digits_no_char; [done | apply u_to_string_digits]. }
  rewrite !split_cons_sep, split_no_sep by apply Hdot.
  rewrite !parse_octet_to_string by apply octet_lt. cbn.
  f_equal. by apply octets_value.
Qed.

Lemma ipv4_to_string_no_slash a : contains_char "/"%char (ipv4_to_string a) = false.
Proof.
  unfold ipv4_to_string, contains_char. str_simpl.
  assert (forall o t, str_any (ascii_eqb "/"%char) t = false ->
            str_any (ascii_eqb "/"%char) (u_to_string o +:+ t) = false) as Happ.
  { intros o t Ht. pose proof (u_to_string_digits o) as Hd. revert Hd.
    induction (u_to_string o) as [|c s IH]; str_simpl; [done|].
    intros [Hc Hs]%andb_true_iff. rewrite IH by done.
    unfold ascii_eqb. rewrite bool_decide_eq_false_2; [done|]. by intros <-. }
  apply Happ; cbn. apply Happ; cbn. apply Happ; cbn.
  rewrite <-(app_nil_r_str (u_to_string _)). by apply Happ.
Qed.

Definition net_to_string_model (n : Ipv4Net) : string :=
  ipv4_to_string (net_addr n) +:+ String "/" (u_to_string (prefix_len n)).

Lemma net_parse_to_string_model n :
  net_wf n -> net_parse_model (net_to_string_model n) = Some n.
Proof.
  intros [Ha Hp]. unfold net_parse_model, net_to_string_model.
  rewrite (proj2 (split_once_Some _ _ (ipv4_to_string (net_addr n)) (u_to_string (prefix_len n))))
    by (split; [done | apply ipv4_to_string_no_slash]).
  cbn. rewrite parse_ipv4_to_string by done. cbn.
  rewrite parse_uint_u_to_string by done. by destruct n.
Qed.

Lemma parse_octet_bound s n : parse_octet s = Some n -> (n <= 255)%N.
Proof.
  unfold parse_octet. intros (m & Hm & H)%bind_Some.
  apply parse_uint_bound in Hm. destruct (_ =? _)%string; by simplify_eq.
Qed.

Lemma parse_ipv4_bound s a : parse_ipv4 s = Some a -> (a <= u32_max)%N.
Proof.
  unfold parse_ipv4, u32_max. intros H.
  destruct (split "." s) as [|s3 [|s2 [|s1 [|s0 [|]]]]]; try done.
  apply bind_Some in H as (o3 & H3 & H). apply bind_Some in H as (o2 & H2 & H).
  apply bind_Some in H as (o1 & H1 & H). apply bind_Some in H as (o0 & H0 & H).
  apply parse_octet_bound in H3, H2, H1, H0. simplify_eq. lia.
Qed.

Lemma net_parse_wf_model s n : net_parse_model s = Some n -> net_wf n.
Proof.
  unfold net_parse_model. intros ([a p] & _ & H)%bind_Some.
  apply bind_Some in H as (a' & Ha%parse_ipv4_bound & H).
  apply bind_Some in H as (p' & Hp%parse_uint_bound & H). by simplify_eq.
Qed.

Lemma ipnet_parse_v4_model s n :
  ipnet_parse_model s = Ok (inl n) <-> net_parse_model s = Some n.
Proof.
  unfold ipnet_parse_model. destruct (net_parse_model s); [naive_solver|].
  destruct (contains_char ":" s); naive_solver.
Qed.

Definition network_model (n : Ipv4Net) : Ipv4Addr := masked n (net_addr n).
Definition hosts_model (n : Ipv4Net) : list Ipv4Addr :=
  if (prefix_len n <? 31)%N then N_range (network_model n + 1) (block_size n - 2)
  else N_range (network_model n) (block_size n).

Lemma hosts_spec_model n :
  (prefix_len n < 31)%N -> hosts_model n = N_range (network_model n + 1) (block_size n - 2).
Proof. intros H%N.ltb_lt. unfold hosts_model. by rewrite H. Qed.

Definition ipnet_model : Ipnet := {|
  Ipv6Net := string;
  net_new a p := if (p <=? 32)%N then Some (mkNet a p) else None;
  network := network_model;
  hosts := hosts_model;
  net_contains n a := (masked n a =? network_model n)%N;
  net_to_string := net_to_string_model;
  net_parse := net_parse_model;
  ipnet_parse := ipnet_parse_model;
  net_new_spec a p := eq_refl;
  network_spec n _ := eq_refl;
  hosts_spec n _ := hosts_spec_model n;
  net_contains_spec n a _ := eq_refl;
  net_to_string_spec n := eq_refl;
  net_parse_to_string := net_parse_to_string_model;
  net_parse_wf := net_parse_wf_model;
  ipnet_parse_v4 := ipnet_parse_v4_model;
  ipnet_parse_v6 := ex_intro _ "fd00::/32" eq_refl
|}.

Example net_display_10_0_131 :
  @net_to_string ipnet_model (mkNet 167805696 24) = "10.0.131.0/24".
Proof. reflexivity. Qed.
