(* ===== verification/SockAddr.v ===== *)
(** * Socket addresses

    [std::net]: the parsers of socket and IP addresses the clients use, and
    [server_name_from_addr], which the agent, the control plane and [keelctl] have
    in common ([tls.rs]). *)

From S2P Require Import Prelude RustStr Text Ipnet.

(** ** [SocketAddr::from_str] *)

Inductive SocketAddr : Type :=
  | SockV4 (ip : Ipv4Addr) (port : N)
  | SockV6 (segments : list N) (scope_id port : N).

Definition read_char (c : ascii) (s : string) : option string :=
  match s with
  | String d s => if ascii_eqb c d then Some s else None
  | EmptyString => None
  end.

Fixpoint span (p : ascii -> bool) (s : string) : string * string :=
  match s with
  | String c t => if p c then let '(l, r) := span p t in (String c l, r) else (EmptyString, s)
  | EmptyString => (EmptyString, EmptyString)
  end.

Definition hex_digit (c : ascii) : option N :=
  if is_ascii_digit c then Some (code c - 48)%N
  else if in_bytes 97 102 c then Some (code c - 87)%N
  else if in_bytes 65 70 c then Some (code c - 55)%N
  else None.

Fixpoint hex_value (acc : N) (s : string) : N :=
  match s with
  | String c s => hex_value (16 * acc + default 0 (hex_digit c))%N s
  | EmptyString => acc
  end.

(** A byte of an IPv4 address: at most three digits, no leading zero. *)
Definition read_octet (s : string) : option (N * string) :=
  let '(digits, rest) := span is_ascii_digit s in
  o ← parse_octet digits;
  Some (o, rest).

(** A decimal number up to [max], leading zeros allowed. *)
Definition read_decimal (max : N) (s : string) : option (N * string) :=
  let '(digits, rest) := span is_ascii_digit s in
  n ← parse_digits digits;
  if (n <=? max)%N then Some (n, rest) else None.

(** A group of an IPv6 address: at most four hexadecimal digits. *)
Definition read_hex (s : string) : option (N * string) :=
  let '(digits, rest) := span (fun c => is_some (hex_digit c)) s in
  if str_is_empty digits || (4 <? String.length digits)%nat then None
  else Some (hex_value 0 digits, rest).

Definition read_ipv4 (s : string) : option (Ipv4Addr * string) :=
  '(a, s) ← read_octet s;
  s ← read_char "."%char s;
  '(b, s) ← read_octet s;
  s ← read_char "."%char s;
  '(c, s) ← read_octet s;
  s ← read_char "."%char s;
  '(d, s) ← read_octet s;
  Some (a * 2 ^ 24 + b * 2 ^ 16 + c * 2 ^ 8 + d, s)%N.

(** [read_separator(':', index, inner)]. *)
Definition read_separated {A} (index : nat) (inner : string -> option (A * string)) (s : string)
    : option (A * string) :=
  match index with
  | O => inner s
  | S _ => s ← read_char ":"%char s; inner s
  end.

(** [read_groups]: up to [left] groups from slot [index] on; an IPv4 address may
    stand for two groups. *)
Fixpoint read_groups (index left : nat) (s : string) : list N * bool * string :=
  match left with
  | O => ([], false, s)
  | S left' =>
      let group :=
        match read_separated index read_hex s with
        | Some (g, s) =>
            let '(gs, v4, s) := read_groups (S index) left' s in (g :: gs, v4, s)
        | None => ([], false, s)
        end in
      match left' with
      | O => group
      | S _ =>
          match read_separated index read_ipv4 s with
          | Some (ip, s) => ([(ip / 2 ^ 16)%N; (ip mod 2 ^ 16)%N], true, s)
          | None => group
          end
      end
  end.

Definition read_ipv6 (s : string) : option (list N * string) :=
  let '(head, head_ipv4, s) := read_groups 0 8 s in
  if (length head =? 8)%nat then Some (head, s)
  else if head_ipv4 then None
  else
    s ← read_char ":"%char s;
    s ← read_char ":"%char s;
    let '(tail, _, s) := read_groups 0 (8 - (length head + 1)) s in
    Some (head ++ repeat 0%N (8 - length head - length tail) ++ tail, s).

Definition read_port (s : string) : option (N * string) :=
  s ← read_char ":"%char s;
  read_decimal u16_max s.

Definition read_socket_v4 (s : string) : option (SocketAddr * string) :=
  '(ip, s) ← read_ipv4 s;
  '(port, s) ← read_port s;
  Some (SockV4 ip port, s).

Definition read_socket_v6 (s : string) : option (SocketAddr * string) :=
  s ← read_char "["%char s;
  '(segments, s) ← read_ipv6 s;
  let '(scope_id, s) :=
    default (0%N, s) (t ← read_char "%"%char s; read_decimal u32_max t) in
  s ← read_char "]"%char s;
  '(port, s) ← read_port s;
  Some (SockV6 segments scope_id port, s).

Definition parse_socket_addr (s : string) : option SocketAddr :=
  '(addr, rest) ← match read_socket_v4 s with
                  | Some x => Some x
                  | None => read_socket_v6 s
                  end;
  if str_is_empty rest then Some addr else None.

Example parse_socket_examples :
  parse_socket_addr "10.0.1.2:8080" = Some (SockV4 167772418 8080) /\
  parse_socket_addr "[::1]:80" = Some (SockV6 [0; 0; 0; 0; 0; 0; 0; 1]%N 0 80) /\
  parse_socket_addr "[fe80::1%3]:80" = Some (SockV6 [65152; 0; 0; 0; 0; 0; 0; 1]%N 3 80) /\
  parse_socket_addr "[::ffff:10.0.0.1]:80" = Some (SockV6 [0; 0; 0; 0; 0; 65535; 2560; 1]%N 0 80) /\
  parse_socket_addr "::1:80" = None /\ parse_socket_addr "10.0.1.02:80" = None /\
  parse_socket_addr "10.0.1.2:65536" = None /\ parse_socket_addr "10.0.1.2/24:80" = None.
Proof. vm_compute. repeat split. Qed.

(** ** [IpAddr::from_str] *)

Inductive IpAddr : Type := IpV4 (ip : Ipv4Addr) | IpV6 (segments : list N).

Definition parse_ip_addr (s : string) : option IpAddr :=
  '(addr, rest) ← match read_ipv4 s with
                  | Some (ip, rest) => Some (IpV4 ip, rest)
                  | None => '(segments, rest) ← read_ipv6 s; Some (IpV6 segments, rest)
                  end;
  if str_is_empty rest then Some addr else None.

(** [tls::server_name_from_addr]: the name a peer's certificate is checked for. *)
Definition server_name_from_addr (addr : string) : result string IpAddr :=
  let host := match rsplit_once ":"%char addr with
              | Some (host, _port) => host
              | None => addr
              end in
  ok_or (parse_ip_addr host)
    ("expected an IP address in '" +:+ addr +:+ "', got '" +:+ host +:+ "': invalid IP address syntax").

Example server_name_examples :
  server_name_from_addr "192.168.64.4:7621" = Ok (IpV4 3232251908) /\
  server_name_from_addr "10.0.0.1" = Ok (IpV4 167772161) /\
  is_ok (server_name_from_addr "localhost:7620") = false /\
  is_ok (server_name_from_addr "[::1]:7620") = false.
Proof. vm_compute. repeat split. Qed.

#[global] Instance SocketAddr_inhabited : Inhabited SocketAddr := populate (SockV4 0 0).

(** ** Printed addresses *)

Lemma span_app p s t :
  str_all p s = true -> (forall c, str_first t = Some c -> p c = false) -> span p (s +:+ t) = (s, t).
Proof.
  intros Hs Ht. induction s as [|c s IH]; str_simpl.
  - destruct t as [|c t]; [done|]. cbn. by rewrite Ht.
  - cbn in Hs. apply andb_true_iff in Hs as [Hc Hs]. by rewrite Hc, IH.
Qed.

Lemma read_octet_printed o c rest :
  (o < 256)%N -> is_ascii_digit c = false ->
  read_octet (u_to_string o +:+ String c rest) = Some (o, String c rest).
Proof.
  intros Ho Hc. unfold read_octet.
  rewrite span_app; [|apply u_to_string_digits|by intros ? [= <-]].
  cbn. by rewrite parse_octet_to_string.
Qed.

Lemma read_char_same c s : read_char c (String c s) = Some s.
Proof. cbn. unfold ascii_eqb. by rewrite bool_decide_eq_true_2. Qed.

Lemma read_ipv4_printed a c rest :
  (a <= u32_max)%N -> is_ascii_digit c = false ->
  read_ipv4 (ipv4_to_string a +:+ String c rest) = Some (a, String c rest).
Proof.
  intros Ha Hc. unfold read_ipv4, ipv4_to_string.
  rewrite <- !app_assoc_str. str_simpl.
  do 4 (rewrite read_octet_printed by (apply octet_lt || done); cbn [mbind option_bind];
        rewrite ?read_char_same; cbn [mbind option_bind]).
  by rewrite octets_value.
Qed.

Lemma parse_socket_printed a port :
  (a <= u32_max)%N -> (port <= u16_max)%N ->
  parse_socket_addr (ipv4_to_string a +:+ ":" +:+ u_to_string port) = Some (SockV4 a port).
Proof.
  intros Ha Hp. unfold parse_socket_addr, read_socket_v4.
  change (":" +:+ u_to_string port) with (String ":"%char (u_to_string port)).
  rewrite read_ipv4_printed by done. cbn [mbind option_bind]. unfold read_port, read_decimal.
  rewrite read_char_same. cbn [mbind option_bind].
  rewrite <- (app_nil_r_str (u_to_string port)), span_app; [|apply u_to_string_digits|done].
  cbn. rewrite parse_digits_u_to_string. cbn. by rewrite (proj2 (N.leb_le _ _)).
Qed.
