(* ===== verification/Spec.v ===== *)
(** * keel-spec: resource specifications and their validation

    The types of [keel-spec/src/types.rs] and [error.rs], the validators of
    [validate.rs] and [resources.rs], and the entry points of [lib.rs].  YAML
    (de)serialisation is the third-party crate [serde_yaml]; it is the class
    [SerdeYaml], whose law is that a serialised value parses back. *)

From S2P Require Import Prelude RustStr Float64 Ipnet.

(** ** [serde_yaml] *)

(** The values of [A] that exist in Rust: the integers of a field are within
    the width of its type. *)
Class Repr (A : Type) : Type := repr : A -> Prop.
#[global] Hint Mode Repr ! : typeclass_instances.

Class SerdeYaml (A : Type) {R : Repr A} : Type := {
  to_yaml : A -> string;
  from_yaml : string -> result string A;
  from_to_yaml : forall x, repr x -> from_yaml (to_yaml x) = Ok x;
  from_yaml_repr : forall s x, from_yaml s = Ok x -> repr x
}.
#[global] Hint Mode SerdeYaml ! - : typeclass_instances.

(** The laws can hold: a countable type has an encoding as text, the binary
    digits of its code. *)
Fixpoint bits_to_string (p : positive) : string :=
  match p with
  | xH => EmptyString
  | xO p => String "0" (bits_to_string p)
  | xI p => String "1" (bits_to_string p)
  end.
Fixpoint bits_parse (s : string) : option positive :=
  match s with
  | EmptyString => Some xH
  | String c s =>
      p ← bits_parse s;
      if ascii_eqb c "0"%char then Some (xO p) else if ascii_eqb c "1"%char then Some (xI p) else None
  end.
Lemma bits_parse_to_string p : bits_parse (bits_to_string p) = Some p.
Proof. induction p as [p IH|p IH|]; cbn; [by rewrite IH|by rewrite IH|done]. Qed.

Section serde_countable.
Context {A : Type} `{Countable A} {R : Repr A} `{forall x : A, Decision (repr x)}.

Definition countable_from_yaml (s : string) : result string A :=
  match bits_parse s ≫= decode with
  | Some x => if bool_decide (repr x) then Ok x else Err "out of range"
  | None => Err "malformed document"
  end.

Lemma countable_from_to_yaml (x : A) :
  repr x -> countable_from_yaml (bits_to_string (encode x)) = Ok x.
Proof.
  intros Hx. unfold countable_from_yaml. rewrite bits_parse_to_string. cbn. rewrite decode_encode.
  by rewrite bool_decide_eq_true_2.
Qed.

Lemma countable_from_yaml_repr s (x : A) : countable_from_yaml s = Ok x -> repr x.
Proof.
  unfold countable_from_yaml. intros Hx. repeat (case_match; try done).
  case_bool_decide; by simplify_eq.
Qed.

Definition serde_countable : SerdeYaml A := {|
  to_yaml x := bits_to_string (encode x);
  from_yaml := countable_from_yaml;
  from_to_yaml := countable_from_to_yaml;
  from_yaml_repr := countable_from_yaml_repr
|}.
End serde_countable.

(** ** Types *)

Record Metadata : Type := mkMetadata { meta_name : string }.

Record VolumeMount : Type := mkVolumeMount {
  vol_name : string;
  vol_mount_path : string;
  vol_size : string
}.

Record NetworkSpec : Type := mkNetworkSpec {
  net_vnet : bool;
  net_bridge : string;
  net_address : string
}.

Record ResourcesSpec : Type := mkResourcesSpec { res_cpu : string; res_memory : string }.

Inductive RestartPolicy : Type := Always | OnFailure | Never.

Record Spec : Type := mkSpec {
  sp_image : string;
  sp_command : list string;
  sp_network : NetworkSpec;
  sp_resources : ResourcesSpec;
  sp_restart_policy : RestartPolicy;
  sp_volumes : list VolumeMount;
  sp_replicate_to : option string
}.

Record JailSpec : Type := mkJailSpec {
  js_api_version : string;
  js_kind : string;
  js_metadata : Metadata;
  js_spec : Spec
}.

Record TemplateNetworkSpec : Type := mkTemplateNetworkSpec {
  tn_vnet : bool;
  tn_bridge : string
}.

Record JailTemplate : Type := mkJailTemplate {
  t_image : string;
  t_command : list string;
  t_network : TemplateNetworkSpec;
  t_resources : ResourcesSpec;
  t_restart_policy : RestartPolicy;
  t_volumes : list VolumeMount
}.

Record ServiceSpecBody : Type := mkServiceSpecBody {
  sb_replicas : N;
  sb_port : N;
  sb_template : JailTemplate
}.

Record ServiceSpec : Type := mkServiceSpec {
  ss_api_version : string;
  ss_kind : string;
  ss_metadata : Metadata;
  ss_spec : ServiceSpecBody
}.

Record IngressBackend : Type := mkIngressBackend { ib_service : string; ib_port : N }.
Record IngressTls : Type := mkIngressTls { it_email : string }.
Record IngressSpecBody : Type := mkIngressSpecBody {
  isb_host : string;
  isb_backend : IngressBackend;
  isb_tls : IngressTls
}.
Record IngressSpec : Type := mkIngressSpec {
  is_api_version : string;
  is_kind : string;
  is_metadata : Metadata;
  is_spec : IngressSpecBody
}.

(** The one-field document [sniff_kind] deserialises. *)
Record KindOnly : Type := mkKindOnly { ko_kind : string }.

Inductive SpecError : Type :=
  | Yaml (e : string)
  | InvalidName (name : string)
  | InvalidAddress (address e : string)
  | InvalidCpu (s : string)
  | InvalidMemory (s : string)
  | InvalidPort (port : N)
  | DuplicateVolumeName (name : string)
  | ImmutableField (field : string)
  | InvalidHost (host : string)
  | InvalidEmail (email : string).

#[global] Instance JailSpec_repr : Repr JailSpec := fun _ => True.
#[global] Instance ServiceSpec_repr : Repr ServiceSpec := fun s =>
  (sb_replicas (ss_spec s) <= u32_max)%N /\ (sb_port (ss_spec s) <= u16_max)%N.
#[global] Instance IngressSpec_repr : Repr IngressSpec := fun s =>
  (ib_port (isb_backend (is_spec s)) <= u16_max)%N.
#[global] Instance KindOnly_repr : Repr KindOnly := fun _ => True.

(** The messages of [error.rs]. *)
Definition spec_error_to_string (e : SpecError) : string :=
  match e with
  | Yaml e => "failed to parse YAML: " +:+ e
  | InvalidName n => "invalid jail name '" +:+ n +:+ "': must be 1-63 lowercase alphanumeric characters or hyphens, starting and ending with an alphanumeric character"
  | InvalidAddress a e => "invalid network address '" +:+ a +:+ "': " +:+ e
  | InvalidCpu s => "invalid cpu value '" +:+ s +:+ "': must be a positive number of cores"
  | InvalidMemory s => "invalid memory value '" +:+ s +:+ "': expected a number optionally followed by K, M, or G"
  | InvalidPort p => "invalid port " +:+ u_to_string p +:+ ": must be non-zero"
  | DuplicateVolumeName n => "duplicate volume name '" +:+ n +:+ "' in spec.volumes"
  | ImmutableField f => "field '" +:+ f +:+ "' cannot be changed after the jail is created; delete and re-apply instead"
  | InvalidHost h => "invalid host '" +:+ h +:+ "': must be a syntactically well-formed DNS name"
  | InvalidEmail e => "invalid email '" +:+ e +:+ "': must be a syntactically well-formed email address"
  end.

#[global] Instance VolumeMount_eq_dec : EqDecision VolumeMount.
Proof. solve_decision. Defined.
#[global] Instance NetworkSpec_eq_dec : EqDecision NetworkSpec.
Proof. solve_decision. Defined.
#[global] Instance ResourcesSpec_eq_dec : EqDecision ResourcesSpec.
Proof. solve_decision. Defined.
#[global] Instance RestartPolicy_eq_dec : EqDecision RestartPolicy.
Proof. solve_decision. Defined.
#[global] Instance TemplateNetworkSpec_eq_dec : EqDecision TemplateNetworkSpec.
Proof. solve_decision. Defined.
#[global] Instance JailTemplate_eq_dec : EqDecision JailTemplate.
Proof. solve_decision. Defined.
#[global] Instance SpecError_eq_dec : EqDecision SpecError.
Proof. solve_decision. Defined.

(** [JailTemplate::to_jail_spec]. *)
Definition replica_volume (name : string) (v : VolumeMount) : VolumeMount :=
  mkVolumeMount (name +:+ "-" +:+ vol_name v) (vol_mount_path v) (vol_size v).

Definition to_jail_spec (t : JailTemplate) (name address : string) : JailSpec :=
  mkJailSpec "keel/v1" "Jail" (mkMetadata name)
    (mkSpec (t_image t) (t_command t)
       (mkNetworkSpec (tn_vnet (t_network t)) (tn_bridge (t_network t)) address)
       (t_resources t) (t_restart_policy t)
       (replica_volume name <$> t_volumes t)
       None).

(** ** [resources.rs] *)

Definition parse_cpu_cores (s : string) : result SpecError f64 :=
  match parse_f64 s with
  | None => Err (InvalidCpu s)
  | Some cores =>
      if f64_ltb f64_zero cores && is_finite cores then Ok cores
      else Err (InvalidCpu s)
  end.

Definition cores_to_pcpu_percent (cores : f64) : N :=
  f64_round_as_u32 (f64_mul cores (f64_of_N 100)).

(** The number and the unit a size is split into. *)
Definition memory_parts (upper : string) : string * N :=
  match strip_suffix_char "K"%char upper with
  | Some n => (n, 1024)%N
  | None =>
      match strip_suffix_char "M"%char upper with
      | Some n => (n, 1024 * 1024)%N
      | None =>
          match strip_suffix_char "G"%char upper with
          | Some n => (n, 1024 * 1024 * 1024)%N
          | None => (upper, 1%N)
          end
      end
  end.

Definition parse_memory_bytes (s : string) : result SpecError N :=
  let '(num_part, multiplier) := memory_parts (to_ascii_uppercase s) in
  match parse_uint u64_max num_part with
  | None => Err (InvalidMemory s)
  | Some value =>
      if (value =? 0)%N then Err (InvalidMemory s)
      else ok_or (checked_mul_u64 value multiplier) (InvalidMemory s)
  end.

Definition parse_zfs_quota (s : string) : result SpecError N := parse_memory_bytes s.

(** ** [validate.rs] *)

Definition name_char (c : ascii) : bool :=
  is_ascii_lowercase c || is_ascii_digit c || ascii_eqb c "-"%char.

Definition opt_is (p : ascii -> bool) (o : option ascii) : bool :=
  match o with Some c => p c | None => false end.

Definition name_valid (name : string) : bool :=
  negb (str_is_empty name)
  && (String.length name <=? 63)%nat
  && str_all name_char name
  && opt_is is_ascii_alphanumeric (str_first name)
  && opt_is is_ascii_alphanumeric (str_last name).

Definition validate_name (name : string) : result SpecError unit :=
  if name_valid name then Ok tt else Err (InvalidName name).

Definition validate_address {I : Ipnet} (address : string) : result SpecError unit :=
  match ipnet_parse address with
  | Ok _ => Ok tt
  | Err e => Err (InvalidAddress address e)
  end.

Fixpoint validate_volumes_loop (seen : gset string) (volumes : list VolumeMount)
    : result SpecError unit :=
  match volumes with
  | [] => Ok tt
  | volume :: rest =>
      _ ← validate_name (vol_name volume);
      if bool_decide (vol_name volume ∈ seen)
      then Err (DuplicateVolumeName (vol_name volume))
      else
        _ ← parse_zfs_quota (vol_size volume);
        validate_volumes_loop ({[vol_name volume]} ∪ seen) rest
  end.

Definition validate_volumes (volumes : list VolumeMount) : result SpecError unit :=
  validate_volumes_loop ∅ volumes.

Definition validate_transition (old new : JailSpec) : result SpecError unit :=
  if negb (String.eqb (sp_image (js_spec old)) (sp_image (js_spec new)))
  then Err (ImmutableField "spec.image")
  else if negb (String.eqb (net_address (sp_network (js_spec old)))
                           (net_address (sp_network (js_spec new))))
  then Err (ImmutableField "spec.network.address")
  else if negb (bool_decide (sp_volumes (js_spec old) = sp_volumes (js_spec new)))
  then Err (ImmutableField "spec.volumes")
  else Ok tt.

Definition label_char (c : ascii) : bool :=
  is_ascii_alphanumeric c || ascii_eqb c "-"%char.

Definition label_valid (label : string) : bool :=
  negb (str_is_empty label)
  && (String.length label <=? 63)%nat
  && str_all label_char label
  && opt_is is_ascii_alphanumeric (str_first label)
  && opt_is is_ascii_alphanumeric (str_last label).

Definition validate_host (host : string) : result SpecError unit :=
  let labels := split "."%char host in
  if (2 <=? length labels)%nat && forallb label_valid labels
  then Ok tt else Err (InvalidHost host).

(** [str::contains(char::is_whitespace)]: the text holds the UTF-8 encoding of
    a character with the White_Space property. *)
Definition bytes (l : list N) : string :=
  foldr (fun b s => String (ascii_of_N b) s) EmptyString l.

Definition whitespace_encodings : list string :=
  bytes <$>
    [[9]; [10]; [11]; [12]; [13]; [32]; [194; 133]; [194; 160]; [225; 154; 128];
     [226; 128; 128]; [226; 128; 129]; [226; 128; 130]; [226; 128; 131];
     [226; 128; 132]; [226; 128; 133]; [226; 128; 134]; [226; 128; 135];
     [226; 128; 136]; [226; 128; 137]; [226; 128; 138]; [226; 128; 168];
     [226; 128; 169]; [226; 128; 175]; [226; 129; 159]; [227; 128; 128]]%N.

Fixpoint contains_whitespace (s : string) : bool :=
  existsb (fun w => is_some (strip_prefix w s)) whitespace_encodings
  || match s with EmptyString => false | String _ s' => contains_whitespace s' end.

Definition validate_email (email : string) : result SpecError unit :=
  let valid :=
    match split_once "@"%char email with
    | Some (local, domain) =>
        negb (str_is_empty local)
        && negb (str_is_empty domain)
        && negb (contains_whitespace local)
        && negb (contains_whitespace domain)
        && contains_char "."%char domain
    | None => false
    end in
  if valid then Ok tt else Err (InvalidEmail email).

(** ** [lib.rs] *)

Section entry_points.
Context {I : Ipnet}.
Context {YJ : SerdeYaml JailSpec} {YS : SerdeYaml ServiceSpec}
        {YI : SerdeYaml IngressSpec} {YK : SerdeYaml KindOnly}.

Definition parse_and_validate (yaml : string) : result SpecError JailSpec :=
  spec ← map_err Yaml (from_yaml yaml : result string JailSpec);
  _ ← validate_name (meta_name (js_metadata spec));
  _ ← validate_address (net_address (sp_network (js_spec spec)));
  _ ← parse_cpu_cores (res_cpu (sp_resources (js_spec spec)));
  _ ← parse_memory_bytes (res_memory (sp_resources (js_spec spec)));
  _ ← validate_volumes (sp_volumes (js_spec spec));
  Ok spec.

Definition parse_and_validate_service (yaml : string) : result SpecError ServiceSpec :=
  spec ← map_err Yaml (from_yaml yaml : result string ServiceSpec);
  let template := sb_template (ss_spec spec) in
  _ ← validate_name (meta_name (ss_metadata spec));
  _ ← parse_cpu_cores (res_cpu (t_resources template));
  _ ← parse_memory_bytes (res_memory (t_resources template));
  _ ← validate_volumes (t_volumes template);
  if (sb_port (ss_spec spec) =? 0)%N then Err (InvalidPort 0) else Ok spec.

Definition parse_and_validate_ingress (yaml : string) : result SpecError IngressSpec :=
  spec ← map_err Yaml (from_yaml yaml : result string IngressSpec);
  _ ← validate_name (meta_name (is_metadata spec));
  _ ← validate_host (isb_host (is_spec spec));
  _ ← validate_email (it_email (isb_tls (is_spec spec)));
  if (ib_port (isb_backend (is_spec spec)) =? 0)%N then Err (InvalidPort 0) else Ok spec.

Definition sniff_kind (yaml : string) : result SpecError string :=
  sniff ← map_err Yaml (from_yaml yaml : result string KindOnly);
  Ok (ko_kind sniff).
End entry_points.

(** ** Sizes *)

Lemma ascii_upper_digit c : is_ascii_digit c = true -> ascii_upper c = c.
Proof.
  unfold is_ascii_digit, ascii_upper, is_ascii_lowercase. intros H. bool_to_prop.
  rewrite (proj2 (N.leb_gt _ _)) by lia. done.
Qed.

Lemma to_ascii_uppercase_digits s t :
  str_all is_ascii_digit s = true ->
  to_ascii_uppercase (s +:+ t) = s +:+ to_ascii_uppercase t.
Proof.
  induction s as [|c s IH]; str_simpl; [done|].
  intros [Hc Hs]%andb_true_iff. by rewrite ascii_upper_digit, IH.
Qed.

Lemma strip_suffix_char_app a b s :
  strip_suffix_char a (s +:+ String b EmptyString) = if ascii_eqb a b then Some s else None.
Proof.
  induction s as [|c s IH]; str_simpl; [done|].
  destruct (s +:+ String b EmptyString) eqn:E; [by destruct s|].
  rewrite IH. by destruct (ascii_eqb a b).
Qed.

Lemma strip_suffix_char_digits a s :
  is_ascii_digit a = false -> str_all is_ascii_digit s = true -> strip_suffix_char a s = None.
Proof.
  intros Ha. induction s as [|c s IH]; cbn; [done|].
  intros [Hc Hs]%andb_true_iff. destruct s as [|d s].
  - unfold ascii_eqb. rewrite bool_decide_eq_false_2; [done|]. congruence.
  - by rewrite IH.
Qed.

Lemma parse_uint_u_to_string_gen max n :
  parse_uint max (u_to_string n) = if (n <=? max)%N then Some n else None.
Proof.
  rewrite parse_uint_no_plus by apply u_to_string_no_plus.
  by rewrite parse_digits_u_to_string.
Qed.

(** The units a size may carry, in either case, and their byte counts. *)
Inductive size_unit : Type := UByte | UKilo | UMega | UGiga.

Definition unit_text (lower : bool) (u : size_unit) : string :=
  match u, lower with
  | UByte, _ => EmptyString
  | UKilo, false => "K" | UKilo, true => "k"
  | UMega, false => "M" | UMega, true => "m"
  | UGiga, false => "G" | UGiga, true => "g"
  end.

Definition unit_bytes (u : size_unit) : N :=
  match u with UByte => 1 | UKilo => 2 ^ 10 | UMega => 2 ^ 20 | UGiga => 2 ^ 30 end.

Lemma memory_parts_unit lower n u :
  memory_parts (to_ascii_uppercase (u_to_string n +:+ unit_text lower u))
  = (u_to_string n, unit_bytes u).
Proof.
  rewrite to_ascii_uppercase_digits by apply u_to_string_digits.
  unfold memory_parts. destruct u, lower; cbn [unit_text to_ascii_uppercase];
    rewrite ?app_nil_r_str, ?strip_suffix_char_app; try reflexivity;
    rewrite !strip_suffix_char_digits by (done || apply u_to_string_digits); reflexivity.
Qed.

(** [parse_memory_bytes] on a decimal count followed by a unit (none, K, M
    or G, in either case) returns count times unit exactly when the count is
    positive and the product fits an u64, and rejects every other count,
    without wrapping around. *)
Theorem parse_memory_bytes_correct (lower : bool) (n : N) (u : size_unit) :
  let s := u_to_string n +:+ unit_text lower u in
  parse_memory_bytes s =
    if (0 <? n)%N && (n * unit_bytes u <=? u64_max)%N
    then Ok (n * unit_bytes u)%N else Err (InvalidMemory s).
Proof.
  intros s. unfold parse_memory_bytes, s. rewrite memory_parts_unit.
  rewrite parse_uint_u_to_string_gen. unfold checked_mul_u64.
  assert (1 <= unit_bytes u)%N by (by destruct u).
  destruct (n <=? u64_max)%N eqn:Hmax; bool_to_prop.
  - destruct (decide (n = 0%N)) as [->|Hn]; [done|].
    assert ((n =? 0)%N = false) as -> by lia. assert ((0 <? n)%N = true) as -> by lia.
    by destruct (_ * _ <=? _)%N.
  - assert ((n * unit_bytes u <=? u64_max)%N = false) as -> by nia. by rewrite andb_false_r.
Qed.

(** ** Volumes *)

Definition volume_ok (v : VolumeMount) : Prop :=
  name_valid (vol_name v) = true /\ exists b, parse_zfs_quota (vol_size v) = Ok b.

Lemma name_char_no_slash s : str_all name_char s = true -> contains_char "/"%char s = false.
Proof. by apply str_all_no_char. Qed.

Lemma name_char_ascii c : name_char c = true -> (code c <? 128)%N = true.
Proof.
  unfold name_char, is_ascii_lowercase, is_ascii_digit, ascii_eqb. intros H. apply N.ltb_lt.
  rewrite !orb_true_iff, !andb_true_iff, !N.leb_le, bool_decide_eq_true in H.
  destruct H as [[|]| ->]; [lia|lia|by vm_compute].
Qed.

Lemma validate_name_Ok s u : validate_name s = Ok u <-> name_valid s = true.
Proof. unfold validate_name. destruct (name_valid s), u; naive_solver. Qed.

Lemma validate_volumes_loop_Ok seen vs :
  validate_volumes_loop seen vs = Ok tt <->
  Forall volume_ok vs /\ NoDup (vol_name <$> vs) /\ Forall (fun v => vol_name v ∉ seen) vs.
Proof.
  revert seen. induction vs as [|v vs IH]; intros seen; cbn [validate_volumes_loop fmap list_fmap].
  - split; [repeat constructor | done].
  - rewrite bind_Ok. setoid_rewrite validate_name_Ok.
    rewrite !Forall_cons, NoDup_cons. unfold volume_ok at 1. split.
    + intros (_ & Hn & H). case_bool_decide as Hs; [done|].
      apply bind_Ok in H as (b & Hb & H). apply IH in H as (Hok & Hnd & Hseen).
      repeat split; eauto.
      * rewrite list_elem_of_fmap. intros (w & Hw & Hin).
        rewrite Forall_forall in Hseen. specialize (Hseen w Hin). set_solver.
      * eapply Forall_impl; [exact Hseen|]. set_solver.
    + intros [[[Hn [b Hb]] Hok] [[Hnotin Hnd] [Hs Hseen]]]. exists tt. split; [done|].
      rewrite bool_decide_eq_false_2 by done. apply bind_Ok. exists b. split; [done|].
      apply IH. repeat split; try done. rewrite Forall_forall in Hseen |- *.
      intros w Hw. specialize (Hseen w Hw).
      assert (vol_name w <> vol_name v); [|set_solver].
      intros E. apply Hnotin. rewrite <-E. by apply list_elem_of_fmap_2.
Qed.

(** [validate_volumes] accepts a list exactly when every volume has a valid
    name and a parsable size and no two volumes share a name. *)
Theorem validate_volumes_correct (vs : list VolumeMount) :
  validate_volumes vs = Ok tt <-> Forall volume_ok vs /\ NoDup (vol_name <$> vs).
Proof.
  unfold validate_volumes. rewrite validate_volumes_loop_Ok.
  split; [naive_solver|]. intros [? ?]. repeat split; try done.
  apply Forall_forall. set_solver.
Qed.

(** Volumes of a replica keep distinct names, prefixed by the replica's. *)
Lemma to_jail_spec_volumes_NoDup t name address :
  NoDup (vol_name <$> t_volumes t) ->
  NoDup (vol_name <$> sp_volumes (js_spec (to_jail_spec t name address))).
Proof.
  cbn. rewrite <-list_fmap_compose. intros H.
  replace ((vol_name ∘ replica_volume name) <$> t_volumes t)
    with ((fun v => name +:+ "-" +:+ v) <$> (vol_name <$> t_volumes t))
    by (by rewrite <-list_fmap_compose).
  apply NoDup_fmap_2; [|done]. intros a b Hab. apply String.app_inj in Hab.
  str_simpl. by injection Hab.
Qed.

(** ** Validated names *)

Lemma name_valid_spec s :
  name_valid s = true <->
  s <> EmptyString /\ (String.length s <= 63)%nat /\ str_all name_char s = true /\
  opt_is is_ascii_alphanumeric (str_first s) = true /\
  opt_is is_ascii_alphanumeric (str_last s) = true.
Proof.
  unfold name_valid. rewrite !andb_true_iff, negb_true_iff, Nat.leb_le.
  destruct s; cbn; naive_solver.
Qed.

(** The characters a validated service specification guarantees of the
    templates the control plane stores. *)
Definition template_valid (t : JailTemplate) : Prop :=
  (exists c, parse_cpu_cores (res_cpu (t_resources t)) = Ok c) /\
  (exists b, parse_memory_bytes (res_memory (t_resources t)) = Ok b) /\
  validate_volumes (t_volumes t) = Ok tt.

Section entry_facts.
Context {I : Ipnet}.
Context {YS : SerdeYaml ServiceSpec}.

Lemma parse_and_validate_service_Ok yaml spec :
  parse_and_validate_service yaml = Ok spec <->
  from_yaml yaml = Ok spec /\
  name_valid (meta_name (ss_metadata spec)) = true /\
  template_valid (sb_template (ss_spec spec)) /\
  sb_port (ss_spec spec) <> 0%N.
Proof.
  unfold parse_and_validate_service, template_valid. rewrite bind_Ok. split.
  - intros (s & Hy & H). destruct (from_yaml yaml) as [s'|] eqn:E; [|done].
    cbn in Hy. simplify_eq.
    apply bind_Ok in H as (u & Hu%validate_name_Ok & H).
    apply bind_Ok in H as (c & Hc & H). apply bind_Ok in H as (b & Hb & H).
    apply bind_Ok in H as ([] & Hv & H).
    destruct (_ =? 0)%N eqn:Hp; [done|]. bool_to_prop. simplify_eq. eauto 10.
  - intros (Hy & Hn & ((c & Hc) & (b & Hb) & Hv) & Hp). exists spec. rewrite Hy. split; [done|].
    rewrite (proj2 (validate_name_Ok _ tt) Hn). cbn. rewrite Hc. cbn. rewrite Hb. cbn.
    rewrite Hv. cbn. by rewrite (proj2 (N.eqb_neq _ _) Hp).
Qed.
End entry_facts.
