(* ===== verification/Subnet.v ===== *)
(** * keel-controlplane/src/subnet.rs: hash-derived address blocks

    [fnv1a], the /24 pod block of a node and the virtual address of a service.
    All arithmetic is at width 32 and panics on overflow, an out-of-range shift
    or a failed assertion; the theorems show that none of it can happen for
    the accepted prefix lengths. *)

From S2P Require Import Prelude RustStr Ipnet.

Definition POD_PREFIX_LEN : N := 24.

Definition FNV_OFFSET_BASIS : N := 2166136261.
Definition FNV_PRIME : N := 16777619.

Fixpoint fnv1a_loop (hash : N) (bytes : string) : N :=
  match bytes with
  | EmptyString => hash
  | String byte rest => fnv1a_loop (wrap32 (N.lxor hash (code byte) * FNV_PRIME)) rest
  end.

Definition fnv1a (bytes : string) : N := fnv1a_loop FNV_OFFSET_BASIS bytes.

Section subnet.
Context {I : Ipnet}.

Definition derive_pod_cidr (node_id : string) (cluster_cidr : Ipv4Net) : comp Ipv4Net :=
  if (prefix_len cluster_cidr <=? POD_PREFIX_LEN)%N then
    block_count ← shl1_u32 (POD_PREFIX_LEN - prefix_len cluster_cidr);
    let index := (fnv1a node_id mod block_count)%N in
    let base := network cluster_cidr in
    block ← shl1_u32 (32 - POD_PREFIX_LEN);
    offset ← mul_u32 index block;
    block_addr ← add_u32 base offset;
    match net_new block_addr POD_PREFIX_LEN with
    | Some net => Val net
    | None => Panic
    end
  else Panic.

Definition derive_service_vip (service_name : string) (service_cidr : Ipv4Net)
    (attempt : N) : comp Ipv4Addr :=
  if (0 <? prefix_len service_cidr)%N then
    host_count ← shl1_u32 (32 - prefix_len service_cidr);
    let index := (wrap32 (fnv1a service_name + attempt) mod host_count)%N in
    let base := network service_cidr in
    add_u32 base index
  else Panic.
End subnet.

(** The values the unit tests of the source compute by hand. *)
Example fnv1a_node_1 : fnv1a "node-1" = 1422144387%N.
Proof. reflexivity. Qed.

Definition cidr_10_0_0_0_16 : Ipv4Net := mkNet 167772160 16.

Example derive_pod_cidr_node_1 :
  @derive_pod_cidr ipnet_model "node-1" cidr_10_0_0_0_16 = Val (mkNet 167805696 24).
Proof. reflexivity. Qed.

(** ** Bounds *)

Lemma wrap32_lt n : (wrap32 n < 2 ^ 32)%N.
Proof. apply N.mod_lt. lia. Qed.

Lemma fnv1a_loop_bound h s : (h < 2 ^ 32)%N -> (fnv1a_loop h s < 2 ^ 32)%N.
Proof.
  revert h. induction s as [|c s IH]; intros h Hh; cbn [fnv1a_loop]; [done|].
  apply IH, wrap32_lt.
Qed.

Lemma fnv1a_bound s : (fnv1a s < 2 ^ 32)%N.
Proof. by apply fnv1a_loop_bound. Qed.

Section bounds.
Context {I : Ipnet}.
Implicit Types (cluster_cidr service_cidr : Ipv4Net).

(** The block index of a node inside its cluster network. *)
Definition pod_index (node_id : string) cluster_cidr : N :=
  (fnv1a node_id mod 2 ^ (24 - prefix_len cluster_cidr))%N.

Lemma pod_index_bound node_id c :
  (prefix_len c <= 24)%N -> (pod_index node_id c * 256 + 256 <= block_size c)%N.
Proof.
  intros Hp. unfold pod_index, block_size.
  replace (32 - prefix_len c)%N with ((24 - prefix_len c) + 8)%N by lia.
  rewrite N.pow_add_r. change (2 ^ 8)%N with 256%N.
  set (q := (2 ^ (24 - prefix_len c))%N).
  assert (q <> 0)%N as Hq by (apply N.pow_nonzero; lia).
  pose proof (N.mod_lt (fnv1a node_id) q Hq) as H. revert H.
  generalize (fnv1a node_id mod q)%N. intros x Hx. nia.
Qed.

Lemma derive_pod_cidr_value node_id c :
  net_wf c -> (prefix_len c <= 24)%N ->
  derive_pod_cidr node_id c = Val (mkNet (network c + pod_index node_id c * 256) 24).
Proof.
  intros Hw Hp. unfold derive_pod_cidr, POD_PREFIX_LEN.
  rewrite (proj2 (N.leb_le _ _) Hp).
  rewrite (shl1_u32_Val (24 - prefix_len c)), Val_bind by lia. cbn zeta. fold (pod_index node_id c).
  pose proof (pod_index_bound node_id c Hp) as Hi.
  pose proof (network_bound c Hw) as Hn. change (2 ^ 32)%N with 4294967296%N in Hn.
  rewrite shl1_u32_Val, Val_bind by lia. change (2 ^ (32 - 24))%N with 256%N.
  rewrite mul_u32_Val, Val_bind by (unfold u32_max; lia).
  rewrite add_u32_Val, Val_bind by (unfold u32_max; lia).
  by rewrite net_new_spec.
Qed.

Lemma derive_pod_cidr_shape_ex node_id c :
  net_wf c -> (prefix_len c <= 24)%N ->
  exists net, derive_pod_cidr node_id c = Val net /\
    net_wf net /\ prefix_len net = 24%N /\ network net = net_addr net.
Proof.
  intros Hw Hp. eexists. split; [by apply derive_pod_cidr_value|].
  pose proof (pod_index_bound node_id c Hp) as Hi.
  pose proof (network_bound c Hw) as Hn. change (2 ^ 32)%N with 4294967296%N in Hn.
  set (net := mkNet _ _).
  assert (net_wf net) as Hnet by (split; cbn; unfold u32_max; lia).
  split; [done|]. split; [done|].
  rewrite network_spec by done. unfold masked, block_size. cbn [net prefix_len net_addr].
  change (2 ^ (32 - 24))%N with 256%N.
  assert ((network c + pod_index node_id c * 256) mod 256 = 0)%N as ->; [|lia].
  rewrite N.Div0.mod_add, network_spec by done. unfold masked, block_size.
  replace (32 - prefix_len c)%N with ((24 - prefix_len c) + 8)%N by lia.
  rewrite N_sub_mod by (apply N.pow_nonzero; lia).
  rewrite N.pow_add_r. change (2 ^ 8)%N with 256%N.
  rewrite <-N.mul_assoc, (N.mul_comm 256), N.mul_assoc. apply N.Div0.mod_mul.
Qed.

Lemma derive_pod_cidr_shape node_id c net :
  net_wf c -> (prefix_len c <= 24)%N -> derive_pod_cidr node_id c = Val net ->
  net_wf net /\ prefix_len net = 24%N /\ network net = net_addr net.
Proof.
  intros Hw Hp Hd. destruct (derive_pod_cidr_shape_ex node_id c Hw Hp) as (net' & Hd' & H).
  rewrite Hd in Hd'. by injection Hd' as ->.
Qed.

(** For a cluster network of at most 24 prefix bits the derivation of a
    node's pod block never panics, and the block is a /24 that starts on a
    /24 boundary inside the cluster network, so two pod blocks are equal or
    disjoint. *)
Theorem derive_pod_cidr_correct node_id cluster_cidr :
  net_wf cluster_cidr -> (prefix_len cluster_cidr <= 24)%N ->
  exists net, derive_pod_cidr node_id cluster_cidr = Val net /\
    net_wf net /\ prefix_len net = 24%N /\ network net = net_addr net /\
    forall i, (i < 256)%N -> net_contains cluster_cidr (network net + i) = true.
Proof.
  intros Hw Hp. destruct (derive_pod_cidr_shape_ex node_id _ Hw Hp) as (net & Hd & Hs).
  exists net. split; [done|]. split; [apply Hs|]. split; [apply Hs|]. split; [apply Hs|].
  destruct Hs as (_ & _ & ->). rewrite derive_pod_cidr_value in Hd by done. simplify_eq/=.
  pose proof (pod_index_bound node_id cluster_cidr Hp) as Hi. intros i Hi'.
  rewrite <-N.add_assoc. apply net_contains_offset; [done|lia].
Qed.

(** ** Service addresses *)

Definition vip_index (name : string) (attempt : N) service_cidr : N :=
  ((fnv1a name + attempt) mod block_size service_cidr)%N.

Lemma wrap32_mod_block n c :
  (prefix_len c <= 32)%N -> (wrap32 n mod block_size c = n mod block_size c)%N.
Proof.
  intros Hp. unfold wrap32. change 4294967296%N with (2 ^ 32)%N.
  rewrite (block_size_dvd c Hp), N.mul_comm, N.Div0.mod_mul_r, N.mul_comm.
  rewrite N.Div0.mod_add, N.Div0.mod_mod. done.
Qed.

Lemma vip_index_lt name attempt c : (vip_index name attempt c < block_size c)%N.
Proof. apply N.mod_lt. pose proof (block_size_pos c). lia. Qed.

Lemma derive_service_vip_value name c attempt :
  net_wf c -> (0 < prefix_len c)%N ->
  derive_service_vip name c attempt = Val (network c + vip_index name attempt c)%N.
Proof.
  intros Hw Hp. unfold derive_service_vip.
  rewrite (proj2 (N.ltb_lt 0 _) Hp), shl1_u32_Val, Val_bind by lia. cbn zeta.
  fold (block_size c). rewrite wrap32_mod_block by apply Hw.
  fold (vip_index name attempt c). pose proof (network_bound c Hw) as Hn.
  change (2 ^ 32)%N with 4294967296%N in Hn.
  pose proof (vip_index_lt name attempt c).
  by rewrite add_u32_Val by (unfold u32_max; lia).
Qed.

(** Consecutive attempts reach every offset of the block. *)
Lemma vip_index_surj name c i :
  (i < block_size c)%N -> exists attempt, (attempt < block_size c)%N /\
    vip_index name attempt c = i.
Proof.
  intros Hi. unfold vip_index. pose proof (block_size_pos c) as Hb.
  set (b := block_size c) in *. set (h := fnv1a name).
  pose proof (N.mod_lt h b ltac:(lia)) as Hh.
  exists ((i + (b - h mod b)) mod b)%N. split; [apply N.mod_lt; lia|].
  rewrite <-N.Div0.add_mod_idemp_l, N.Div0.add_mod_idemp_r. revert Hh.
  generalize (h mod b)%N. intros r Hr.
  replace (r + (i + (b - r)))%N with (i + 1 * b)%N by lia.
  rewrite N.Div0.mod_add. by apply N.mod_small.
Qed.
End bounds.

Lemma derive_pod_cidr_correct_witness :
  exists net, @derive_pod_cidr ipnet_model "node-1" cidr_10_0_0_0_16 = Val net /\
    net_wf net /\ prefix_len net = 24%N /\ @network ipnet_model net = net_addr net /\
    forall i, (i < 256)%N ->
      @net_contains ipnet_model cidr_10_0_0_0_16 (@network ipnet_model net + i) = true.
Proof.
  apply (@derive_pod_cidr_correct ipnet_model "node-1" cidr_10_0_0_0_16);
    [split; vm_compute; discriminate | vm_compute; discriminate].
Defined.
