(* ===== verification/Wire.v ===== *)
(** * Wire types of the control plane

    The structs of [keel-controlplane/src/wire.rs] (the agent's
    [keel-agentd/src/wire.rs] mirrors them), sent as YAML bodies. *)

From S2P Require Import Prelude Float64 Spec.

Record NodeRegistration : Type := mkNodeRegistration {
  reg_id : string;
  reg_addr : string;
  reg_replicate_addr : option string;
  reg_capacity_cpu : f64;
  reg_capacity_memory : N
}.

Record JailHealth : Type := mkJailHealth { jh_name : string; jh_running : bool }.

Record Heartbeat : Type := mkHeartbeat {
  hb_committed_cpu : f64;
  hb_committed_memory : N;
  hb_jails : list JailHealth
}.

Inductive NodeState : Type := Alive | Dead.
#[global] Instance NodeState_eq_dec : EqDecision NodeState.
Proof. solve_decision. Defined.

Record NodeStatus : Type := mkNodeStatus {
  ns_id : string;
  ns_addr : string;
  ns_pod_cidr : string;
  ns_status : NodeState;
  ns_last_seen_secs : N;
  ns_capacity_cpu : f64;
  ns_capacity_memory : N;
  ns_committed_cpu : f64;
  ns_committed_memory : N
}.

Record RegisterResponse : Type := mkRegisterResponse { rr_pod_cidr : string }.

Record ErrorBody : Type := mkErrorBody { eb_error : string }.

Record ServiceReplica : Type := mkServiceReplica {
  sr_name : string;
  sr_node : string;
  sr_address : string
}.

Record ServiceSummary : Type := mkServiceSummary {
  sm_name : string;
  sm_desired_replicas : N;
  sm_vip : string;
  sm_port : N
}.

Record ServiceProxyEntry : Type := mkServiceProxyEntry {
  pe_name : string;
  pe_vip : string;
  pe_port : N;
  pe_replicas : list ServiceReplica
}.

#[global] Instance NodeRegistration_repr : Repr NodeRegistration := fun r =>
  (reg_capacity_memory r <= u64_max)%N.
#[global] Instance Heartbeat_repr : Repr Heartbeat := fun h =>
  (hb_committed_memory h <= u64_max)%N.
#[global] Instance RegisterResponse_repr : Repr RegisterResponse := fun _ => True.
#[global] Instance ErrorBody_repr : Repr ErrorBody := fun _ => True.

Definition node_status_repr (n : NodeStatus) : Prop :=
  (ns_last_seen_secs n <= u64_max)%N /\ (ns_capacity_memory n <= u64_max)%N /\
  (ns_committed_memory n <= u64_max)%N.
#[global] Instance NodeStatuses_repr : Repr (list NodeStatus) := Forall node_status_repr.
#[global] Instance ServiceReplicas_repr : Repr (list ServiceReplica) := fun _ => True.
#[global] Instance ServiceSummaries_repr : Repr (list ServiceSummary) :=
  Forall (fun s => (sm_desired_replicas s <= u32_max)%N /\ (sm_port s <= u16_max)%N).
#[global] Instance ServiceProxyEntries_repr : Repr (list ServiceProxyEntry) :=
  Forall (fun e => (pe_port e <= u16_max)%N).
