(* ===== verification/Codecs.v ===== *)
(** * Executable YAML codecs

    An instance of [SerdeYaml] for every document type, through a countable
    encoding: the laws of the class hold together, and the handlers can be
    evaluated on concrete documents.  The text is not YAML; nothing depends on
    what it looks like. *)

From Stdlib Require Import SpecFloat.
From S2P Require Import Prelude Float64 Spec Wire.

#[global] Instance f64_eq_dec : EqDecision f64.
Proof. intros x y. unfold Decision. solve [repeat decide equality]. Defined.

Definition f64_code (x : f64) : nat * bool * positive * Z :=
  match x with
  | S754_zero s => (0%nat, s, 1%positive, 0%Z)
  | S754_infinity s => (1%nat, s, 1%positive, 0%Z)
  | S754_nan => (2%nat, false, 1%positive, 0%Z)
  | S754_finite s m e => (3%nat, s, m, e)
  end.
Definition f64_uncode (c : nat * bool * positive * Z) : f64 :=
  match c with
  | (0%nat, s, _, _) => S754_zero s
  | (1%nat, s, _, _) => S754_infinity s
  | (2%nat, _, _, _) => S754_nan
  | (_, s, m, e) => S754_finite s m e
  end.
#[global] Instance f64_countable : Countable f64.
Proof. apply (inj_countable' f64_code f64_uncode). by intros []. Defined.

#[global] Instance RestartPolicy_countable : Countable RestartPolicy.
Proof.
  refine (inj_countable' (fun p => match p with Always => 0%nat | OnFailure => 1%nat | Never => 2%nat end)
    (fun n => match n with 0%nat => Always | 1%nat => OnFailure | _ => Never end) _).
  by intros [].
Defined.
#[global] Instance NodeState_countable : Countable NodeState.
Proof.
  refine (inj_countable' (fun p => match p with Alive => true | Dead => false end)
    (fun b : bool => if b then Alive else Dead) _).
  by intros [].
Defined.

#[global] Instance Metadata_eq_dec : EqDecision Metadata.
Proof. solve_decision. Defined.
#[global] Instance Metadata_countable : Countable Metadata.
Proof. refine (inj_countable' meta_name mkMetadata _). by intros []. Defined.
#[global] Instance VolumeMount_countable : Countable VolumeMount.
Proof.
  refine (inj_countable' (fun x => (vol_name x, vol_mount_path x, vol_size x))
    (fun '(a0, a1, a2) => mkVolumeMount a0 a1 a2) _).
  by intros [].
Defined.
#[global] Instance NetworkSpec_countable : Countable NetworkSpec.
Proof.
  refine (inj_countable' (fun x => (net_vnet x, net_bridge x, net_address x))
    (fun '(a0, a1, a2) => mkNetworkSpec a0 a1 a2) _).
  by intros [].
Defined.
#[global] Instance ResourcesSpec_countable : Countable ResourcesSpec.
Proof.
  refine (inj_countable' (fun x => (res_cpu x, res_memory x))
    (fun '(a0, a1) => mkResourcesSpec a0 a1) _).
  by intros [].
Defined.
#[global] Instance Spec_eq_dec : EqDecision Spec.
Proof. solve_decision. Defined.
#[global] Instance Spec_countable : Countable Spec.
Proof.
  refine (inj_countable' (fun x => (sp_image x, sp_command x, sp_network x, sp_resources x, sp_restart_policy x, sp_volumes x, sp_replicate_to x))
    (fun '(a0, a1, a2, a3, a4, a5, a6) => mkSpec a0 a1 a2 a3 a4 a5 a6) _).
  by intros [].
Defined.
#[global] Instance JailSpec_eq_dec : EqDecision JailSpec.
Proof. solve_decision. Defined.
#[global] Instance JailSpec_countable : Countable JailSpec.
Proof.
  refine (inj_countable' (fun x => (js_api_version x, js_kind x, js_metadata x, js_spec x))
    (fun '(a0, a1, a2, a3) => mkJailSpec a0 a1 a2 a3) _).
  by intros [].
Defined.
#[global] Instance TemplateNetworkSpec_countable : Countable TemplateNetworkSpec.
Proof.
  refine (inj_countable' (fun x => (tn_vnet x, tn_bridge x))
    (fun '(a0, a1) => mkTemplateNetworkSpec a0 a1) _).
  by intros [].
Defined.
#[global] Instance JailTemplate_countable : Countable JailTemplate.
Proof.
  refine (inj_countable' (fun x => (t_image x, t_command x, t_network x, t_resources x, t_restart_policy x, t_volumes x))
    (fun '(a0, a1, a2, a3, a4, a5) => mkJailTemplate a0 a1 a2 a3 a4 a5) _).
  by intros [].
Defined.
#[global] Instance ServiceSpecBody_eq_dec : EqDecision ServiceSpecBody.
Proof. solve_decision. Defined.
#[global] Instance ServiceSpecBody_countable : Countable ServiceSpecBody.
Proof.
  refine (inj_countable' (fun x => (sb_replicas x, sb_port x, sb_template x))
    (fun '(a0, a1, a2) => mkServiceSpecBody a0 a1 a2) _).
  by intros [].
Defined.
#[global] Instance ServiceSpec_eq_dec : EqDecision ServiceSpec.
Proof. solve_decision. Defined.
#[global] Instance ServiceSpec_countable : Countable ServiceSpec.
Proof.
  refine (inj_countable' (fun x => (ss_api_version x, ss_kind x, ss_metadata x, ss_spec x))
    (fun '(a0, a1, a2, a3) => mkServiceSpec a0 a1 a2 a3) _).
  by intros [].
Defined.
#[global] Instance ErrorBody_eq_dec : EqDecision ErrorBody.
Proof. solve_decision. Defined.
#[global] Instance ErrorBody_countable : Countable ErrorBody.
Proof. refine (inj_countable' eb_error mkErrorBody _). by intros []. Defined.
#[global] Instance RegisterResponse_eq_dec : EqDecision RegisterResponse.
Proof. solve_decision. Defined.
#[global] Instance RegisterResponse_countable : Countable RegisterResponse.
Proof. refine (inj_countable' rr_pod_cidr mkRegisterResponse _). by intros []. Defined.
#[global] Instance JailHealth_eq_dec : EqDecision JailHealth.
Proof. solve_decision. Defined.
#[global] Instance JailHealth_countable : Countable JailHealth.
Proof.
  refine (inj_countable' (fun x => (jh_name x, jh_running x))
    (fun '(a0, a1) => mkJailHealth a0 a1) _).
  by intros [].
Defined.
#[global] Instance Heartbeat_eq_dec : EqDecision Heartbeat.
Proof. solve_decision. Defined.
#[global] Instance Heartbeat_countable : Countable Heartbeat.
Proof.
  refine (inj_countable' (fun x => (hb_committed_cpu x, hb_committed_memory x, hb_jails x))
    (fun '(a0, a1, a2) => mkHeartbeat a0 a1 a2) _).
  by intros [].
Defined.
#[global] Instance NodeRegistration_eq_dec : EqDecision NodeRegistration.
Proof. solve_decision. Defined.
#[global] Instance NodeRegistration_countable : Countable NodeRegistration.
Proof.
  refine (inj_countable' (fun x => (reg_id x, reg_addr x, reg_replicate_addr x, reg_capacity_cpu x, reg_capacity_memory x))
    (fun '(a0, a1, a2, a3, a4) => mkNodeRegistration a0 a1 a2 a3 a4) _).
  by intros [].
Defined.
#[global] Instance NodeStatus_eq_dec : EqDecision NodeStatus.
Proof. solve_decision. Defined.
#[global] Instance NodeStatus_countable : Countable NodeStatus.
Proof.
  refine (inj_countable' (fun x => (ns_id x, ns_addr x, ns_pod_cidr x, ns_status x, ns_last_seen_secs x, ns_capacity_cpu x, ns_capacity_memory x, ns_committed_cpu x, ns_committed_memory x))
    (fun '(a0, a1, a2, a3, a4, a5, a6, a7, a8) => mkNodeStatus a0 a1 a2 a3 a4 a5 a6 a7 a8) _).
  by intros [].
Defined.
#[global] Instance ServiceReplica_eq_dec : EqDecision ServiceReplica.
Proof. solve_decision. Defined.
#[global] Instance ServiceReplica_countable : Countable ServiceReplica.
Proof.
  refine (inj_countable' (fun x => (sr_name x, sr_node x, sr_address x))
    (fun '(a0, a1, a2) => mkServiceReplica a0 a1 a2) _).
  by intros [].
Defined.
#[global] Instance ServiceSummary_eq_dec : EqDecision ServiceSummary.
Proof. solve_decision. Defined.
#[global] Instance ServiceSummary_countable : Countable ServiceSummary.
Proof.
  refine (inj_countable' (fun x => (sm_name x, sm_desired_replicas x, sm_vip x, sm_port x))
    (fun '(a0, a1, a2, a3) => mkServiceSummary a0 a1 a2 a3) _).
  by intros [].
Defined.
#[global] Instance ServiceProxyEntry_eq_dec : EqDecision ServiceProxyEntry.
Proof. solve_decision. Defined.
#[global] Instance ServiceProxyEntry_countable : Countable ServiceProxyEntry.
Proof.
  refine (inj_countable' (fun x => (pe_name x, pe_vip x, pe_port x, pe_replicas x))
    (fun '(a0, a1, a2, a3) => mkServiceProxyEntry a0 a1 a2 a3) _).
  by intros [].
Defined.

#[global] Instance IngressBackend_eq_dec : EqDecision IngressBackend.
Proof. solve_decision. Defined.
#[global] Instance IngressTls_eq_dec : EqDecision IngressTls.
Proof. solve_decision. Defined.
#[global] Instance IngressSpecBody_eq_dec : EqDecision IngressSpecBody.
Proof. solve_decision. Defined.
#[global] Instance IngressSpec_eq_dec : EqDecision IngressSpec.
Proof. solve_decision. Defined.
#[global] Instance IngressSpec_countable : Countable IngressSpec.
Proof.
  refine (inj_countable' (fun x => (is_api_version x, is_kind x, is_metadata x, isb_host (is_spec x),
      ib_service (isb_backend (is_spec x)), ib_port (isb_backend (is_spec x)),
      it_email (isb_tls (is_spec x))))
    (fun '(a0, a1, a2, a3, a4, a5, a6) =>
       mkIngressSpec a0 a1 a2 (mkIngressSpecBody a3 (mkIngressBackend a4 a5) (mkIngressTls a6))) _).
  by intros [? ? ? [? [] []]].
Defined.

#[global] Instance repr_dec_service (x : ServiceSpec) : Decision (repr x).
Proof. unfold repr, ServiceSpec_repr. apply _. Defined.
#[global] Instance repr_dec_jail (x : JailSpec) : Decision (repr x).
Proof. unfold repr, JailSpec_repr. apply _. Defined.
#[global] Instance repr_dec_error (x : ErrorBody) : Decision (repr x).
Proof. unfold repr, ErrorBody_repr. apply _. Defined.
#[global] Instance repr_dec_register (x : RegisterResponse) : Decision (repr x).
Proof. unfold repr, RegisterResponse_repr. apply _. Defined.
#[global] Instance repr_dec_heartbeat (x : Heartbeat) : Decision (repr x).
Proof. unfold repr, Heartbeat_repr. apply _. Defined.
#[global] Instance repr_dec_registration (x : NodeRegistration) : Decision (repr x).
Proof. unfold repr, NodeRegistration_repr. apply _. Defined.
#[global] Instance repr_dec_statuses (x : list NodeStatus) : Decision (repr x).
Proof. unfold repr, NodeStatuses_repr, node_status_repr. apply _. Defined.
#[global] Instance repr_dec_replicas (x : list ServiceReplica) : Decision (repr x).
Proof. unfold repr, ServiceReplicas_repr. apply _. Defined.
#[global] Instance repr_dec_summaries (x : list ServiceSummary) : Decision (repr x).
Proof. unfold repr, ServiceSummaries_repr. apply _. Defined.
#[global] Instance repr_dec_entries (x : list ServiceProxyEntry) : Decision (repr x).
Proof. unfold repr, ServiceProxyEntries_repr. apply _. Defined.

Definition yaml_service : SerdeYaml ServiceSpec := serde_countable.
Definition yaml_jail : SerdeYaml JailSpec := serde_countable.
Definition yaml_error : SerdeYaml ErrorBody := serde_countable.
Definition yaml_register : SerdeYaml RegisterResponse := serde_countable.
Definition yaml_heartbeat : SerdeYaml Heartbeat := serde_countable.
Definition yaml_registration : SerdeYaml NodeRegistration := serde_countable.
Definition yaml_statuses : SerdeYaml (list NodeStatus) := serde_countable.
Definition yaml_replicas : SerdeYaml (list ServiceReplica) := serde_countable.
Definition yaml_summaries : SerdeYaml (list ServiceSummary) := serde_countable.
Definition yaml_entries : SerdeYaml (list ServiceProxyEntry) := serde_countable.
