(* ===== verification/Tables.v ===== *)
(** * The control plane's lookup tables

    [Placements] (jail name to node), [Standbys] (replica name to standby node)
    and [PendingFences] (replica name to the node owed a forced delete), from
    [keel-controlplane/src/placements.rs], [standbys.rs] and
    [pending_fences.rs].  None of them is persisted. *)

From S2P Require Import Prelude.

Record Placements : Type := mkPlacements { pl_by_jail : gmap string string }.

Definition placements_new : Placements := mkPlacements ∅.
Definition placements_get (p : Placements) (jail_name : string) : option string :=
  pl_by_jail p !! jail_name.
Definition placements_set (p : Placements) (jail_name node_id : string) : Placements :=
  mkPlacements (<[jail_name := node_id]> (pl_by_jail p)).
Definition placements_remove (p : Placements) (jail_name : string) : Placements :=
  mkPlacements (delete jail_name (pl_by_jail p)).
Definition placements_iter {HO : HashOrder} (p : Placements) : list (string * string) :=
  hash_iter (pl_by_jail p).

Record Standbys : Type := mkStandbys { sy_by_replica : gmap string string }.

Definition standbys_new : Standbys := mkStandbys ∅.
Definition standbys_get (s : Standbys) (replica_name : string) : option string :=
  sy_by_replica s !! replica_name.
Definition standbys_set (s : Standbys) (replica_name node_id : string) : Standbys :=
  mkStandbys (<[replica_name := node_id]> (sy_by_replica s)).
Definition standbys_remove (s : Standbys) (replica_name : string) : Standbys :=
  mkStandbys (delete replica_name (sy_by_replica s)).

Record PendingFences : Type := mkPendingFences { pf_by_replica : gmap string string }.

Definition pending_fences_new : PendingFences := mkPendingFences ∅.
Definition pending_fences_set (f : PendingFences) (replica_name node_id : string)
    : PendingFences :=
  mkPendingFences (<[replica_name := node_id]> (pf_by_replica f)).
Definition pending_fences_remove (f : PendingFences) (replica_name : string) : PendingFences :=
  mkPendingFences (delete replica_name (pf_by_replica f)).
(** Every replica currently owed a forced delete on [node_id]. *)
Definition pending_fences_for_node {HO : HashOrder} (f : PendingFences) (node_id : string)
    : list string :=
  (filter (fun kv => kv.2 = node_id) (hash_iter (pf_by_replica f))).*1.

Lemma elem_of_placements_iter {HO : HashOrder} p jail node :
  (jail, node) ∈ placements_iter p <-> placements_get p jail = Some node.
Proof. apply elem_of_hash_iter. Qed.

Lemma elem_of_pending_fences_for_node {HO : HashOrder} f node name :
  name ∈ pending_fences_for_node f node <-> pf_by_replica f !! name = Some node.
Proof.
  unfold pending_fences_for_node. rewrite list_elem_of_fmap. split.
  - intros ([n v] & -> & [Hv Hin]%list_elem_of_filter). cbn in *. subst.
    by apply elem_of_hash_iter.
  - intros H. exists (name, node). split; [done|]. apply list_elem_of_filter.
    split; [done|]. by apply elem_of_hash_iter.
Qed.

Lemma NoDup_pending_fences_for_node {HO : HashOrder} f node :
  NoDup (pending_fences_for_node f node).
Proof.
  unfold pending_fences_for_node.
  eapply sublist_NoDup; [|apply fmap_sublist, sublist_filter]. apply NoDup_fst_hash_iter.
Qed.
