(* ===== verification/Registry.v ===== *)
(** * The node registry

    [keel-controlplane/src/registry.rs]: which nodes registered, when each was
    last heard of, its resources and the pod network it was given.  An
    [Instant] is a number of nanoseconds; [now.saturating_duration_since] is
    [N.sub]. *)

From S2P Require Import Prelude RustStr Float64 Ipnet Subnet Wire.

Abbreviation Instant := N.
Definition nanos_per_sec : N := 1000000000.
Definition DEAD_THRESHOLD : N := (15 * nanos_per_sec)%N.
Definition as_secs (d : N) : N := (d / nanos_per_sec)%N.

Record NodeRecord : Type := mkNodeRecord {
  nr_addr : string;
  nr_replicate_addr : option string;
  nr_last_heartbeat : Instant;
  nr_capacity_cpu : f64;
  nr_capacity_memory : N;
  nr_committed_cpu : f64;
  nr_committed_memory : N;
  nr_pod_cidr : Ipv4Net;
  nr_running_jails : gmap string bool
}.

Record Registry : Type := mkRegistry {
  rg_cluster_cidr : Ipv4Net;
  rg_nodes : gmap string NodeRecord
}.

Record UnknownNode : Type := mkUnknownNode { un_id : string }.

Inductive ResolveError : Type :=
  | Unknown (id : string)
  | DeadNode (id : string) (last_seen_secs : N).

Record PodCidrCollision : Type := mkPodCidrCollision {
  pc_node_id : string;
  pc_derived : string;
  pc_conflicting_node_id : string
}.

Section registry.
Context {HO : HashOrder} {I : Ipnet}.

Definition registry_new (cluster_cidr : Ipv4Net) : Registry := mkRegistry cluster_cidr ∅.

Definition register (r : Registry) (id addr : string) (replicate_addr : option string)
    (capacity_cpu : f64) (capacity_memory : N) (now : Instant)
    : comp (result PodCidrCollision Ipv4Net * Registry) :=
  pod_cidr ← derive_pod_cidr id (rg_cluster_cidr r);
  match find (fun '(other_id, record) =>
                negb (String.eqb other_id id) && bool_decide (nr_pod_cidr record = pod_cidr))
             (hash_iter (rg_nodes r)) with
  | Some (conflicting_id, _) =>
      Val (Err (mkPodCidrCollision id (net_to_string pod_cidr) conflicting_id), r)
  | None =>
      Val (Ok pod_cidr,
           mkRegistry (rg_cluster_cidr r)
             (<[id := mkNodeRecord addr replicate_addr now capacity_cpu capacity_memory
                        f64_zero 0 pod_cidr ∅]> (rg_nodes r)))
  end.

Definition collect_running (jails : list JailHealth) : gmap string bool :=
  foldl (fun m j => <[jh_name j := jh_running j]> m) ∅ jails.

Definition heartbeat (r : Registry) (id : string) (committed_cpu : f64)
    (committed_memory : N) (jails : list JailHealth) (now : Instant)
    : result UnknownNode unit * Registry :=
  match rg_nodes r !! id with
  | Some record =>
      (Ok tt,
       mkRegistry (rg_cluster_cidr r)
         (<[id := mkNodeRecord (nr_addr record) (nr_replicate_addr record) now
                    (nr_capacity_cpu record) (nr_capacity_memory record)
                    committed_cpu committed_memory (nr_pod_cidr record)
                    (collect_running jails)]> (rg_nodes r)))
  | None => (Err (mkUnknownNode id), r)
  end.

Definition is_jail_running (r : Registry) (node_id jail_name : string) : bool :=
  default false (rg_nodes r !! node_id ≫= fun rec => nr_running_jails rec !! jail_name).

Definition pod_cidr (r : Registry) (node_id : string) : option Ipv4Net :=
  nr_pod_cidr <$> rg_nodes r !! node_id.

Definition replicate_addr (r : Registry) (node_id : string) : option string :=
  rg_nodes r !! node_id ≫= nr_replicate_addr.

Definition node_status (now : Instant) (id : string) (record : NodeRecord) : NodeStatus :=
  let elapsed := (now - nr_last_heartbeat record)%N in
  mkNodeStatus id (nr_addr record) (net_to_string (nr_pod_cidr record))
    (if (elapsed <? DEAD_THRESHOLD)%N then Alive else Dead)
    (as_secs elapsed)
    (nr_capacity_cpu record) (nr_capacity_memory record)
    (nr_committed_cpu record) (nr_committed_memory record).

Definition registry_list (r : Registry) (now : Instant) : list NodeStatus :=
  sort_by_key ns_id
    ((fun '(id, record) => node_status now id record) <$> hash_iter (rg_nodes r)).

Definition resolve (r : Registry) (id : string) (now : Instant) : result ResolveError string :=
  record ← ok_or (rg_nodes r !! id) (Unknown id);
  let elapsed := (now - nr_last_heartbeat record)%N in
  if (DEAD_THRESHOLD <=? elapsed)%N then Err (DeadNode id (as_secs elapsed))
  else Ok (nr_addr record).

(** ** Invariant *)

(** Every node holds the block derived from its id, and no two nodes hold the
    same one. *)
Record registry_wf (r : Registry) : Prop := {
  rwf_cluster : net_wf (rg_cluster_cidr r);
  rwf_prefix : (prefix_len (rg_cluster_cidr r) <= 24)%N;
  rwf_derived : forall id rec, rg_nodes r !! id = Some rec ->
    derive_pod_cidr id (rg_cluster_cidr r) = Val (nr_pod_cidr rec);
  rwf_distinct : forall id1 id2 rec1 rec2,
    rg_nodes r !! id1 = Some rec1 -> rg_nodes r !! id2 = Some rec2 ->
    nr_pod_cidr rec1 = nr_pod_cidr rec2 -> id1 = id2
}.

Definition node_alive (r : Registry) (now : Instant) (id : string) : Prop :=
  exists rec, rg_nodes r !! id = Some rec /\
    (now - nr_last_heartbeat rec < DEAD_THRESHOLD)%N.

Lemma registry_new_wf c : net_wf c -> (prefix_len c <= 24)%N -> registry_wf (registry_new c).
Proof. intros ??. by split; cbn; try done; intros; simplify_map_eq. Qed.

(** ** Resolution *)

Lemma resolve_Ok r id now addr :
  resolve r id now = Ok addr <->
  exists rec, rg_nodes r !! id = Some rec /\ nr_addr rec = addr /\
    (now - nr_last_heartbeat rec < DEAD_THRESHOLD)%N.
Proof.
  unfold resolve. destruct (rg_nodes r !! id) as [rec|] eqn:E; cbn; [|naive_solver].
  destruct (_ <=? _)%N eqn:Ht; bool_to_prop; split.
  - done.
  - intros (rec' & [= <-] & _ & Hl). lia.
  - intros [= <-]. eauto.
  - intros (rec' & [= <-] & <- & _). done.
Qed.

Lemma node_alive_resolve r now id :
  node_alive r now id <-> exists addr, resolve r id now = Ok addr.
Proof. setoid_rewrite resolve_Ok. unfold node_alive. naive_solver. Qed.

Lemma node_alive_is_ok r now id : is_ok (resolve r id now) = true <-> node_alive r now id.
Proof. by rewrite is_ok_true, node_alive_resolve. Qed.

Lemma elem_of_registry_list r now st :
  st ∈ registry_list r now <->
  exists id rec, rg_nodes r !! id = Some rec /\ st = node_status now id rec.
Proof.
  unfold registry_list. rewrite elem_of_sort_by_key, list_elem_of_fmap. split.
  - intros ([id rec] & -> & H%elem_of_hash_iter). eauto.
  - intros (id & rec & H & ->). exists (id, rec). split; [done|]. by apply elem_of_hash_iter.
Qed.

Lemma node_status_alive now id rec :
  ns_status (node_status now id rec) = Alive <->
  (now - nr_last_heartbeat rec < DEAD_THRESHOLD)%N.
Proof. unfold node_status. cbn. destruct (_ <? _)%N eqn:E; bool_to_prop; naive_solver lia. Qed.

Lemma NoDup_registry_list_ids r now :
  NoDup (ns_id <$> ((fun '(id, record) => node_status now id record) <$> hash_iter (rg_nodes r))).
Proof.
  rewrite <-list_fmap_compose.
  rewrite (list_fmap_ext _ fst) by (by intros ? [? ?]).
  apply NoDup_fst_hash_iter.
Qed.

(** ** Registration *)

Lemma registry_wf_pod_shape r id rec :
  registry_wf r -> rg_nodes r !! id = Some rec ->
  net_wf (nr_pod_cidr rec) /\ prefix_len (nr_pod_cidr rec) = 24%N /\
  network (nr_pod_cidr rec) = net_addr (nr_pod_cidr rec).
Proof.
  intros Hwf Hr. eapply derive_pod_cidr_shape;
    [apply (rwf_cluster r Hwf)|apply (rwf_prefix r Hwf)|by apply (rwf_derived r Hwf)].
Qed.

Lemma aligned_nets_disjoint n1 n2 a :
  net_wf n1 -> net_wf n2 -> prefix_len n1 = prefix_len n2 ->
  network n1 = net_addr n1 -> network n2 = net_addr n2 ->
  net_contains n1 a = true -> net_contains n2 a = true -> n1 = n2.
Proof.
  intros Hw1 Hw2 Hp Ha1 Ha2 H1 H2. rewrite net_contains_spec in H1, H2 by done.
  bool_to_prop. assert (masked n1 a = masked n2 a) as Hm
    by (unfold masked, block_size; by rewrite Hp).
  destruct n1, n2; cbn in *. f_equal; congruence.
Qed.

(** The conflict [register] looks for, as a proposition. *)
Definition pod_conflict (r : Registry) (id : string) (net : Ipv4Net) (other : string) : Prop :=
  other <> id /\ exists rec, rg_nodes r !! other = Some rec /\ nr_pod_cidr rec = net.

Lemma find_conflict_Some r id net other rec :
  find (fun '(other_id, record) =>
          negb (String.eqb other_id id) && bool_decide (nr_pod_cidr record = net))
       (hash_iter (rg_nodes r)) = Some (other, rec) -> pod_conflict r id net other.
Proof.
  intros [Hin Hb]%find_some. bool_to_prop. split; [done|].
  exists rec. split; [|done]. by apply elem_of_hash_iter, list_elem_of_In.
Qed.

Lemma find_conflict_None r id net other :
  find (fun '(other_id, record) =>
          negb (String.eqb other_id id) && bool_decide (nr_pod_cidr record = net))
       (hash_iter (rg_nodes r)) = None -> ~ pod_conflict r id net other.
Proof.
  intros Hf (Hne & rec & Hr & Hnet). apply elem_of_hash_iter, list_elem_of_In in Hr.
  pose proof (find_none _ _ Hf _ Hr) as Hb. cbn in Hb.
  apply andb_false_iff in Hb as [Hb|Hb]; bool_to_prop; done.
Qed.

(** The record a registration stores. *)
Definition fresh_record addr ra cpu mem (now : Instant) (net : Ipv4Net) : NodeRecord :=
  mkNodeRecord addr ra now cpu mem f64_zero 0 net ∅.

Lemma register_cases r id addr ra cpu mem now net :
  derive_pod_cidr id (rg_cluster_cidr r) = Val net ->
  (exists other, pod_conflict r id net other /\
     register r id addr ra cpu mem now =
       Val (Err (mkPodCidrCollision id (net_to_string net) other), r)) \/
  ((forall other, ~ pod_conflict r id net other) /\
     register r id addr ra cpu mem now =
       Val (Ok net, mkRegistry (rg_cluster_cidr r)
                      (<[id := fresh_record addr ra cpu mem now net]> (rg_nodes r)))).
Proof.
  intros Hd. unfold register. rewrite Hd, Val_bind.
  destruct (find _ _) as [[other rec]|] eqn:Hf.
  - left. exists other. split; [by eapply find_conflict_Some|done].
  - right. split; [|done]. intros other. by apply find_conflict_None.
Qed.

Lemma register_inv r id addr ra cpu mem now res r' :
  registry_wf r -> register r id addr ra cpu mem now = Val (res, r') ->
  registry_wf r' /\ rg_cluster_cidr r' = rg_cluster_cidr r.
Proof.
  intros Hwf Hreg.
  pose proof (derive_pod_cidr_value id _ (rwf_cluster r Hwf) (rwf_prefix r Hwf)) as Hd.
  destruct (register_cases r id addr ra cpu mem now _ Hd) as [(o & _ & E)|[Hno E]];
    rewrite E in Hreg; simplify_eq; [done|].
  split; [|done]. destruct Hwf as [Hc Hp Hder Hdist]. split; cbn; try done.
  - intros id' rec [[-> <-]|[_ H]]%lookup_insert_Some; [done|eauto].
  - intros id1 id2 rec1 rec2 [[-> <-]|[Hn1 H1]]%lookup_insert_Some
      [[-> <-]|[Hn2 H2]]%lookup_insert_Some He; cbn in *; [done| | |eauto].
    + destruct (Hno id2). split; [done|]. eauto.
    + destruct (Hno id1). split; [done|]. eauto.
Qed.

Lemma heartbeat_inv r id cpu mem jails now res r' :
  registry_wf r -> heartbeat r id cpu mem jails now = (res, r') ->
  registry_wf r' /\ rg_cluster_cidr r' = rg_cluster_cidr r.
Proof.
  intros Hwf. unfold heartbeat. destruct (rg_nodes r !! id) as [rec|] eqn:E;
    intros [= <- <-]; [|done].
  split; [|done]. destruct Hwf as [Hc Hp Hder Hdist]. split; cbn; try done.
  - intros id' rec' [[-> <-]|[_ H]]%lookup_insert_Some; cbn; eauto.
  - intros id1 id2 rec1 rec2 [[-> <-]|[Hn1 H1]]%lookup_insert_Some
      [[-> <-]|[Hn2 H2]]%lookup_insert_Some He; cbn in *; eauto.
Qed.

(** Registering a node in a well-formed registry never panics and keeps the
    registry well formed.  It either stores a fresh record (zero commitments,
    no running jail, heard of now) under the node's own derived block, leaving
    every other node untouched, or, exactly when another node already holds
    that block, changes nothing and names such a node; registering a known node
    again is never a collision with itself. *)
Theorem register_correct r id addr ra cpu mem now :
  registry_wf r ->
  exists res r' net, register r id addr ra cpu mem now = Val (res, r') /\
    registry_wf r' /\ derive_pod_cidr id (rg_cluster_cidr r) = Val net /\
    match res with
    | Ok n => n = net /\ (forall other, ~ pod_conflict r id net other) /\
        rg_nodes r' = <[id := fresh_record addr ra cpu mem now net]> (rg_nodes r)
    | Err e => r' = r /\ pod_conflict r id net (pc_conflicting_node_id e) /\
        pc_node_id e = id /\ net_parse (pc_derived e) = Some net
    end.
Proof.
  intros Hwf.
  pose proof (derive_pod_cidr_value id _ (rwf_cluster r Hwf) (rwf_prefix r Hwf)) as Hd.
  destruct (register_cases r id addr ra cpu mem now _ Hd) as [(o & Hc & E)|[Hno E]];
    (do 3 eexists; split; [exact E|];
     split; [by eapply register_inv|]; split; [exact Hd|]).
  - cbn. split; [done|]. split; [done|]. split; [done|]. apply net_parse_to_string.
    by destruct (derive_pod_cidr_shape _ _ _ (rwf_cluster r Hwf) (rwf_prefix r Hwf) Hd).
  - done.
Qed.

(** In a well-formed registry the pod blocks of two different nodes share
    no address, so an address determines the node that routes it. *)
Theorem pod_blocks_disjoint r id1 id2 net1 net2 a :
  registry_wf r -> id1 <> id2 ->
  pod_cidr r id1 = Some net1 -> pod_cidr r id2 = Some net2 ->
  net_contains net1 a = true -> net_contains net2 a = false.
Proof.
  unfold pod_cidr. intros Hwf Hne (rec1 & H1 & ->)%fmap_Some (rec2 & H2 & ->)%fmap_Some Ha1.
  apply not_true_iff_false. intros Ha2. destruct Hne.
  destruct (registry_wf_pod_shape r id1 rec1 Hwf H1) as (Hw1 & Hp1 & Hn1).
  destruct (registry_wf_pod_shape r id2 rec2 Hwf H2) as (Hw2 & Hp2 & Hn2).
  eapply (rwf_distinct r Hwf); [done..|]. eapply aligned_nets_disjoint; eauto. congruence.
Qed.

End registry.

(** The listing does not depend on the iteration order of the hash map. *)
Lemma registry_list_order `{Ipnet} (HO1 HO2 : HashOrder) r now :
  @registry_list HO1 _ r now = @registry_list HO2 _ r now.
Proof.
  unfold registry_list. apply sort_by_key_unique; [apply NoDup_registry_list_ids|].
  by rewrite !hash_iter_perm.
Qed.

(** ** Evaluation *)

Definition node_1_rec : NodeRecord :=
  fresh_record "10.1.0.1:7620" (Some "10.1.0.1:7621") (f64_of_N 4) 1024 0 (mkNet 167805696 24).
Definition node_2_rec : NodeRecord :=
  fresh_record "10.1.0.2:7620" (Some "10.1.0.2:7621") (f64_of_N 4) 1024 0 (mkNet 167777792 24).

Definition registry_1 : Registry :=
  mkRegistry cidr_10_0_0_0_16 {[ "node-1" := node_1_rec ]}.
Definition registry_2 : Registry :=
  mkRegistry cidr_10_0_0_0_16 (<["node-2" := node_2_rec]> {[ "node-1" := node_1_rec ]}).

Lemma registry_1_wf : @registry_wf ipnet_model registry_1.
Proof.
  split.
  - vm_compute. split; discriminate.
  - vm_compute. discriminate.
  - cbn. intros id rec [<- <-]%lookup_singleton_Some. reflexivity.
  - cbn. by intros ???? [<- <-]%lookup_singleton_Some [<- <-]%lookup_singleton_Some.
Qed.

Lemma registry_2_wf : @registry_wf ipnet_model registry_2.
Proof.
  apply (@register_inv list_order ipnet_model registry_1 "node-2" "10.1.0.2:7620" (Some "10.1.0.2:7621")
    (f64_of_N 4) 1024 0 (Ok (mkNet 167777792 24)) registry_2 registry_1_wf).
  vm_compute. reflexivity.
Qed.

Lemma register_correct_witness :
  exists res r' net,
    @register list_order ipnet_model registry_1 "node-2" "10.1.0.2:7620" None (f64_of_N 2) 512 5
      = Val (res, r') /\
    @registry_wf ipnet_model r' /\
    @derive_pod_cidr ipnet_model "node-2" (rg_cluster_cidr registry_1) = Val net /\
    match res with
    | Ok n => n = net /\ (forall other, ~ pod_conflict registry_1 "node-2" net other) /\
        rg_nodes r' = <["node-2" := fresh_record "10.1.0.2:7620" None (f64_of_N 2) 512 5 net]>
                        (rg_nodes registry_1)
    | Err e => r' = registry_1 /\
        pod_conflict registry_1 "node-2" net (pc_conflicting_node_id e) /\
        pc_node_id e = "node-2" /\ @net_parse ipnet_model (pc_derived e) = Some net
    end.
Proof.
  apply (@register_correct list_order ipnet_model registry_1 "node-2" "10.1.0.2:7620" None
           (f64_of_N 2) 512 5 registry_1_wf).
Defined.

Lemma pod_blocks_disjoint_witness :
  @net_contains ipnet_model (mkNet 167777792 24) (167805696 + 2) = false.
Proof.
  apply (@pod_blocks_disjoint ipnet_model registry_2 "node-1" "node-2"
           (mkNet 167805696 24) (mkNet 167777792 24) (167805696 + 2) registry_2_wf);
    [discriminate | reflexivity..].
Defined.
