(* ===== verification/Scheduler.v ===== *)
(** * The scheduler

    [keel-controlplane/src/scheduler.rs]: the node with the most headroom, ties
    broken by the smaller id.  Scores are binary64 numbers; a capacity may be
    infinite (YAML has [.inf]), so a CPU fraction may be NaN, but the score
    itself never is. *)

From Stdlib Require Import SpecFloat.
From S2P Require Import Prelude RustStr Float64.

Inductive ScheduleError : Type := NoAvailableNodes.

Record NodeResources : Type := mkNodeResources {
  nd_id : string;
  nd_capacity_cpu : f64;
  nd_capacity_memory : N;
  nd_committed_cpu : f64;
  nd_committed_memory : N
}.

Definition headroom_score (n : NodeResources) : f64 :=
  let cpu_frac :=
    if f64_ltb f64_zero (nd_capacity_cpu n)
    then f64_div (f64_sub (nd_capacity_cpu n) (nd_committed_cpu n)) (nd_capacity_cpu n)
    else f64_zero in
  let mem_frac :=
    if (0 <? nd_capacity_memory n)%N
    then f64_div (f64_sub (f64_of_N (nd_capacity_memory n)) (f64_of_N (nd_committed_memory n)))
                 (f64_of_N (nd_capacity_memory n))
    else f64_zero in
  f64_min cpu_frac mem_frac.

(** The test under which a candidate replaces the current best. *)
Definition beats (candidate current : f64 * string) : bool :=
  f64_ltb current.1 candidate.1
  || (f64_eqb candidate.1 current.1 && String.ltb candidate.2 current.2).

Definition pick_step (best : option (f64 * string)) (candidate : f64 * string)
    : option (f64 * string) :=
  match best with
  | None => Some candidate
  | Some current => if beats candidate current then Some candidate else best
  end.

Definition pick_node (nodes : list NodeResources) : result ScheduleError string :=
  let best := foldl pick_step None ((fun n => (headroom_score n, nd_id n)) <$> nodes) in
  ok_or (snd <$> best) NoAvailableNodes.

(** ** The order of candidates *)

(** The u64 fields of a node are within their width. *)
Definition node_in_range (n : NodeResources) : Prop :=
  (nd_capacity_memory n <= u64_max)%N /\ (nd_committed_memory n <= u64_max)%N.

Lemma headroom_score_not_nan n : node_in_range n -> is_nan (headroom_score n) = false.
Proof.
  intros [Hc Hm]. unfold headroom_score. rewrite f64_min_not_nan. apply andb_false_iff. right.
  destruct (0 <? nd_capacity_memory n)%N eqn:E; [|done]. bool_to_prop.
  by apply u64_fraction_not_nan.
Qed.

Definition not_nan (c : f64 * string) : Prop := is_nan c.1 = false.

Lemma String_ltb_lt s t : String.ltb s t = true <-> String.compare s t = Lt.
Proof. unfold String.ltb. by destruct (String.compare s t). Qed.

(** [beats] is the lexicographic order of score (larger first) and id. *)
Definition cand_cmp (a b : f64 * string) : comparison :=
  match lex3 (f64_key b.1) (f64_key a.1) with
  | Eq => String.compare a.2 b.2
  | c => c
  end.

Lemma beats_cmp a b : not_nan a -> not_nan b -> beats a b = true <-> cand_cmp a b = Lt.
Proof.
  unfold not_nan, beats, cand_cmp. intros Ha Hb.
  rewrite orb_true_iff, andb_true_iff, String_ltb_lt, f64_ltb_lex, f64_eqb_lex by done.
  rewrite (lex3_antisym (f64_key a.1)).
  destruct (lex3 (f64_key b.1) (f64_key a.1)); cbn; naive_solver.
Qed.

Lemma String_compare_refl s : String.compare s s = Eq.
Proof.
  pose proof (String.compare_antisym s s) as H. by destruct (String.compare s s).
Qed.

Lemma lex3_refl a : lex3 a a = Eq.
Proof. destruct a as [[a1 a2] a3]. cbn. by rewrite !Z.compare_refl. Qed.

Lemma beats_irrefl a : not_nan a -> beats a a = false.
Proof.
  intros Ha. apply not_true_iff_false. rewrite beats_cmp by done.
  unfold cand_cmp. by rewrite lex3_refl, String_compare_refl.
Qed.

Lemma lex3_eq_trans a b c : lex3 a b = Eq -> lex3 b c = lex3 a c.
Proof.
  destruct a as [[a1 a2] a3], b as [[b1 b2] b3], c as [[c1 c2] c3]; cbn.
  destruct (Z.compare_spec a1 b1), (Z.compare_spec a2 b2), (Z.compare_spec a3 b3);
    intros; done || by subst.
Qed.

Lemma String_lt_trans s t u :
  String.compare s t = Lt -> String.compare t u = Lt -> String.compare s u = Lt.
Proof.
  intros Hst Htu.
  assert (String.le s t) by (unfold String.le, String.leb; by rewrite Hst).
  assert (String.le t u) by (unfold String.le, String.leb; by rewrite Htu).
  assert (String.le s u) as Hsu by (by transitivity t).
  unfold String.le, String.leb in Hsu. destruct (String.compare s u) eqn:E; [|done|done].
  apply String.compare_eq_iff in E. subst. rewrite String.compare_antisym, Hst in Htu. done.
Qed.

Lemma lex3_eq_trans_r a b c : lex3 b c = Eq -> lex3 a b = lex3 a c.
Proof.
  intros H. rewrite (lex3_antisym a b), (lex3_antisym a c). f_equal.
  symmetry. by apply lex3_eq_trans.
Qed.

Lemma cand_cmp_trans a b c : cand_cmp a b = Lt -> cand_cmp b c = Lt -> cand_cmp a c = Lt.
Proof.
  unfold cand_cmp. intros Hab Hbc.
  destruct (lex3 (f64_key b.1) (f64_key a.1)) eqn:Eab; [| |done].
  - rewrite <-(lex3_eq_trans_r _ _ _ Eab).
    destruct (lex3 (f64_key c.1) (f64_key b.1)); [|done..]. by eapply String_lt_trans.
  - destruct (lex3 (f64_key c.1) (f64_key b.1)) eqn:Ecb; [| |done].
    + by rewrite <-(lex3_eq_trans _ _ (f64_key a.1) Ecb), Eab.
    + rewrite (lex3_trans_lt _ (f64_key b.1)); [done|congruence|done].
Qed.

Lemma beats_trans a b c :
  not_nan a -> not_nan b -> not_nan c ->
  beats a b = true -> beats b c = true -> beats a c = true.
Proof. intros ???. rewrite !beats_cmp by done. apply cand_cmp_trans. Qed.

Lemma beats_asym a b : not_nan a -> not_nan b -> beats a b = true -> beats b a = false.
Proof.
  intros Ha Hb Hab. apply not_true_iff_false. intros Hba.
  pose proof (beats_trans _ _ _ Ha Hb Ha Hab Hba). by rewrite beats_irrefl in *.
Qed.

Lemma cand_cmp_antisym a b : cand_cmp a b = CompOpp (cand_cmp b a).
Proof.
  unfold cand_cmp. rewrite (lex3_antisym (f64_key a.1)), (String.compare_antisym a.2).
  by destruct (lex3 (f64_key b.1) (f64_key a.1)).
Qed.

Lemma cand_cmp_eq_r a b c : cand_cmp b c = Eq -> cand_cmp a b = cand_cmp a c.
Proof.
  unfold cand_cmp. destruct (lex3 (f64_key c.1) (f64_key b.1)) eqn:E; [|done..].
  intros ->%String.compare_eq_iff. by rewrite (lex3_eq_trans _ _ (f64_key a.1) E).
Qed.

Lemma beats_total a b :
  not_nan a -> not_nan b -> beats a b = false -> beats b a = false -> cand_cmp a b = Eq.
Proof.
  intros Ha Hb. rewrite <- !not_true_iff_false, !beats_cmp by done.
  rewrite (cand_cmp_antisym b a). by destruct (cand_cmp a b).
Qed.

(** What does not beat a candidate does not beat one that is at least as
    good. *)
Lemma beats_false_trans a b c :
  not_nan a -> not_nan b -> not_nan c ->
  beats a b = false -> beats b c = false -> beats a c = false.
Proof.
  intros Ha Hb Hc Hab Hbc. apply not_true_iff_false. intros Hac.
  destruct (beats c b) eqn:Hcb.
  - pose proof (beats_trans _ _ _ Ha Hc Hb Hac Hcb). congruence.
  - pose proof (beats_total _ _ Hb Hc Hbc Hcb) as E.
    apply beats_cmp in Hac; [|done..]. rewrite <-(cand_cmp_eq_r _ _ _ E) in Hac.
    apply beats_cmp in Hac; [congruence|done..].
Qed.

(** ** The fold *)

Lemma pick_step_fold_Some l current :
  not_nan current -> Forall not_nan l ->
  exists best, foldl pick_step (Some current) l = Some best /\
    (best = current \/ best ∈ l) /\ not_nan best /\
    beats current best = false /\ Forall (fun c => beats c best = false) l.
Proof.
  revert current. induction l as [|c l IH]; intros current Hc Hl; cbn [foldl].
  - exists current. split; [done|]. split; [by left|]. split; [done|].
    split; [by apply beats_irrefl | constructor].
  - apply Forall_cons in Hl as [Hcc Hl]. cbn [pick_step]. destruct (beats c current) eqn:Hb.
    + destruct (IH c Hcc Hl) as (best & Hf & Hin & Hn & Hcb & Hall). exists best.
      split; [done|]. split; [right; set_solver|]. split; [done|]. split; [|by constructor].
      apply not_true_iff_false. intros Hcur.
      pose proof (beats_trans _ _ _ Hcc Hc Hn Hb Hcur). congruence.
    + destruct (IH current Hc Hl) as (best & Hf & Hin & Hn & Hcb & Hall). exists best.
      split; [done|]. split; [set_solver|]. split; [done|]. split; [done|].
      constructor; [|done]. by apply (beats_false_trans c current best).
Qed.

Definition candidate (n : NodeResources) : f64 * string := (headroom_score n, nd_id n).

Lemma candidates_not_nan nodes :
  Forall node_in_range nodes -> Forall not_nan (candidate <$> nodes).
Proof. intros H. apply Forall_fmap. eapply Forall_impl; [done|]. apply headroom_score_not_nan. Qed.

(** A node is chosen when no node beats it. *)
Definition unbeaten (nodes : list NodeResources) (n : NodeResources) : Prop :=
  n ∈ nodes /\ Forall (fun m => beats (candidate m) (candidate n) = false) nodes.

Lemma pick_node_Ok nodes id :
  Forall node_in_range nodes ->
  pick_node nodes = Ok id <-> exists n, unbeaten nodes n /\ nd_id n = id.
Proof.
  intros Hr%candidates_not_nan. unfold pick_node, unbeaten.
  change (fun n => (headroom_score n, nd_id n)) with candidate.
  destruct nodes as [|n0 nodes]; [split; [done|set_solver]|].
  rewrite fmap_cons in *. apply Forall_cons in Hr as [H0 Hr]. cbn [foldl pick_step].
  destruct (pick_step_fold_Some _ _ H0 Hr) as (best & -> & Hin & Hn & Hb0 & Hb). cbn.
  assert (exists n, n ∈ n0 :: nodes /\ candidate n = best) as (n & Hnin & Hbest).
  { destruct Hin as [->|(n & -> & Hin)%list_elem_of_fmap]; [set_solver|].
    exists n. split; [set_solver|done]. }
  assert (Forall (fun m => beats (candidate m) (candidate n) = false) (n0 :: nodes)) as Hall.
  { rewrite Hbest. constructor; [done|]. by apply Forall_fmap in Hb. }
  rewrite <-Hbest in Hn. subst best. split.
  - intros [= <-]. by exists n.
  - intros (n' & [Hin' Hall'] & <-). f_equal.
    assert (not_nan (candidate n')) as Hn'.
    { apply list_elem_of_fmap_2 with (f := candidate) in Hin'. rewrite fmap_cons in Hin'.
      apply elem_of_cons in Hin' as [->|Hin']; [done|]. by eapply Forall_forall in Hr. }
    rewrite Forall_forall in Hall, Hall'.
    pose proof (beats_total _ _ Hn Hn' (Hall' _ Hnin) (Hall _ Hin')) as E.
    unfold cand_cmp in E. destruct (lex3 _ _); [|done..]. by apply String.compare_eq_iff in E.
Qed.

Lemma pick_node_Err nodes e : pick_node nodes = Err e <-> nodes = [].
Proof.
  unfold pick_node. split; [|by intros ->; destruct e].
  destruct nodes as [|n nodes]; [done|]. cbn. intros H. exfalso. revert H.
  generalize (headroom_score n, nd_id n).
  induction nodes as [|m nodes IH]; intros c; cbn; [done|].
  destruct (beats _ _); apply IH.
Qed.

(** [pick_node] fails exactly when there is no node; otherwise it returns
    the id of a node whose headroom score is strictly larger than that of every
    node, or equal with an id that is not greater: no comparison is lost to a
    NaN score, even for infinite CPU capacities. *)
Theorem pick_node_correct nodes :
  Forall node_in_range nodes ->
  match pick_node nodes with
  | Err NoAvailableNodes => nodes = []
  | Ok id => exists n, n ∈ nodes /\ nd_id n = id /\
      forall m, m ∈ nodes ->
        f64_ltb (headroom_score m) (headroom_score n) = true \/
        (f64_eqb (headroom_score m) (headroom_score n) = true /\ String.le id (nd_id m))
  end.
Proof.
  intros Hr. destruct (pick_node nodes) as [id|[]] eqn:E; [|by apply pick_node_Err in E].
  apply pick_node_Ok in E as (n & [Hin Hall] & <-); [|done]. exists n.
  split; [done|]. split; [done|]. intros m Hm. rewrite Forall_forall in Hall, Hr.
  specialize (Hall m Hm). apply not_true_iff_false in Hall.
  pose proof (headroom_score_not_nan m (Hr m Hm)) as Hnm.
  pose proof (headroom_score_not_nan n (Hr n Hin)) as Hnn.
  rewrite beats_cmp in Hall by done. unfold cand_cmp in Hall. cbn in Hall.
  rewrite f64_ltb_lex, f64_eqb_lex by done.
  rewrite (lex3_antisym (f64_key (headroom_score m))).
  destruct (lex3 (f64_key (headroom_score n)) (f64_key (headroom_score m))); cbn; [|done|auto].
  right. split; [done|]. unfold String.le, String.leb.
  rewrite String.compare_antisym. by destruct (String.compare (nd_id m) (nd_id n)).
Qed.

Lemma pick_node_perm nodes1 nodes2 :
  Forall node_in_range nodes1 -> nodes1 ≡ₚ nodes2 -> pick_node nodes1 = pick_node nodes2.
Proof.
  intros Hr Hp. assert (Forall node_in_range nodes2) as Hr2 by (by rewrite <-Hp).
  destruct (pick_node nodes2) as [id|e] eqn:E.
  - apply pick_node_Ok in E as (n & [Hin Hall] & Hid); [|done].
    apply pick_node_Ok; [done|]. exists n. unfold unbeaten. by rewrite Hp.
  - apply pick_node_Err in E as ->. apply Permutation_nil_r in Hp as ->. by destruct e.
Qed.

Lemma pick_node_elem nodes id :
  Forall node_in_range nodes -> pick_node nodes = Ok id -> exists n, n ∈ nodes /\ nd_id n = id.
Proof.
  intros Hr (n & [Hin _] & Hid)%pick_node_Ok; [|done]. by exists n.
Qed.

Lemma pick_node_correct_witness :
  match pick_node [mkNodeResources "b" (S754_infinity false) 4 f64_zero 1;
                   mkNodeResources "a" (S754_infinity false) 4 f64_zero 1] with
  | Err NoAvailableNodes => False
  | Ok id => id = "a"
  end /\
  match pick_node [mkNodeResources "a" (f64_of_N 4) 8 (f64_of_N 1) 1] with
  | Err NoAvailableNodes => [mkNodeResources "a" (f64_of_N 4) 8 (f64_of_N 1) 1] = []
  | Ok id => exists n, n ∈ [mkNodeResources "a" (f64_of_N 4) 8 (f64_of_N 1) 1] /\ nd_id n = id /\
      forall m, m ∈ [mkNodeResources "a" (f64_of_N 4) 8 (f64_of_N 1) 1] ->
        f64_ltb (headroom_score m) (headroom_score n) = true \/
        (f64_eqb (headroom_score m) (headroom_score n) = true /\ String.le id (nd_id m))
  end.
Proof.
  split; [vm_compute; reflexivity|].
  apply (pick_node_correct [mkNodeResources "a" (f64_of_N 4) 8 (f64_of_N 1) 1]).
  repeat constructor; vm_compute; discriminate.
Defined.
