(* ===== verification/Addresses.v ===== *)
(** * Replica addresses

    [keel-controlplane/src/addresses.rs]: which addresses are assigned to a
    replica on which node, and the choice of a free one.  The two hash maps of
    [UsedAddresses] are an index and its inverse; the refinement theorem shows
    that together they implement one map from jails to (node, address). *)

From S2P Require Import Prelude RustStr Ipnet.

Record UsedAddresses : Type := mkUsedAddresses {
  ua_used_by_node : gmap string (gset Ipv4Addr);
  ua_by_jail : gmap string (string * Ipv4Addr)
}.

Definition used_new : UsedAddresses := mkUsedAddresses ∅ ∅.

Definition is_used (u : UsedAddresses) (node_id : string) (addr : Ipv4Addr) : bool :=
  match ua_used_by_node u !! node_id with
  | Some set => bool_decide (addr ∈ set)
  | None => false
  end.

Definition used_release (u : UsedAddresses) (jail_name : string) : UsedAddresses :=
  match ua_by_jail u !! jail_name with
  | Some (node_id, addr) =>
      let by_jail := delete jail_name (ua_by_jail u) in
      match ua_used_by_node u !! node_id with
      | Some set => mkUsedAddresses (<[node_id := set ∖ {[addr]}]> (ua_used_by_node u)) by_jail
      | None => mkUsedAddresses (ua_used_by_node u) by_jail
      end
  | None => u
  end.

Definition used_record (u : UsedAddresses) (jail_name node_id : string) (addr : Ipv4Addr)
    : UsedAddresses :=
  let u := used_release u jail_name in
  let set := default ∅ (ua_used_by_node u !! node_id) in
  mkUsedAddresses (<[node_id := {[addr]} ∪ set]> (ua_used_by_node u))
                  (<[jail_name := (node_id, addr)]> (ua_by_jail u)).

Definition address_of (u : UsedAddresses) (jail_name : string) : option Ipv4Addr :=
  snd <$> ua_by_jail u !! jail_name.

Definition first_free_address {I : Ipnet} (pod_cidr : Ipv4Net) (node_id : string)
    (used : UsedAddresses) : option Ipv4Addr :=
  find (fun addr => negb (is_used used node_id addr)) (drop 1 (hosts pod_cidr)).

(** ** Marks *)

Lemma is_used_true u node a :
  is_used u node a = true <-> exists s, ua_used_by_node u !! node = Some s /\ a ∈ s.
Proof.
  unfold is_used. destruct (ua_used_by_node u !! node); [|naive_solver].
  rewrite bool_decide_eq_true. naive_solver.
Qed.

Lemma is_used_release u jail node a :
  is_used (used_release u jail) node a = true <->
  is_used u node a = true /\ ua_by_jail u !! jail <> Some (node, a).
Proof.
  unfold used_release. destruct (ua_by_jail u !! jail) as [[n0 a0]|] eqn:E; [|naive_solver].
  destruct (ua_used_by_node u !! n0) as [s|] eqn:Es; rewrite !is_used_true; cbn.
  - setoid_rewrite lookup_insert_Some. split.
    + intros (s' & [[-> <-]|[Hn Hs']] & Ha); [|naive_solver].
      split; [|set_solver]. exists s. set_solver.
    + intros [(s' & Hs' & Ha) Hne]. destruct (decide (n0 = node)) as [->|Hn].
      * exists (s ∖ {[a0]}). split; [by left|].
        assert (s' = s) as -> by congruence. assert (a <> a0) by congruence. set_solver.
      * eauto.
  - split; [|naive_solver]. intros (s & Hs & Ha). split; [eauto|]. congruence.
Qed.

Lemma by_jail_release u jail :
  ua_by_jail (used_release u jail) = delete jail (ua_by_jail u).
Proof.
  unfold used_release. destruct (ua_by_jail u !! jail) as [[n a]|] eqn:E.
  - by destruct (ua_used_by_node u !! n).
  - by rewrite delete_id.
Qed.

Lemma is_used_record u jail n0 a0 node a :
  is_used (used_record u jail n0 a0) node a = true <->
  (node = n0 /\ a = a0) \/ is_used (used_release u jail) node a = true.
Proof.
  unfold used_record. rewrite !is_used_true. cbn. setoid_rewrite lookup_insert_Some.
  set (m := ua_used_by_node (used_release u jail)). split.
  - intros (s & [[-> <-]|[Hn Hs]] & Ha); [|eauto].
    destruct (m !! node) as [s'|] eqn:E; cbn in Ha; set_solver.
  - intros [[-> ->]|(s & Hs & Ha)]; [eexists; split; [by left|set_solver]|].
    destruct (decide (n0 = node)) as [->|]; [|eauto].
    eexists; split; [by left|]. rewrite Hs. set_solver.
Qed.

Lemma by_jail_record u jail node a :
  ua_by_jail (used_record u jail node a) = <[jail := (node, a)]> (ua_by_jail u).
Proof. unfold used_record. cbn. rewrite by_jail_release. apply insert_delete_eq. Qed.

(** ** Invariants *)

(** No mark outlives the jail it was made for; this holds of every sequence of
    operations, whatever addresses are recorded. *)
Definition marks_owned (u : UsedAddresses) : Prop :=
  forall node a, is_used u node a = true -> exists jail, ua_by_jail u !! jail = Some (node, a).

(** No two jails hold one address of one node, and what a jail holds is
    marked. *)
Record used_wf (u : UsedAddresses) : Prop := {
  uwf_owned : marks_owned u;
  uwf_marked : forall jail node a,
    ua_by_jail u !! jail = Some (node, a) -> is_used u node a = true;
  uwf_inj : forall j1 j2 na,
    ua_by_jail u !! j1 = Some na -> ua_by_jail u !! j2 = Some na -> j1 = j2
}.

Lemma used_new_wf : used_wf used_new.
Proof. split; [by intros ??; cbn|by intros ???; cbn|by intros ???; cbn]. Qed.

Lemma marks_owned_release u jail : marks_owned u -> marks_owned (used_release u jail).
Proof.
  intros Hm node a [Hu Hne]%is_used_release. destruct (Hm _ _ Hu) as [j Hj].
  exists j. rewrite by_jail_release. apply lookup_delete_Some. naive_solver.
Qed.

Lemma marks_owned_record u jail n0 a0 : marks_owned u -> marks_owned (used_record u jail n0 a0).
Proof.
  intros Hm node a. rewrite is_used_record, by_jail_record.
  intros [[-> ->]|Hu]; [exists jail; apply lookup_insert_eq|].
  destruct (marks_owned_release u jail Hm _ _ Hu) as [j Hj]. exists j.
  rewrite by_jail_release in Hj. apply lookup_delete_Some in Hj as [Hne Hj].
  by rewrite lookup_insert_ne.
Qed.

Lemma used_wf_release u jail : used_wf u -> used_wf (used_release u jail).
Proof.
  intros [Ho Hm Hi]. split.
  - by apply marks_owned_release.
  - intros j node a. rewrite by_jail_release. intros [Hne Hj]%lookup_delete_Some.
    apply is_used_release. split; [eauto|]. intros Hj'. by eapply Hne, Hi.
  - intros j1 j2 na. rewrite by_jail_release.
    intros [_ ?]%lookup_delete_Some [_ ?]%lookup_delete_Some. eauto.
Qed.

Lemma used_wf_record u jail node a :
  used_wf u -> (forall other, other <> jail -> ua_by_jail u !! other <> Some (node, a)) ->
  used_wf (used_record u jail node a).
Proof.
  intros Hwf Hfresh. pose proof (used_wf_release u jail Hwf) as [Ho Hm Hi]. split.
  - apply marks_owned_record, Hwf.
  - intros j n' a'. rewrite by_jail_record, is_used_record.
    intros [[<- [= <- <-]]|[Hne Hj]]%lookup_insert_Some; [by left|]. right.
    eapply Hm. rewrite by_jail_release. by rewrite lookup_delete_ne.
  - intros j1 j2 na. rewrite by_jail_record.
    intros [[<- <-]|[Hne1 H1]]%lookup_insert_Some [[<- E]|[Hne2 H2]]%lookup_insert_Some.
    + done.
    + by destruct (Hfresh j2).
    + subst na. by destruct (Hfresh j1).
    + by eapply (uwf_inj u Hwf).
Qed.

Lemma is_used_false_fresh u node a jail :
  used_wf u -> is_used u node a = false -> ua_by_jail u !! jail <> Some (node, a).
Proof. intros Hwf Hu Hj. apply (uwf_marked u Hwf) in Hj. congruence. Qed.

(** The two maps of [UsedAddresses] refine one map from jails to the
    (node, address) they hold.  [record] and [release] act on it as insertion
    and deletion, [is_used] answers whether some jail holds the address,
    [address_of] is a lookup; [record] of an address no other jail holds, and
    every [release], keep the representation invariant. *)
Theorem used_addresses_refine u :
  used_wf u ->
  (forall node a, is_used u node a = true <-> exists jail, ua_by_jail u !! jail = Some (node, a)) /\
  (forall jail, used_wf (used_release u jail) /\
     ua_by_jail (used_release u jail) = delete jail (ua_by_jail u)) /\
  (forall jail node a, is_used u node a = false ->
     used_wf (used_record u jail node a) /\
     ua_by_jail (used_record u jail node a) = <[jail := (node, a)]> (ua_by_jail u) /\
     address_of (used_record u jail node a) jail = Some a).
Proof.
  intros Hwf. split; [|split].
  - intros node a. split; [apply Hwf|]. intros [jail Hj]. by eapply Hwf.
  - intros jail. split; [by apply used_wf_release|apply by_jail_release].
  - intros jail node a Hu. split; [|split; [apply by_jail_record|]].
    + apply used_wf_record; [done|]. intros other _. by apply is_used_false_fresh.
    + unfold address_of. by rewrite by_jail_record, lookup_insert_eq.
Qed.

(** ** The first free address *)

Lemma drop_N_range lo n : drop 1 (N_range lo n) = N_range (lo + 1) (n - 1).
Proof.
  unfold N_range. destruct (N.to_nat n) as [|k] eqn:E.
  - by replace (N.to_nat (n - 1)) with 0%nat by lia.
  - replace (N.to_nat (n - 1)) with k by lia. cbn. rewrite drop_0, <-fmap_S_seq, <-list_fmap_compose.
    apply list_fmap_ext. intros i x _. cbn. lia.
Qed.

Lemma find_app {A} (p : A -> bool) l1 l2 :
  find p (l1 ++ l2) = match find p l1 with Some x => Some x | None => find p l2 end.
Proof. induction l1 as [|x l1 IH]; cbn; [done|]. by destruct (p x). Qed.

Lemma find_N_range_Some p lo n a :
  find p (N_range lo n) = Some a ->
  (lo <= a < lo + n)%N /\ p a = true /\ forall b, (lo <= b < a)%N -> p b = false.
Proof.
  intros Hf. pose proof Hf as [Hin Hp]%find_some.
  apply list_elem_of_In, elem_of_N_range in Hin. split; [done|]. split; [done|].
  intros b Hb. destruct (p b) eqn:Hpb; [|done]. exfalso. revert Hf.
  unfold N_range. replace (N.to_nat n) with (N.to_nat (b - lo) + N.to_nat (n - (b - lo)))%nat by lia.
  rewrite seq_app, fmap_app. cbn [Nat.add].
  destruct (N.to_nat (n - (b - lo))) as [|k] eqn:E; [lia|]. cbn [seq].
  rewrite fmap_cons. replace (lo + N.of_nat (N.to_nat (b - lo)))%N with b by lia.
  intros Hf. rewrite find_app in Hf. cbn in Hf. rewrite Hpb in Hf.
  destruct (find p (_ <$> seq 0 (N.to_nat (b - lo)))) as [x|] eqn:Ex.
  - apply find_some in Ex as [Hx%list_elem_of_In _].
    injection Hf as ->. apply list_elem_of_fmap in Hx as (i & -> & Hi%elem_of_seq). lia.
  - injection Hf as ->. lia.
Qed.

Lemma find_N_range_None p lo n :
  find p (N_range lo n) = None -> forall b, (lo <= b < lo + n)%N -> p b = false.
Proof.
  intros Hf b Hb. apply (find_none _ _ Hf). by apply list_elem_of_In, elem_of_N_range.
Qed.

(** The operations that change the table. *)
Inductive used_op : Type :=
  | OpRecord (jail node : string) (addr : Ipv4Addr)
  | OpRelease (jail : string).

Definition apply_used_op (u : UsedAddresses) (op : used_op) : UsedAddresses :=
  match op with
  | OpRecord jail node addr => used_record u jail node addr
  | OpRelease jail => used_release u jail
  end.

Section first_free.
Context {I : Ipnet}.
Implicit Types (net : Ipv4Net) (used : UsedAddresses).

Lemma candidates_range net :
  net_wf net -> (prefix_len net < 31)%N ->
  drop 1 (hosts net) = N_range (network net + 2) (block_size net - 3).
Proof.
  intros Hw Hp. rewrite hosts_spec by done. rewrite drop_N_range. f_equal; lia.
Qed.

Lemma first_free_address_Some net node used a :
  net_wf net -> (prefix_len net < 31)%N -> first_free_address net node used = Some a ->
  (network net + 2 <= a < network net + block_size net - 1)%N /\
  is_used used node a = false /\
  forall b, (network net + 2 <= b < a)%N -> is_used used node b = true.
Proof.
  intros Hw Hp. unfold first_free_address. rewrite candidates_range by done.
  intros (Hr & Hu & Hl)%find_N_range_Some. bool_to_prop.
  split; [lia|]. split; [done|]. intros b Hb. by apply negb_false_iff, Hl.
Qed.

Lemma first_free_address_None net node used :
  net_wf net -> (prefix_len net < 31)%N -> first_free_address net node used = None ->
  forall b, (network net + 2 <= b < network net + block_size net - 1)%N ->
    is_used used node b = true.
Proof.
  intros Hw Hp. unfold first_free_address. rewrite candidates_range by done.
  intros Hf b Hb. apply negb_false_iff, (find_N_range_None _ _ _ Hf). lia.
Qed.

(** An address handed out from a pod block is the lowest one, from the
    network address plus two up to below the broadcast address, that is not in
    use on that node: never the network address, the bridge gateway (network
    plus one) or the broadcast address; none is handed out only when every such
    address is in use. *)
Theorem first_free_address_correct net node used :
  net_wf net -> (prefix_len net < 31)%N ->
  match first_free_address net node used with
  | Some a => (network net + 2 <= a < network net + block_size net - 1)%N /\
      net_contains net a = true /\ is_used used node a = false /\
      forall b, (network net + 2 <= b < a)%N -> is_used used node b = true
  | None => forall b, (network net + 2 <= b < network net + block_size net - 1)%N ->
      is_used used node b = true
  end.
Proof.
  intros Hw Hp. destruct (first_free_address net node used) as [a|] eqn:E.
  - apply first_free_address_Some in E as (Hr & Hu & Hl); [|done..].
    split; [done|]. split; [|done].
    replace a with (network net + (a - network net))%N by lia.
    apply net_contains_offset; [done|lia].
  - by apply first_free_address_None.
Qed.

(** The jails holding an address on a node. *)
Definition jails_on (used : UsedAddresses) (node : string) : gmap string (string * Ipv4Addr) :=
  filter (fun kv => kv.2.1 = node) (ua_by_jail used).

Lemma full_block_jails net node used :
  net_wf net -> prefix_len net = 24%N -> marks_owned used ->
  first_free_address net node used = None -> (253 <= size (jails_on used node))%nat.
Proof.
  intros Hw Hp Hm Hf.
  assert (forall b, b ∈ N_range (network net + 2) 253 ->
    exists jail, ua_by_jail used !! jail = Some (node, b)) as Hall.
  { intros b Hb%elem_of_N_range. apply Hm.
    apply (first_free_address_None net node used); [done|lia|done|].
    unfold block_size. rewrite Hp. change (2 ^ (32 - 24))%N with 256%N. lia. }
  rewrite <-length_map_to_list.
  change 253%nat with (N.to_nat 253). rewrite <-(length_N_range (network net + 2) 253).
  rewrite <-(length_fmap (fun kv : string * (string * Ipv4Addr) => kv.2.2)).
  apply submseteq_length, NoDup_submseteq; [apply NoDup_N_range|].
  intros b Hb. destruct (Hall b Hb) as [jail Hj]. apply list_elem_of_fmap.
  exists (jail, (node, b)). split; [done|]. apply elem_of_map_to_list.
  by apply map_lookup_filter_Some.
Qed.
(** Capacity is never lost.  After any sequence of recordings and releases,
    whatever addresses were recorded, a /24 block that is reported full really
    holds at least 253 replicas. *)
Theorem first_free_address_capacity ops net node :
  net_wf net -> prefix_len net = 24%N ->
  let used := foldl apply_used_op used_new ops in
  first_free_address net node used = None -> (253 <= size (jails_on used node))%nat.
Proof.
  intros Hw Hp used. apply full_block_jails; [done..|]. unfold used.
  assert (marks_owned used_new) as H by apply used_new_wf.
  revert H. generalize used_new. induction ops as [|op ops IH]; intros u Hu; cbn; [done|].
  apply IH. destruct op; [by apply marks_owned_record|by apply marks_owned_release].
Qed.
End first_free.

Definition used_two : UsedAddresses :=
  used_record (used_record used_new "web-0" "node-1" 167805698) "web-1" "node-1" 167805699.

Lemma used_two_wf : used_wf used_two.
Proof.
  apply used_wf_record; [apply used_wf_record; [apply used_new_wf|]|].
  - done.
  - intros other Hne. rewrite by_jail_record. by intros [[<- [=]]|[_ ?]]%lookup_insert_Some.
Qed.

Lemma used_addresses_refine_witness :
  (forall node a, is_used used_two node a = true <->
     exists jail, ua_by_jail used_two !! jail = Some (node, a)) /\
  is_used used_two "node-1" 167805699 = true /\
  is_used (used_release used_two "web-1") "node-1" 167805699 = false.
Proof.
  split; [apply (used_addresses_refine used_two used_two_wf)|]. split; reflexivity.
Defined.

Lemma first_free_address_correct_witness :
  @first_free_address ipnet_model (mkNet 167805696 24) "node-1" used_two = Some 167805700%N /\
  @net_contains ipnet_model (mkNet 167805696 24) 167805700 = true.
Proof.
  pose proof (@first_free_address_correct ipnet_model (mkNet 167805696 24) "node-1" used_two
                ltac:(split; vm_compute; discriminate) ltac:(reflexivity)) as H.
  assert (@first_free_address ipnet_model (mkNet 167805696 24) "node-1" used_two
          = Some 167805700%N) as E by (vm_compute; reflexivity).
  rewrite E in H. split; [exact E | apply H].
Defined.

(** A node whose block is full. *)
Definition fill_ops : list used_op :=
  (fun a => OpRecord (u_to_string a) "node-1" a) <$> N_range 167805698 253.

Lemma first_free_address_capacity_witness :
  (253 <= size (jails_on (foldl apply_used_op used_new fill_ops) "node-1"))%nat.
Proof.
  apply (@first_free_address_capacity ipnet_model fill_ops (mkNet 167805696 24) "node-1");
    [split; vm_compute; discriminate | reflexivity | vm_compute; reflexivity].
Defined.
