(* ===== verification/Services.v ===== *)
(** * Services and their replicas

    [keel-controlplane/src/services.rs]: the service table with its virtual
    addresses, the naming of replicas, the ownership of jail names, the
    difference between desired and present replicas, and the spreading of a
    service's replicas over nodes. *)

From S2P Require Import Prelude RustStr Float64 Ipnet Spec Subnet Tables Scheduler.

Record ServiceRecord : Type := mkServiceRecord {
  sv_desired_replicas : N;
  sv_template : JailTemplate;
  sv_vip : Ipv4Addr;
  sv_port : N
}.

Record Services : Type := mkServices {
  svs_service_cidr : Ipv4Net;
  svs_by_name : gmap string ServiceRecord
}.

Inductive Owner : Type := Unmanaged | OwnerService (name : string).

Inductive ApplyServiceError : Type :=
  | NameConflict (name : string) (owner : Owner)
  | TemplateChanged (name : string)
  | PortChanged (name : string)
  | VipPoolExhausted (name : string).

Record UnknownService : Type := mkUnknownService { us_name : string }.

Section services.
Context {HO : HashOrder} {I : Ipnet}.

Definition services_new (service_cidr : Ipv4Net) : Services := mkServices service_cidr ∅.

Definition services_get (s : Services) (name : string) : option ServiceRecord :=
  svs_by_name s !! name.

Definition services_names (s : Services) : list string := (hash_iter (svs_by_name s)).*1.

Definition services_list (s : Services) : list (string * ServiceRecord) :=
  sort_by_key fst (hash_iter (svs_by_name s)).

Definition services_insert (s : Services) (name : string) (r : ServiceRecord) : Services :=
  mkServices (svs_service_cidr s) (<[name := r]> (svs_by_name s)).

(** The virtual addresses already given out. *)
Definition taken_vips (s : Services) : gset Ipv4Addr :=
  map_to_set (fun _ r => sv_vip r) (svs_by_name s).

(** [(0..host_count).map(derive_service_vip).find(|a| !taken.contains(a))]: the
    range is consumed lazily, [fuel] attempts are left. *)
Fixpoint probe_vip (name : string) (cidr : Ipv4Net) (taken : gset Ipv4Addr)
    (fuel : nat) (attempt : N) : comp (option Ipv4Addr) :=
  match fuel with
  | O => Val None
  | S fuel =>
      addr ← derive_service_vip name cidr attempt;
      if bool_decide (addr ∈ taken) then probe_vip name cidr taken fuel (attempt + 1)
      else Val (Some addr)
  end.

Definition services_apply (s : Services) (name : string) (desired_replicas : N)
    (template : JailTemplate) (port : N)
    : comp (result ApplyServiceError unit * Services) :=
  match svs_by_name s !! name with
  | Some existing =>
      if negb (bool_decide (sv_template existing = template))
      then Val (Err (TemplateChanged name), s)
      else if negb (sv_port existing =? port)%N
      then Val (Err (PortChanged name), s)
      else Val (Ok tt, services_insert s name
                         (mkServiceRecord desired_replicas template (sv_vip existing) port))
  | None =>
      host_count ← shl1_u32 (32 - prefix_len (svs_service_cidr s));
      found ← probe_vip name (svs_service_cidr s) (taken_vips s) (N.to_nat host_count) 0;
      match found with
      | None => Val (Err (VipPoolExhausted name), s)
      | Some vip =>
          Val (Ok tt, services_insert s name (mkServiceRecord desired_replicas template vip port))
      end
  end.

Definition services_remove (s : Services) (name : string) : Services :=
  mkServices (svs_service_cidr s) (delete name (svs_by_name s)).

Definition replica_name (service_name : string) (index : N) : string :=
  service_name +:+ "-" +:+ u_to_string index.

Definition replica_index (service_name jail_name : string) : option N :=
  rest ← strip_prefix service_name jail_name;
  suffix ← strip_prefix "-" rest;
  index ← parse_uint u32_max suffix;
  if String.eqb (u_to_string index) suffix then Some index else None.

Definition owner_of (name : string) (placements : Placements) (services : Services)
    : option Owner :=
  _ ← placements_get placements name;
  match find (fun service_name => is_some (replica_index service_name name))
             (services_names services) with
  | Some service_name => Some (OwnerService service_name)
  | None => Some Unmanaged
  end.

(** A [BTreeSet<u32>] iterates in ascending order. *)
Definition btree_iter (s : gset N) : list N := merge_sort N.le (elements s).

(** [(start..).filter(|i| !healthy.contains(i)).take(missing)]. *)
Fixpoint take_missing (healthy : gset N) (fuel : nat) (start : N) (missing : nat) : list N :=
  match fuel, missing with
  | S fuel, S missing' =>
      if bool_decide (start ∈ healthy)
      then take_missing healthy fuel (start + 1) missing
      else start :: take_missing healthy fuel (start + 1) missing'
  | _, _ => []
  end.

Definition diff_replicas (desired : N) (healthy_indices : gset N) : list N * list N :=
  let healthy_count := wrap32 (N.of_nat (size healthy_indices)) in
  if (healthy_count <? desired)%N then
    let missing := N.to_nat (desired - healthy_count) in
    (take_missing healthy_indices (missing + size healthy_indices) 0 missing, [])
  else if (desired <? healthy_count)%N then
    let excess := N.to_nat (healthy_count - desired) in
    ([], take excess (reverse (btree_iter healthy_indices)))
  else ([], []).

Definition nodes_hosting_service (service_name : string) (placements : Placements)
    : gset string :=
  list_to_set
    (snd <$> filter (fun kv => is_some (replica_index service_name kv.1) = true)
                    (placements_iter placements)).

Definition pick_node_for_service (candidates : list NodeResources) (busy_nodes : gset string)
    : result ScheduleError string :=
  let filtered := filter (fun n => nd_id n ∉ busy_nodes) candidates in
  match filtered with
  | [] => pick_node candidates
  | _ => pick_node filtered
  end.
End services.

(** ** Replica names *)

Lemma replica_name_app s i : replica_name s i = s +:+ String "-"%char (u_to_string i).
Proof. done. Qed.

Lemma replica_index_Some s j i :
  replica_index s j = Some i <-> j = replica_name s i /\ (i <= u32_max)%N.
Proof.
  unfold replica_index. rewrite replica_name_app. split.
  - intros (rest & H1%strip_prefix_Some & (suffix & H2%strip_prefix_Some & (n & H3 & H4)%bind_Some)%bind_Some)%bind_Some.
    pose proof (parse_uint_bound _ _ _ H3). destruct (String.eqb _ _) eqn:E; [|done].
    bool_to_prop. simplify_eq. done.
  - intros [-> Hi]. rewrite strip_prefix_app. cbn.
    change (if ascii_eqb "-" "-" then Some (u_to_string i) else None) with (Some (u_to_string i)).
    cbn. rewrite parse_uint_u_to_string by done. cbn. by rewrite String.eqb_refl.
Qed.

Lemma replica_name_inj s1 i1 s2 i2 :
  replica_name s1 i1 = replica_name s2 i2 -> s1 = s2 /\ i1 = i2.
Proof.
  rewrite !replica_name_app. intros H.
  apply app_sep_inj in H as [-> H]; [|apply u_to_string_no_dash..].
  split; [done|]. by apply u_to_string_inj.
Qed.

(** Replica names are a bijection between (service, u32 index) pairs and the
    jail names they stand for: the index of a replica name parses back, a name
    that parses is the canonical one, and no jail name belongs to two
    services. *)
Theorem replica_name_roundtrip service jail index :
  (replica_index service jail = Some index <->
     jail = replica_name service index /\ (index <= u32_max)%N) /\
  (forall other i, replica_index service jail = Some index -> replica_index other jail = Some i ->
     other = service /\ i = index).
Proof.
  split; [apply replica_index_Some|].
  intros other i [-> _]%replica_index_Some [H _]%replica_index_Some.
  by apply replica_name_inj in H as [-> ->].
Qed.

(** ** Ownership *)

Section owner.
Context {HO : HashOrder}.

Lemma elem_of_services_names s name :
  name ∈ services_names s <-> is_Some (services_get s name).
Proof.
  unfold services_names, services_get. rewrite list_elem_of_fmap. split.
  - intros ([n r] & -> & H%elem_of_hash_iter). by exists r.
  - intros [r H]. exists (name, r). split; [done|]. by apply elem_of_hash_iter.
Qed.

Lemma elem_of_services_list s name r :
  (name, r) ∈ services_list s <-> services_get s name = Some r.
Proof. unfold services_list. rewrite elem_of_sort_by_key. apply elem_of_hash_iter. Qed.

Lemma owner_of_Service name p s svc :
  owner_of name p s = Some (OwnerService svc) <->
  is_Some (placements_get p name) /\ is_Some (services_get s svc) /\
  is_Some (replica_index svc name).
Proof.
  unfold owner_of. destruct (placements_get p name) as [node|] eqn:Ep; cbn.
  - destruct (find _ _) as [sn|] eqn:Ef.
    + apply find_some in Ef as [Hin%list_elem_of_In Hi]. apply elem_of_services_names in Hin.
      apply is_some_true in Hi as [i Hi]. split; [by intros [= <-]; eauto|].
      intros (_ & _ & [i' Hi']). f_equal. f_equal.
      apply replica_index_Some in Hi as [-> _]. apply replica_index_Some in Hi' as [Hi' _].
      by apply replica_name_inj in Hi' as [-> _].
    + split; [done|]. intros (_ & Hs%elem_of_services_names & Hi).
      apply list_elem_of_In in Hs. pose proof (find_none _ _ Ef _ Hs) as Hb. cbn in Hb.
      apply is_some_false in Hb. rewrite Hb in Hi. by destruct Hi.
  - split; [done|]. intros [[? [=]] _].
Qed.

Lemma owner_of_None name p s : owner_of name p s = None <-> placements_get p name = None.
Proof.
  unfold owner_of. destruct (placements_get p name); cbn; [|done].
  by destruct (find _ _).
Qed.

(** The owner of a name does not depend on the order in which the service
    table is iterated.  A name has no owner exactly when it is not placed; a
    placed name belongs to a service exactly when that service exists and the
    name is one of its canonical replica names, and is unmanaged otherwise. *)
Theorem owner_of_correct name p s :
  (owner_of name p s = None <-> placements_get p name = None) /\
  (forall svc, owner_of name p s = Some (OwnerService svc) <->
     is_Some (placements_get p name) /\ is_Some (services_get s svc) /\
     exists i, (i <= u32_max)%N /\ name = replica_name svc i) /\
  (owner_of name p s = Some Unmanaged <->
     is_Some (placements_get p name) /\
     forall svc i, is_Some (services_get s svc) -> (i <= u32_max)%N -> name <> replica_name svc i).
Proof.
  assert (forall svc, is_Some (replica_index svc name) <->
            exists i, (i <= u32_max)%N /\ name = replica_name svc i) as Hidx.
  { intros svc. unfold is_Some. setoid_rewrite replica_index_Some. naive_solver. }
  assert (forall svc, owner_of name p s = Some (OwnerService svc) <->
     is_Some (placements_get p name) /\ is_Some (services_get s svc) /\
     exists i, (i <= u32_max)%N /\ name = replica_name svc i) as Hsvc.
  { intros svc. by rewrite owner_of_Service, Hidx. }
  split; [apply owner_of_None|]. split; [exact Hsvc|]. split.
  - intros Ho. split.
    + destruct (placements_get p name) eqn:E; [by eexists|].
      apply (owner_of_None name p s) in E. congruence.
    + intros svc i Hs Hi Hn.
      assert (owner_of name p s = Some (OwnerService svc)) as H; [|congruence].
      apply Hsvc. split; [|eauto]. destruct (placements_get p name) eqn:E; [by eexists|].
      apply (owner_of_None name p s) in E. congruence.
  - intros [Hp Hno]. destruct (owner_of name p s) as [[|svc]|] eqn:Ho; [done| |].
    + destruct (proj1 (Hsvc svc) eq_refl) as (_ & Hs & i & Hi & Hn). by destruct (Hno svc i).
    + apply owner_of_None in Ho. rewrite Ho in Hp. by destruct Hp.
Qed.
End owner.

(** ** Desired and present replicas *)

#[global] Instance N_le_total : Total N.le.
Proof. intros a b. lia. Qed.

Lemma elem_of_btree_iter s x : x ∈ btree_iter s <-> x ∈ s.
Proof. unfold btree_iter. by rewrite merge_sort_Permutation, elem_of_elements. Qed.

Lemma NoDup_btree_iter s : NoDup (btree_iter s).
Proof. unfold btree_iter. rewrite merge_sort_Permutation. apply NoDup_elements. Qed.

Lemma length_btree_iter s : length (btree_iter s) = size s.
Proof. unfold btree_iter. by rewrite merge_sort_Permutation. Qed.

Lemma btree_iter_sorted s : StronglySorted N.le (btree_iter s).
Proof. apply Sorted_StronglySorted; [apply _|]. apply Sorted_merge_sort, _. Qed.

(** The elements of the set not yet passed by the scan. *)
Definition from_index (s : gset N) (i : N) : gset N := filter (fun x => (i <= x)%N) s.

Lemma take_missing_spec healthy fuel i m :
  (m + size (from_index healthy i) <= fuel)%nat ->
  let l := take_missing healthy fuel i m in
  length l = m /\ StronglySorted N.lt l /\
  Forall (fun x => (i <= x)%N /\ x ∉ healthy) l /\
  (forall j x, x ∈ l -> (i <= j < x)%N -> j ∉ healthy -> j ∈ l).
Proof.
  revert i m. induction fuel as [|fuel IH]; intros i m Hf; cbn [take_missing].
  - assert (m = 0%nat) as -> by lia. split; [done|]. repeat split; try constructor. set_solver.
  - destruct m as [|m]; [split; [done|]; repeat split; try constructor; set_solver|].
    case_bool_decide as Hi.
    + assert (size (from_index healthy (i + 1)) < size (from_index healthy i))%nat as Hlt.
      { apply subset_size. split; [intros x; unfold from_index; rewrite !elem_of_filter; naive_solver lia|].
        intros Hsub. specialize (Hsub i). unfold from_index in Hsub.
        rewrite !elem_of_filter in Hsub. destruct Hsub; [split; [lia|done]|lia]. }
      destruct (IH (i + 1)%N (S m)) as (Hl & Hs & Ha & Hc); [lia|].
      split; [done|]. split; [done|]. split.
      * eapply Forall_impl; [exact Ha|]. cbn. intros x [? ?]. split; [lia|done].
      * intros j x Hx Hj Hn. destruct (decide (j = i)) as [->|]; [done|].
        apply (Hc j x); [done|lia|done].
    + assert (size (from_index healthy (i + 1)) <= size (from_index healthy i))%nat as Hle.
      { apply subseteq_size. intros x. unfold from_index. rewrite !elem_of_filter. naive_solver lia. }
      destruct (IH (i + 1)%N m) as (Hl & Hs & Ha & Hc); [lia|].
      rewrite Forall_forall in Ha. split; [cbn; lia|]. split.
      * constructor; [done|]. apply Forall_forall. intros x Hx. destruct (Ha x Hx). lia.
      * split.
        -- constructor; [split; [lia|done]|]. apply Forall_forall. intros x Hx.
           destruct (Ha x Hx). split; [lia|done].
        -- intros j x [->|Hx]%elem_of_cons Hj Hn; [lia|].
           destruct (decide (j = i)) as [->|]; [set_solver|].
           apply elem_of_cons. right. apply (Hc j x); [done|lia|done].
Qed.

Lemma StronglySorted_lt_NoDup l : StronglySorted N.lt l -> NoDup l.
Proof.
  induction 1 as [|x l Hs IH Hx]; constructor; [|done].
  intros Hin. rewrite Forall_forall in Hx. specialize (Hx x Hin). lia.
Qed.

(** The result of applying a difference. *)
Definition apply_diff (present : gset N) (d : list N * list N) : gset N :=
  (present ∪ list_to_set d.1) ∖ list_to_set d.2.

Lemma diff_replicas_add desired h :
  (N.of_nat (size h) < desired)%N -> (desired <= u32_max)%N ->
  exists l, diff_replicas desired h = (l, []) /\
    N.of_nat (length l + size h) = desired /\ StronglySorted N.lt l /\
    (forall x, x ∈ l -> (x < desired)%N /\ x ∉ h) /\
    (forall j x, x ∈ l -> (j < x)%N -> j ∉ h -> j ∈ l).
Proof.
  intros Hlt Hd. unfold diff_replicas, wrap32, u32_max in *.
  rewrite N.mod_small by lia. rewrite (proj2 (N.ltb_lt _ _) Hlt).
  set (m := N.to_nat (desired - N.of_nat (size h))).
  destruct (take_missing_spec h (m + size h) 0 m) as (Hl & Hs & Ha & Hc).
  { apply Nat.add_le_mono_l. apply subseteq_size. intros x [_ ?]%elem_of_filter. done. }
  eexists. split; [done|]. split; [lia|]. split; [done|]. rewrite Forall_forall in Ha. split.
  - intros x Hx. split; [|by apply Ha].
    assert (size (list_to_set (N_range 0 (x + 1)) : gset N) <=
            size (h ∪ list_to_set (take_missing h (m + size h) 0 m)))%nat as Hsz.
    { apply subseteq_size. intros j. rewrite elem_of_list_to_set, elem_of_N_range, elem_of_union.
      intros Hj. destruct (decide (j ∈ h)) as [|Hn]; [by left|]. right. apply elem_of_list_to_set.
      destruct (decide (j = x)) as [->|]; [done|]. apply (Hc j x); [done|lia|done]. }
    rewrite size_list_to_set, length_N_range in Hsz by apply NoDup_N_range.
    rewrite size_union_alt in Hsz.
    assert (size (list_to_set (take_missing h (m + size h) 0 m) ∖ h) <= m)%nat as Hsz'.
    { rewrite <-Hl at 3. rewrite <-(size_list_to_set (C := gset N) (take_missing h (m + size h) 0 m))
        by (by apply StronglySorted_lt_NoDup).
      apply subseteq_size. set_solver. }
    lia.
  - intros j x Hx Hj Hn. apply (Hc j x); [done|lia|done].
Qed.

Lemma diff_replicas_remove desired h :
  (desired < N.of_nat (size h))%N -> (N.of_nat (size h) <= u32_max)%N ->
  exists l, diff_replicas desired h = ([], l) /\
    (N.of_nat (length l) + desired = N.of_nat (size h))%N /\ NoDup l /\
    (forall x, x ∈ l -> x ∈ h) /\
    (forall x y, x ∈ l -> y ∈ h -> y ∉ l -> (y < x)%N).
Proof.
  intros Hlt Hs. unfold diff_replicas, wrap32, u32_max in *.
  rewrite N.mod_small by lia. rewrite (proj2 (N.ltb_ge _ _)) by lia.
  rewrite (proj2 (N.ltb_lt _ _) Hlt).
  set (n := N.to_nat (N.of_nat (size h) - desired)). set (r := reverse (btree_iter h)).
  assert (NoDup r) as Hnd by (unfold r; rewrite reverse_Permutation; apply NoDup_btree_iter).
  assert (length r = size h) as Hlen by (unfold r; by rewrite length_reverse, length_btree_iter).
  assert (forall x, x ∈ r <-> x ∈ h) as Hel
    by (intros x; unfold r; by rewrite reverse_Permutation, elem_of_btree_iter).
  eexists. split; [done|]. split; [rewrite length_take, Hlen; lia|].
  rewrite <-(take_drop n r) in Hnd. apply NoDup_app in Hnd as (Hnd & Hdisj & _).
  split; [done|]. split; [intros x Hx; apply Hel; rewrite <-(take_drop n r); set_solver|].
  intros x y Hx Hy Hny. apply Hel in Hy. rewrite <-(take_drop n r) in Hy.
  apply elem_of_app in Hy as [?|Hy]; [done|].
  assert (y <= x)%N; [|assert (x <> y) by (intros ->; by apply (Hdisj y)); lia].
  pose proof (btree_iter_sorted h) as Hsort.
  rewrite <-(reverse_involutive (btree_iter h)) in Hsort. fold r in Hsort.
  rewrite <-(take_drop n r), reverse_app in Hsort.
  apply (StronglySorted_app_1_elem_of N.le (reverse (drop n r)) (reverse (take n r)));
    [done| |]; by apply elem_of_reverse.
Qed.

Lemma diff_replicas_done desired h :
  N.of_nat (size h) = desired -> (desired <= u32_max)%N -> diff_replicas desired h = ([], []).
Proof.
  intros <- Hd. unfold diff_replicas, wrap32, u32_max in *. rewrite N.mod_small by lia.
  by rewrite N.ltb_irrefl.
Qed.

Lemma apply_diff_size desired h :
  (desired <= u32_max)%N -> (N.of_nat (size h) <= u32_max)%N ->
  N.of_nat (size (apply_diff h (diff_replicas desired h))) = desired.
Proof.
  intros Hd Hs. destruct (N.lt_trichotomy (N.of_nat (size h)) desired) as [Hlt|[Heq|Hgt]].
  - destruct (diff_replicas_add desired h Hlt Hd) as (l & -> & Hl & Hsort & Hin & _).
    unfold apply_diff. cbn. rewrite difference_empty_L, size_union, size_list_to_set.
    + lia.
    + by apply StronglySorted_lt_NoDup.
    + set_solver.
  - rewrite diff_replicas_done by done. unfold apply_diff. cbn.
    by rewrite union_empty_r_L, difference_empty_L.
  - destruct (diff_replicas_remove desired h Hgt Hs) as (l & -> & Hl & Hnd & Hin & _).
    unfold apply_diff. cbn. rewrite union_empty_r_L.
    rewrite size_difference by set_solver. rewrite size_list_to_set by done. lia.
Qed.

(** [diff_replicas] is exact.  Applying its additions and removals to the
    present replicas gives precisely the desired number, so that a second
    difference is empty.  Additions are in increasing order, absent, below the
    desired count and skip no absent index; removals are present and no
    replica left is above a removed one; the two never occur together. *)
Theorem diff_replicas_correct desired h :
  (desired <= u32_max)%N -> (N.of_nat (size h) <= u32_max)%N ->
  let d := diff_replicas desired h in
  N.of_nat (size (apply_diff h d)) = desired /\
  diff_replicas desired (apply_diff h d) = ([], []) /\
  (d.1 = [] \/ d.2 = []) /\
  StronglySorted N.lt d.1 /\
  (forall x, x ∈ d.1 -> (x < desired)%N /\ x ∉ h) /\
  (forall j x, x ∈ d.1 -> (j < x)%N -> j ∉ h -> j ∈ d.1) /\
  (forall x, x ∈ d.2 -> x ∈ h) /\
  (forall x y, x ∈ d.2 -> y ∈ h -> y ∉ d.2 -> (y < x)%N).
Proof.
  intros Hd Hs d. pose proof (apply_diff_size desired h Hd Hs) as Hsz. fold d in Hsz.
  split; [done|]. split; [by apply diff_replicas_done|].
  destruct (N.lt_trichotomy (N.of_nat (size h)) desired) as [Hlt|[Heq|Hgt]].
  - destruct (diff_replicas_add desired h Hlt Hd) as (l & E & Hl & Hsort & Hin & Hlow).
    unfold d. rewrite E. cbn. set_solver.
  - unfold d. rewrite diff_replicas_done by done. cbn.
    split; [by left|]. split; [constructor|]. set_solver.
  - destruct (diff_replicas_remove desired h Hgt Hs) as (l & E & Hl & Hnd & Hin & Hhigh).
    unfold d. rewrite E. cbn. split; [by left|]. split; [constructor|]. set_solver.
Qed.

Lemma diff_replicas_correct_witness :
  diff_replicas 3 {[1%N]} = ([0%N; 2%N], []) /\
  diff_replicas 1 {[0%N; 1%N; 2%N]} = ([], [2%N; 1%N]) /\
  diff_replicas 3 (apply_diff {[1%N]} (diff_replicas 3 {[1%N]})) = ([], []).
Proof.
  split; [vm_compute; reflexivity|]. split; [vm_compute; reflexivity|].
  destruct (diff_replicas_correct 3 {[1%N]} ltac:(vm_compute; discriminate)
              ltac:(vm_compute; discriminate)) as (_ & H & _).
  exact H.
Defined.

(** ** Virtual addresses *)

Section vips.
Context {I : Ipnet}.

(** Virtual addresses lie in the service network and no two services share
    one. *)
Record services_wf (s : Services) : Prop := {
  swf_cidr : net_wf (svs_service_cidr s);
  swf_prefix : (0 < prefix_len (svs_service_cidr s))%N;
  swf_range : forall name r, svs_by_name s !! name = Some r ->
    (network (svs_service_cidr s) <= sv_vip r <
     network (svs_service_cidr s) + block_size (svs_service_cidr s))%N;
  swf_inj : forall n1 n2 r1 r2,
    svs_by_name s !! n1 = Some r1 -> svs_by_name s !! n2 = Some r2 ->
    sv_vip r1 = sv_vip r2 -> n1 = n2;
  swf_desired : forall name r, svs_by_name s !! name = Some r ->
    (sv_desired_replicas r <= u32_max)%N
}.

Lemma elem_of_taken_vips s a :
  a ∈ taken_vips s <-> exists name r, svs_by_name s !! name = Some r /\ sv_vip r = a.
Proof. unfold taken_vips. rewrite elem_of_map_to_set. naive_solver. Qed.

Lemma probe_vip_spec name c taken fuel attempt :
  net_wf c -> (0 < prefix_len c)%N ->
  exists o, probe_vip name c taken fuel attempt = Val o /\
    match o with
    | Some a => a ∉ taken /\ exists i, (i < block_size c)%N /\ a = (network c + i)%N
    | None => forall i, (attempt <= i < attempt + N.of_nat fuel)%N ->
        (network c + vip_index name i c)%N ∈ taken
    end.
Proof.
  intros Hw Hp. revert attempt. induction fuel as [|fuel IH]; intros attempt; cbn [probe_vip].
  - exists None. split; [done|]. intros i Hi. lia.
  - rewrite derive_service_vip_value, Val_bind by done. case_bool_decide as Ht.
    + destruct (IH (attempt + 1)%N) as (o & -> & Ho). exists o. split; [done|].
      destruct o as [a|]; [done|]. intros i Hi.
      destruct (decide (i = attempt)) as [->|]; [done|]. apply Ho. lia.
    + eexists. split; [done|]. split; [done|]. eexists. split; [|done]. apply vip_index_lt.
Qed.

Lemma services_apply_new s name replicas t port :
  services_wf s -> svs_by_name s !! name = None ->
  (exists vip, services_apply s name replicas t port
       = Val (Ok tt, services_insert s name (mkServiceRecord replicas t vip port)) /\
     vip ∉ taken_vips s /\
     (network (svs_service_cidr s) <= vip <
      network (svs_service_cidr s) + block_size (svs_service_cidr s))%N) \/
  (services_apply s name replicas t port = Val (Err (VipPoolExhausted name), s) /\
     forall a, (network (svs_service_cidr s) <= a <
                network (svs_service_cidr s) + block_size (svs_service_cidr s))%N ->
       a ∈ taken_vips s).
Proof.
  intros [Hw Hp Hr Hi Hd] Hnew. unfold services_apply. rewrite Hnew.
  rewrite shl1_u32_Val, Val_bind by lia. fold (block_size (svs_service_cidr s)).
  destruct (probe_vip_spec name (svs_service_cidr s) (taken_vips s)
    (N.to_nat (block_size (svs_service_cidr s))) 0 Hw Hp) as ([vip|] & -> & Ho); cbn.
  - left. destruct Ho as (Hn & i & Hi' & ->). eexists. split; [done|]. split; [done|]. lia.
  - right. split; [done|]. intros a Ha.
    destruct (vip_index_surj name (svs_service_cidr s) (a - network (svs_service_cidr s)))
      as (k & Hk & E); [lia|].
    replace a with (network (svs_service_cidr s) + vip_index name k (svs_service_cidr s))%N by lia.
    apply Ho. lia.
Qed.

Lemma services_insert_wf s name r :
  services_wf s -> (sv_desired_replicas r <= u32_max)%N ->
  (network (svs_service_cidr s) <= sv_vip r <
   network (svs_service_cidr s) + block_size (svs_service_cidr s))%N ->
  (forall other r', other <> name -> svs_by_name s !! other = Some r' -> sv_vip r' <> sv_vip r) ->
  services_wf (services_insert s name r).
Proof.
  intros [Hw Hp Hr Hi Hd] Hdes Hrange Hfresh. split; cbn; try done.
  - intros n r' [[<- <-]|[_ H]]%lookup_insert_Some; [done|eauto].
  - intros n1 n2 r1 r2 [[<- <-]|[Hn1 H1]]%lookup_insert_Some
      [[<- <-]|[Hn2 H2]]%lookup_insert_Some Hv; [done| | |eauto].
    + by destruct (Hfresh n2 r2).
    + by destruct (Hfresh n1 r1).
  - intros n r' [[<- <-]|[_ H]]%lookup_insert_Some; [done|eauto].
Qed.

Lemma services_remove_wf s name : services_wf s -> services_wf (services_remove s name).
Proof.
  intros [Hw Hp Hr Hi Hd]. split; cbn; try done.
  - intros n r [_ H]%lookup_delete_Some. eauto.
  - intros n1 n2 r1 r2 [_ H1]%lookup_delete_Some [_ H2]%lookup_delete_Some. eauto.
  - intros n r [_ H]%lookup_delete_Some. eauto.
Qed.

(** What [services_apply] does, by cases. *)
Lemma services_apply_cases s name replicas t port :
  services_wf s ->
  match svs_by_name s !! name with
  | Some old =>
      services_apply s name replicas t port =
        if bool_decide (sv_template old = t) then
          if (sv_port old =? port)%N
          then Val (Ok tt, services_insert s name (mkServiceRecord replicas t (sv_vip old) port))
          else Val (Err (PortChanged name), s)
        else Val (Err (TemplateChanged name), s)
  | None => True
  end.
Proof.
  intros Hwf. destruct (svs_by_name s !! name) as [old|] eqn:E; [|done].
  unfold services_apply. rewrite E. by destruct (bool_decide _), (_ =? _)%N.
Qed.

Lemma services_apply_inv s name replicas t port :
  services_wf s -> (replicas <= u32_max)%N ->
  exists res s', services_apply s name replicas t port = Val (res, s') /\ services_wf s' /\
    svs_service_cidr s' = svs_service_cidr s.
Proof.
  intros Hwf Hrep. pose proof (services_apply_cases s name replicas t port Hwf) as Hc.
  destruct (svs_by_name s !! name) as [old|] eqn:E.
  - rewrite Hc. destruct (bool_decide _); [|by eauto]. destruct (_ =? _)%N; [|by eauto].
    do 2 eexists. split; [done|]. split; [|done]. apply services_insert_wf; cbn; [done..| |].
    + by eapply swf_range.
    + intros other r' Hne Hr' Hv. by eapply Hne, swf_inj.
  - destruct (services_apply_new s name replicas t port Hwf E) as [(vip & -> & Hn & Hr)|[-> _]];
      [|eauto].
    do 2 eexists. split; [done|]. split; [|done]. apply services_insert_wf; cbn; [done..|].
    intros other r' _ Hr' Hv. apply Hn, elem_of_taken_vips. eauto.
Qed.

(** Applying a service never panics when the service network has a positive
    prefix length, and keeps virtual addresses distinct and inside the service
    network.  A known service is rejected, unchanged, on a template change
    (checked first) or a port change, and otherwise only its replica count
    changes; a new service gets an address nobody holds and fails only when
    every address of the network is taken. *)
Theorem services_apply_correct s name replicas t port :
  services_wf s -> (replicas <= u32_max)%N ->
  exists res s', services_apply s name replicas t port = Val (res, s') /\ services_wf s' /\
    match svs_by_name s !! name with
    | Some old =>
        if bool_decide (sv_template old = t) then
          if (sv_port old =? port)%N
          then res = Ok tt /\
               s' = services_insert s name (mkServiceRecord replicas t (sv_vip old) port)
          else res = Err (PortChanged name) /\ s' = s
        else res = Err (TemplateChanged name) /\ s' = s
    | None =>
        (exists vip, res = Ok tt /\ vip ∉ taken_vips s /\
           s' = services_insert s name (mkServiceRecord replicas t vip port)) \/
        (res = Err (VipPoolExhausted name) /\ s' = s /\
           forall a, (network (svs_service_cidr s) <= a <
                      network (svs_service_cidr s) + block_size (svs_service_cidr s))%N ->
             a ∈ taken_vips s)
    end.
Proof.
  intros Hwf Hrep. destruct (services_apply_inv s name replicas t port Hwf Hrep)
    as (res & s' & E & Hwf' & _).
  exists res, s'. split; [done|]. split; [done|].
  pose proof (services_apply_cases s name replicas t port Hwf) as Hc.
  destruct (svs_by_name s !! name) as [old|] eqn:En.
  - rewrite Hc in E. destruct (bool_decide _); [destruct (_ =? _)%N|]; by simplify_eq.
  - destruct (services_apply_new s name replicas t port Hwf En) as [(vip & E' & Hn & _)|[E' Hall]];
      rewrite E' in E; simplify_eq; eauto.
Qed.

(** A service network of prefix length zero passes the only check made of
    the argument (it is a well-formed network) but applying the first service
    panics, which ends the worker thread. *)
Theorem services_apply_zero_prefix s name replicas t port :
  prefix_len (svs_service_cidr s) = 0%N -> svs_by_name s !! name = None ->
  services_apply s name replicas t port = Panic.
Proof. intros Hp Hn. unfold services_apply. by rewrite Hn, Hp. Qed.

(** ** Spreading *)

Lemma pick_node_for_service_Ok candidates busy id :
  Forall node_in_range candidates -> pick_node_for_service candidates busy = Ok id ->
  (exists n, n ∈ candidates /\ nd_id n = id) /\
  (id ∈ busy -> forall n, n ∈ candidates -> nd_id n ∈ busy).
Proof.
  intros Hr. unfold pick_node_for_service.
  destruct (filter _ _) as [|n0 f] eqn:Ef.
  - intros H%pick_node_elem; [|done]. split; [done|]. intros _ n Hn.
    destruct (decide (nd_id n ∈ busy)) as [|Hnb]; [done|].
    assert (n ∈ filter (fun n => nd_id n ∉ busy) candidates) as Hin
      by (by apply list_elem_of_filter).
    rewrite Ef in Hin. set_solver.
  - rewrite <-Ef. intros (n & [Hnb Hin]%list_elem_of_filter & <-)%pick_node_elem.
    + split; [eauto|done].
    + apply Forall_forall. intros m [_ Hm]%list_elem_of_filter. by eapply Forall_forall in Hr.
Qed.

(** Spreading.  A node is found exactly when there is a candidate.  The
    choice is the scheduler's best among the candidates that do not already
    host the service when there is one, and the scheduler's best among all
    candidates otherwise; the order of the candidates does not matter. *)
Theorem pick_node_for_service_correct candidates candidates' busy :
  Forall node_in_range candidates -> candidates' ≡ₚ candidates ->
  let free := filter (fun n => nd_id n ∉ busy) candidates in
  pick_node_for_service candidates' busy = pick_node_for_service candidates busy /\
  match pick_node_for_service candidates busy with
  | Err NoAvailableNodes => candidates = []
  | Ok id =>
      exists n, nd_id n = id /\
        ((id ∉ busy /\ unbeaten free n) \/ (free = [] /\ unbeaten candidates n))
  end.
Proof.
  intros Hr Hp free.
  assert (filter (fun n => nd_id n ∉ busy) candidates' ≡ₚ free) as Hf by (unfold free; by rewrite Hp).
  assert (Forall node_in_range free) as Hrf.
  { apply Forall_forall. intros m [_ Hm]%list_elem_of_filter. by eapply Forall_forall in Hr. }
  split.
  - unfold pick_node_for_service. fold free.
    assert (Forall node_in_range candidates') by (by rewrite Hp).
    destruct free as [|n0 f] eqn:Ef.
    + apply Permutation_nil_r in Hf as ->. by apply pick_node_perm.
    + destruct (filter _ candidates') as [|n1 f1] eqn:E1; [by apply Permutation_nil_l in Hf|].
      symmetry. by apply pick_node_perm.
  - unfold pick_node_for_service. fold free. destruct free as [|n0 f] eqn:Ef.
    + destruct (pick_node candidates) as [id|[]] eqn:E; [|by apply pick_node_Err in E].
      apply pick_node_Ok in E as (n & Hn & <-); [|done]. eauto.
    + destruct (pick_node (n0 :: f)) as [id|[]] eqn:E; [|by apply pick_node_Err in E].
      apply pick_node_Ok in E as (n & Hn & <-); [|done]. exists n. split; [done|]. left.
      split; [|done]. destruct Hn as [Hin _]. rewrite <-Ef in Hin.
      by apply list_elem_of_filter in Hin as [? _].
Qed.
End vips.

(** ** Evaluation *)

Definition template_web : JailTemplate :=
  mkJailTemplate "base" ["/bin/web"] (mkTemplateNetworkSpec true "keel0")
    (mkResourcesSpec "1" "512M") Always [].
Definition template_db : JailTemplate :=
  mkJailTemplate "base" ["/bin/db"] (mkTemplateNetworkSpec true "keel0")
    (mkResourcesSpec "1" "512M") Always [mkVolumeMount "data" "/data" "1G"].

Definition cidr_10_0_250_0_24 : Ipv4Net := mkNet 167836160 24.

Definition services_web : Services :=
  mkServices cidr_10_0_250_0_24
    {[ "web" := mkServiceRecord 2 template_web (167836160 + 185) 8080 ]}.

Lemma services_web_wf : @services_wf ipnet_model services_web.
Proof.
  split; cbn.
  - vm_compute. split; discriminate.
  - vm_compute. reflexivity.
  - intros n r [<- <-]%lookup_singleton_Some. vm_compute. split; [discriminate|reflexivity].
  - by intros ???? [<- <-]%lookup_singleton_Some [<- <-]%lookup_singleton_Some.
  - intros n r [<- <-]%lookup_singleton_Some. vm_compute. discriminate.
Qed.

Lemma services_apply_correct_witness :
  (exists res s', @services_apply ipnet_model services_web "db" 1 template_db 5432 = Val (res, s') /\
     @services_wf ipnet_model s') /\
  (exists s', @services_apply ipnet_model services_web "web" 3 template_web 8080 = Val (Ok tt, s')) /\
  @services_apply ipnet_model services_web "web" 3 template_web 80
    = Val (Err (PortChanged "web"), services_web).
Proof.
  split; [|split; [eexists; reflexivity | reflexivity]].
  destruct (@services_apply_correct ipnet_model services_web "db" 1 template_db 5432
              services_web_wf ltac:(vm_compute; discriminate)) as (res & s' & E & Hwf & _).
  exists res, s'. split; [exact E | exact Hwf].
Defined.

Lemma services_apply_zero_prefix_witness :
  net_wf (mkNet 0 0) /\
  @services_apply ipnet_model (services_new (mkNet 0 0)) "web" 2 template_web 8080 = Panic.
Proof.
  split; [split; vm_compute; discriminate|].
  apply (@services_apply_zero_prefix ipnet_model (services_new (mkNet 0 0)) "web" 2
           template_web 8080); reflexivity.
Defined.

Definition node_a : NodeResources := mkNodeResources "a" (f64_of_N 4) 8 f64_zero 0.
Definition node_b : NodeResources := mkNodeResources "b" (f64_of_N 4) 8 (f64_of_N 2) 4.

Lemma pick_node_for_service_correct_witness :
  pick_node_for_service [node_a; node_b] {["a"]} = Ok "b" /\
  pick_node_for_service [node_b; node_a] {["a"; "b"]}
    = pick_node_for_service [node_a; node_b] {["a"; "b"]}.
Proof.
  split; [vm_compute; reflexivity|].
  apply (pick_node_for_service_correct [node_a; node_b] [node_b; node_a] {["a"; "b"]}).
  - repeat constructor; vm_compute; discriminate.
  - apply Permutation_swap.
Defined.
