(* ===== verification/CpWorker.v ===== *)
(** * The control plane's worker thread

    [keel-controlplane/src/worker.rs]: one thread owns all tables and handles
    one [Command] at a time.  A [Command R] is a command whose reply channel
    carries an [R]; [handle_command] returns the reply and the new state, or
    panics, which ends the thread.  [Instant::now()] is the argument [now]. *)

From S2P Require Import Prelude RustStr Float64 Ipnet Spec Subnet Wire Tables Registry Scheduler.
From S2P Require Import Addresses Services.

Inductive ScheduleOrResolveError : Type :=
  | SorSchedule (e : ScheduleError)
  | SorResolve (e : ResolveError).

Inductive PlacementError : Type :=
  | PeNotPlaced (jail_name : string)
  | PeResolve (e : ResolveError).

Record ForceRepinPrep : Type := mkForceRepinPrep {
  fr_old_node_id : string;
  fr_standby_node_id : string;
  fr_standby_addr : string;
  fr_template : JailTemplate;
  fr_fresh_standby_node_id : string;
  fr_fresh_standby_addr : string;
  fr_address : Ipv4Addr;
  fr_prefix_len : N
}.

Inductive ForceRepinError : Type :=
  | NotPlaced (replica_name : string)
  | NotStateful (replica_name : string)
  | PrimaryStillAlive (node_id : string)
  | StandbyUnresolvable (e : ResolveError)
  | NoFreshStandby
  | NoFreeAddress.

Inductive ReplicaAction : Type :=
  | Schedule (replica_name node_id node_addr : string) (template : JailTemplate)
      (address : Ipv4Addr) (prefix_len : N)
      (standby_node_id standby_addr : option string)
  | TearDown (replica_name node_id node_addr : string).

Inductive Command : Type -> Type :=
  | Register (id addr : string) (replicate_addr : option string) (capacity_cpu : f64)
      (capacity_memory : N) : Command (result PodCidrCollision Ipv4Net)
  | CHeartbeat (id : string) (committed_cpu : f64) (committed_memory : N)
      (jails : list JailHealth) : Command (result UnknownNode unit)
  | CList : Command (list NodeStatus)
  | Resolve (id : string) : Command (result ResolveError string)
  | ResolveOrSchedule (jail_name : string)
      : Command (result ScheduleOrResolveError (string * string))
  | ResolvePlacement (jail_name : string) : Command (result PlacementError (string * string))
  | RecordPlacement (jail_name node_id : string) : Command unit
  | RemovePlacement (jail_name : string) : Command unit
  | OwnerOf (name : string) : Command (option Owner)
  | ApplyService (name : string) (replicas : N) (template : JailTemplate) (port : N)
      : Command (result ApplyServiceError unit)
  | ReconcileServices : Command (list ReplicaAction)
  | DiscoverService (name : string) : Command (result UnknownService (list ServiceReplica))
  | ListServices : Command (list ServiceSummary)
  | ListServiceProxyEntries : Command (list ServiceProxyEntry)
  | DeleteService (name : string) : Command (result UnknownService (list ReplicaAction))
  | RecordReplicaAddress (jail_name node_id : string) (address : Ipv4Addr) : Command unit
  | ReleaseReplicaAddress (jail_name : string) : Command unit
  | RecordStandby (replica_name node_id : string) : Command unit
  | RecordPendingFence (replica_name node_id : string) : Command unit
  | PendingFencesForNode (node_id : string) : Command (list string)
  | RemovePendingFence (replica_name : string) : Command unit
  | PrepareForceRepin (replica_name : string) : Command (result ForceRepinError ForceRepinPrep).

(** The tables the worker thread owns. *)
Record CP : Type := mkCP {
  cp_registry : Registry;
  cp_placements : Placements;
  cp_services : Services;
  cp_used_addresses : UsedAddresses;
  cp_standbys : Standbys;
  cp_pending_fences : PendingFences
}.

Definition cp_new (cluster_cidr service_cidr : Ipv4Net) : CP :=
  mkCP (registry_new cluster_cidr) placements_new (services_new service_cidr) used_new
       standbys_new pending_fences_new.

Definition with_registry (r : Registry) (s : CP) : CP :=
  mkCP r (cp_placements s) (cp_services s) (cp_used_addresses s) (cp_standbys s)
       (cp_pending_fences s).
Definition with_placements (p : Placements) (s : CP) : CP :=
  mkCP (cp_registry s) p (cp_services s) (cp_used_addresses s) (cp_standbys s)
       (cp_pending_fences s).
Definition with_services (v : Services) (s : CP) : CP :=
  mkCP (cp_registry s) (cp_placements s) v (cp_used_addresses s) (cp_standbys s)
       (cp_pending_fences s).
Definition with_used (u : UsedAddresses) (s : CP) : CP :=
  mkCP (cp_registry s) (cp_placements s) (cp_services s) u (cp_standbys s)
       (cp_pending_fences s).
Definition with_standbys (b : Standbys) (s : CP) : CP :=
  mkCP (cp_registry s) (cp_placements s) (cp_services s) (cp_used_addresses s) b
       (cp_pending_fences s).
Definition with_fences (f : PendingFences) (s : CP) : CP :=
  mkCP (cp_registry s) (cp_placements s) (cp_services s) (cp_used_addresses s)
       (cp_standbys s) f.

Section worker.
Context {HO : HashOrder} {I : Ipnet}.

(** The filter and map over [registry.list(now)] that three commands repeat. *)
Definition alive_nodes (r : Registry) (now : Instant) : list NodeResources :=
  (fun st => mkNodeResources (ns_id st) (ns_capacity_cpu st) (ns_capacity_memory st)
               (ns_committed_cpu st) (ns_committed_memory st))
  <$> filter (fun st => ns_status st = Alive) (registry_list r now).

(** ** [ResolveOrSchedule] and [ResolvePlacement] *)

Definition resolve_or_schedule (s : CP) (now : Instant) (jail_name : string)
    : result ScheduleOrResolveError (string * string) :=
  match placements_get (cp_placements s) jail_name with
  | Some node_id =>
      map_err SorResolve (addr ← resolve (cp_registry s) node_id now; Ok (node_id, addr))
  | None =>
      node_id ← map_err SorSchedule (pick_node (alive_nodes (cp_registry s) now));
      map_err SorResolve (addr ← resolve (cp_registry s) node_id now; Ok (node_id, addr))
  end.

Definition resolve_placement_of (s : CP) (now : Instant) (jail_name : string)
    : result PlacementError (string * string) :=
  match placements_get (cp_placements s) jail_name with
  | None => Err (PeNotPlaced jail_name)
  | Some node_id =>
      map_err PeResolve (addr ← resolve (cp_registry s) node_id now; Ok (node_id, addr))
  end.

(** ** [ApplyService] *)

(** The loop [for i in 0..replicas] from index [i] on, [fuel] iterations. *)
Fixpoint name_conflict (s : CP) (name : string) (fuel : nat) (i : N)
    : option ApplyServiceError :=
  match fuel with
  | O => None
  | S fuel =>
      let candidate := replica_name name i in
      match owner_of candidate (cp_placements s) (cp_services s) with
      | Some owner =>
          let is_self := match owner with
                         | OwnerService other => String.eqb other name
                         | Unmanaged => false
                         end in
          if is_self then name_conflict s name fuel (i + 1)
          else Some (NameConflict candidate owner)
      | None => name_conflict s name fuel (i + 1)
      end
  end.

Definition apply_service (s : CP) (name : string) (replicas : N) (template : JailTemplate)
    (port : N) : comp (result ApplyServiceError unit * CP) :=
  match name_conflict s name (N.to_nat replicas) 0 with
  | Some e => Val (Err e, s)
  | None =>
      '(res, services) ← services_apply (cp_services s) name replicas template port;
      Val (res, with_services services s)
  end.

(** ** [ReconcileServices] *)

Definition placed_replicas (s : CP) (service_name : string) : list (N * string * string) :=
  omap (fun '(jail_name, node_id) =>
          idx ← replica_index service_name jail_name; Some (idx, jail_name, node_id))
       (placements_iter (cp_placements s)).

Definition is_stateless (t : JailTemplate) : bool :=
  match t_volumes t with [] => true | _ => false end.

Definition present_indices (s : CP) (now : Instant) (service_name : string)
    (record : ServiceRecord) : gset N :=
  let placed := placed_replicas s service_name in
  if is_stateless (sv_template record) then
    list_to_set ((fun '(idx, _, _) => idx)
      <$> filter (fun '(_, _, node_id) => is_ok (resolve (cp_registry s) node_id now) = true)
                 placed)
  else list_to_set ((fun '(idx, _, _) => idx) <$> placed).

Definition pick_standby (s : CP) (alive : list NodeResources) (busy : gset string)
    (template : JailTemplate) (node_id : string) : option string * option string :=
  if is_stateless template then (None, None)
  else
    match
      standby_id ← res_ok (pick_node_for_service alive busy);
      if String.eqb standby_id node_id then None
      else addr ← replicate_addr (cp_registry s) standby_id; Some (standby_id, addr)
    with
    | Some (id, addr) => (Some id, Some addr)
    | None => (None, None)
    end.

(** The local variables of the loop over one service's missing indices. *)
Record Pass : Type := mkPass {
  ps_actions : list ReplicaAction;
  ps_working_used : UsedAddresses;
  ps_busy : gset string
}.

(** One iteration of [for idx in to_add]; every [continue] leaves the variables
    as they are. *)
Definition schedule_one (s : CP) (now : Instant) (alive : list NodeResources)
    (service_name : string) (record : ServiceRecord) (ps : Pass) (idx : N) : Pass :=
  let name := replica_name service_name idx in
  match pick_node_for_service alive (ps_busy ps) with
  | Err _ => ps
  | Ok node_id =>
      match pod_cidr (cp_registry s) node_id with
      | None => ps
      | Some pod_cidr =>
          match first_free_address pod_cidr node_id (ps_working_used ps) with
          | None => ps
          | Some address =>
              match resolve (cp_registry s) node_id now with
              | Err _ => ps
              | Ok node_addr =>
                  let working_used := used_record (ps_working_used ps) name node_id address in
                  let busy := {[node_id]} ∪ ps_busy ps in
                  let '(standby_node_id, standby_addr) :=
                    pick_standby s alive busy (sv_template record) node_id in
                  mkPass
                    (ps_actions ps ++
                       [Schedule name node_id node_addr (sv_template record) address
                          (prefix_len pod_cidr) standby_node_id standby_addr])
                    working_used busy
              end
          end
      end
  end.

(** One iteration of [for idx in to_remove]. *)
Definition tear_down_one (s : CP) (now : Instant) (service_name : string) (idx : N)
    : option ReplicaAction :=
  let name := replica_name service_name idx in
  node_id ← placements_get (cp_placements s) name;
  node_addr ← res_ok (resolve (cp_registry s) node_id now);
  Some (TearDown name node_id node_addr).

Definition reconcile_service (s : CP) (now : Instant) (alive : list NodeResources)
    (acc : list ReplicaAction * UsedAddresses) (svc : string * ServiceRecord)
    : list ReplicaAction * UsedAddresses :=
  let '(actions, working_used) := acc in
  let '(service_name, record) := svc in
  let present := present_indices s now service_name record in
  let '(to_add, to_remove) := diff_replicas (sv_desired_replicas record) present in
  let busy := nodes_hosting_service service_name (cp_placements s) in
  let ps := foldl (schedule_one s now alive service_name record)
                  (mkPass actions working_used busy) to_add in
  (ps_actions ps ++ omap (tear_down_one s now service_name) to_remove, ps_working_used ps).

Definition reconcile_services (s : CP) (now : Instant) : list ReplicaAction :=
  (foldl (reconcile_service s now (alive_nodes (cp_registry s) now))
         ([], cp_used_addresses s) (services_list (cp_services s))).1.

(** ** Discovery *)

Definition healthy_replicas (name : string) (placements : Placements) (registry : Registry)
    (used : UsedAddresses) (now : Instant) : list ServiceReplica :=
  sort_by_key sr_name
    (omap (fun '(jail_name, node_id) =>
             _ ← replica_index name jail_name;
             if is_ok (resolve registry node_id now) && is_jail_running registry node_id jail_name
             then address ← address_of used jail_name;
                  Some (mkServiceReplica jail_name node_id (ipv4_to_string address))
             else None)
          (placements_iter placements)).

Definition discover_service (s : CP) (now : Instant) (name : string)
    : result UnknownService (list ServiceReplica) :=
  match services_get (cp_services s) name with
  | None => Err (mkUnknownService name)
  | Some _ =>
      Ok (healthy_replicas name (cp_placements s) (cp_registry s) (cp_used_addresses s) now)
  end.

Definition list_services (s : CP) : list ServiceSummary :=
  (fun '(name, record) =>
     mkServiceSummary name (sv_desired_replicas record) (ipv4_to_string (sv_vip record))
       (sv_port record)) <$> services_list (cp_services s).

Definition list_service_proxy_entries (s : CP) (now : Instant) : list ServiceProxyEntry :=
  (fun '(name, record) =>
     mkServiceProxyEntry name (ipv4_to_string (sv_vip record)) (sv_port record)
       (healthy_replicas name (cp_placements s) (cp_registry s) (cp_used_addresses s) now))
  <$> services_list (cp_services s).

(** ** [DeleteService] *)

Definition delete_service (s : CP) (now : Instant) (name : string)
    : result UnknownService (list ReplicaAction) * CP :=
  match services_get (cp_services s) name with
  | None => (Err (mkUnknownService name), s)
  | Some _ =>
      let actions :=
        omap (fun '(jail_name, node_id) =>
                _ ← replica_index name jail_name;
                node_addr ← res_ok (resolve (cp_registry s) node_id now);
                Some (TearDown jail_name node_id node_addr))
             (placements_iter (cp_placements s)) in
      (Ok actions, with_services (services_remove (cp_services s) name) s)
  end.

(** ** [PrepareForceRepin] *)

Definition prepare_force_repin (s : CP) (now : Instant) (replica_name : string)
    : result ForceRepinError ForceRepinPrep :=
  old_node_id ← ok_or (placements_get (cp_placements s) replica_name) (NotPlaced replica_name);
  standby_node_id ← ok_or (standbys_get (cp_standbys s) replica_name) (NotStateful replica_name);
  if is_ok (resolve (cp_registry s) old_node_id now) then Err (PrimaryStillAlive old_node_id)
  else
  standby_addr ← map_err StandbyUnresolvable (resolve (cp_registry s) standby_node_id now);
  service_name ← ok_or (match owner_of replica_name (cp_placements s) (cp_services s) with
                        | Some (OwnerService name) => Some name
                        | _ => None
                        end) (NotStateful replica_name);
  record ← ok_or (services_get (cp_services s) service_name) (NotStateful replica_name);
  let exclude : gset string := {[old_node_id; standby_node_id]} in
  fresh_standby_node_id ←
    ok_or (id ← res_ok (pick_node_for_service (alive_nodes (cp_registry s) now) exclude);
           if bool_decide (id ∈ exclude) then None else Some id) NoFreshStandby;
  fresh_standby_addr ← ok_or (replicate_addr (cp_registry s) fresh_standby_node_id) NoFreshStandby;
  pod_cidr ← ok_or (pod_cidr (cp_registry s) standby_node_id) NoFreeAddress;
  address ← ok_or (first_free_address pod_cidr standby_node_id (cp_used_addresses s)) NoFreeAddress;
  Ok (mkForceRepinPrep old_node_id standby_node_id standby_addr (sv_template record)
        fresh_standby_node_id fresh_standby_addr address (prefix_len pod_cidr)).

(** ** The dispatcher *)

Definition handle_command {R} (now : Instant) (command : Command R) (s : CP) : comp (R * CP) :=
  match command in Command R return comp (R * CP) with
  | Register id addr ra cpu mem =>
      '(res, registry) ← register (cp_registry s) id addr ra cpu mem now;
      Val (res, with_registry registry s)
  | CHeartbeat id cpu mem jails =>
      let '(res, registry) := heartbeat (cp_registry s) id cpu mem jails now in
      Val (res, with_registry registry s)
  | CList => Val (registry_list (cp_registry s) now, s)
  | Resolve id => Val (resolve (cp_registry s) id now, s)
  | ResolveOrSchedule jail_name => Val (resolve_or_schedule s now jail_name, s)
  | ResolvePlacement jail_name => Val (resolve_placement_of s now jail_name, s)
  | RecordPlacement jail_name node_id =>
      Val (tt, with_placements (placements_set (cp_placements s) jail_name node_id) s)
  | RemovePlacement jail_name =>
      Val (tt, with_placements (placements_remove (cp_placements s) jail_name) s)
  | OwnerOf name => Val (owner_of name (cp_placements s) (cp_services s), s)
  | ApplyService name replicas template port => apply_service s name replicas template port
  | ReconcileServices => Val (reconcile_services s now, s)
  | DiscoverService name => Val (discover_service s now name, s)
  | ListServices => Val (list_services s, s)
  | ListServiceProxyEntries => Val (list_service_proxy_entries s now, s)
  | DeleteService name => Val (delete_service s now name)
  | RecordReplicaAddress jail_name node_id address =>
      Val (tt, with_used (used_record (cp_used_addresses s) jail_name node_id address) s)
  | ReleaseReplicaAddress jail_name =>
      Val (tt, with_used (used_release (cp_used_addresses s) jail_name) s)
  | RecordStandby replica_name node_id =>
      Val (tt, with_standbys (standbys_set (cp_standbys s) replica_name node_id) s)
  | RecordPendingFence replica_name node_id =>
      Val (tt, with_fences (pending_fences_set (cp_pending_fences s) replica_name node_id) s)
  | PendingFencesForNode node_id =>
      Val (pending_fences_for_node (cp_pending_fences s) node_id, s)
  | RemovePendingFence replica_name =>
      Val (tt, with_fences (pending_fences_remove (cp_pending_fences s) replica_name) s)
  | PrepareForceRepin replica_name => Val (prepare_force_repin s now replica_name, s)
  end.

(** The loop of [spawn]: commands in arrival order, each at its own time; the
    replies are sent as they are produced. *)
Definition timed_command : Type := Instant * {R : Type & Command R}.

Fixpoint worker_loop (commands : list timed_command) (s : CP) : comp CP :=
  match commands with
  | [] => Val s
  | (now, existT _ c) :: rest =>
      '(_, s') ← handle_command now c s;
      worker_loop rest s'
  end.
End worker.

(** ** Invariant of the worker *)

(** The u32/u64 fields of a command are within their width. *)
Definition command_in_range {R} (c : Command R) : Prop :=
  match c with
  | Register _ _ _ _ mem => (mem <= u64_max)%N
  | CHeartbeat _ _ mem _ => (mem <= u64_max)%N
  | ApplyService _ replicas _ _ => (replicas <= u32_max)%N
  | _ => True
  end.

Definition record_in_range (rec : NodeRecord) : Prop :=
  (nr_capacity_memory rec <= u64_max)%N /\ (nr_committed_memory rec <= u64_max)%N.

Section invariant.
Context {HO : HashOrder} {I : Ipnet}.

Record cp_wf (s : CP) : Prop := {
  cwf_registry : registry_wf (cp_registry s);
  cwf_range : map_Forall (fun _ => record_in_range) (rg_nodes (cp_registry s));
  cwf_services : services_wf (cp_services s);
  cwf_used : marks_owned (cp_used_addresses s)
}.

Lemma cp_new_wf cluster service :
  net_wf cluster -> (prefix_len cluster <= 24)%N ->
  net_wf service -> (0 < prefix_len service)%N -> cp_wf (cp_new cluster service).
Proof.
  intros ????. split; cbn.
  - by apply registry_new_wf.
  - apply map_Forall_empty.
  - by split; cbn; try done; intros; simplify_map_eq.
  - apply used_new_wf.
Qed.

Lemma register_range r id addr ra cpu mem now res r' :
  (mem <= u64_max)%N -> map_Forall (fun _ => record_in_range) (rg_nodes r) ->
  register r id addr ra cpu mem now = Val (res, r') ->
  map_Forall (fun _ => record_in_range) (rg_nodes r').
Proof.
  intros Hm Hr. unfold register. intros (net & _ & H)%bind_Val.
  destruct (find _ _) as [[? ?]|]; simplify_eq; [done|]. cbn.
  apply map_Forall_insert_2; [|done]. by split; cbn; [|vm_compute].
Qed.

Lemma heartbeat_range r id cpu mem jails now res r' :
  (mem <= u64_max)%N -> map_Forall (fun _ => record_in_range) (rg_nodes r) ->
  heartbeat r id cpu mem jails now = (res, r') ->
  map_Forall (fun _ => record_in_range) (rg_nodes r').
Proof.
  intros Hm Hr. unfold heartbeat. destruct (rg_nodes r !! id) eqn:E; intros; simplify_eq; [|done].
  cbn. apply map_Forall_insert_2; [|done]. split; cbn; [|done]. by eapply (Hr id).
Qed.

Lemma with_registry_wf r s :
  cp_wf s -> registry_wf r -> map_Forall (fun _ => record_in_range) (rg_nodes r) ->
  cp_wf (with_registry r s).
Proof. by intros [] ??; split. Qed.

(** Every command is answered, and keeps the tables well formed. *)
Lemma handle_command_step {R} now (c : Command R) s :
  cp_wf s -> command_in_range c ->
  exists r s', handle_command now c s = Val (r, s') /\ cp_wf s'.
Proof.
  intros Hwf Hc. pose proof Hwf as [Hreg Hrange Hsvc Hused].
  destruct c; cbn in *; try (by do 2 eexists; split; [done|]; split).
  - pose proof (derive_pod_cidr_value id _ (rwf_cluster _ Hreg) (rwf_prefix _ Hreg)) as Hd.
    destruct (register _ _ _ _ _ _ _) as [[res r']|] eqn:E.
    + do 2 eexists. split; [done|]. apply with_registry_wf; [done| |].
      * by destruct (register_inv _ _ _ _ _ _ _ _ _ Hreg E).
      * by eapply register_range.
    + unfold register in E. rewrite Hd in E. cbn in E. by destruct (find _ _) as [[? ?]|].
  - destruct (heartbeat _ _ _ _ _ _) as [res r'] eqn:E. do 2 eexists. split; [done|].
    apply with_registry_wf; [done| |].
    + by destruct (heartbeat_inv _ _ _ _ _ _ _ _ Hreg E).
    + by eapply heartbeat_range.
  - unfold apply_service. destruct (name_conflict _ _ _ _); [by do 2 eexists; split; [done|]; split|].
    destruct (services_apply_inv (cp_services s) name replicas template port Hsvc Hc)
      as (res & s' & -> & Hwf' & _). cbn. do 2 eexists. split; [done|]. by split.
  - unfold delete_service. destruct (services_get _ _);
      do 2 eexists; (split; [done|]); split; cbn; try done. by apply services_remove_wf.
  - do 2 eexists. split; [done|]. split; cbn; try done. by apply marks_owned_record.
  - do 2 eexists. split; [done|]. split; cbn; try done. by apply marks_owned_release.
Qed.

(** Whatever commands arrive, in whatever order and at whatever times, the
    worker thread started with a cluster network of at most 24 prefix bits and
    a service network of at least one never panics, and in every state it
    reaches pod blocks are derived from the node ids and pairwise distinct,
    virtual addresses are pairwise distinct inside the service network, and
    every address marked as used belongs to a jail. *)
Theorem worker_loop_safe cluster service commands :
  net_wf cluster -> (prefix_len cluster <= 24)%N ->
  net_wf service -> (0 < prefix_len service)%N ->
  Forall (fun tc : timed_command => command_in_range (projT2 tc.2)) commands ->
  exists s, worker_loop commands (cp_new cluster service) = Val s /\ cp_wf s.
Proof.
  intros Hc1 Hc2 Hs1 Hs2. pose proof (cp_new_wf _ _ Hc1 Hc2 Hs1 Hs2) as Hwf.
  revert Hwf. generalize (cp_new cluster service).
  induction commands as [|[now [R c]] commands IH]; intros s Hwf Hr; cbn.
  - by exists s.
  - apply Forall_cons in Hr as [Hr Hrest]. cbn in Hr.
    destruct (handle_command_step now c s Hwf Hr) as (r & s' & -> & Hwf'). cbn. by apply IH.
Qed.
End invariant.

Definition commands_demo : list timed_command :=
  [(0%N, existT _ (Register "node-1" "10.1.0.1:7620" (Some "10.1.0.1:7621") (f64_of_N 4) 1024));
   (1%N, existT _ (ApplyService "web" 2 template_web 8080));
   (2%N, existT _ ReconcileServices);
   (3%N, existT _ (RecordPlacement "web-0" "node-1"));
   (4%N, existT _ (RecordReplicaAddress "web-0" "node-1" 167805698));
   (5%N, existT _ (DeleteService "web"))].

Lemma worker_loop_safe_witness :
  exists s, @worker_loop list_order ipnet_model commands_demo
              (cp_new cidr_10_0_0_0_16 cidr_10_0_250_0_24) = Val s /\ @cp_wf ipnet_model s.
Proof.
  apply (@worker_loop_safe list_order ipnet_model cidr_10_0_0_0_16 cidr_10_0_250_0_24
           commands_demo);
    [split; vm_compute; discriminate | vm_compute; discriminate
    | split; vm_compute; discriminate | vm_compute; reflexivity |].
  repeat constructor; vm_compute; discriminate.
Defined.
