(* ===== verification/CpReconcile.v ===== *)
(** * Correctness of the reconciliation pass

    What [ReconcileServices] of [keel-controlplane/src/worker.rs] computes: its
    actions are sound (live nodes, free addresses, distinct names), exact
    (executing them reaches the desired state) and never move a stateful
    replica. *)

From S2P Require Import Prelude RustStr Float64 Ipnet Spec Subnet Wire Tables Registry Scheduler.
From S2P Require Import Addresses Services CpWorker.

Section reconcile.
Context {HO : HashOrder} {I : Ipnet}.
Implicit Types (s : CP) (now : Instant).

(** ** Candidates and present replicas *)

Lemma elem_of_alive_nodes r now n :
  n ∈ alive_nodes r now <->
  exists rec, rg_nodes r !! nd_id n = Some rec /\
    (now - nr_last_heartbeat rec < DEAD_THRESHOLD)%N /\
    n = mkNodeResources (nd_id n) (nr_capacity_cpu rec) (nr_capacity_memory rec)
          (nr_committed_cpu rec) (nr_committed_memory rec).
Proof.
  unfold alive_nodes. rewrite list_elem_of_fmap. split.
  - intros (st & -> & [Ha (id & rec & Hr & ->)%elem_of_registry_list]%list_elem_of_filter).
    apply node_status_alive in Ha. by exists rec.
  - intros (rec & Hr & Ha & ->). exists (node_status now (nd_id n) rec). split; [done|].
    apply list_elem_of_filter. split; [by apply node_status_alive|].
    apply elem_of_registry_list. eauto.
Qed.

Lemma alive_nodes_alive r now id :
  (exists n, n ∈ alive_nodes r now /\ nd_id n = id) <-> node_alive r now id.
Proof.
  unfold node_alive. split.
  - intros (n & (rec & Hr & Ha & _)%elem_of_alive_nodes & <-). eauto.
  - intros (rec & Hr & Ha).
    exists (mkNodeResources id (nr_capacity_cpu rec) (nr_capacity_memory rec)
              (nr_committed_cpu rec) (nr_committed_memory rec)).
    split; [|done]. apply elem_of_alive_nodes. eauto.
Qed.

Lemma alive_nodes_in_range s now :
  cp_wf s -> Forall node_in_range (alive_nodes (cp_registry s) now).
Proof.
  intros Hwf. apply Forall_forall. intros n (rec & Hr & _ & ->)%elem_of_alive_nodes.
  exact (cwf_range s Hwf _ _ Hr).
Qed.

Lemma pick_alive s now busy id :
  cp_wf s -> pick_node_for_service (alive_nodes (cp_registry s) now) busy = Ok id ->
  node_alive (cp_registry s) now id.
Proof.
  intros Hwf [Hin _]%pick_node_for_service_Ok; [|by apply alive_nodes_in_range].
  by apply alive_nodes_alive.
Qed.

Lemma elem_of_placed_replicas s svc idx jail node :
  (idx, jail, node) ∈ placed_replicas s svc <->
  placements_get (cp_placements s) jail = Some node /\ replica_index svc jail = Some idx.
Proof.
  unfold placed_replicas. rewrite list_elem_of_omap. split.
  - intros ([j n] & Hin%elem_of_placements_iter & H).
    apply bind_Some in H as (i & Hi & [= -> -> ->]). done.
  - intros [Hp Hi]. exists (jail, node). split; [by apply elem_of_placements_iter|].
    by rewrite Hi.
Qed.

Lemma elem_of_present s now svc rec idx :
  idx ∈ present_indices s now svc rec <->
  (idx <= u32_max)%N /\ exists node,
    placements_get (cp_placements s) (replica_name svc idx) = Some node /\
    (is_stateless (sv_template rec) = true -> node_alive (cp_registry s) now node).
Proof.
  unfold present_indices. destruct (is_stateless _).
  - rewrite elem_of_list_to_set, list_elem_of_fmap. split.
    + intros ([[i j] n] & -> & [Ha Hin]%list_elem_of_filter).
      apply node_alive_is_ok in Ha.
      apply elem_of_placed_replicas in Hin as [Hp [-> Hi]%replica_index_Some]. eauto.
    + intros (Hi & node & Hp & Ha). exists (idx, replica_name svc idx, node). split; [done|].
      apply list_elem_of_filter. split; [by apply node_alive_is_ok, Ha|].
      apply elem_of_placed_replicas. split; [done|]. by apply replica_index_Some.
  - rewrite elem_of_list_to_set, list_elem_of_fmap. split.
    + intros ([[i j] n] & -> & Hin).
      apply elem_of_placed_replicas in Hin as [Hp [-> Hi]%replica_index_Some].
      split; [done|]. by exists n.
    + intros (Hi & node & Hp & _). exists (idx, replica_name svc idx, node). split; [done|].
      apply elem_of_placed_replicas. split; [done|]. by apply replica_index_Some.
Qed.

(** There are fewer replicas of a service than u32 values. *)
Definition placements_bounded s : Prop :=
  (N.of_nat (size (pl_by_jail (cp_placements s))) <= u32_max)%N.

Lemma size_present s now svc rec :
  (size (present_indices s now svc rec) <= size (pl_by_jail (cp_placements s)))%nat.
Proof.
  set (X := present_indices s now svc rec).
  assert (size X = size (list_to_set (replica_name svc <$> elements X) : gset string)) as ->.
  { rewrite size_list_to_set, length_fmap; [done|].
    apply NoDup_fmap_2; [|apply NoDup_elements].
    intros i j Hij. by apply replica_name_inj in Hij as [_ ->]. }
  rewrite <-(size_dom (pl_by_jail (cp_placements s))). apply subseteq_size.
  intros name (idx & -> & Hin%elem_of_elements)%elem_of_list_to_set%list_elem_of_fmap.
  apply elem_of_present in Hin as (_ & node & Hp & _).
  unfold placements_get in Hp. by apply elem_of_dom_2 in Hp.
Qed.

(** ** One scheduling step *)

(** What holds of every scheduled replica. *)
Record sched_sound s now (t : JailTemplate) (node naddr : string) (net : Ipv4Net)
    (a : Ipv4Addr) (sid saddr : option string) : Prop := {
  sch_node : resolve (cp_registry s) node now = Ok naddr;
  sch_cidr : pod_cidr (cp_registry s) node = Some net;
  sch_addr : (network net + 2 <= a < network net + 255)%N;
  sch_stateless : is_stateless t = true -> sid = None /\ saddr = None;
  sch_standby : forall id, sid = Some id ->
    id <> node /\ node_alive (cp_registry s) now id /\
    exists ra, saddr = Some ra /\ replicate_addr (cp_registry s) id = Some ra;
  sch_no_standby : sid = None -> saddr = None
}.

Lemma pick_standby_sound s now busy t node sid saddr :
  cp_wf s ->
  pick_standby s (alive_nodes (cp_registry s) now) busy t node = (sid, saddr) ->
  (is_stateless t = true -> sid = None /\ saddr = None) /\
  (forall id, sid = Some id -> id <> node /\ node_alive (cp_registry s) now id /\
     exists ra, saddr = Some ra /\ replicate_addr (cp_registry s) id = Some ra) /\
  (sid = None -> saddr = None).
Proof.
  intros Hwf. unfold pick_standby. destruct (is_stateless t); [by intros [= <- <-]|].
  destruct (pick_node_for_service _ _) as [id|] eqn:Ep; cbn; [|by intros [= <- <-]].
  destruct (String.eqb id node) eqn:En; [by intros [= <- <-]|]. bool_to_prop.
  destruct (replicate_addr _ id) as [ra|] eqn:Er; cbn; intros [= <- <-]; [|done].
  split; [done|]. split; [|done]. intros id' [= <-]. split; [done|].
  split; [by eapply pick_alive|]. eauto.
Qed.

Lemma alive_pod_cidr s now id :
  cp_wf s -> node_alive (cp_registry s) now id ->
  exists net, pod_cidr (cp_registry s) id = Some net /\ net_wf net /\ prefix_len net = 24%N.
Proof.
  intros Hwf (rec & Hr & _). exists (nr_pod_cidr rec). unfold pod_cidr. rewrite Hr.
  split; [done|].
  destruct (registry_wf_pod_shape _ _ _ (cwf_registry s Hwf) Hr) as (Hw & Hp & _). done.
Qed.

Lemma block_size_24 net : prefix_len net = 24%N -> block_size net = 256%N.
Proof. unfold block_size. by intros ->. Qed.

(** The state after a successful step. *)
Definition pass_after svc (rec : ServiceRecord) (ps : Pass) idx node naddr net a sid saddr : Pass :=
  mkPass
    (ps_actions ps ++
       [Schedule (replica_name svc idx) node naddr (sv_template rec) a (prefix_len net) sid saddr])
    (used_record (ps_working_used ps) (replica_name svc idx) node a)
    ({[node]} ∪ ps_busy ps).

Lemma schedule_one_cases s now svc rec ps idx :
  cp_wf s ->
  let alive := alive_nodes (cp_registry s) now in
  (schedule_one s now alive svc rec ps idx = ps /\
     (alive = [] \/ exists node net, node_alive (cp_registry s) now node /\
        pod_cidr (cp_registry s) node = Some net /\
        first_free_address net node (ps_working_used ps) = None)) \/
  (exists node naddr net a sid saddr,
     schedule_one s now alive svc rec ps idx = pass_after svc rec ps idx node naddr net a sid saddr /\
     sched_sound s now (sv_template rec) node naddr net a sid saddr /\
     is_used (ps_working_used ps) node a = false).
Proof.
  intros Hwf alive. unfold schedule_one.
  destruct (pick_node_for_service alive (ps_busy ps)) as [node|e] eqn:Ep.
  - pose proof (pick_alive s now _ _ Hwf Ep) as Ha.
    destruct (alive_pod_cidr s now node Hwf Ha) as (net & Hn & Hw & Hp). rewrite Hn.
    destruct (first_free_address net node (ps_working_used ps)) as [a|] eqn:Ef; [|by eauto 10].
    destruct (proj1 (node_alive_resolve _ _ _) Ha) as [naddr Hres]. rewrite Hres.
    destruct (pick_standby _ _ _ _ _) as [sid saddr] eqn:Es. right.
    exists node, naddr, net, a, sid, saddr. split; [done|].
    apply (first_free_address_Some net) in Ef as (Hr & Hu & _); [|done|lia].
    rewrite block_size_24 in Hr by done.
    destruct (pick_standby_sound s now _ _ _ _ _ Hwf Es) as (H1 & H2 & H3).
    split; [|done]. split; try done. lia.
  - left. split; [done|]. left. unfold pick_node_for_service in Ep.
    destruct (filter _ alive) eqn:Ef; [by apply pick_node_Err in Ep|].
    by apply pick_node_Err in Ep.
Qed.

(** ** The log of a pass *)

(** The difference computed for one service. *)
Definition plan s now svc (rec : ServiceRecord) : list N * list N :=
  diff_replicas (sv_desired_replicas rec) (present_indices s now svc rec).

(** [pass_log s now W l]: the actions [l] with the address table [W] can be the
    state of the pass at some point. *)
Inductive pass_log s now : UsedAddresses -> list ReplicaAction -> Prop :=
  | log_start : pass_log s now (cp_used_addresses s) []
  | log_schedule W l svc rec idx node naddr net a sid saddr :
      pass_log s now W l ->
      services_get (cp_services s) svc = Some rec -> idx ∈ (plan s now svc rec).1 ->
      sched_sound s now (sv_template rec) node naddr net a sid saddr ->
      is_used W node a = false ->
      pass_log s now (used_record W (replica_name svc idx) node a)
        (l ++ [Schedule (replica_name svc idx) node naddr (sv_template rec) a (prefix_len net)
                 sid saddr])
  | log_tear_down W l svc rec idx node naddr :
      pass_log s now W l ->
      services_get (cp_services s) svc = Some rec -> idx ∈ (plan s now svc rec).2 ->
      placements_get (cp_placements s) (replica_name svc idx) = Some node ->
      resolve (cp_registry s) node now = Ok naddr ->
      pass_log s now W (l ++ [TearDown (replica_name svc idx) node naddr]).

Lemma log_schedules s now svc rec idxs ps :
  cp_wf s -> services_get (cp_services s) svc = Some rec ->
  Forall (fun i => i ∈ (plan s now svc rec).1) idxs ->
  pass_log s now (ps_working_used ps) (ps_actions ps) ->
  let ps' := foldl (schedule_one s now (alive_nodes (cp_registry s) now) svc rec) ps idxs in
  pass_log s now (ps_working_used ps') (ps_actions ps').
Proof.
  intros Hwf Hs Hin. revert ps. induction idxs as [|i idxs IH]; intros ps Hlog; cbn [foldl]; [done|].
  apply Forall_cons in Hin as [Hi Hin]. apply IH; [done|].
  destruct (schedule_one_cases s now svc rec ps i Hwf)
    as [[-> _]|(node & naddr & net & a & sid & saddr & -> & Hso & Hu)]; [done|].
  cbn. by apply log_schedule.
Qed.

Lemma log_tear_downs s now svc rec W idxs l :
  services_get (cp_services s) svc = Some rec ->
  Forall (fun i => i ∈ (plan s now svc rec).2) idxs ->
  pass_log s now W l -> pass_log s now W (l ++ omap (tear_down_one s now svc) idxs).
Proof.
  intros Hs Hin. revert l. induction idxs as [|i idxs IH]; intros l Hlog; cbn; [by rewrite app_nil_r|].
  apply Forall_cons in Hin as [Hi Hin].
  destruct (tear_down_one s now svc i) as [act|] eqn:Et; [|by apply IH].
  unfold tear_down_one in Et. apply bind_Some in Et as (node & Hp & Et).
  apply bind_Some in Et as (naddr & Hr & [= <-]).
  destruct (resolve _ _ _) as [naddr'|] eqn:Er; [|done]. simplify_eq/=.
  rewrite cons_middle, app_assoc. apply IH; [done|]. by eapply log_tear_down.
Qed.

Lemma log_services s now svcs acc :
  cp_wf s -> Forall (fun p => services_get (cp_services s) p.1 = Some p.2) svcs ->
  pass_log s now acc.2 acc.1 ->
  let acc' := foldl (reconcile_service s now (alive_nodes (cp_registry s) now)) acc svcs in
  pass_log s now acc'.2 acc'.1.
Proof.
  intros Hwf Hin. revert acc. induction svcs as [|[svc rec] svcs IH]; intros acc Hlog;
    cbn [foldl]; [done|].
  apply Forall_cons in Hin as [Hs Hin]. cbn in Hs. apply IH; [done|].
  destruct acc as [acts W]. unfold reconcile_service. fold (plan s now svc rec).
  destruct (plan s now svc rec) as [to_add to_remove] eqn:Ep. cbn.
  eapply log_tear_downs; [done| |].
  - rewrite Ep. apply Forall_forall. auto.
  - apply log_schedules; [done|done| |done]. rewrite Ep. apply Forall_forall. auto.
Qed.

Lemma reconcile_log s now :
  cp_wf s -> exists W, pass_log s now W (reconcile_services s now).
Proof.
  intros Hwf. eexists. unfold reconcile_services. apply log_services; [done| |constructor].
  apply Forall_forall. intros [svc rec] Hin. by apply elem_of_services_list in Hin.
Qed.

(** ** Names *)

Definition action_name (act : ReplicaAction) : string :=
  match act with Schedule n _ _ _ _ _ _ _ => n | TearDown n _ _ => n end.

Definition plan_names s now (p : string * ServiceRecord) : list string :=
  (replica_name p.1 <$> (plan s now p.1 p.2).1) ++ (replica_name p.1 <$> (plan s now p.1 p.2).2).

Lemma plan_cases s now svc rec :
  cp_wf s -> placements_bounded s -> services_get (cp_services s) svc = Some rec ->
  let present := present_indices s now svc rec in
  let d := plan s now svc rec in
  NoDup d.1 /\ NoDup d.2 /\
  (forall x, x ∈ d.1 -> (x < sv_desired_replicas rec)%N /\ x ∉ present) /\
  (forall x, x ∈ d.2 -> x ∈ present).
Proof.
  intros Hwf Hb Hs present d.
  pose proof (swf_desired _ (cwf_services s Hwf) _ _ Hs) as Hd.
  pose proof (size_present s now svc rec) as Hsz. fold present in Hsz.
  assert (N.of_nat (size present) <= u32_max)%N as Hsz' by (unfold placements_bounded in Hb; lia).
  destruct (N.lt_trichotomy (N.of_nat (size present)) (sv_desired_replicas rec)) as [H|[H|H]].
  - destruct (diff_replicas_add _ _ H Hd) as (l & E & _ & Hsort & Hin & _).
    unfold d, plan. fold present. rewrite E. cbn.
    split; [by apply StronglySorted_lt_NoDup|]. split; [constructor|]. set_solver.
  - unfold d, plan. fold present. rewrite diff_replicas_done by done. cbn.
    do 2 (split; [constructor|]). set_solver.
  - destruct (diff_replicas_remove _ _ H Hsz') as (l & E & _ & Hnd & Hin & _).
    unfold d, plan. fold present. rewrite E. cbn. split; [constructor|]. set_solver.
Qed.

Lemma plan_names_NoDup s now :
  cp_wf s -> placements_bounded s -> NoDup (services_list (cp_services s) ≫= plan_names s now).
Proof.
  intros Hwf Hb. apply NoDup_bind.
  - intros [svc1 rec1] [svc2 rec2] y H1%elem_of_services_list H2%elem_of_services_list Hy1 Hy2.
    assert (svc1 = svc2) as ->; [|congruence].
    unfold plan_names in Hy1, Hy2. cbn in Hy1, Hy2. rewrite <-fmap_app in Hy1, Hy2.
    apply list_elem_of_fmap in Hy1 as (i1 & -> & _).
    apply list_elem_of_fmap in Hy2 as (i2 & E & _). by apply replica_name_inj in E as [-> _].
  - intros [svc rec] Hs%elem_of_services_list. unfold plan_names. cbn. rewrite <-fmap_app.
    destruct (plan_cases s now svc rec Hwf Hb Hs) as (Hn1 & Hn2 & Ha & Hr).
    apply NoDup_fmap_2; [intros i j Hij; by apply replica_name_inj in Hij as [_ ->]|].
    apply NoDup_app. split; [done|]. split; [|done]. intros x Hx1 Hx2.
    destruct (Ha x Hx1) as [_ Hn]. by apply Hn, Hr.
  - unfold services_list. rewrite sort_by_key_perm. apply NoDup_hash_iter.
Qed.

Lemma schedules_names s now alive svc rec idxs ps :
  exists l, action_name <$> ps_actions (foldl (schedule_one s now alive svc rec) ps idxs)
      = (action_name <$> ps_actions ps) ++ l /\ l `sublist_of` (replica_name svc <$> idxs).
Proof.
  revert ps. induction idxs as [|i idxs IH]; intros ps; cbn [foldl].
  - exists []. by rewrite app_nil_r.
  - destruct (IH (schedule_one s now alive svc rec ps i)) as (l & E & Hl). rewrite E, fmap_cons.
    assert (action_name <$> ps_actions (schedule_one s now alive svc rec ps i)
              = action_name <$> ps_actions ps \/
            action_name <$> ps_actions (schedule_one s now alive svc rec ps i)
              = (action_name <$> ps_actions ps) ++ [replica_name svc i]) as [->| ->].
    { unfold schedule_one. repeat case_match; auto. right. cbn. by rewrite fmap_app. }
    + exists l. split; [done|]. by apply sublist_cons.
    + exists (replica_name svc i :: l). rewrite <-app_assoc. split; [done|]. by apply sublist_skip.
Qed.

Lemma tear_downs_names s now svc idxs :
  (action_name <$> omap (tear_down_one s now svc) idxs) `sublist_of` (replica_name svc <$> idxs).
Proof.
  induction idxs as [|i idxs IH]; cbn; [done|].
  destruct (tear_down_one s now svc i) as [act|] eqn:E; [|by apply sublist_cons].
  cbn. assert (action_name act = replica_name svc i) as ->; [|by apply sublist_skip].
  unfold tear_down_one in E. apply bind_Some in E as (? & _ & E).
  apply bind_Some in E as (? & _ & [= <-]). done.
Qed.

Lemma services_names_sublist s now alive svcs acc :
  exists l, action_name <$> (foldl (reconcile_service s now alive) acc svcs).1
      = (action_name <$> acc.1) ++ l /\ l `sublist_of` (svcs ≫= plan_names s now).
Proof.
  revert acc. induction svcs as [|[svc rec] svcs IH]; intros [acts W]; cbn [foldl].
  - exists []. by rewrite app_nil_r.
  - destruct (IH (reconcile_service s now alive (acts, W) (svc, rec))) as (l & E & Hl).
    rewrite E. unfold reconcile_service. fold (plan s now svc rec).
    destruct (plan s now svc rec) as [to_add to_remove] eqn:Ep. cbn [fst ps_actions].
    rewrite fmap_app.
    destruct (schedules_names s now alive svc rec to_add
      (mkPass acts W (nodes_hosting_service svc (cp_placements s)))) as (l1 & E1 & Hl1).
    rewrite E1. cbn [ps_actions]. eexists. rewrite <- !app_assoc. split; [done|].
    rewrite bind_cons. unfold plan_names at 1. cbn [fst snd]. rewrite Ep. cbn [fst snd].
    rewrite <-app_assoc. apply sublist_app; [done|]. apply sublist_app; [|done].
    apply tear_downs_names.
Qed.

(** Every action of a pass is about a replica of its own. *)
Lemma reconcile_names_NoDup s now :
  cp_wf s -> placements_bounded s -> NoDup (action_name <$> reconcile_services s now).
Proof.
  intros Hwf Hb. unfold reconcile_services.
  destruct (services_names_sublist s now (alive_nodes (cp_registry s) now)
    (services_list (cp_services s)) ([], cp_used_addresses s)) as (l & -> & Hl).
  cbn. eapply sublist_NoDup; [|exact Hl]. by apply plan_names_NoDup.
Qed.

(** ** Soundness of the actions *)

Lemma log_elem_schedule s now W l name node naddr t a plen sid saddr :
  pass_log s now W l -> Schedule name node naddr t a plen sid saddr ∈ l ->
  exists svc rec idx net,
    services_get (cp_services s) svc = Some rec /\ name = replica_name svc idx /\
    idx ∈ (plan s now svc rec).1 /\ t = sv_template rec /\ plen = prefix_len net /\
    sched_sound s now t node naddr net a sid saddr.
Proof.
  induction 1 as [|W l svc rec idx node' naddr' net a' sid' saddr' Hlog IH Hs Hi Hso Hu
                  |W l svc rec idx node' naddr' Hlog IH Hs Hi Hp Hr]; [set_solver| |].
  - intros [Hin|Hin]%elem_of_app; [by apply IH|]. apply list_elem_of_singleton in Hin.
    injection Hin as -> -> -> -> -> -> -> ->.
    exists svc, rec, idx, net. by repeat (split; [done|]).
  - intros [Hin|Hin]%elem_of_app; [by apply IH|]. by apply list_elem_of_singleton in Hin.
Qed.

Lemma log_elem_tear_down s now W l name node naddr :
  pass_log s now W l -> TearDown name node naddr ∈ l ->
  exists svc rec idx,
    services_get (cp_services s) svc = Some rec /\ name = replica_name svc idx /\
    idx ∈ (plan s now svc rec).2 /\
    placements_get (cp_placements s) name = Some node /\
    resolve (cp_registry s) node now = Ok naddr.
Proof.
  induction 1 as [|W l svc rec idx node' naddr' net a' sid' saddr' Hlog IH Hs Hi Hso Hu
                  |W l svc rec idx node' naddr' Hlog IH Hs Hi Hp Hr]; [set_solver| |].
  - intros [Hin|Hin]%elem_of_app; [by apply IH|]. by apply list_elem_of_singleton in Hin.
  - intros [Hin|Hin]%elem_of_app; [by apply IH|]. apply list_elem_of_singleton in Hin.
    injection Hin as -> -> ->. exists svc, rec, idx. by repeat (split; [done|]).
Qed.

Lemma log_used_wf s now W l :
  used_wf (cp_used_addresses s) -> pass_log s now W l -> used_wf W.
Proof.
  intros H0. induction 1; [done| |done]. apply used_wf_record; [done|].
  intros other _. by apply is_used_false_fresh.
Qed.

Definition is_schedule_of (name : string) (act : ReplicaAction) : Prop :=
  match act with Schedule n _ _ _ _ _ _ _ => n = name | TearDown _ _ _ => False end.

(** The address table of the pass holds what was scheduled, and is otherwise
    the recorded one. *)
Lemma log_by_jail s now W l :
  pass_log s now W l -> NoDup (action_name <$> l) ->
  (forall name node naddr t a plen sid saddr,
     Schedule name node naddr t a plen sid saddr ∈ l -> ua_by_jail W !! name = Some (node, a)) /\
  (forall jail, (forall act, act ∈ l -> ~ is_schedule_of jail act) ->
     ua_by_jail W !! jail = ua_by_jail (cp_used_addresses s) !! jail).
Proof.
  induction 1 as [|W l svc rec idx node' naddr' net a' sid' saddr' Hlog IH Hs Hi Hso Hu
                  |W l svc rec idx node' naddr' Hlog IH Hs Hi Hp Hr].
  - intros _. split; [set_solver|done].
  - rewrite fmap_app. intros (Hnd & Hdisj & _)%NoDup_app. destruct (IH Hnd) as [IH1 IH2].
    rewrite by_jail_record. split.
    + intros name node naddr t a plen sid saddr [Hin|Hin]%elem_of_app.
      * rewrite lookup_insert_ne; [by eapply IH1|]. intros <-.
        apply (Hdisj (replica_name svc idx)); [|set_solver].
        apply list_elem_of_fmap. eexists. by split; [|exact Hin].
      * apply list_elem_of_singleton in Hin. injection Hin as -> -> -> -> -> -> -> ->.
        by rewrite lookup_insert_eq.
    + intros jail Hj. rewrite lookup_insert_ne.
      * apply IH2. intros act Hact. apply Hj. set_solver.
      * intros <-. eapply Hj; [apply elem_of_app; right; by apply list_elem_of_singleton|done].
  - rewrite fmap_app. intros (Hnd & Hdisj & _)%NoDup_app. destruct (IH Hnd) as [IH1 IH2]. split.
    + intros name node naddr t a plen sid saddr [Hin|Hin]%elem_of_app; [by eapply IH1|].
      by apply list_elem_of_singleton in Hin.
    + intros jail Hj. apply IH2. intros act Hact. apply Hj. set_solver.
Qed.

(** C5: every replica the pass schedules belongs to a known service, is missing
    and has an index below the desired count; it goes to a node that is alive
    now, at that node's address, with an address inside that node's pod block
    that is neither the network, the gateway nor the broadcast address; a
    stateless replica gets no standby, and a standby is another live node with
    its own replication address. *)
Theorem reconcile_schedule_sound s now name node naddr t a plen sid saddr :
  cp_wf s -> placements_bounded s ->
  Schedule name node naddr t a plen sid saddr ∈ reconcile_services s now ->
  exists svc rec idx net,
    services_get (cp_services s) svc = Some rec /\ t = sv_template rec /\
    name = replica_name svc idx /\ (idx < sv_desired_replicas rec)%N /\
    idx ∉ present_indices s now svc rec /\
    resolve (cp_registry s) node now = Ok naddr /\
    pod_cidr (cp_registry s) node = Some net /\ plen = prefix_len net /\
    (network net + 2 <= a < network net + 255)%N /\
    (is_stateless t = true -> sid = None /\ saddr = None) /\
    (forall id, sid = Some id -> id <> node /\ node_alive (cp_registry s) now id /\
       exists ra, saddr = Some ra /\ replicate_addr (cp_registry s) id = Some ra).
Proof.
  intros Hwf Hb Hin. destruct (reconcile_log s now Hwf) as [W Hlog].
  destruct (log_elem_schedule _ _ _ _ _ _ _ _ _ _ _ _ Hlog Hin)
    as (svc & rec & idx & net & Hs & -> & Hi & -> & -> & Hso).
  destruct (plan_cases s now svc rec Hwf Hb Hs) as (_ & _ & Ha & _).
  destruct (Ha idx Hi) as [Hlt Hnp]. destruct Hso.
  exists svc, rec, idx, net. by repeat (split; [done|]).
Qed.

(** C17: one pass never hands out one address twice.  Two replicas scheduled in
    the same pass differ in node or address, and neither takes the address of a
    jail the pass does not itself reschedule, provided the recorded addresses
    were consistent. *)
Theorem reconcile_addresses_distinct s now name node naddr t a plen sid saddr :
  cp_wf s -> placements_bounded s -> used_wf (cp_used_addresses s) ->
  Schedule name node naddr t a plen sid saddr ∈ reconcile_services s now ->
  (forall name' node' naddr' t' a' plen' sid' saddr',
     Schedule name' node' naddr' t' a' plen' sid' saddr' ∈ reconcile_services s now ->
     name' <> name -> (node', a') <> (node, a)) /\
  (forall jail, (forall act, act ∈ reconcile_services s now -> ~ is_schedule_of jail act) ->
     ua_by_jail (cp_used_addresses s) !! jail <> Some (node, a)).
Proof.
  intros Hwf Hb Hu Hin. destruct (reconcile_log s now Hwf) as [W Hlog].
  pose proof (log_used_wf _ _ _ _ Hu Hlog) as HW.
  destruct (log_by_jail _ _ _ _ Hlog (reconcile_names_NoDup s now Hwf Hb)) as [H1 H2].
  pose proof (H1 _ _ _ _ _ _ _ _ Hin) as Hname. split.
  - intros name' node' naddr' t' a' plen' sid' saddr' Hin' Hne E.
    pose proof (H1 _ _ _ _ _ _ _ _ Hin') as Hname'. rewrite E in Hname'.
    by apply Hne, (uwf_inj W HW _ _ _ Hname' Hname).
  - intros jail Hj E. rewrite <-H2 in E by done.
    pose proof (uwf_inj W HW _ _ _ E Hname) as ->. by eapply (Hj _ Hin).
Qed.

(** The pass only tears down surplus replicas: one that is placed on a live
    node, of a service with more replicas present than desired, and with no
    replica that stays having a higher index. *)
Theorem reconcile_tear_down_sound s now name node naddr :
  cp_wf s -> placements_bounded s -> TearDown name node naddr ∈ reconcile_services s now ->
  exists svc rec idx,
    services_get (cp_services s) svc = Some rec /\ name = replica_name svc idx /\
    placements_get (cp_placements s) name = Some node /\
    resolve (cp_registry s) node now = Ok naddr /\
    idx ∈ present_indices s now svc rec /\
    (sv_desired_replicas rec < N.of_nat (size (present_indices s now svc rec)))%N /\
    forall j, j ∈ present_indices s now svc rec -> j ∉ (plan s now svc rec).2 -> (j < idx)%N.
Proof.
  intros Hwf Hb Hin. destruct (reconcile_log s now Hwf) as [W Hlog].
  destruct (log_elem_tear_down _ _ _ _ _ _ _ Hlog Hin)
    as (svc & rec & idx & Hs & -> & Hi & Hp & Hr).
  exists svc, rec, idx. do 4 (split; [done|]).
  pose proof (swf_desired _ (cwf_services s Hwf) _ _ Hs) as Hd.
  pose proof (size_present s now svc rec) as Hsz. unfold placements_bounded in Hb.
  unfold plan in *. set (present := present_indices s now svc rec) in *.
  destruct (N.lt_trichotomy (N.of_nat (size present)) (sv_desired_replicas rec)) as [H|[H|H]].
  - destruct (diff_replicas_add _ _ H Hd) as (l & E & _). rewrite E in Hi. set_solver.
  - rewrite diff_replicas_done in Hi by done. set_solver.
  - destruct (diff_replicas_remove _ _ H ltac:(lia)) as (l & E & _ & _ & Hl & Hhigh).
    rewrite E in *. cbn in *. split; [by apply Hl|]. split; [done|].
    intros j Hj Hnj. by apply Hhigh.
Qed.

(** C6: a stateful replica is pinned.  As long as it has a placement, on a live
    or a dead node, no pass schedules it again anywhere. *)
Theorem stateful_replica_pinned s now svc rec idx node act :
  cp_wf s -> placements_bounded s ->
  services_get (cp_services s) svc = Some rec -> is_stateless (sv_template rec) = false ->
  placements_get (cp_placements s) (replica_name svc idx) = Some node -> (idx <= u32_max)%N ->
  act ∈ reconcile_services s now -> ~ is_schedule_of (replica_name svc idx) act.
Proof.
  intros Hwf Hb Hs Hst Hp Hi Hin Hsch. destruct act as [n nd na t a pl sid sad|]; [|done].
  cbn in Hsch. subst n. destruct (reconcile_log s now Hwf) as [W Hlog].
  destruct (log_elem_schedule _ _ _ _ _ _ _ _ _ _ _ _ Hlog Hin)
    as (svc' & rec' & idx' & net & Hs' & E & Hi' & _).
  apply replica_name_inj in E as [<- <-]. rewrite Hs in Hs'. injection Hs' as <-.
  destruct (plan_cases s now svc rec Hwf Hb Hs) as (_ & _ & Ha & _).
  destruct (Ha idx Hi') as [_ Hnp]. apply Hnp, elem_of_present. split; [done|].
  exists node. split; [done|]. by rewrite Hst.
Qed.

(** ** Convergence *)

(** What the tables look like once an action was carried out: the records the
    HTTP side sends after a successful request to the node. *)
Definition apply_action s (act : ReplicaAction) : CP :=
  match act with
  | Schedule name node _ _ a _ sid _ =>
      let s := with_placements (placements_set (cp_placements s) name node) s in
      let s := with_used (used_record (cp_used_addresses s) name node a) s in
      match sid with
      | Some id => with_standbys (standbys_set (cp_standbys s) name id) s
      | None => s
      end
  | TearDown name _ _ =>
      let s := with_placements (placements_remove (cp_placements s) name) s in
      with_used (used_release (cp_used_addresses s) name) s
  end.

Definition apply_actions s (acts : list ReplicaAction) : CP := foldl apply_action s acts.

(** Replicas missing over all services. *)
Definition missing_total s now : nat :=
  length (services_list (cp_services s) ≫= fun p => (plan s now p.1 p.2).1).

(** Every pod block has room for all of them. *)
Definition room s now : Prop :=
  forall node, (size (jails_on (cp_used_addresses s) node) + missing_total s now <= 252)%nat.

Lemma jails_on_record u jail n a node :
  (size (jails_on (used_record u jail n a) node) <= S (size (jails_on u node)))%nat.
Proof.
  unfold jails_on. rewrite by_jail_record.
  rewrite <-(size_dom (filter _ (<[jail := (n, a)]> (ua_by_jail u)))).
  rewrite <-(size_dom (filter _ (ua_by_jail u))).
  etransitivity; [apply (subseteq_size _ ({[jail]} ∪ dom (filter (fun kv => kv.2.1 = node) (ua_by_jail u))))|].
  - intros k Hk. apply elem_of_dom in Hk as [[m b] Hk].
    apply map_lookup_filter_Some in Hk as [[[<- _]|[_ Hk]]%lookup_insert_Some Hf]; [set_solver|].
    apply elem_of_union. right. apply elem_of_dom. exists (m, b). by apply map_lookup_filter_Some.
  - rewrite size_union_alt, size_singleton.
    pose proof (subseteq_size (dom (filter (fun kv => kv.2.1 = node) (ua_by_jail u)) ∖ {[jail]})
      (dom (filter (fun kv => kv.2.1 = node) (ua_by_jail u))) ltac:(set_solver)). lia.
Qed.

(** With room and a live node, no missing replica is skipped. *)
Lemma schedules_all s now svc rec idxs ps k :
  cp_wf s -> alive_nodes (cp_registry s) now <> [] ->
  marks_owned (ps_working_used ps) ->
  (forall node, (size (jails_on (ps_working_used ps) node) + (length idxs + k) <= 252)%nat) ->
  let ps' := foldl (schedule_one s now (alive_nodes (cp_registry s) now) svc rec) ps idxs in
  action_name <$> ps_actions ps' = (action_name <$> ps_actions ps) ++ (replica_name svc <$> idxs) /\
  marks_owned (ps_working_used ps') /\
  forall node, (size (jails_on (ps_working_used ps') node) + k <= 252)%nat.
Proof.
  intros Hwf Hne. revert ps. induction idxs as [|i idxs IH]; intros ps Hm Hroom; cbn [foldl].
  - by rewrite app_nil_r.
  - destruct (schedule_one_cases s now svc rec ps i Hwf)
      as [[_ [Hal|(node & net & Ha & Hc & Hf)]]|(node & naddr & net & a & sid & saddr & -> & Hso & Hu)].
    + done.
    + exfalso. destruct (alive_pod_cidr s now node Hwf Ha) as (net' & Hc' & Hw & Hp).
      rewrite Hc in Hc'. injection Hc' as <-.
      pose proof (full_block_jails net node _ Hw Hp Hm Hf) as Hfull.
      specialize (Hroom node). lia.
    + destruct (IH (pass_after svc rec ps i node naddr net a sid saddr)) as (E & Hm' & Hr').
      * cbn. by apply marks_owned_record.
      * intros nd. cbn. pose proof (jails_on_record (ps_working_used ps) (replica_name svc i) node a nd).
        specialize (Hroom nd). cbn in Hroom. lia.
      * split; [|done]. rewrite E. cbn. by rewrite fmap_app, <-app_assoc.
Qed.

(** Every stateful replica sits on a live node (a stateful surplus replica on a
    dead node cannot be torn down yet). *)
Definition stateful_alive s now : Prop :=
  forall svc rec idx node, services_get (cp_services s) svc = Some rec ->
    is_stateless (sv_template rec) = false ->
    placements_get (cp_placements s) (replica_name svc idx) = Some node ->
    node_alive (cp_registry s) now node.

Lemma tear_downs_all s now svc rec idxs :
  stateful_alive s now -> services_get (cp_services s) svc = Some rec ->
  Forall (fun i => i ∈ present_indices s now svc rec) idxs ->
  action_name <$> omap (tear_down_one s now svc) idxs = replica_name svc <$> idxs.
Proof.
  intros Hst Hs. induction idxs as [|i idxs IH]; [done|].
  intros [Hi Hin]%Forall_cons. apply elem_of_present in Hi as (_ & node & Hp & Ha).
  assert (node_alive (cp_registry s) now node) as [naddr Hr]%node_alive_resolve.
  { destruct (is_stateless (sv_template rec)) eqn:E; [by apply Ha|by eapply Hst]. }
  cbn. unfold tear_down_one at 1. rewrite Hp. cbn. rewrite Hr. cbn. by rewrite IH.
Qed.

Lemma services_all s now svcs acc :
  cp_wf s -> placements_bounded s -> stateful_alive s now ->
  alive_nodes (cp_registry s) now <> [] ->
  Forall (fun p => services_get (cp_services s) p.1 = Some p.2) svcs ->
  marks_owned acc.2 ->
  (forall node, (size (jails_on acc.2 node) +
     length (svcs ≫= fun p => (plan s now p.1 p.2).1) <= 252)%nat) ->
  action_name <$> (foldl (reconcile_service s now (alive_nodes (cp_registry s) now)) acc svcs).1
    = (action_name <$> acc.1) ++ (svcs ≫= plan_names s now).
Proof.
  intros Hwf Hb Hst Hne. revert acc. induction svcs as [|[svc rec] svcs IH];
    intros [acts W] Hin Hm Hroom; cbn [foldl]; [by rewrite app_nil_r|].
  apply Forall_cons in Hin as [Hs Hin]. cbn in Hs.
  destruct (plan_cases s now svc rec Hwf Hb Hs) as (_ & _ & _ & Hrem).
  unfold reconcile_service at 2. fold (plan s now svc rec).
  destruct (plan s now svc rec) as [to_add to_remove] eqn:Ep. cbn [fst snd] in *.
  destruct (schedules_all s now svc rec to_add
    (mkPass acts W (nodes_hosting_service svc (cp_placements s)))
    (length (svcs ≫= fun p => (plan s now p.1 p.2).1)) Hwf Hne Hm) as (E & Hm' & Hr').
  { intros node. specialize (Hroom node). rewrite bind_cons, length_app in Hroom.
    cbn [fst snd] in Hroom. by rewrite Ep in Hroom. }
  rewrite IH; [|done|done|done]. cbn [fst]. rewrite fmap_app, E. cbn [ps_actions].
  rewrite (tear_downs_all s now svc rec) by (done || by apply Forall_forall).
  rewrite bind_cons. unfold plan_names at 2. cbn [fst snd]. rewrite Ep. cbn [fst snd].
  by rewrite <- !app_assoc.
Qed.

Lemma apply_actions_frame s acts :
  cp_registry (apply_actions s acts) = cp_registry s /\
  cp_services (apply_actions s acts) = cp_services s.
Proof.
  unfold apply_actions. revert s. induction acts as [|act acts IH]; intros s; cbn [foldl]; [done|].
  destruct (IH (apply_action s act)) as [-> ->]. by destruct act as [??????[?|]?|].
Qed.

Lemma apply_action_lookup s act name :
  placements_get (cp_placements (apply_action s act)) name =
    if decide (action_name act = name)
    then match act with Schedule _ node _ _ _ _ _ _ => Some node | TearDown _ _ _ => None end
    else placements_get (cp_placements s) name.
Proof.
  unfold placements_get. destruct act as [n node ? ? ? ? [?|] ?|n ? ?]; cbn;
    destruct (decide (n = name)) as [->|];
    by rewrite ?lookup_insert_eq, ?lookup_insert_ne, ?lookup_delete_eq, ?lookup_delete_ne.
Qed.

Lemma apply_actions_lookup s acts name :
  NoDup (action_name <$> acts) ->
  (forall act, act ∈ acts -> action_name act = name ->
     placements_get (cp_placements (apply_actions s acts)) name =
       match act with Schedule _ node _ _ _ _ _ _ => Some node | TearDown _ _ _ => None end) /\
  (name ∉ action_name <$> acts ->
     placements_get (cp_placements (apply_actions s acts)) name =
       placements_get (cp_placements s) name).
Proof.
  unfold apply_actions. revert s. induction acts as [|act0 acts IH]; intros s; cbn [foldl fmap list_fmap].
  - intros _. split; [set_solver|done].
  - intros [Hn0 Hnd]%NoDup_cons. destruct (IH (apply_action s act0) Hnd) as [IH1 IH2]. split.
    + intros act [->|Hin]%elem_of_cons Hname; [|by apply IH1].
      rewrite IH2 by (by rewrite <-Hname). rewrite apply_action_lookup. by rewrite decide_True.
    + intros [Hne Hni]%not_elem_of_cons. rewrite IH2 by done.
      rewrite apply_action_lookup. by rewrite decide_False.
Qed.

(** The replicas present after the pass are exactly the planned ones. *)
Lemma present_after s now svc rec :
  cp_wf s -> placements_bounded s ->
  action_name <$> reconcile_services s now = services_list (cp_services s) ≫= plan_names s now ->
  services_get (cp_services s) svc = Some rec ->
  present_indices (apply_actions s (reconcile_services s now)) now svc rec
    = apply_diff (present_indices s now svc rec) (plan s now svc rec).
Proof.
  intros Hwf Hb Hnames Hs. destruct (reconcile_log s now Hwf) as [W Hlog].
  pose proof (reconcile_names_NoDup s now Hwf Hb) as Hnd.
  destruct (plan_cases s now svc rec Hwf Hb Hs) as (_ & _ & Hadd & Hrem).
  pose proof (swf_desired _ (cwf_services s Hwf) _ _ Hs) as Hd.
  set (acts := reconcile_services s now) in *.
  apply set_eq. intros idx. rewrite elem_of_present.
  rewrite (proj1 (apply_actions_frame s acts)).
  destruct (apply_actions_lookup s acts (replica_name svc idx) Hnd) as [Hin Hout].
  unfold apply_diff. rewrite elem_of_difference, elem_of_union, !elem_of_list_to_set.
  assert (forall i, i ∈ (plan s now svc rec).1 \/ i ∈ (plan s now svc rec).2 ->
            replica_name svc i ∈ action_name <$> acts) as Hcov.
  { intros i Hi. rewrite Hnames. apply list_elem_of_bind. exists (svc, rec).
    split; [|by apply elem_of_services_list].
    unfold plan_names. cbn. rewrite <-fmap_app. apply list_elem_of_fmap_2, elem_of_app. done. }
  assert (replica_name svc idx ∈ action_name <$> acts ->
     (idx ∈ (plan s now svc rec).1 /\ exists node, node_alive (cp_registry s) now node /\
        placements_get (cp_placements (apply_actions s acts)) (replica_name svc idx) = Some node) \/
     (idx ∈ (plan s now svc rec).2 /\
        placements_get (cp_placements (apply_actions s acts)) (replica_name svc idx) = None)) as Hact.
  { intros (act & E & Ha)%list_elem_of_fmap. specialize (Hin act Ha (eq_sym E)).
    destruct act as [n node na t a pl sid sad|n node na]; cbn in E; subst n.
    - left. destruct (log_elem_schedule _ _ _ _ _ _ _ _ _ _ _ _ Hlog Ha)
        as (svc' & rec' & idx' & net & Hs' & E & Hi & _ & _ & Hso).
      apply replica_name_inj in E as [<- <-]. rewrite Hs in Hs'. injection Hs' as <-.
      split; [done|]. exists node. split; [|done]. apply node_alive_resolve. exists na. apply Hso.
    - right. destruct (log_elem_tear_down _ _ _ _ _ _ _ Hlog Ha)
        as (svc' & rec' & idx' & Hs' & E & Hi & _).
      apply replica_name_inj in E as [<- <-]. rewrite Hs in Hs'. injection Hs' as <-. done. }
  destruct (decide (replica_name svc idx ∈ action_name <$> acts)) as [Hyes|Hno].
  - destruct (Hact Hyes) as [(Hi & node & Ha & E)|[Hi E]]; rewrite E; split.
    + intros _. split; [by right|]. intros Hi2. destruct (Hadd idx Hi). by auto.
    + intros _. destruct (Hadd idx Hi). split; [lia|]. by exists node.
    + by intros (_ & node & [=] & _).
    + by intros [_ ?].
  - rewrite Hout by done. rewrite <-elem_of_present. split.
    + intros Hp. split; [by left|]. intros Hi. by apply Hno, Hcov; right.
    + intros [[Hp|Hi] _]; [done|]. by destruct Hno; apply Hcov; left.
Qed.

Lemma reconcile_nothing s now alive svcs acc :
  Forall (fun p => plan s now p.1 p.2 = ([], [])) svcs ->
  foldl (reconcile_service s now alive) acc svcs = acc.
Proof.
  revert acc. induction svcs as [|[svc rec] svcs IH]; intros [acts W]; cbn [foldl]; [done|].
  intros [Hp Hrest]%Forall_cons. cbn in Hp. rewrite <-(IH (acts, W)) at 2 by done. f_equal.
  unfold reconcile_service. fold (plan s now svc rec). rewrite Hp. cbn. by rewrite app_nil_r.
Qed.

(** C4: reconciliation converges in one pass.  If some node is alive, the pod
    blocks have room for what is missing and no stateful replica sits on a dead
    node, then once every action of a pass has been carried out each service
    has exactly its desired number of replicas present, and a second pass at
    the same time has nothing to do. *)
Theorem reconcile_converges s now :
  cp_wf s -> placements_bounded s ->
  alive_nodes (cp_registry s) now <> [] -> room s now -> stateful_alive s now ->
  let s' := apply_actions s (reconcile_services s now) in
  (forall svc rec, services_get (cp_services s) svc = Some rec ->
     N.of_nat (size (present_indices s' now svc rec)) = sv_desired_replicas rec) /\
  reconcile_services s' now = [].
Proof.
  intros Hwf Hb Hne Hroom Hst s'.
  assert (action_name <$> reconcile_services s now
            = services_list (cp_services s) ≫= plan_names s now) as Hnames.
  { unfold reconcile_services. rewrite services_all; try done.
    - apply Forall_forall. intros [svc rec] Hin. by apply elem_of_services_list.
    - apply Hwf. }
  assert (forall svc rec, services_get (cp_services s) svc = Some rec ->
     N.of_nat (size (present_indices s' now svc rec)) = sv_desired_replicas rec) as Hsz.
  { intros svc rec Hs. unfold s'. rewrite present_after by done. apply apply_diff_size.
    - by eapply swf_desired; [apply Hwf|].
    - pose proof (size_present s now svc rec). unfold placements_bounded in Hb. lia. }
  split; [exact Hsz|]. unfold reconcile_services. rewrite reconcile_nothing; [done|].
  destruct (apply_actions_frame s (reconcile_services s now)) as [_ Hsv]. fold s' in Hsv.
  rewrite Hsv. apply Forall_forall. intros [svc rec] Hs%elem_of_services_list. cbn.
  unfold plan. apply diff_replicas_done; [by apply Hsz|]. by eapply swf_desired; [apply Hwf|].
Qed.
End reconcile.

(** ** Evaluation *)

Lemma registry_2_range : map_Forall (fun _ => record_in_range) (rg_nodes registry_2).
Proof.
  apply map_Forall_insert_2; [split; vm_compute; discriminate|].
  apply map_Forall_singleton. split; vm_compute; discriminate.
Qed.

(** Two nodes, a service of two replicas of which one is placed, and a stateful
    service whose only replica sits on a node that is gone. *)
Definition services_demo : Services :=
  services_insert services_web "db" (mkServiceRecord 1 template_db 167836161 5432).

Lemma services_demo_wf : @services_wf ipnet_model services_demo.
Proof.
  apply services_insert_wf; [apply services_web_wf|vm_compute; discriminate| |].
  - vm_compute. split; [discriminate|reflexivity].
  - cbn. intros other r' _ [<- <-]%lookup_singleton_Some. vm_compute. discriminate.
Qed.

Definition used_demo : UsedAddresses := used_record used_new "web-0" "node-1" 167805698.

Lemma used_demo_wf : used_wf used_demo.
Proof. apply used_wf_record; [apply used_new_wf|done]. Qed.

Definition cp_demo : CP :=
  mkCP registry_2 (mkPlacements (<["db-0" := "node-9"]> {["web-0" := "node-1"]}))
    services_demo used_demo (mkStandbys {["db-0" := "node-2"]}) pending_fences_new.

Lemma cp_demo_wf : @cp_wf ipnet_model cp_demo.
Proof.
  split; [apply registry_2_wf|apply registry_2_range|apply services_demo_wf|apply used_demo_wf].
Qed.

Example reconcile_demo :
  @reconcile_services list_order ipnet_model cp_demo 0 =
    [Schedule "web-1" "node-2" "10.1.0.2:7620" template_web 167777794 24 None None].
Proof. vm_compute. reflexivity. Qed.

(** One replica too many. *)
Definition cp_surplus : CP :=
  with_placements (mkPlacements
    (<["web-2" := "node-2"]> (<["web-1" := "node-2"]> {["web-0" := "node-1"]}))) cp_demo.

Lemma cp_surplus_wf : @cp_wf ipnet_model cp_surplus.
Proof. split; apply cp_demo_wf. Qed.

Example reconcile_surplus :
  @reconcile_services list_order ipnet_model cp_surplus 0 =
    [Schedule "db-0" "node-1" "10.1.0.1:7620" template_db 167805699 24
       (Some "node-2") (Some "10.1.0.2:7621");
     TearDown "web-2" "node-2" "10.1.0.2:7620"].
Proof. vm_compute. reflexivity. Qed.

Lemma demo_bounded : placements_bounded cp_demo /\ placements_bounded cp_surplus.
Proof. split; vm_compute; discriminate. Qed.

Lemma reconcile_schedule_sound_witness :
  exists svc rec idx net,
    services_get (cp_services cp_surplus) svc = Some rec /\ template_db = sv_template rec /\
    "db-0" = replica_name svc idx /\ (idx < sv_desired_replicas rec)%N /\
    idx ∉ @present_indices list_order cp_surplus 0 svc rec /\
    resolve (cp_registry cp_surplus) "node-1" 0 = Ok "10.1.0.1:7620" /\
    pod_cidr (cp_registry cp_surplus) "node-1" = Some net /\ 24%N = prefix_len net /\
    (@network ipnet_model net + 2 <= 167805699 < @network ipnet_model net + 255)%N /\
    (is_stateless template_db = true -> Some "node-2" = None /\ Some "10.1.0.2:7621" = None) /\
    (forall id, Some "node-2" = Some id ->
       id <> "node-1" /\ node_alive (cp_registry cp_surplus) 0 id /\
       exists ra, Some "10.1.0.2:7621" = Some ra /\
         replicate_addr (cp_registry cp_surplus) id = Some ra).
Proof.
  apply (@reconcile_schedule_sound list_order ipnet_model cp_surplus 0 "db-0" "node-1"
           "10.1.0.1:7620" template_db 167805699 24 (Some "node-2") (Some "10.1.0.2:7621")
           cp_surplus_wf (proj2 demo_bounded)).
  rewrite reconcile_surplus. apply elem_of_cons. left. reflexivity.
Defined.

Lemma reconcile_addresses_distinct_witness :
  ua_by_jail (cp_used_addresses cp_demo) !! "web-0" = Some ("node-1", 167805698%N) /\
  ua_by_jail (cp_used_addresses cp_demo) !! "web-0" <> Some ("node-2", 167777794%N).
Proof.
  split; [reflexivity|].
  apply (@reconcile_addresses_distinct list_order ipnet_model cp_demo 0 "web-1" "node-2"
           "10.1.0.2:7620" template_web 167777794 24 None None
           cp_demo_wf (proj1 demo_bounded) used_demo_wf).
  - rewrite reconcile_demo. apply elem_of_cons. left. reflexivity.
  - rewrite reconcile_demo. intros act ->%list_elem_of_singleton. cbn. discriminate.
Defined.

Lemma reconcile_tear_down_sound_witness :
  exists svc rec idx,
    services_get (cp_services cp_surplus) svc = Some rec /\ "web-2" = replica_name svc idx /\
    placements_get (cp_placements cp_surplus) "web-2" = Some "node-2" /\
    resolve (cp_registry cp_surplus) "node-2" 0 = Ok "10.1.0.2:7620" /\
    idx ∈ @present_indices list_order cp_surplus 0 svc rec /\
    (sv_desired_replicas rec < N.of_nat (size (@present_indices list_order cp_surplus 0 svc rec)))%N /\
    forall j, j ∈ @present_indices list_order cp_surplus 0 svc rec ->
      j ∉ (@plan list_order cp_surplus 0 svc rec).2 -> (j < idx)%N.
Proof.
  apply (@reconcile_tear_down_sound list_order ipnet_model cp_surplus 0 "web-2" "node-2"
           "10.1.0.2:7620" cp_surplus_wf (proj2 demo_bounded)).
  rewrite reconcile_surplus. apply elem_of_cons. right. apply elem_of_cons. left. reflexivity.
Defined.

(** The node of the stateful replica is not even registered; the only action of
    the pass concerns the other service. *)
Lemma stateful_replica_pinned_witness :
  ~ is_schedule_of "db-0"
      (Schedule "web-1" "node-2" "10.1.0.2:7620" template_web 167777794 24 None None).
Proof.
  apply (@stateful_replica_pinned list_order ipnet_model cp_demo 0 "db"
           (mkServiceRecord 1 template_db 167836161 5432) 0 "node-9"
           (Schedule "web-1" "node-2" "10.1.0.2:7620" template_web 167777794 24 None None)
           cp_demo_wf (proj1 demo_bounded));
    [reflexivity | reflexivity | reflexivity | vm_compute; discriminate |].
  rewrite reconcile_demo. apply elem_of_cons. left. reflexivity.
Defined.

Lemma jails_on_le used node : (size (jails_on used node) <= size (ua_by_jail used))%nat.
Proof. apply map_subseteq_size, map_filter_subseteq. Qed.

Lemma cp_surplus_room : @room list_order cp_surplus 0.
Proof.
  intros node. pose proof (jails_on_le (cp_used_addresses cp_surplus) node) as H.
  assert (size (ua_by_jail (cp_used_addresses cp_surplus)) = 1%nat) as E by reflexivity.
  assert (@missing_total list_order cp_surplus 0 = 1%nat) as E' by (vm_compute; reflexivity).
  rewrite E'. lia.
Qed.

Lemma reconcile_converges_witness :
  @reconcile_services list_order ipnet_model
    (apply_actions cp_surplus (@reconcile_services list_order ipnet_model cp_surplus 0)) 0 = [].
Proof.
  apply (@reconcile_converges list_order ipnet_model cp_surplus 0
           cp_surplus_wf (proj2 demo_bounded)).
  - vm_compute. discriminate.
  - apply cp_surplus_room.
  - intros svc rec idx node _ _ Hp. apply node_alive_resolve.
    unfold placements_get in Hp. cbn in Hp.
    apply lookup_insert_Some in Hp as [[_ <-]|[_ Hp]]; [by eexists; vm_compute|].
    apply lookup_insert_Some in Hp as [[_ <-]|[_ Hp]]; [by eexists; vm_compute|].
    apply lookup_singleton_Some in Hp as [_ <-]. by eexists; vm_compute.
Defined.
