(* ===== verification/CpCommands.v ===== *)
(** * Correctness of the other worker commands

    Scheduling of plain jails, service discovery, name conflicts, deletion of a
    service and the preparation of a forced re-pin
    ([keel-controlplane/src/worker.rs]). *)

From S2P Require Import Prelude RustStr Float64 Ipnet Spec Subnet Wire Tables Registry Scheduler.
From S2P Require Import Addresses Services CpWorker CpReconcile.

Section commands.
Context {HO : HashOrder} {I : Ipnet}.
Implicit Types (s : CP) (now : Instant).

(** ** Plain jails *)

(** Where a plain jail goes.  A placed jail stays with its node, and is
    refused while that node is unknown or dead; an unplaced one goes to the live
    node no live node beats, and is refused only when no node is alive. *)
Theorem resolve_or_schedule_correct s now jail :
  cp_wf s ->
  match placements_get (cp_placements s) jail, resolve_or_schedule s now jail with
  | Some node, Ok (node', addr) => node' = node /\ resolve (cp_registry s) node now = Ok addr
  | Some node, Err e => exists re, e = SorResolve re /\ resolve (cp_registry s) node now = Err re
  | None, Ok (node, addr) =>
      resolve (cp_registry s) node now = Ok addr /\
      exists n, nd_id n = node /\ unbeaten (alive_nodes (cp_registry s) now) n
  | None, Err e => e = SorSchedule NoAvailableNodes /\
      forall node, ~ node_alive (cp_registry s) now node
  end.
Proof.
  intros Hwf. unfold resolve_or_schedule.
  destruct (placements_get _ jail) as [node|].
  - destruct (resolve _ node now) as [addr|e]; cbn; eauto.
  - pose proof (alive_nodes_in_range s now Hwf) as Hr.
    destruct (pick_node _) as [node|[]] eqn:Ep; cbn.
    + apply pick_node_Ok in Ep as (n & Hn & <-); [|done].
      assert (node_alive (cp_registry s) now (nd_id n)) as [addr Ha]%node_alive_resolve.
      { apply alive_nodes_alive. exists n. split; [apply Hn|done]. }
      rewrite Ha. cbn. eauto.
    + split; [done|]. apply pick_node_Err in Ep. intros node (n & Hn & _)%alive_nodes_alive.
      rewrite Ep in Hn. set_solver.
Qed.

(** ** Discovery *)

Lemma healthy_replicas_elem name p r u now x :
  x ∈ healthy_replicas name p r u now <->
  exists idx node a, (idx <= u32_max)%N /\
    placements_get p (replica_name name idx) = Some node /\
    node_alive r now node /\ is_jail_running r node (replica_name name idx) = true /\
    address_of u (replica_name name idx) = Some a /\
    x = mkServiceReplica (replica_name name idx) node (ipv4_to_string a).
Proof.
  unfold healthy_replicas. rewrite elem_of_sort_by_key, list_elem_of_omap. split.
  - intros ([jail node] & Hp%elem_of_placements_iter & H).
    apply bind_Some in H as (idx & [-> Hi]%replica_index_Some & H).
    destruct (_ && _) eqn:Hb; [|done]. apply andb_true_iff in Hb as [Ha%node_alive_is_ok Hrun].
    apply bind_Some in H as (a & Hau & [= <-]). by exists idx, node, a.
  - intros (idx & node & a & Hi & Hp & Ha & Hrun & Hau & ->).
    exists (replica_name name idx, node). split; [by apply elem_of_placements_iter|].
    rewrite (proj2 (replica_index_Some name _ idx)) by done. cbn.
    apply node_alive_is_ok in Ha. rewrite Ha, Hrun. cbn. by rewrite Hau.
Qed.

Lemma healthy_replicas_names name p r u now :
  NoDup (sr_name <$> healthy_replicas name p r u now).
Proof.
  unfold healthy_replicas. rewrite sort_by_key_perm.
  eapply (sublist_NoDup _ (placements_iter p).*1); [apply NoDup_fst_hash_iter|].
  induction (placements_iter p) as [|[jail node] l IH]; cbn; [done|].
  destruct (replica_index name jail); cbn; [|by apply sublist_cons].
  destruct (_ && _); [|by apply sublist_cons].
  destruct (address_of u jail); cbn; [by apply sublist_skip|by apply sublist_cons].
Qed.

(** Service discovery is exact.  A replica is advertised exactly when it is
    a replica of the service that is placed on a live node, was reported
    running by that node's last heartbeat and has a recorded address; each is
    listed once, with that node and address, in the order of the names; an
    unknown service is an error. *)
Theorem discover_service_correct s now name :
  match discover_service s now name with
  | Err e => us_name e = name /\ services_get (cp_services s) name = None
  | Ok l =>
      is_Some (services_get (cp_services s) name) /\
      NoDup (sr_name <$> l) /\ StronglySorted (key_le sr_name) l /\
      forall x, x ∈ l <->
        exists idx node a, (idx <= u32_max)%N /\
          placements_get (cp_placements s) (replica_name name idx) = Some node /\
          node_alive (cp_registry s) now node /\
          is_jail_running (cp_registry s) node (replica_name name idx) = true /\
          address_of (cp_used_addresses s) (replica_name name idx) = Some a /\
          x = mkServiceReplica (replica_name name idx) node (ipv4_to_string a)
  end.
Proof.
  unfold discover_service. destruct (services_get _ name); [|done].
  split; [done|]. split; [apply healthy_replicas_names|].
  split; [apply sort_by_key_sorted|]. apply healthy_replicas_elem.
Qed.

(** ** Name conflicts *)

Lemma name_conflict_spec s name fuel i :
  (i + N.of_nat fuel <= u32_max + 1)%N ->
  match name_conflict s name fuel i with
  | None => forall k, (i <= k < i + N.of_nat fuel)%N ->
      owner_of (replica_name name k) (cp_placements s) (cp_services s) <> Some Unmanaged
  | Some e => exists k, (i <= k < i + N.of_nat fuel)%N /\
      e = NameConflict (replica_name name k) Unmanaged /\
      owner_of (replica_name name k) (cp_placements s) (cp_services s) = Some Unmanaged /\
      forall j, (i <= j < k)%N ->
        owner_of (replica_name name j) (cp_placements s) (cp_services s) <> Some Unmanaged
  end.
Proof.
  revert i. induction fuel as [|fuel IH]; intros i Hb; cbn [name_conflict]; [intros k Hk; lia|].
  specialize (IH (i + 1)%N ltac:(lia)).
  assert (forall o, owner_of (replica_name name i) (cp_placements s) (cp_services s) = o ->
    o <> Some Unmanaged ->
    match name_conflict s name fuel (i + 1) with
    | None => forall k, (i <= k < i + N.of_nat (S fuel))%N ->
        owner_of (replica_name name k) (cp_placements s) (cp_services s) <> Some Unmanaged
    | Some e => exists k, (i <= k < i + N.of_nat (S fuel))%N /\
        e = NameConflict (replica_name name k) Unmanaged /\
        owner_of (replica_name name k) (cp_placements s) (cp_services s) = Some Unmanaged /\
        forall j, (i <= j < k)%N ->
          owner_of (replica_name name j) (cp_placements s) (cp_services s) <> Some Unmanaged
    end) as Hskip.
  { intros o Ho Hne. destruct (name_conflict s name fuel (i + 1)) as [e|].
    - destruct IH as (k & Hk & He & Hun & Hlow). exists k. split; [lia|]. split; [done|].
      split; [done|]. intros j Hj. destruct (decide (j = i)) as [->|]; [congruence|].
      apply Hlow. lia.
    - intros k Hk. destruct (decide (k = i)) as [->|]; [congruence|]. apply IH. lia. }
  destruct (owner_of _ _ _) as [[|other]|] eqn:Ho.
  - exists i. split; [lia|]. split; [done|]. split; [done|]. intros j Hj. lia.
  - assert (other = name) as ->.
    { apply owner_of_Service in Ho as (_ & _ & [k Hk]).
      apply replica_index_Some in Hk as [Hk _]. by apply replica_name_inj in Hk as [-> _]. }
    rewrite String.eqb_refl. by apply (Hskip (Some (OwnerService name))).
  - by apply (Hskip None).
Qed.

(** A service may take a name only if none of its replica names is in use.
    [ApplyService] is refused, changing nothing, exactly when one of the names
    [name-0 .. name-(replicas-1)] is placed and belongs to no service; the error
    names the first of them.  Otherwise the outcome is that of the service
    table, and only the service table changes. *)
Theorem apply_service_conflicts s name replicas t port :
  cp_wf s -> (replicas <= u32_max)%N ->
  (exists k, (k < replicas)%N /\
     owner_of (replica_name name k) (cp_placements s) (cp_services s) = Some Unmanaged /\
     (forall j, (j < k)%N ->
        owner_of (replica_name name j) (cp_placements s) (cp_services s) <> Some Unmanaged) /\
     apply_service s name replicas t port
       = Val (Err (NameConflict (replica_name name k) Unmanaged), s)) \/
  ((forall k, (k < replicas)%N ->
      owner_of (replica_name name k) (cp_placements s) (cp_services s) <> Some Unmanaged) /\
   exists res v, services_apply (cp_services s) name replicas t port = Val (res, v) /\
     apply_service s name replicas t port = Val (res, with_services v s)).
Proof.
  intros Hwf Hr. unfold apply_service.
  pose proof (name_conflict_spec s name (N.to_nat replicas) 0) as Hc.
  destruct (name_conflict _ _ _ _) as [e|].
  - left. destruct Hc as (k & Hk & -> & Hun & Hlow); [lia|]. exists k. split; [lia|].
    split; [done|]. split; [|done]. intros j Hj. apply Hlow. lia.
  - right. split; [intros k Hk; apply Hc; lia|].
    destruct (services_apply_inv (cp_services s) name replicas t port (cwf_services s Hwf) Hr)
      as (res & v & E & _). exists res, v. rewrite E. done.
Qed.

(** ** Deletion *)

Lemma delete_service_actions s now name rec :
  services_get (cp_services s) name = Some rec ->
  exists acts, delete_service s now name =
      (Ok acts, with_services (services_remove (cp_services s) name) s) /\
    forall act, act ∈ acts <-> exists idx node naddr, (idx <= u32_max)%N /\
      placements_get (cp_placements s) (replica_name name idx) = Some node /\
      resolve (cp_registry s) node now = Ok naddr /\
      act = TearDown (replica_name name idx) node naddr.
Proof.
  intros Hs. unfold delete_service. rewrite Hs. eexists. split; [done|].
  intros act. rewrite list_elem_of_omap. split.
  - intros ([jail node] & Hp%elem_of_placements_iter & H).
    apply bind_Some in H as (idx & [-> Hi]%replica_index_Some & H).
    apply bind_Some in H as (naddr & Hr & [= <-]).
    destruct (resolve _ _ _) eqn:E; simplify_eq/=. by exists idx, node, naddr.
  - intros (idx & node & naddr & Hi & Hp & Hr & ->). exists (replica_name name idx, node).
    split; [by apply elem_of_placements_iter|].
    rewrite (proj2 (replica_index_Some name _ idx)) by done. cbn. by rewrite Hr.
Qed.

(** Deleting a service removes it from the table and tears down exactly its
    replicas placed on live nodes; an unknown service is an error that changes
    nothing. *)
Theorem delete_service_correct s now name :
  match delete_service s now name with
  | (Err e, s') => us_name e = name /\ services_get (cp_services s) name = None /\ s' = s
  | (Ok acts, s') =>
      s' = with_services (services_remove (cp_services s) name) s /\
      services_get (cp_services s') name = None /\
      forall act, act ∈ acts <-> exists idx node naddr, (idx <= u32_max)%N /\
        placements_get (cp_placements s) (replica_name name idx) = Some node /\
        resolve (cp_registry s) node now = Ok naddr /\
        act = TearDown (replica_name name idx) node naddr
  end.
Proof.
  destruct (services_get (cp_services s) name) as [rec|] eqn:Hs.
  - destruct (delete_service_actions s now name rec Hs) as (acts & -> & Hacts).
    split; [done|]. split; [|done]. apply lookup_delete_eq.
  - unfold delete_service. by rewrite Hs.
Qed.

Lemma apply_actions_other s acts name :
  name ∉ action_name <$> acts ->
  placements_get (cp_placements (apply_actions s acts)) name = placements_get (cp_placements s) name.
Proof.
  unfold apply_actions. revert s. induction acts as [|act acts IH]; intros s; cbn [foldl]; [done|].
  rewrite fmap_cons. intros [Hne Hni]%not_elem_of_cons. rewrite IH by done.
  rewrite apply_action_lookup. by rewrite decide_False.
Qed.

Lemma owner_of_unmanaged name p v svc i node :
  name = replica_name svc i -> placements_get p name = Some node -> services_get v svc = None ->
  owner_of name p v = Some Unmanaged.
Proof.
  intros -> Hp Hs. destruct (owner_of (replica_name svc i) p v) as [[|svc']|] eqn:E; [done| |].
  - apply owner_of_Service in E as (_ & [r Hr] & [k Hk]).
    apply replica_index_Some in Hk as [Hk _]. apply replica_name_inj in Hk as [<- _]. congruence.
  - apply owner_of_None in E. congruence.
Qed.

(** Deleting a service while one of its replicas is placed on a dead node
    leaves the placement behind without an owner.  Even after all tear-downs
    succeed, the name stays blocked: applying the same service again is refused
    because an unmanaged jail is supposed to hold one of its names. *)
Theorem deleted_service_name_blocked s now name rec i node replicas t port :
  services_get (cp_services s) name = Some rec ->
  placements_get (cp_placements s) (replica_name name i) = Some node ->
  ~ node_alive (cp_registry s) now node ->
  (i < replicas)%N -> (replicas <= u32_max)%N ->
  exists acts s1, delete_service s now name = (Ok acts, s1) /\
    let s2 := apply_actions s1 acts in
    placements_get (cp_placements s2) (replica_name name i) = Some node /\
    exists k, (k <= i)%N /\
      apply_service s2 name replicas t port
        = Val (Err (NameConflict (replica_name name k) Unmanaged), s2).
Proof.
  intros Hs Hp Hdead Hi Hr.
  destruct (delete_service_actions s now name rec Hs) as (acts & E & Hacts).
  do 2 eexists. split; [exact E|]. intros s2.
  assert (replica_name name i ∉ action_name <$> acts) as Hni.
  { intros (act & Hn & Ha)%list_elem_of_fmap.
    apply Hacts in Ha as (idx & node' & naddr & _ & Hp' & Hr' & ->). cbn in Hn.
    apply replica_name_inj in Hn as [_ <-]. rewrite Hp in Hp'. injection Hp' as <-.
    apply Hdead, node_alive_resolve. eauto. }
  assert (placements_get (cp_placements s2) (replica_name name i) = Some node) as Hp2.
  { unfold s2. by rewrite apply_actions_other. }
  split; [done|].
  assert (owner_of (replica_name name i) (cp_placements s2) (cp_services s2) = Some Unmanaged) as Ho.
  { eapply owner_of_unmanaged; [done|exact Hp2|]. unfold s2.
    rewrite (proj2 (apply_actions_frame _ _)). apply lookup_delete_eq. }
  pose proof (name_conflict_spec s2 name (N.to_nat replicas) 0 ltac:(lia)) as Hc.
  unfold apply_service. destruct (name_conflict s2 name (N.to_nat replicas) 0) as [e|].
  - destruct Hc as (k & Hk & -> & _ & Hlow). exists k. split; [|done].
    destruct (decide (k <= i)%N); [done|]. exfalso. apply (Hlow i); [lia|done].
  - exfalso. apply (Hc i); [lia|done].
Qed.

(** ** Forced re-pin *)

(** The checks of [PrepareForceRepin] in their order: what each error means. *)
Definition repin_error_meaning s now name (e : ForceRepinError) : Prop :=
  match e with
  | NotPlaced n => n = name /\ placements_get (cp_placements s) name = None
  | NotStateful n => n = name /\ is_Some (placements_get (cp_placements s) name) /\
      (standbys_get (cp_standbys s) name = None \/
       forall svc, owner_of name (cp_placements s) (cp_services s) <> Some (OwnerService svc))
  | PrimaryStillAlive old => placements_get (cp_placements s) name = Some old /\
      node_alive (cp_registry s) now old
  | StandbyUnresolvable re => exists old standby,
      placements_get (cp_placements s) name = Some old /\ ~ node_alive (cp_registry s) now old /\
      standbys_get (cp_standbys s) name = Some standby /\
      resolve (cp_registry s) standby now = Err re
  | NoFreshStandby => forall old standby,
      placements_get (cp_placements s) name = Some old ->
      standbys_get (cp_standbys s) name = Some standby ->
      (forall id, node_alive (cp_registry s) now id -> id = old \/ id = standby) \/
      exists id, node_alive (cp_registry s) now id /\ id <> old /\ id <> standby /\
        replicate_addr (cp_registry s) id = None
  | NoFreeAddress => exists standby net,
      standbys_get (cp_standbys s) name = Some standby /\
      pod_cidr (cp_registry s) standby = Some net /\
      first_free_address net standby (cp_used_addresses s) = None
  end.

Record repin_prep_ok s now name (p : ForceRepinPrep) : Prop := {
  rp_old : placements_get (cp_placements s) name = Some (fr_old_node_id p);
  rp_old_dead : ~ node_alive (cp_registry s) now (fr_old_node_id p);
  rp_standby : standbys_get (cp_standbys s) name = Some (fr_standby_node_id p);
  rp_standby_addr : resolve (cp_registry s) (fr_standby_node_id p) now = Ok (fr_standby_addr p);
  rp_template : exists svc rec, services_get (cp_services s) svc = Some rec /\
    is_Some (replica_index svc name) /\ fr_template p = sv_template rec;
  rp_fresh : node_alive (cp_registry s) now (fr_fresh_standby_node_id p) /\
    fr_fresh_standby_node_id p <> fr_old_node_id p /\
    fr_fresh_standby_node_id p <> fr_standby_node_id p;
  rp_fresh_addr : replicate_addr (cp_registry s) (fr_fresh_standby_node_id p)
    = Some (fr_fresh_standby_addr p);
  rp_address : exists net, pod_cidr (cp_registry s) (fr_standby_node_id p) = Some net /\
    fr_prefix_len p = prefix_len net /\
    (network net + 2 <= fr_address p < network net + 255)%N /\
    is_used (cp_used_addresses s) (fr_standby_node_id p) (fr_address p) = false
}.

(** The choice of the fresh standby. *)
Lemma fresh_standby_None s now old standby :
  cp_wf s ->
  (id ← res_ok (pick_node_for_service (alive_nodes (cp_registry s) now) {[old; standby]});
   if bool_decide (id ∈ ({[old; standby]} : gset string)) then None else Some id) = None ->
  forall id, node_alive (cp_registry s) now id -> id = old \/ id = standby.
Proof.
  intros Hwf Hn id Ha. apply alive_nodes_alive in Ha as (n & Hin & <-).
  destruct (pick_node_for_service _ _) as [pid|[]] eqn:Ep; cbn in Hn.
  - case_bool_decide as Hp; [|done].
    apply pick_node_for_service_Ok in Ep as [_ Hall]; [|by apply alive_nodes_in_range].
    specialize (Hall Hp n Hin). set_solver.
  - unfold pick_node_for_service in Ep. destruct (filter _ _) as [|m f] eqn:Ef.
    + apply pick_node_Err in Ep. rewrite Ep in Hin. set_solver.
    + by apply pick_node_Err in Ep.
Qed.

Lemma repin_address s standby net a now naddr :
  cp_wf s -> resolve (cp_registry s) standby now = Ok naddr ->
  pod_cidr (cp_registry s) standby = Some net ->
  first_free_address net standby (cp_used_addresses s) = Some a ->
  (network net + 2 <= a < network net + 255)%N /\
  is_used (cp_used_addresses s) standby a = false.
Proof.
  intros Hwf Hr Hc Hf.
  destruct (alive_pod_cidr s now standby Hwf) as (net' & Hc' & Hw & Hp);
    [apply node_alive_resolve; eauto|].
  rewrite Hc in Hc'. injection Hc' as <-.
  apply first_free_address_Some in Hf as (Hrg & Hu & _); [|done|lia].
  rewrite block_size_24 in Hrg by done. split; [lia|done].
Qed.

(** Preparing a forced re-pin.  It succeeds only for a placed replica of a
    known service whose primary is not alive; the promoted node is the recorded
    standby, alive, reached at its HTTP address; the fresh standby is a third
    live node, reached at its replication address; the new address is free in
    the promoted node's block.  Every error states a fact: in particular a
    primary that is still alive is never replaced, and no fresh standby means
    that every live node is the old or the new primary, or that the chosen one
    has no replication address. *)
Theorem prepare_force_repin_correct s now name :
  cp_wf s ->
  match prepare_force_repin s now name with
  | Ok p => repin_prep_ok s now name p
  | Err e => repin_error_meaning s now name e
  end.
Proof.
  intros Hwf. unfold prepare_force_repin.
  destruct (placements_get _ name) as [old|] eqn:Ep; cbn; [|done].
  destruct (standbys_get _ name) as [standby|] eqn:Es; cbn;
    [|by split; [|split; [rewrite Ep; eauto|left]]].
  destruct (is_ok (resolve _ old now)) eqn:Eo;
    [apply node_alive_is_ok in Eo; cbn; by rewrite Ep|].
  assert (~ node_alive (cp_registry s) now old) as Hdead
    by (rewrite <-node_alive_is_ok; congruence).
  destruct (resolve _ standby now) as [saddr|re] eqn:Er; cbn; [|by exists old, standby].
  destruct (owner_of name _ _) as [[|svc]|] eqn:Eow; cbn;
    [by split; [|split; [rewrite Ep; eauto|right; congruence]]|
    |by split; [|split; [rewrite Ep; eauto|right; congruence]]].
  apply owner_of_Service in Eow as (_ & [rec Hrec] & Hidx). rewrite Hrec. cbn.
  destruct (res_ok (pick_node_for_service _ _) ≫= _) as [fresh|] eqn:Ef; cbn.
  - apply bind_Some in Ef as (id & Hpick & Hid). case_bool_decide as Hex; [done|].
    injection Hid as ->.
    destruct (pick_node_for_service _ _) as [id'|] eqn:Epk; [|done]. injection Hpick as ->.
    apply pick_alive in Epk; [|done].
    destruct (replicate_addr _ fresh) as [fa|] eqn:Efa; cbn.
    + destruct (pod_cidr _ standby) as [net|] eqn:Enet; cbn.
      * destruct (first_free_address _ _ _) as [a|] eqn:Ea; cbn; [|by exists standby, net].
        destruct (repin_address _ _ _ _ _ _ Hwf Er Enet Ea) as [Hrg Hu].
        split; cbn; try done; [by eauto| |by exists net]. split; [done|]. set_solver.
      * destruct (alive_pod_cidr s now standby Hwf) as (net & Hn & _);
          [apply node_alive_resolve; eauto|congruence].
    + intros old' standby' Ho Hs. rewrite Ep in Ho. rewrite Es in Hs. simplify_eq.
      right. exists fresh. set_solver.
  - intros old' standby' Ho Hs. rewrite Ep in Ho. rewrite Es in Hs. simplify_eq.
    left. by apply fresh_standby_None.
Qed.
End commands.

(** ** Evaluation *)

Lemma resolve_or_schedule_correct_witness :
  @resolve_or_schedule list_order ipnet_model cp_demo 0 "web-0" = Ok ("node-1", "10.1.0.1:7620") /\
  match @resolve_or_schedule list_order ipnet_model cp_demo 0 "solo" with
  | Ok (node, addr) =>
      resolve (cp_registry cp_demo) node 0 = Ok addr /\
      exists n, nd_id n = node /\
        unbeaten (@alive_nodes list_order ipnet_model (cp_registry cp_demo) 0) n
  | Err e => e = SorSchedule NoAvailableNodes /\
      forall node, ~ node_alive (cp_registry cp_demo) 0 node
  end.
Proof.
  split; [vm_compute; reflexivity|].
  apply (@resolve_or_schedule_correct list_order ipnet_model cp_demo 0 "solo" cp_demo_wf).
Defined.

Definition cp_plain : CP :=
  with_placements (mkPlacements {["api-1" := "node-1"]}) cp_demo.

Lemma cp_plain_wf : @cp_wf ipnet_model cp_plain.
Proof. split; apply cp_demo_wf. Qed.

Lemma apply_service_conflicts_witness :
  @apply_service list_order ipnet_model cp_plain "api" 2 template_web 80
    = Val (Err (NameConflict "api-1" Unmanaged), cp_plain) /\
  ((exists k, (k < 2)%N /\
     @owner_of list_order (replica_name "api" k) (cp_placements cp_plain) (cp_services cp_plain)
       = Some Unmanaged /\
     (forall j, (j < k)%N ->
        @owner_of list_order (replica_name "api" j) (cp_placements cp_plain) (cp_services cp_plain)
          <> Some Unmanaged) /\
     @apply_service list_order ipnet_model cp_plain "api" 2 template_web 80
       = Val (Err (NameConflict (replica_name "api" k) Unmanaged), cp_plain)) \/
   ((forall k, (k < 2)%N ->
      @owner_of list_order (replica_name "api" k) (cp_placements cp_plain) (cp_services cp_plain)
        <> Some Unmanaged) /\
    exists res v, @services_apply ipnet_model (cp_services cp_plain) "api" 2 template_web 80
        = Val (res, v) /\
      @apply_service list_order ipnet_model cp_plain "api" 2 template_web 80
        = Val (res, with_services v cp_plain))).
Proof.
  split; [vm_compute; reflexivity|].
  apply (@apply_service_conflicts list_order ipnet_model cp_plain "api" 2 template_web 80
           cp_plain_wf ltac:(vm_compute; discriminate)).
Defined.

Lemma deleted_service_name_blocked_witness :
  exists acts s1, @delete_service list_order cp_demo 0 "db" = (Ok acts, s1) /\
    let s2 := apply_actions s1 acts in
    placements_get (cp_placements s2) (replica_name "db" 0) = Some "node-9" /\
    exists k, (k <= 0)%N /\
      @apply_service list_order ipnet_model s2 "db" 1 template_db 5432
        = Val (Err (NameConflict (replica_name "db" k) Unmanaged), s2).
Proof.
  apply (@deleted_service_name_blocked list_order ipnet_model cp_demo 0 "db"
           (mkServiceRecord 1 template_db 167836161 5432) 0 "node-9" 1 template_db 5432);
    [reflexivity | reflexivity | | vm_compute; reflexivity | vm_compute; discriminate].
  intros (rec & Hr & _). vm_compute in Hr. discriminate.
Defined.

(** Three nodes: the primary is gone, the standby is promoted, the third node
    becomes the fresh standby. *)
Lemma prepare_force_repin_correct_witness :
  @prepare_force_repin list_order ipnet_model cp_demo 0 "web-0" = Err (NotStateful "web-0") /\
  match @prepare_force_repin list_order ipnet_model cp_demo 0 "db-0" with
  | Ok p => @repin_prep_ok ipnet_model cp_demo 0 "db-0" p /\ fr_fresh_standby_node_id p = "node-1"
  | Err _ => False
  end.
Proof.
  split; [vm_compute; reflexivity|].
  pose proof (@prepare_force_repin_correct list_order ipnet_model cp_demo 0 "db-0" cp_demo_wf) as H.
  destruct (@prepare_force_repin list_order ipnet_model cp_demo 0 "db-0") as [p|e] eqn:E.
  - split; [exact H|]. vm_compute in E. injection E as <-. reflexivity.
  - vm_compute in E. discriminate.
Defined.
