(* ===== verification/CpHttp.v ===== *)
(** * The control plane's HTTP handlers

    [keel-controlplane/src/http.rs]: each connection is handled by a thread of
    its own that sends commands to the worker and forwards requests to nodes.
    A handler is a value of type [prog]: a tree of [Send] (send a command and
    wait for its reply) and [Forward] (one HTTP exchange with a node) whose
    leaves are responses.  TLS, sockets and HTTP parsing are outside: a
    [Forward] may get any status, any body or an error. *)

From S2P Require Import Prelude RustStr Text HttpMsg Float64 Ipnet Spec Subnet Wire Tables Registry Scheduler.
From S2P Require Import Addresses Services CpWorker.

(** ** Messages of the error types *)

Definition unknown_node_to_string (e : UnknownNode) : string :=
  "unknown node '" +:+ un_id e +:+ "'".

Definition resolve_error_to_string (e : ResolveError) : string :=
  match e with
  | Unknown id => "unknown node '" +:+ id +:+ "'"
  | DeadNode id secs =>
      "node '" +:+ id +:+ "' is dead (last seen " +:+ u_to_string secs +:+ "s ago)"
  end.

Definition collision_to_string (e : PodCidrCollision) : string :=
  "node '" +:+ pc_node_id e +:+ "' derived pod_cidr " +:+ pc_derived e
  +:+ " which collides with already-registered node '" +:+ pc_conflicting_node_id e +:+ "'".

Definition schedule_error_to_string (e : ScheduleError) : string :=
  match e with NoAvailableNodes => "no alive nodes available to schedule onto" end.

Definition placement_error_to_string (e : PlacementError) : string :=
  match e with
  | PeNotPlaced n => "no known placement for jail '" +:+ n +:+ "'"
  | PeResolve e => resolve_error_to_string e
  end.

Definition owner_to_string (o : Owner) : string :=
  match o with
  | Unmanaged => "an unmanaged jail"
  | OwnerService name => "service '" +:+ name +:+ "'"
  end.

Definition apply_service_error_to_string (e : ApplyServiceError) : string :=
  match e with
  | NameConflict name owner => "name '" +:+ name +:+ "' is already in use by " +:+ owner_to_string owner
  | TemplateChanged n => "service '" +:+ n +:+ "' template is immutable once created; delete and re-apply instead"
  | PortChanged n => "service '" +:+ n +:+ "' port is immutable once created; delete and re-apply instead"
  | VipPoolExhausted n => "no free VIP available in the service CIDR for service '" +:+ n +:+ "'"
  end.

Definition unknown_service_to_string (e : UnknownService) : string :=
  "unknown service '" +:+ us_name e +:+ "'".

Definition force_repin_error_to_string (e : ForceRepinError) : string :=
  match e with
  | NotPlaced n => "no known placement for replica '" +:+ n +:+ "'"
  | NotStateful n => "'" +:+ n +:+ "' is not a stateful replica with a standby"
  | PrimaryStillAlive n => "current primary node '" +:+ n +:+ "' still resolves as alive"
  | StandbyUnresolvable e => "standby node is unreachable: " +:+ resolve_error_to_string e
  | NoFreshStandby => "no alive node available to serve as a fresh standby"
  | NoFreeAddress => "no free address available for the promoted primary"
  end.

(** ** Programs *)

(** What [commands.send(..)] followed by [reply_rx.recv()] gives. *)
Inductive sent (R : Type) : Type :=
  | SendErr
  | RecvErr
  | Reply (r : R).
Arguments SendErr {R}.
Arguments RecvErr {R}.
Arguments Reply {R} r.

Record request : Type := mkRequest {
  rq_addr : string;
  rq_method : string;
  rq_path : string;
  rq_body : string
}.
Definition response : Type := N * string.

Inductive prog (A : Type) : Type :=
  | Ret (a : A)
  | Send (R : Type) (c : Command R) (k : sent R -> prog A)
  | Forward (r : request) (k : result string response -> prog A).
Arguments Ret {A} a.
Arguments Send {A R} c k.
Arguments Forward {A} r k.

Fixpoint prog_bind {A B} (p : prog A) (f : A -> prog B) : prog B :=
  match p with
  | Ret a => f a
  | Send c k => Send c (fun x => prog_bind (k x) f)
  | Forward r k => Forward r (fun x => prog_bind (k x) f)
  end.
#[global] Instance prog_ret : MRet prog := @Ret.
#[global] Instance prog_mbind : MBind prog := fun A B f p => prog_bind p f.

(** [if commands.send(c).is_ok() { let _ = reply_rx.recv(); }]. *)
Definition send_ignoring (c : Command unit) : prog unit := Send c (fun _ => Ret tt).

Definition is_2xx (status : N) : bool := (200 <=? status)%N && (status <? 300)%N.

Section handlers.
Context {YE : SerdeYaml ErrorBody} {YRR : SerdeYaml RegisterResponse}
        {YNS : SerdeYaml (list NodeStatus)} {YSR : SerdeYaml (list ServiceReplica)}
        {YSS : SerdeYaml (list ServiceSummary)} {YPE : SerdeYaml (list ServiceProxyEntry)}
        {YNR : SerdeYaml NodeRegistration} {YHB : SerdeYaml Heartbeat}
        {YJ : SerdeYaml JailSpec} {YS : SerdeYaml ServiceSpec}.
Context {I : Ipnet}.
(** [format!("{:?}", s)] of a string, used in one error message only. *)
Variable str_debug : string -> string.

Definition error_response (status : N) (message : string) : response :=
  (status, to_yaml (mkErrorBody message)).
Definition yaml_response {T} `{SerdeYaml T} (status : N) (value : T) : response :=
  (status, to_yaml value).

Definition not_running : response := error_response 500 "control plane worker is not running".
Definition no_reply : response := error_response 500 "control plane worker did not respond".
Definition unreachable (node_id addr e : string) : response :=
  error_response 500 ("failed to reach node '" +:+ node_id +:+ "' at " +:+ addr +:+ ": " +:+ e).

Definition send_record_placement (name node_id : string) : prog unit :=
  send_ignoring (RecordPlacement name node_id).
Definition send_remove_placement (name : string) : prog unit :=
  send_ignoring (RemovePlacement name).
Definition send_record_replica_address (name node_id : string) (a : Ipv4Addr) : prog unit :=
  send_ignoring (RecordReplicaAddress name node_id a).
Definition send_release_replica_address (name : string) : prog unit :=
  send_ignoring (ReleaseReplicaAddress name).
Definition send_record_standby (name node_id : string) : prog unit :=
  send_ignoring (RecordStandby name node_id).
Definition send_record_pending_fence (name node_id : string) : prog unit :=
  send_ignoring (RecordPendingFence name node_id).
Definition send_remove_pending_fence (name : string) : prog unit :=
  send_ignoring (RemovePendingFence name).

Definition jail_path (name : string) : string := "/jails/" +:+ name.

Definition handle_forward (id method path body : string) : prog response :=
  Send (Resolve id) (fun reply =>
    match reply with
    | SendErr => Ret not_running
    | RecvErr => Ret no_reply
    | Reply (Err e) => Ret (error_response 404 (resolve_error_to_string e))
    | Reply (Ok addr) =>
        Forward (mkRequest addr method path body) (fun r =>
          match r with
          | Ok resp => Ret resp
          | Err e => Ret (unreachable id addr e)
          end)
    end).

Definition handle_scheduled_apply (name body : string) : prog response :=
  Send (ResolveOrSchedule name) (fun reply =>
    match reply with
    | SendErr => Ret not_running
    | RecvErr => Ret no_reply
    | Reply (Err (SorSchedule e)) => Ret (error_response 503 (schedule_error_to_string e))
    | Reply (Err (SorResolve e)) => Ret (error_response 404 (resolve_error_to_string e))
    | Reply (Ok (node_id, addr)) =>
        Forward (mkRequest addr "PUT" (jail_path name) body) (fun r =>
          match r with
          | Ok (status, response_body) =>
              _ ← if is_2xx status then send_record_placement name node_id else Ret tt;
              Ret (status, response_body)
          | Err e => Ret (unreachable node_id addr e)
          end)
    end).

(** [resolve_placement] with its continuation. *)
Definition resolve_placement (name : string) : prog (result response (string * string)) :=
  Send (ResolvePlacement name) (fun reply =>
    match reply with
    | SendErr => Ret (Err not_running)
    | RecvErr => Ret (Err no_reply)
    | Reply (Err e) => Ret (Err (error_response 404 (placement_error_to_string e)))
    | Reply (Ok found) => Ret (Ok found)
    end).

Definition handle_scheduled_read (name : string) : prog response :=
  placed ← resolve_placement name;
  match placed with
  | Err response => Ret response
  | Ok (node_id, addr) =>
      Forward (mkRequest addr "GET" (jail_path name) EmptyString) (fun r =>
        match r with
        | Ok resp => Ret resp
        | Err e => Ret (unreachable node_id addr e)
        end)
  end.

Definition handle_scheduled_delete (name : string) : prog response :=
  placed ← resolve_placement name;
  match placed with
  | Err response => Ret response
  | Ok (node_id, addr) =>
      Forward (mkRequest addr "DELETE" (jail_path name) EmptyString) (fun r =>
        match r with
        | Ok (status, response_body) =>
            _ ← if is_2xx status then send_remove_placement name else Ret tt;
            Ret (status, response_body)
        | Err e => Ret (unreachable node_id addr e)
        end)
  end.

Definition cidr_text (a : Ipv4Addr) (prefix : N) : string :=
  ipv4_to_string a +:+ "/" +:+ u_to_string prefix.

(** [template.to_jail_spec(..)] with [replicate_to] set. *)
Definition replica_spec (t : JailTemplate) (name cidr : string) (replicate_to : option string)
    : JailSpec :=
  let spec := to_jail_spec t name cidr in
  let sp := js_spec spec in
  mkJailSpec (js_api_version spec) (js_kind spec) (js_metadata spec)
    (mkSpec (sp_image sp) (sp_command sp) (sp_network sp) (sp_resources sp)
       (sp_restart_policy sp) (sp_volumes sp) replicate_to).

Definition handle_force_repin (name : string) : prog response :=
  Send (PrepareForceRepin name) (fun reply =>
    match reply with
    | SendErr => Ret not_running
    | RecvErr => Ret no_reply
    | Reply (Err e) =>
        let status := match e with
                      | NotPlaced _ => 404%N
                      | NotStateful _ => 400%N
                      | PrimaryStillAlive _ => 409%N
                      | _ => 503%N
                      end in
        Ret (error_response status (force_repin_error_to_string e))
    | Reply (Ok prep) =>
        let standby_unreachable e :=
          error_response 500 ("failed to reach standby node '" +:+ fr_standby_node_id prep +:+ "' at "
                              +:+ fr_standby_addr prep +:+ ": " +:+ e) in
        Forward (mkRequest (fr_standby_addr prep) "GET" ("/replica-targets/" +:+ name) EmptyString)
          (fun ready =>
          match ready with
          | Err e => Ret (standby_unreachable e)
          | Ok (status, body) =>
              if is_2xx status then
                let cidr := cidr_text (fr_address prep) (fr_prefix_len prep) in
                let spec := replica_spec (fr_template prep) name cidr
                              (Some (fr_fresh_standby_addr prep)) in
                Forward (mkRequest (fr_standby_addr prep) "PUT" (jail_path name) (to_yaml spec))
                  (fun r =>
                  match r with
                  | Ok (status, resp_body) =>
                      if is_2xx status then
                        _ ← send_record_placement name (fr_standby_node_id prep);
                        _ ← send_record_replica_address name (fr_standby_node_id prep) (fr_address prep);
                        _ ← send_record_standby name (fr_fresh_standby_node_id prep);
                        _ ← send_record_pending_fence name (fr_old_node_id prep);
                        Ret (200%N, resp_body)
                      else Ret (error_response status (from_utf8_lossy resp_body))
                  | Err e => Ret (unreachable (fr_standby_node_id prep) (fr_standby_addr prep) e)
                  end)
              else if (status =? 404)%N || (status =? 409)%N then
                Ret (error_response 409
                       ("standby node '" +:+ fr_standby_node_id prep
                        +:+ "' has not completed a first full replication for '" +:+ name +:+ "'"))
              else
                Ret (error_response 500
                       ("unexpected response checking standby readiness: status "
                        +:+ u_to_string status +:+ ", body " +:+ str_debug (from_utf8_lossy body)))
          end)
    end).

Definition reject_if_service_owned (name : string) : prog (option response) :=
  Send (OwnerOf name) (fun reply =>
    match reply with
    | SendErr => Ret (Some not_running)
    | RecvErr => Ret (Some no_reply)
    | Reply (Some (OwnerService owner)) =>
        Ret (Some (error_response 400 ("name '" +:+ name +:+ "' is already in use by service '"
                                       +:+ owner +:+ "'")))
    | Reply _ => Ret None
    end).

(** One iteration of [execute_replica_actions]; failures are only logged. *)
Definition execute_replica_action (action : ReplicaAction) : prog unit :=
  match action with
  | Schedule name node_id node_addr template address prefix standby_node_id standby_addr =>
      let spec := replica_spec template name (cidr_text address prefix) standby_addr in
      Forward (mkRequest node_addr "PUT" (jail_path name) (to_yaml spec)) (fun r =>
        match r with
        | Ok (status, _) =>
            if is_2xx status then
              _ ← send_record_placement name node_id;
              _ ← send_record_replica_address name node_id address;
              match standby_node_id with
              | Some standby_id => send_record_standby name standby_id
              | None => Ret tt
              end
            else Ret tt
        | Err _ => Ret tt
        end)
  | TearDown name node_id node_addr =>
      Forward (mkRequest node_addr "DELETE" (jail_path name) EmptyString) (fun r =>
        match r with
        | Ok (status, _) =>
            if is_2xx status then
              _ ← send_remove_placement name;
              send_release_replica_address name
            else Ret tt
        | Err _ => Ret tt
        end)
  end.

Fixpoint execute_replica_actions (actions : list ReplicaAction) : prog unit :=
  match actions with
  | [] => Ret tt
  | action :: rest =>
      _ ← execute_replica_action action;
      execute_replica_actions rest
  end.

Definition reconcile_and_execute : prog unit :=
  Send ReconcileServices (fun reply =>
    match reply with
    | Reply actions => execute_replica_actions actions
    | _ => Ret tt
    end).

(** [handle_apply_service] once the body is validated and its name checked. *)
Definition apply_validated (name : string) (b : ServiceSpecBody) : prog response :=
  Send (ApplyService name (sb_replicas b) (sb_template b) (sb_port b)) (fun reply =>
    match reply with
    | SendErr => Ret not_running
    | RecvErr => Ret no_reply
    | Reply (Ok tt) => _ ← reconcile_and_execute; Ret (200%N, EmptyString)
    | Reply (Err e) =>
        let status := match e with
                      | TemplateChanged _ | PortChanged _ => 409%N
                      | NameConflict _ _ => 400%N
                      | VipPoolExhausted _ => 503%N
                      end in
        Ret (error_response status (apply_service_error_to_string e))
    end).

Definition handle_apply_service (name body : string) : prog response :=
  match parse_and_validate_service (from_utf8_lossy body) with
  | Err e => Ret (error_response 400 ("invalid spec: " +:+ spec_error_to_string e))
  | Ok spec =>
      if negb (String.eqb (meta_name (ss_metadata spec)) name) then
        Ret (error_response 400 ("path name '" +:+ name +:+ "' does not match spec.metadata.name '"
                                 +:+ meta_name (ss_metadata spec) +:+ "'"))
      else apply_validated name (ss_spec spec)
  end.

Definition handle_get_service (name : string) : prog response :=
  Send (DiscoverService name) (fun reply =>
    match reply with
    | SendErr => Ret not_running
    | RecvErr => Ret no_reply
    | Reply (Ok replicas) => Ret (yaml_response 200 replicas)
    | Reply (Err e) => Ret (error_response 404 (unknown_service_to_string e))
    end).

Definition handle_list_services : prog response :=
  Send ListServices (fun reply =>
    match reply with
    | SendErr => Ret not_running
    | RecvErr => Ret no_reply
    | Reply summaries => Ret (yaml_response 200 summaries)
    end).

Definition handle_delete_service (name : string) : prog response :=
  Send (DeleteService name) (fun reply =>
    match reply with
    | SendErr => Ret not_running
    | RecvErr => Ret no_reply
    | Reply (Ok actions) => _ ← execute_replica_actions actions; Ret (200%N, EmptyString)
    | Reply (Err e) => Ret (error_response 404 (unknown_service_to_string e))
    end).

(** The loop of [check_and_execute_fencing] over the replicas owed a delete. *)
Fixpoint fence_replicas (addr : string) (replica_names : list string) : prog unit :=
  match replica_names with
  | [] => Ret tt
  | name :: rest =>
      Forward (mkRequest addr "DELETE" (jail_path name) EmptyString) (fun r =>
        _ ← match r with
            | Ok (status, _) =>
                if is_2xx status || (status =? 404)%N then send_remove_pending_fence name
                else Ret tt
            | Err _ => Ret tt
            end;
        fence_replicas addr rest)
  end.

Definition check_and_execute_fencing (node_id : string) : prog unit :=
  Send (PendingFencesForNode node_id) (fun reply =>
    match reply with
    | Reply [] => Ret tt
    | Reply replica_names =>
        Send (Resolve node_id) (fun reply =>
          match reply with
          | Reply (Ok addr) => fence_replicas addr replica_names
          | _ => Ret tt
          end)
    | _ => Ret tt
    end).

Definition handle_register (body : string) : prog response :=
  match (from_yaml body : result string NodeRegistration) with
  | Err e => Ret (error_response 400 ("invalid YAML: " +:+ e))
  | Ok reg =>
      Send (Register (reg_id reg) (reg_addr reg) (reg_replicate_addr reg) (reg_capacity_cpu reg)
              (reg_capacity_memory reg)) (fun reply =>
        match reply with
        | SendErr => Ret not_running
        | RecvErr => Ret no_reply
        | Reply (Ok pod_cidr) => Ret (yaml_response 200 (mkRegisterResponse (net_to_string pod_cidr)))
        | Reply (Err e) => Ret (error_response 409 (collision_to_string e))
        end)
  end.

Definition handle_heartbeat (id body : string) : prog response :=
  match (from_yaml body : result string Heartbeat) with
  | Err e => Ret (error_response 400 ("invalid YAML: " +:+ e))
  | Ok hb =>
      Send (CHeartbeat id (hb_committed_cpu hb) (hb_committed_memory hb) (hb_jails hb)) (fun reply =>
        match reply with
        | SendErr => Ret not_running
        | RecvErr => Ret no_reply
        | Reply (Err e) => Ret (error_response 404 (unknown_node_to_string e))
        | Reply (Ok tt) =>
            _ ← reconcile_and_execute;
            _ ← check_and_execute_fencing id;
            Send ListServiceProxyEntries (fun reply =>
              match reply with
              | SendErr => Ret not_running
              | RecvErr => Ret no_reply
              | Reply entries => Ret (yaml_response 200 entries)
              end)
        end)
  end.

Definition handle_list : prog response :=
  Send CList (fun reply =>
    match reply with
    | SendErr => Ret not_running
    | RecvErr => Ret no_reply
    | Reply statuses => Ret (yaml_response 200 statuses)
    end).

(** ** Routing *)

Definition segments (path : string) : list string :=
  filter (fun seg => seg <> EmptyString) (split "/"%char (trim_start_matches "/"%char path)).

Lemma segments_join s l :
  Forall (plain_segment "/"%char) (s :: l) -> segments (String "/"%char (join "/" (s :: l))) = s :: l.
Proof.
  intros Hl. unfold segments.
  change (trim_start_matches "/"%char (String "/"%char ?x)) with (trim_start_matches "/"%char x).
  pose proof (Forall_inv Hl) as [Hs1 Hs2].
  rewrite trim_start_matches_other, split_join; [|done| |].
  - clear Hs1 Hs2. induction Hl as [|t k [Ht _] _ IH]; [done|].
    by rewrite filter_cons_True, IH.
  - eapply Forall_impl; [exact Hl|]. by intros t [].
  - rewrite join_first by done. destruct s as [|c s]; [done|]. cbn in *.
    intros [= ->]. done.
Qed.

(** The [PUT] and [DELETE] arms for a jail on a named node. *)
Definition put_node_jail (id name body : string) : prog response :=
  rejected ← reject_if_service_owned name;
  match rejected with
  | Some response => Ret response
  | None =>
      '(status, body) ← handle_forward id "PUT" (jail_path name) body;
      _ ← if is_2xx status then send_record_placement name id else Ret tt;
      Ret (status, body)
  end.

Definition delete_node_jail (id name : string) : prog response :=
  '(status, body) ← handle_forward id "DELETE" (jail_path name) EmptyString;
  _ ← if is_2xx status then send_remove_placement name else Ret tt;
  Ret (status, body).

Definition put_jail (name body : string) : prog response :=
  rejected ← reject_if_service_owned name;
  match rejected with
  | Some response => Ret response
  | None => handle_scheduled_apply name body
  end.

(** The arms of [route], grouped by the number of path segments; the tests of a
    group are tried in the order of the source. *)
Definition route (request : ParsedRequest) : prog response :=
  let m := String.eqb (pr_method request) in
  let not_found := Ret (error_response 404 ("no route for " +:+ pr_method request +:+ " "
                                            +:+ pr_path request)) in
  match segments (pr_path request) with
  | [a] =>
      if m "GET" && String.eqb a "nodes" then handle_list
      else if m "GET" && String.eqb a "services" then handle_list_services
      else not_found
  | [a; b] =>
      if m "POST" && String.eqb a "nodes" && String.eqb b "register"
      then handle_register (pr_body request)
      else if m "PUT" && String.eqb a "jails" then put_jail b (pr_body request)
      else if m "GET" && String.eqb a "jails" then handle_scheduled_read b
      else if m "DELETE" && String.eqb a "jails" then handle_scheduled_delete b
      else if m "PUT" && String.eqb a "services" then handle_apply_service b (pr_body request)
      else if m "GET" && String.eqb a "services" then handle_get_service b
      else if m "DELETE" && String.eqb a "services" then handle_delete_service b
      else not_found
  | [a; b; c] =>
      if m "POST" && String.eqb a "nodes" && String.eqb c "heartbeat"
      then handle_heartbeat b (pr_body request)
      else if m "GET" && String.eqb a "nodes" && String.eqb c "jails"
      then handle_forward b "GET" "/jails" EmptyString
      else if m "POST" && String.eqb a "replicas" && String.eqb c "force-repin"
      then handle_force_repin b
      else not_found
  | [a; b; c; d] =>
      if m "PUT" && String.eqb a "nodes" && String.eqb c "jails"
      then put_node_jail b d (pr_body request)
      else if m "GET" && String.eqb a "nodes" && String.eqb c "jails"
      then handle_forward b "GET" (jail_path d) EmptyString
      else if m "DELETE" && String.eqb a "nodes" && String.eqb c "jails"
      then delete_node_jail b d
      else if m "GET" && String.eqb a "nodes" && String.eqb c "volumes"
      then handle_forward b "GET" ("/volumes/" +:+ d) EmptyString
      else if m "DELETE" && String.eqb a "nodes" && String.eqb c "volumes"
      then handle_forward b "DELETE" ("/volumes/" +:+ d) EmptyString
      else not_found
  | _ => not_found
  end.
End handlers.
