(* ===== verification/CpSystem.v ===== *)
(** * The control plane's handlers, one at a time

    [wp] is a handler of [CpHttp] running alone against arbitrary node responses
    and clock readings, [run] an executable run against given ones.  The
    theorems say what each state-changing handler does to the tables and which
    requests it sends.  [CpConcurrency] interleaves handlers. *)

From S2P Require Import Prelude RustStr Float64 Ipnet Spec Subnet Wire Codecs Tables Registry.
From S2P Require Import Scheduler Addresses Services CpWorker CpReconcile CpCommands CpHttp.

(** A request sent to a node with what came back. *)
Definition event : Type := request * result string response.

Section semantics.
Context {HO : HashOrder} {I : Ipnet}.

(** [wp p Q s log]: run alone from the tables [s], the handler finishes without
    a panic of the worker, whatever the clock shows and the nodes answer, and
    its result, the final tables and the requests sent satisfy [Q]. *)
Fixpoint wp {A} (p : prog A) (Q : A -> CP -> list event -> Prop) (s : CP) (log : list event)
    : Prop :=
  match p with
  | Ret a => Q a s log
  | Send c k => forall now,
      match handle_command now c s with
      | Val (r, s') => wp (k (Reply r)) Q s' log
      | Panic => False
      end
  | Forward r k => forall resp, wp (k resp) Q s (log ++ [(r, resp)])
  end.

Lemma wp_bind {A B} (p : prog A) (f : A -> prog B) Q s log :
  wp (p ≫= f) Q s log <-> wp p (fun a s' log' => wp (f a) Q s' log') s log.
Proof.
  revert s log. change (p ≫= f) with (prog_bind p f).
  induction p as [a|R c k IH|r k IH]; intros s log; cbn; [done| |].
  - split; intros H now; specialize (H now);
      destruct (handle_command now c s) as [[r s']|]; try done; by apply IH.
  - split; intros H resp; by apply IH.
Qed.

Lemma wp_mono {A} (p : prog A) (Q Q' : A -> CP -> list event -> Prop) s log :
  (forall a s' log', Q a s' log' -> Q' a s' log') -> wp p Q s log -> wp p Q' s log.
Proof.
  intros HQ. revert s log. induction p as [a|R c k IH|r k IH]; intros s log; cbn; [apply HQ| |].
  - intros H now. specialize (H now). destruct (handle_command now c s) as [[r s']|]; [|done].
    by apply IH.
  - intros H resp. by apply IH.
Qed.

(** An executable run against given answers: clock readings and node responses
    are taken from lists. *)
Fixpoint run {A} (p : prog A) (times : list Instant) (resps : list (result string response))
    (s : CP) (log : list event) : option (A * CP * list event) :=
  match p with
  | Ret a => Some (a, s, log)
  | Send c k =>
      match times with
      | [] => None
      | now :: times =>
          match handle_command now c s with
          | Val (r, s') => run (k (Reply r)) times resps s' log
          | Panic => None
          end
      end
  | Forward r k =>
      match resps with
      | [] => None
      | resp :: resps => run (k resp) times resps s (log ++ [(r, resp)])
      end
  end.

Lemma wp_run {A} (p : prog A) Q times resps s log a s' log' :
  wp p Q s log -> run p times resps s log = Some (a, s', log') -> Q a s' log'.
Proof.
  revert times resps s log. induction p as [b|R c k IH|r k IH]; intros times resps s log; cbn.
  - intros H [= <- <- <-]. done.
  - intros H. destruct times as [|now times]; [done|]. specialize (H now).
    destruct (handle_command now c s) as [[r s1]|]; [|done]. apply IH, H.
  - intros H. destruct resps as [|resp resps]; [done|]. apply IH, H.
Qed.
End semantics.

(** ** Carrying out replica actions *)

Section execution.
Context {HO : HashOrder} {I : Ipnet}.
Context {YE : SerdeYaml ErrorBody} {YRR : SerdeYaml RegisterResponse}
        {YNS : SerdeYaml (list NodeStatus)} {YSR : SerdeYaml (list ServiceReplica)}
        {YSS : SerdeYaml (list ServiceSummary)} {YPE : SerdeYaml (list ServiceProxyEntry)}
        {YNR : SerdeYaml NodeRegistration} {YHB : SerdeYaml Heartbeat}
        {YJ : SerdeYaml JailSpec} {YS : SerdeYaml ServiceSpec}.

Definition accepted (ev : event) : bool :=
  match ev.2 with Ok (status, _) => is_2xx status | Err _ => false end.

(** The one request an action makes. *)
Definition action_request (act : ReplicaAction) : request :=
  match act with
  | Schedule name _ node_addr t a plen _ saddr =>
      mkRequest node_addr "PUT" (jail_path name)
        (to_yaml (replica_spec t name (cidr_text a plen) saddr))
  | TearDown name _ node_addr => mkRequest node_addr "DELETE" (jail_path name) EmptyString
  end.

(** The actions whose request was accepted, given the events of the run. *)
Definition accepted_actions (acts : list ReplicaAction) (evs : list event) : list ReplicaAction :=
  (filter (fun p => accepted p.2 = true) (zip acts evs)).*1.

Lemma execute_replica_action_spec act s log :
  wp (execute_replica_action act) (fun _ s' log' =>
    exists ev, log' = log ++ [ev] /\ ev.1 = action_request act /\
      s' = if accepted ev then apply_action s act else s) s log.
Proof.
  destruct act as [name node naddr t a plen sid saddr|name node naddr]; intros [[status body]|e];
    cbn; try (by eexists; split; [done|]; split).
  - destruct (is_2xx status) eqn:E; [|by eexists; split; [done|]; split; cbn; [|rewrite E]].
    cbn. intros _ _. destruct sid as [id|]; cbn; [intros _|];
      (eexists; split; [done|]; split; [done|]; cbn; by rewrite E).
  - destruct (is_2xx status) eqn:E; [|by eexists; split; [done|]; split; cbn; [|rewrite E]].
    cbn. intros _ _. eexists. split; [done|]. split; [done|]. cbn. by rewrite E.
Qed.

Lemma execute_replica_actions_spec acts s log :
  wp (execute_replica_actions acts) (fun _ s' log' =>
    exists evs, log' = log ++ evs /\ evs.*1 = action_request <$> acts /\
      s' = apply_actions s (accepted_actions acts evs)) s log.
Proof.
  revert s log. induction acts as [|act acts IH]; intros s log; cbn [execute_replica_actions].
  - exists []. by rewrite app_nil_r.
  - apply wp_bind. eapply wp_mono; [|apply execute_replica_action_spec].
    intros _ s1 log1 (ev & -> & Hev & ->). eapply wp_mono; [|apply IH].
    intros _ s2 log2 (evs & -> & Hevs & ->). exists (ev :: evs).
    rewrite <-app_assoc. split; [done|]. split; [cbn; by rewrite Hev, Hevs|].
    unfold accepted_actions. cbn [zip zip_with]. rewrite filter_cons. cbn.
    by destruct (accepted ev).
Qed.

(** C18: carrying out a list of replica actions makes exactly one request per
    action, in order (a PUT of the replica's specification or a DELETE, to the
    node's address), and changes the tables exactly by the actions whose
    request the node accepted: placement and address of a scheduled replica
    (and its standby when it has one), removal of both for a torn down one.  A
    refused or unreachable node changes nothing. *)
Theorem execute_replica_actions_refines acts s :
  wp (execute_replica_actions acts) (fun _ s' evs =>
    evs.*1 = action_request <$> acts /\
    s' = apply_actions s (accepted_actions acts evs)) s [].
Proof.
  eapply wp_mono; [|apply execute_replica_actions_spec].
  intros _ s' log (evs & -> & Hevs & ->). done.
Qed.

(** ** Plain jails *)

(** [PUT /jails/name] records a placement exactly when the chosen node
    accepts the jail.  A name owned by a service, an unschedulable name or a
    dead node is refused without contacting any node; otherwise one PUT with
    the unchanged body goes to the scheduled node, its answer is passed on, and
    the placement is recorded if and only if that answer is a 2xx. *)
Theorem put_jail_correct name body s :
  wp (put_jail name body) (fun resp s' evs =>
    match evs with
    | [] => s' = s /\ is_2xx resp.1 = false
    | [(rq, r)] =>
        (forall svc, owner_of name (cp_placements s) (cp_services s) <> Some (OwnerService svc)) /\
        exists now node addr, resolve_or_schedule s now name = Ok (node, addr) /\
          rq = mkRequest addr "PUT" (jail_path name) body /\
          match r with
          | Ok (status, answer) => resp = (status, answer) /\
              s' = if is_2xx status
                   then with_placements (placements_set (cp_placements s) name node) s else s
          | Err _ => is_2xx resp.1 = false /\ s' = s
          end
    | _ => False
    end) s [].
Proof.
  intros now1. cbn. destruct (owner_of name _ _) as [[|svc]|] eqn:Eo; cbn; [|done|];
    (intros now; cbn; destruct (resolve_or_schedule s now name) as [[node addr]|[e|e]] eqn:Er;
       cbn; [|done|done];
     intros [[status answer]|e]; cbn; [destruct (is_2xx status) eqn:E; cbn; [intros _|]|];
     (split; [congruence|]; exists now, node, addr; split; [done|]; split; [done|]; by rewrite ?E)).
Qed.

(** [DELETE /jails/name] removes a placement exactly when the jail's node,
    reached where it is registered, accepts the deletion; nothing else changes,
    so the address of a service replica deleted this way stays recorded. *)
Theorem scheduled_delete_correct name s :
  wp (handle_scheduled_delete name) (fun resp s' evs =>
    match evs with
    | [] => s' = s /\ is_2xx resp.1 = false
    | [(rq, r)] =>
        exists now node addr, resolve_placement_of s now name = Ok (node, addr) /\
          rq = mkRequest addr "DELETE" (jail_path name) EmptyString /\
          match r with
          | Ok (status, answer) => resp = (status, answer) /\
              s' = if is_2xx status
                   then with_placements (placements_remove (cp_placements s) name) s else s
          | Err _ => is_2xx resp.1 = false /\ s' = s
          end /\
          address_of (cp_used_addresses s') name = address_of (cp_used_addresses s) name
    | _ => False
    end) s [].
Proof.
  intros now. cbn. destruct (resolve_placement_of s now name) as [[node addr]|e] eqn:Er; cbn; [|done].
  intros [[status answer]|e]; cbn; [destruct (is_2xx status) eqn:E; cbn; [intros _|]|];
    (exists now, node, addr; split; [done|]; split; [done|]; by rewrite ?E).
Qed.

(** ** Fencing *)

Definition fence_done (ev : event) : bool :=
  match ev.2 with Ok (status, _) => is_2xx status || (status =? 404)%N | Err _ => false end.

Definition fence_request (addr name : string) : request :=
  mkRequest addr "DELETE" (jail_path name) EmptyString.

(** The replicas whose deletion was confirmed. *)
Definition fenced_names (names : list string) (evs : list event) : list string :=
  (filter (fun p => fence_done p.2 = true) (zip names evs)).*1.

Definition clear_fences (f : PendingFences) (names : list string) : PendingFences :=
  foldl pending_fences_remove f names.

Lemma clear_fences_lookup f names name :
  pf_by_replica (clear_fences f names) !! name =
    if decide (name ∈ names) then None else pf_by_replica f !! name.
Proof.
  unfold clear_fences. revert f. induction names as [|n names IH]; intros f; cbn [foldl]; [done|].
  rewrite IH. cbn. destruct (decide (name ∈ names)) as [Hin|Hni].
  - by rewrite decide_True by set_solver.
  - destruct (decide (name = n)) as [->|Hne].
    + rewrite decide_True by set_solver. apply lookup_delete_eq.
    + rewrite decide_False by set_solver. by apply lookup_delete_ne.
Qed.

Lemma fence_replicas_spec addr names s log :
  wp (fence_replicas addr names) (fun _ s' log' =>
    exists evs, log' = log ++ evs /\ evs.*1 = fence_request addr <$> names /\
      s' = with_fences (clear_fences (cp_pending_fences s) (fenced_names names evs)) s) s log.
Proof.
  revert s log. induction names as [|name names IH]; intros s log; cbn [fence_replicas].
  - exists []. rewrite app_nil_r. split; [done|]. split; [done|]. by destruct s.
  - intros r. apply wp_bind.
    assert (wp (match r with
      | Ok (status, _) => if is_2xx status || (status =? 404)%N
                          then send_remove_pending_fence name else Ret tt
      | Err _ => Ret tt
      end) (fun _ s' log' => log' = log ++ [(fence_request addr name, r)] /\
        s' = if fence_done (fence_request addr name, r)
             then with_fences (pending_fences_remove (cp_pending_fences s) name) s else s)
      s (log ++ [(fence_request addr name, r)])) as H1.
    { destruct r as [[status b]|e]; [|done]. unfold fence_done. cbn [snd].
      by destruct (is_2xx status || (status =? 404)%N). }
    eapply wp_mono; [|exact H1]. intros _ s1 log1 [-> ->]. eapply wp_mono; [|apply IH].
    intros _ s2 log2 (evs & -> & Hevs & ->). exists ((fence_request addr name, r) :: evs).
    rewrite <-app_assoc. split; [done|]. split; [cbn; by rewrite Hevs|].
    unfold fenced_names. cbn [zip zip_with]. rewrite filter_cons. cbn [snd].
    by destruct (fence_done _).
Qed.


(** ** Forced re-pin *)

(** The tables after a completed re-pin. *)
Definition repinned (s : CP) (name : string) (p : ForceRepinPrep) : CP :=
  mkCP (cp_registry s)
    (placements_set (cp_placements s) name (fr_standby_node_id p))
    (cp_services s)
    (used_record (cp_used_addresses s) name (fr_standby_node_id p) (fr_address p))
    (standbys_set (cp_standbys s) name (fr_fresh_standby_node_id p))
    (pending_fences_set (cp_pending_fences s) name (fr_old_node_id p)).

Variable str_debug : string -> string.

Lemma handle_force_repin_cases name s :
  wp (handle_force_repin str_debug name) (fun resp s' evs =>
    exists now, match prepare_force_repin s now name with
    | Err _ => evs = [] /\ s' = s /\ is_2xx resp.1 = false
    | Ok p =>
        let probe := mkRequest (fr_standby_addr p) "GET" ("/replica-targets/" +:+ name) EmptyString in
        let put := mkRequest (fr_standby_addr p) "PUT" (jail_path name)
                     (to_yaml (replica_spec (fr_template p) name
                        (cidr_text (fr_address p) (fr_prefix_len p)) (Some (fr_fresh_standby_addr p)))) in
        exists ready, if accepted (probe, ready)
          then exists answer, evs = [(probe, ready); (put, answer)] /\
            if accepted (put, answer)
            then (exists status text, answer = Ok (status, text) /\ resp = (200%N, text)) /\ s' = repinned s name p
            else s' = s /\ is_2xx resp.1 = false
          else evs = [(probe, ready)] /\ s' = s /\ is_2xx resp.1 = false
    end) s [].
Proof.
  intros now. cbn. destruct (prepare_force_repin s now name) as [p|e] eqn:Ep; cbn;
    [|by exists now; rewrite Ep; destruct e].
  intros ready. destruct (accepted (mkRequest (fr_standby_addr p) "GET" ("/replica-targets/" +:+ name) EmptyString,
    ready)) eqn:Eacc; unfold accepted in Eacc; cbn in Eacc.
  - destruct ready as [[st b]|e]; [|done]. rewrite Eacc. cbn. intros answer.
    destruct answer as [[status answer]|e]; cbn.
    + destruct (is_2xx status) eqn:E; cbn.
      * intros _ _ _ _. exists now. rewrite Ep. exists (Ok (st, b)). unfold accepted. cbn. rewrite Eacc.
        exists (Ok (status, answer)). rewrite E. split; [done|]. split; [by eexists _, _|done].
      * exists now. rewrite Ep. exists (Ok (st, b)). unfold accepted. cbn. rewrite Eacc.
        exists (Ok (status, answer)). by rewrite E.
    + exists now. rewrite Ep. exists (Ok (st, b)). unfold accepted. cbn. rewrite Eacc. by exists (Err e).
  - destruct ready as [[st b]|e]; cbn.
    + rewrite Eacc. destruct (_ || _); exists now; rewrite Ep; exists (Ok (st, b)); unfold accepted; cbn; by rewrite Eacc.
    + exists now. rewrite Ep. by exists (Err e).
Qed.

(** What is being re-pinned is the placement on record. *)
Lemma prepare_force_repin_old s now name p :
  prepare_force_repin s now name = Ok p ->
  placements_get (cp_placements s) name = Some (fr_old_node_id p).
Proof.
  unfold prepare_force_repin. intros H.
  apply bind_Ok in H as (old & Hold & H).
  repeat match type of H with
         | (_ ≫= _) = Ok _ => apply bind_Ok in H as (? & _ & H)
         | (if ?b then _ else _) = Ok _ => destruct b; [discriminate H|]
         end.
  injection H as <-. by destruct (placements_get _ name); simplify_eq/=.
Qed.


(** A replica can owe a deletion to one node only.  If a fence is still
    pending on one node when a forced re-pin moves the replica away from another
    node, the first node's fence is lost with that re-pin: no later heartbeat of
    the first node forces the stale jail away. *)
Theorem force_repin_forgets_fence name s first :
  pf_by_replica (cp_pending_fences s) !! name = Some first ->
  placements_get (cp_placements s) name <> Some first ->
  name ∈ pending_fences_for_node (cp_pending_fences s) first /\
  wp (handle_force_repin str_debug name) (fun resp s' _ => is_2xx resp.1 = true ->
    name ∉ pending_fences_for_node (cp_pending_fences s') first) s [].
Proof.
  intros Hf Hne. split; [by rewrite elem_of_pending_fences_for_node|].
  eapply wp_mono, handle_force_repin_cases. cbv beta.
  intros resp s' evs [now H] Hok. destruct (prepare_force_repin s now name) as [p|e] eqn:Hp;
    [|destruct H as (_ & _ & H); congruence].
  destruct H as [ready H]. destruct (accepted _); [|destruct H as (_ & _ & H); congruence].
  destruct H as (answer & _ & H). destruct (accepted _); [destruct H as [_ ->]|destruct H; congruence].
  apply prepare_force_repin_old in Hp. rewrite elem_of_pending_fences_for_node. cbn.
  rewrite lookup_insert_eq. congruence.
Qed.
End execution.

(** ** Evaluation *)

(** "db-0" ran on node-3, was re-pinned to node-9 while node-3 was down, and
    node-9 is down too now. *)
Definition cp_fenced : CP :=
  mkCP (cp_registry cp_demo) (cp_placements cp_demo) (cp_services cp_demo)
    (cp_used_addresses cp_demo) (cp_standbys cp_demo) (mkPendingFences {["db-0" := "node-3"]}).

Definition repin_run : option (response * CP * list event) :=
  @run list_order ipnet_model _
    (@handle_force_repin yaml_error yaml_jail (fun s => s) "db-0") [0; 0; 0; 0; 0]%N
    [Ok (200%N, EmptyString); Ok (200%N, "ok")] cp_fenced [].

Lemma force_repin_forgets_fence_witness :
  exists resp s' log, repin_run = Some (resp, s', log) /\ is_2xx resp.1 = true /\
    "db-0" ∈ @pending_fences_for_node list_order (cp_pending_fences cp_fenced) "node-3" /\
    "db-0" ∉ @pending_fences_for_node list_order (cp_pending_fences s') "node-3".
Proof.
  destruct (@force_repin_forgets_fence list_order ipnet_model yaml_error yaml_jail
              (fun s => s) "db-0" cp_fenced "node-3") as [Hin Hwp];
    [reflexivity | vm_compute; discriminate|].
  destruct repin_run as [[[resp s'] log]|] eqn:E.
  - exists resp, s', log.
    assert (is_2xx resp.1 = true) as Hok.
    { transitivity (match repin_run with Some (r, _, _) => is_2xx r.1 | None => false end);
        [by rewrite E | vm_compute; reflexivity]. }
    split; [done|]. split; [done|]. split; [done|].
    exact (wp_run _ _ _ _ _ _ _ _ _ Hwp E Hok).
  - assert (is_some repin_run = true) as H by (vm_compute; reflexivity).
    rewrite E in H. discriminate H.
Defined.
