(* ===== verification/CpConcurrency.v ===== *)
(** * Interleaved connections

    The control plane as a transition system: connection threads are accepted
    at any time and interleave command by command and request by request; the
    worker handles one command at a time and dies if it panics.  Safety and
    progress of the whole, and the consequences of computing a reconciliation
    and carrying it out in separate steps. *)

From stdpp Require Import relations.
From S2P Require Import Prelude RustStr HttpMsg Float64 Ipnet Spec Subnet Wire Codecs Tables Registry.
From S2P Require Import Scheduler Addresses Services CpWorker CpReconcile CpCommands CpHttp.
From S2P Require Import CpSystem.

(** [sys_cp] is [None] once the worker thread has panicked. *)
Record Sys : Type := mkSys {
  sys_cp : option CP;
  sys_threads : list (prog response);
  sys_log : list event
}.

(** All commands a handler can send satisfy [P]. *)
Fixpoint prog_sends {A} (P : forall R, Command R -> Prop) (p : prog A) : Prop :=
  match p with
  | Ret _ => True
  | Send c k => P _ c /\ forall x, prog_sends P (k x)
  | Forward _ k => forall x, prog_sends P (k x)
  end.

(** They are within the machine ranges. *)
Definition prog_in_range {A} : prog A -> Prop := prog_sends (@command_in_range).

Lemma prog_sends_bind {A B} P (p : prog A) (f : A -> prog B) :
  prog_sends P p -> (forall a, prog_sends P (f a)) -> prog_sends P (p ≫= f).
Proof.
  change (p ≫= f) with (prog_bind p f). intros Hp Hf.
  induction p as [a|R c k IH|r k IH]; cbn in *; [apply Hf| |].
  - destruct Hp as [Hc Hk]. split; [done|]. intros x. apply IH, Hk.
  - intros x. apply IH, Hp.
Qed.

(** What answers a handler may give when other threads' commands run between its
    own: the tables it finds are any that satisfy [Inv]. *)
Fixpoint answers_with {HO : HashOrder} {I : Ipnet} {A} (Inv : CP -> Prop) (Q : A -> Prop) (p : prog A) : Prop :=
  match p with
  | Ret a => Q a
  | Send c k =>
      (forall now s r s', Inv s -> handle_command now c s = Val (r, s') -> answers_with Inv Q (k (Reply r))) /\
      answers_with Inv Q (k RecvErr) /\ answers_with Inv Q (k SendErr)
  | Forward _ k => forall resp, answers_with Inv Q (k resp)
  end.

Lemma answers_with_any {HO : HashOrder} {I : Ipnet} {A} Inv (Q : A -> Prop) (p : prog A) :
  (forall a, Q a) -> answers_with Inv Q p.
Proof. intros HQ. induction p as [a|R c k IH|r k IH]; cbn; eauto. Qed.

(** The commands whose arguments do not come from a document. *)
Definition ordinary {R} (c : Command R) : Prop :=
  match c with
  | Register _ _ _ _ _ | CHeartbeat _ _ _ _ | ApplyService _ _ _ _ => False
  | _ => True
  end.

Section system.
Context {HO : HashOrder} {I : Ipnet}.
Context {YE : SerdeYaml ErrorBody} {YRR : SerdeYaml RegisterResponse}
        {YNS : SerdeYaml (list NodeStatus)} {YSR : SerdeYaml (list ServiceReplica)}
        {YSS : SerdeYaml (list ServiceSummary)} {YPE : SerdeYaml (list ServiceProxyEntry)}
        {YNR : SerdeYaml NodeRegistration} {YHB : SerdeYaml Heartbeat}
        {YJ : SerdeYaml JailSpec} {YS : SerdeYaml ServiceSpec}.
Variable str_debug : string -> string.

Inductive step : Sys -> Sys -> Prop :=
  | step_accept cp ts log req :
      step (mkSys cp ts log) (mkSys cp (ts ++ [route str_debug req]) log)
  | step_command s ts log i R (c : Command R) k now r s' :
      ts !! i = Some (Send c k) -> handle_command now c s = Val (r, s') ->
      step (mkSys (Some s) ts log) (mkSys (Some s') (<[i := k (Reply r)]> ts) log)
  | step_panic s ts log i R (c : Command R) k now :
      ts !! i = Some (Send c k) -> handle_command now c s = Panic ->
      step (mkSys (Some s) ts log) (mkSys None (<[i := k RecvErr]> ts) log)
  | step_no_reply ts log i R (c : Command R) k :
      ts !! i = Some (Send c k) ->
      step (mkSys None ts log) (mkSys None (<[i := k RecvErr]> ts) log)
  | step_not_running ts log i R (c : Command R) k :
      ts !! i = Some (Send c k) ->
      step (mkSys None ts log) (mkSys None (<[i := k SendErr]> ts) log)
  | step_forward cp ts log i rq k resp :
      ts !! i = Some (Forward rq k) ->
      step (mkSys cp ts log) (mkSys cp (<[i := k resp]> ts) (log ++ [(rq, resp)])).

Definition sys_init (cluster service : Ipv4Net) : Sys :=
  mkSys (Some (cp_new cluster service)) [] [].

(** ** What the handlers send *)

Section sends.
Context (P : forall R, Command R -> Prop).
Context (Hordinary : forall R (c : Command R), ordinary c -> P R c).

Ltac sends_tac :=
  repeat (first
    [ done
    | by apply Hordinary
    | apply prog_sends_bind
    | split
    | progress intros
    | match goal with
      | |- prog_sends _ (match ?x with _ => _ end) => destruct x
      | |- prog_sends _ (if ?x then _ else _) => destruct x
      end
    | progress cbn ]).

Lemma execute_replica_actions_sends acts : prog_sends P (execute_replica_actions acts).
Proof.
  induction acts as [|act acts IH]; [done|]. cbn [execute_replica_actions].
  apply prog_sends_bind; [|done]. by destruct act; sends_tac.
Qed.

Lemma reconcile_sends : prog_sends P reconcile_and_execute.
Proof. split; [by apply Hordinary|]. intros []; [done..|]. apply execute_replica_actions_sends. Qed.

Lemma fencing_sends id : prog_sends P (check_and_execute_fencing id).
Proof.
  split; [by apply Hordinary|]. intros [| |[|n ns]]; [done..|].
  split; [by apply Hordinary|]. intros [| |[addr|]]; try done.
  induction (n :: ns) as [|m ms IH]; [done|]. cbn [fence_replicas]. intros r.
  apply prog_sends_bind; [|done]. by destruct r as [[??]|]; sends_tac.
Qed.

Context (Hregister : forall body reg, from_yaml body = Ok reg ->
  P _ (Register (reg_id reg) (reg_addr reg) (reg_replicate_addr reg) (reg_capacity_cpu reg)
         (reg_capacity_memory reg))).
Context (Hheartbeat : forall id body hb, from_yaml body = Ok hb ->
  P _ (CHeartbeat id (hb_committed_cpu hb) (hb_committed_memory hb) (hb_jails hb))).
Context (Happly : forall text spec, parse_and_validate_service text = Ok spec ->
  P _ (ApplyService (meta_name (ss_metadata spec)) (sb_replicas (ss_spec spec))
         (sb_template (ss_spec spec)) (sb_port (ss_spec spec)))).

Lemma handle_register_sends body : prog_sends P (handle_register body).
Proof.
  unfold handle_register. destruct (from_yaml body) as [reg|] eqn:E; [|done].
  split; [by eapply Hregister|]. by sends_tac.
Qed.

Lemma handle_heartbeat_sends id body : prog_sends P (handle_heartbeat id body).
Proof.
  unfold handle_heartbeat. destruct (from_yaml body) as [hb|] eqn:E; [|done].
  split; [by eapply Hheartbeat|]. intros [| |[[]|]]; try done.
  apply prog_sends_bind; [apply reconcile_sends|]. intros _.
  apply prog_sends_bind; [apply fencing_sends|]. by sends_tac.
Qed.

Lemma handle_apply_service_sends name body : prog_sends P (handle_apply_service name body).
Proof.
  unfold handle_apply_service. destruct (parse_and_validate_service _) as [spec|] eqn:E; [|done].
  destruct (String.eqb_spec (meta_name (ss_metadata spec)) name) as [<-|]; [|done]. cbn [negb].
  split; [by eapply Happly|]. intros [| |[[]|]]; try done.
  apply prog_sends_bind; [apply reconcile_sends|done].
Qed.

Lemma route_sends req : prog_sends P (route str_debug req).
Proof.
  unfold route.
  repeat match goal with
  | |- prog_sends _ (handle_register _) => apply handle_register_sends
  | |- prog_sends _ (handle_heartbeat _ _) => apply handle_heartbeat_sends
  | |- prog_sends _ (handle_apply_service _ _) => apply handle_apply_service_sends
  | |- prog_sends _ (match ?x with _ => _ end) => destruct x
  | |- prog_sends _ (if ?x then _ else _) => destruct x
  end; try done; try (by sends_tac).
  all: split; [by apply Hordinary|]; intros [| |[acts|]]; try done.
  all: apply prog_sends_bind; [apply execute_replica_actions_sends|done].
Qed.
End sends.

Lemma route_range req : prog_in_range (route str_debug req).
Proof.
  apply route_sends.
  - by intros R [].
  - intros body reg E. apply (from_yaml_repr _ _ E).
  - intros id body hb E. apply (from_yaml_repr _ _ E).
  - intros text spec (E & _)%parse_and_validate_service_Ok. by apply from_yaml_repr in E as [E _].
Qed.

(** ** Safety and progress *)

Definition sys_ok (sys : Sys) : Prop :=
  (exists s, sys_cp sys = Some s /\ cp_wf s) /\ Forall (prog_in_range (A := response)) (sys_threads sys).

Lemma thread_range ts i (p : prog response) : Forall prog_in_range ts -> ts !! i = Some p -> prog_in_range p.
Proof. intros H Hi. by eapply Forall_lookup_1 in Hi. Qed.

Lemma step_ok sys sys' : sys_ok sys -> step sys sys' -> sys_ok sys'.
Proof.
  intros [(s0 & Hcp & Hwf) Hts] Hstep. destruct Hstep as
    [cp ts log req|s ts log i R c k now r s' Hi Hc|s ts log i R c k now Hi Hc
    |ts log i R c k Hi|ts log i R c k Hi|cp ts log i rq k resp Hi]; cbn in *; simplify_eq.
  - split; [eauto|]. apply Forall_app. split; [done|]. constructor; [apply route_range|done].
  - destruct (thread_range _ _ _ Hts Hi) as [Hr Hk].
    destruct (handle_command_step now c s0 Hwf Hr) as (r1 & s1 & E & Hwf1).
    rewrite Hc in E. simplify_eq. split; [eauto|]. apply Forall_insert; [done|apply Hk].
  - destruct (thread_range _ _ _ Hts Hi) as [Hr Hk].
    destruct (handle_command_step now c s0 Hwf Hr) as (r1 & s1 & E & Hwf1). congruence.
  - split; [eauto|]. apply Forall_insert; [done|]. apply (thread_range _ _ _ Hts Hi).
Qed.

Lemma reachable_ok cluster service sys :
  net_wf cluster -> (prefix_len cluster <= 24)%N ->
  net_wf service -> (0 < prefix_len service)%N ->
  rtc step (sys_init cluster service) sys -> sys_ok sys.
Proof.
  intros H1 H2 H3 H4 Hrtc.
  assert (sys_ok (sys_init cluster service)) as H0.
  { split; [|constructor]. eexists. split; [done|]. by apply cp_new_wf. }
  revert H0. induction Hrtc as [|x y z Hxy _ IH]; [done|]. intros Hx. by eapply IH, step_ok.
Qed.

(** The control plane is safe under concurrency.  However many requests,
    well formed or not, arrive, however their handlers interleave, whatever the
    nodes answer and the clock shows, the worker thread never dies and every
    reachable state of its tables is well formed. *)
Theorem system_safe cluster service sys :
  net_wf cluster -> (prefix_len cluster <= 24)%N ->
  net_wf service -> (0 < prefix_len service)%N ->
  rtc step (sys_init cluster service) sys ->
  exists s, sys_cp sys = Some s /\ cp_wf s.
Proof. intros H1 H2 H3 H4 Hr. by destruct (reachable_ok _ _ _ H1 H2 H3 H4 Hr). Qed.

(** One thread can always run to its response. *)
Lemma thread_finishes sys i p :
  sys_ok sys -> sys_threads sys !! i = Some p ->
  exists sys' resp, rtc step sys sys' /\ sys_threads sys' = <[i := Ret resp]> (sys_threads sys).
Proof.
  revert sys. induction p as [resp|R c k IH|rq k IH]; intros sys Hok Hi.
  - exists sys, resp. split; [apply rtc_refl|]. by rewrite list_insert_id.
  - pose proof Hok as [(s & Hcp & Hwf) Hts].
    destruct (thread_range _ _ _ Hts Hi) as [Hr Hk].
    destruct (handle_command_step 0 c s Hwf Hr) as (r & s1 & E & _).
    destruct sys as [cp ts log]. cbn in *. subst cp.
    assert (step (mkSys (Some s) ts log) (mkSys (Some s1) (<[i := k (Reply r)]> ts) log)) as Hst
      by (by eapply step_command).
    destruct (IH (Reply r) (mkSys (Some s1) (<[i := k (Reply r)]> ts) log)) as (sys' & resp & Hrt & Ht).
    + by eapply step_ok.
    + cbn. apply list_lookup_insert_eq. by eapply lookup_lt_Some.
    + exists sys', resp. split; [by eapply rtc_l|]. rewrite Ht. cbn. by rewrite list_insert_insert_eq.
  - destruct sys as [cp ts log]. cbn in *.
    assert (step (mkSys cp ts log)
              (mkSys cp (<[i := k (Err EmptyString)]> ts) (log ++ [(rq, Err EmptyString)]))) as Hst
      by (by apply step_forward).
    destruct (IH (Err EmptyString) (mkSys cp (<[i := k (Err EmptyString)]> ts)
                                      (log ++ [(rq, Err EmptyString)]))) as (sys' & resp & Hrt & Ht).
    + by eapply step_ok.
    + cbn. apply list_lookup_insert_eq. by eapply lookup_lt_Some.
    + exists sys', resp. split; [by eapply rtc_l|]. rewrite Ht. cbn. by rewrite list_insert_insert_eq.
Qed.

(** No request can be stuck.  From every reachable state, every connection
    thread can finish with a response, without any other thread having to move
    (even if no node ever answers). *)
Theorem system_progress cluster service sys i p :
  net_wf cluster -> (prefix_len cluster <= 24)%N ->
  net_wf service -> (0 < prefix_len service)%N ->
  rtc step (sys_init cluster service) sys -> sys_threads sys !! i = Some p ->
  exists sys' resp, rtc step sys sys' /\ sys_threads sys' = <[i := Ret resp]> (sys_threads sys).
Proof.
  intros H1 H2 H3 H4 Hr Hi. eapply thread_finishes; [|done]. by eapply (reachable_ok cluster service).
Qed.

(** ** Scheduled execution *)

Definition choice : Type := nat * result string response.

(** Thread [i] moves once, at time zero, with the given answer if it is waiting
    for a node. *)
Definition move (ch : choice) (sys : Sys) : option Sys :=
  match sys_cp sys, sys_threads sys !! ch.1 with
  | Some s, Some (Send c k) =>
      match handle_command 0 c s with
      | Val (r, s') => Some (mkSys (Some s') (<[ch.1 := k (Reply r)]> (sys_threads sys)) (sys_log sys))
      | Panic => None
      end
  | cp, Some (Forward rq k) =>
      Some (mkSys cp (<[ch.1 := k ch.2]> (sys_threads sys)) (sys_log sys ++ [(rq, ch.2)]))
  | _, _ => None
  end.

Fixpoint moves (chs : list choice) (sys : Sys) : option Sys :=
  match chs with
  | [] => Some sys
  | ch :: chs => sys' ← move ch sys; moves chs sys'
  end.

Lemma move_step ch sys sys' : move ch sys = Some sys' -> step sys sys'.
Proof.
  destruct sys as [cp ts log], ch as [i resp]. unfold move. cbn.
  destruct cp as [s|], (ts !! i) as [[a|R c k|rq k]|] eqn:Hi; try done.
  - destruct (handle_command 0 c s) as [[r s']|] eqn:Hc; [|done].
    intros [= <-]. by eapply step_command.
  - intros [= <-]. by apply step_forward.
  - intros [= <-]. by apply step_forward.
Qed.

Lemma moves_rtc chs sys sys' : moves chs sys = Some sys' -> rtc step sys sys'.
Proof.
  revert sys. induction chs as [|ch chs IH]; intros sys; cbn; [by intros [= ->]|].
  intros (sys1 & Hm & Hr)%bind_Some. eapply rtc_l; [by eapply move_step|by apply IH].
Qed.
End system.

(** ** The compute/execute gap *)

Section race.
Context {YE : SerdeYaml ErrorBody} {YRR : SerdeYaml RegisterResponse}
        {YNS : SerdeYaml (list NodeStatus)} {YSR : SerdeYaml (list ServiceReplica)}
        {YSS : SerdeYaml (list ServiceSummary)} {YPE : SerdeYaml (list ServiceProxyEntry)}
        {YNR : SerdeYaml NodeRegistration} {YHB : SerdeYaml Heartbeat}
        {YJ : SerdeYaml JailSpec} {YS : SerdeYaml ServiceSpec}.
Variable str_debug : string -> string.

(** One live node and no services yet; two clients apply the services [web] and
    [db] at the same time. *)
Definition race_cp : CP :=
  with_registry registry_1 (cp_new cidr_10_0_0_0_16 cidr_10_0_250_0_24).

Definition race_start : Sys :=
  mkSys (Some race_cp)
    [apply_validated "web" (mkServiceSpecBody 1 8080 template_web);
     apply_validated "db" (mkServiceSpecBody 1 5432 template_web)] [].

(** The first thread stores its service and computes its pass; the second does
    the same before the first has recorded anything; then both carry out their
    passes, the node accepting both new jails and refusing to change the
    address of the jail it already has. *)
Definition race_schedule : list choice :=
  let ok : result string response := Ok (200%N, EmptyString) in
  let no : result string response := Ok (400%N, EmptyString) in
  [(0%nat, ok); (0%nat, ok); (1%nat, ok); (1%nat, ok);
   (0%nat, ok); (0%nat, ok); (0%nat, ok);
   (1%nat, ok); (1%nat, ok); (1%nat, ok); (1%nat, no)].

Definition put_accepted (sys : Sys) (naddr name cidr : string) : Prop :=
  exists t body, (mkRequest naddr "PUT" (jail_path name) (to_yaml (replica_spec t name cidr None)),
            Ok (200%N, body)) ∈ sys_log sys.

(** C37: computing a pass and carrying it out are separate steps, and two passes
    that overlap can give one address to two different replicas.  Applying two
    services concurrently can end with both handlers done, one node having
    accepted two different jails with the same address, and both recorded with
    it: the damage is not limited to a spare jail. *)
Theorem concurrent_apply_duplicates_address :
  exists sys s, rtc (step (HO := list_order) (I := ipnet_model) str_debug) race_start sys /\
    sys_cp sys = Some s /\
    sys_threads sys = [Ret (200%N, EmptyString); Ret (200%N, EmptyString)] /\
    put_accepted sys "10.1.0.1:7620" "web-0" "10.0.131.2/24" /\
    put_accepted sys "10.1.0.1:7620" "db-0" "10.0.131.2/24" /\
    ua_by_jail (cp_used_addresses s) !! "web-0" = Some ("node-1", 167805698%N) /\
    ua_by_jail (cp_used_addresses s) !! "db-0" = Some ("node-1", 167805698%N).
Proof.
  destruct (@moves list_order ipnet_model race_schedule race_start) as [sys|] eqn:E;
    [|vm_compute in E; discriminate].
  pose proof (moves_rtc (HO := list_order) (I := ipnet_model) str_debug _ _ _ E) as Hr. vm_compute in E. injection E as <-.
  do 2 eexists. split; [exact Hr|]. split; [reflexivity|]. split; [reflexivity|].
  split; [|split; [|split; reflexivity]].
  - exists template_web, EmptyString. cbn. apply elem_of_cons. left. reflexivity.
  - exists template_web, EmptyString. cbn. apply elem_of_cons. right. apply elem_of_cons. left.
    reflexivity.
Qed.
End race.

(** ** Evaluation *)

Lemma reach_accept :
  rtc (step (HO := list_order) (I := ipnet_model)
         (YE := yaml_error) (YRR := yaml_register) (YNS := yaml_statuses) (YSR := yaml_replicas)
         (YSS := yaml_summaries) (YPE := yaml_entries) (YNR := yaml_registration)
         (YHB := yaml_heartbeat) (YJ := yaml_jail) (YS := yaml_service) (fun s => s))
    (sys_init cidr_10_0_0_0_16 cidr_10_0_250_0_24)
    (mkSys (Some (cp_new cidr_10_0_0_0_16 cidr_10_0_250_0_24))
       [route (YE := yaml_error) (YRR := yaml_register) (YNS := yaml_statuses)
          (YSR := yaml_replicas) (YSS := yaml_summaries) (YPE := yaml_entries)
          (YNR := yaml_registration) (YHB := yaml_heartbeat) (YJ := yaml_jail)
          (YS := yaml_service) (I := ipnet_model) (fun s => s)
          (mkParsedRequest "GET" "/services" EmptyString)] []).
Proof. eapply rtc_l; [apply step_accept | apply rtc_refl]. Qed.

Lemma system_safe_witness :
  exists s, Some (cp_new cidr_10_0_0_0_16 cidr_10_0_250_0_24) = Some s /\ @cp_wf ipnet_model s.
Proof.
  apply (@system_safe list_order ipnet_model yaml_error yaml_register yaml_statuses
           yaml_replicas yaml_summaries yaml_entries yaml_registration yaml_heartbeat yaml_jail
           yaml_service (fun s => s) cidr_10_0_0_0_16 cidr_10_0_250_0_24 _
           ltac:(split; vm_compute; discriminate) ltac:(vm_compute; discriminate)
           ltac:(split; vm_compute; discriminate) ltac:(vm_compute; reflexivity) reach_accept).
Defined.

Lemma system_progress_witness :
  exists (sys' : Sys) (resp : response),
    sys_threads sys' = <[0%nat := Ret resp]> [route (YE := yaml_error) (YRR := yaml_register)
          (YNS := yaml_statuses) (YSR := yaml_replicas) (YSS := yaml_summaries)
          (YPE := yaml_entries) (YNR := yaml_registration) (YHB := yaml_heartbeat)
          (YJ := yaml_jail) (YS := yaml_service) (I := ipnet_model) (fun s => s)
          (mkParsedRequest "GET" "/services" EmptyString)].
Proof.
  destruct (@system_progress list_order ipnet_model yaml_error yaml_register yaml_statuses
           yaml_replicas yaml_summaries yaml_entries yaml_registration yaml_heartbeat yaml_jail
           yaml_service (fun s => s) cidr_10_0_0_0_16 cidr_10_0_250_0_24 _ 0 _
           ltac:(split; vm_compute; discriminate) ltac:(vm_compute; discriminate)
           ltac:(split; vm_compute; discriminate) ltac:(vm_compute; reflexivity) reach_accept
           eq_refl) as (sys' & resp & _ & H).
  exists sys', resp. exact H.
Defined.
