(* ===== verification/Backoff.v ===== *)
(** * Restart backoff

    [keel-agentd/src/backoff.rs]: the cooldown armed by every provisioning
    attempt or restart.  Durations and instants are in nanoseconds.  The
    theorems follow a jail whose attempts are made only when [can_retry] allows
    them, which is how the reconciler uses it. *)

From S2P Require Import Prelude Registry.

Definition secs (n : N) : N := (n * nanos_per_sec)%N.
Definition INITIAL_DELAY : N := secs 1.
Definition MAX_DELAY : N := secs 300.
Definition RESET_UPTIME_THRESHOLD : N := secs 60.

Record BackoffState : Type := mkBackoff {
  bo_current_delay : N;
  bo_next_retry_at : option Instant;
  bo_last_started_at : option Instant
}.

Record BackoffStatus : Type := mkBackoffStatus {
  bs_retry_in_secs : option N;
  bs_current_delay_secs : option N
}.

Definition backoff_new : BackoffState := mkBackoff INITIAL_DELAY None None.

Definition can_retry (b : BackoffState) (now : Instant) : bool :=
  match bo_next_retry_at b with
  | Some t => (t <=? now)%N
  | None => true
  end.

Definition record_attempt (b : BackoffState) (now : Instant) : BackoffState :=
  let delay :=
    match bo_last_started_at b with
    | Some last =>
        if (RESET_UPTIME_THRESHOLD <=? now - last)%N then INITIAL_DELAY else bo_current_delay b
    | None => bo_current_delay b
    end in
  mkBackoff (N.min (delay * 2) MAX_DELAY) (Some (now + delay)%N) (Some now).

Definition backoff_status (b : BackoffState) (now : Instant) : BackoffStatus :=
  match bo_next_retry_at b with
  | Some next =>
      mkBackoffStatus (Some (as_secs (next - now))) (Some (as_secs (bo_current_delay b)))
  | None => mkBackoffStatus None None
  end.

(** ** Disciplined attempts *)

(** The state after a list of attempts, each made when [can_retry] allows it;
    [None] if one of them was not. *)
Fixpoint attempts (b : BackoffState) (times : list Instant) : option BackoffState :=
  match times with
  | [] => Some b
  | now :: times => if can_retry b now then attempts (record_attempt b now) times else None
  end.

(** The cooldown armed by the last attempt. *)
Definition armed (b : BackoffState) : N :=
  match bo_next_retry_at b, bo_last_started_at b with
  | Some next, Some last => (next - last)%N
  | _, _ => 0%N
  end.

(** The states a disciplined jail goes through: the armed delay is [2^k]
    seconds with [k <= 6], and the next one is its double. *)
Definition backoff_inv (b : BackoffState) : Prop :=
  b = backoff_new \/
  exists k last, (k <= 6)%N /\ bo_last_started_at b = Some last /\
    bo_next_retry_at b = Some (last + secs (2 ^ k))%N /\
    bo_current_delay b = secs (2 ^ (k + 1))%N.

Lemma secs_mono a b : (a <= b)%N <-> (secs a <= secs b)%N.
Proof. unfold secs, nanos_per_sec. lia. Qed.

Lemma record_attempt_inv b now :
  backoff_inv b -> can_retry b now = true -> backoff_inv (record_attempt b now).
Proof.
  intros [->|(k & last & Hk & Hl & Hn & Hc)] Hr; right.
  - exists 0%N, now. split; [lia|]. done.
  - unfold can_retry in Hr. rewrite Hn in Hr. bool_to_prop. unfold record_attempt.
    rewrite Hl, Hc. destruct (_ <=? _)%N eqn:Ht; bool_to_prop.
    + exists 0%N, now. split; [lia|]. done.
    + assert (k <= 5)%N as Hk5.
      { destruct (decide (k = 6%N)) as [->|]; [|lia].
        unfold RESET_UPTIME_THRESHOLD, secs, nanos_per_sec in *.
        change (2 ^ 6)%N with 64%N in Hr. lia. }
      exists (k + 1)%N, now. split; [lia|]. split; [done|]. split; [done|]. cbn.
      assert (2 ^ (k + 1 + 1) = 2 ^ (k + 1) * 2)%N as ->
        by (rewrite (N.pow_add_r 2 (k + 1) 1); lia).
      assert (2 ^ (k + 1) <= 2 ^ 6)%N by (apply N.pow_le_mono_r; lia).
      change (2 ^ 6)%N with 64%N in *. unfold MAX_DELAY, secs, nanos_per_sec. lia.
Qed.

Lemma attempts_inv b times b' :
  backoff_inv b -> attempts b times = Some b' -> backoff_inv b'.
Proof.
  revert b. induction times as [|now times IH]; intros b Hb; cbn; [by intros [= <-]|].
  destruct (can_retry b now) eqn:Hr; [|done]. apply IH. by apply record_attempt_inv.
Qed.

Lemma armed_pow b : backoff_inv b -> b = backoff_new \/ exists k, (k <= 6)%N /\ armed b = secs (2 ^ k).
Proof.
  intros [->|(k & last & Hk & Hl & Hn & _)]; [by left|]. right. exists k. split; [done|].
  unfold armed. rewrite Hl, Hn. lia.
Qed.

(** The five-minute cap is never reached.  An attempt is only made after
    the armed cooldown has passed, and once that is more than a minute the
    elapsed time alone makes [record_attempt] forget the history: however long
    a jail keeps crashing, the cooldown never exceeds 64 seconds, and after a
    64-second one it starts again from one second. *)
Lemma backoff_never_reaches_cap times b now :
  attempts backoff_new times = Some b ->
  (armed b <= secs 64)%N /\
  (armed b = secs 64 -> can_retry b now = true -> armed (record_attempt b now) = secs 1).
Proof.
  intros Ha. assert (backoff_inv b) as Hinv by (eapply attempts_inv; [by left|done]).
  destruct Hinv as [->|(k & lst & Hk & Hl & Hn & Hc)].
  - split; [vm_compute; discriminate|]. intros H. vm_compute in H. discriminate.
  - assert (armed b = secs (2 ^ k)) as Harm by (unfold armed; rewrite Hl, Hn; lia).
    rewrite Harm. split.
    + apply (proj1 (secs_mono _ _)). change 64%N with (2 ^ 6)%N. apply N.pow_le_mono_r; lia.
    + intros H64 Hr. unfold can_retry in Hr. rewrite Hn in Hr. bool_to_prop.
      unfold record_attempt. rewrite Hl. unfold armed. cbn.
      rewrite (proj2 (N.leb_le RESET_UPTIME_THRESHOLD _)).
      * unfold INITIAL_DELAY. lia.
      * rewrite H64 in Hr. unfold RESET_UPTIME_THRESHOLD, secs, nanos_per_sec in *. lia.
Qed.

(** C33: backing off.  After any number of attempts, each made when allowed, a
    next attempt is refused until the armed cooldown has passed and allowed
    from then on; an attempt that comes within a minute of the previous one
    doubles the cooldown while one after a minute starts again from a second.
    The cooldown stays between a second and 64 seconds: the five-minute cap is
    never reached, because an attempt that waited for more than a minute resets
    the delay, whether the jail was up in that time or not. *)
Theorem backoff_discipline times b now :
  attempts backoff_new times = Some b -> times <> [] ->
  (secs 1 <= armed b <= secs 64)%N /\
  exists t, bo_last_started_at b = Some t /\ last times = Some t /\
    (can_retry b now = true <-> (t + armed b <= now)%N) /\
    (can_retry b now = true ->
       armed (record_attempt b now) =
         if (secs 60 <=? now - t)%N then secs 1 else (armed b * 2)%N).
Proof.
  intros Ha Hne. destruct (backoff_never_reaches_cap times b now Ha) as [Hcap _].
  assert (backoff_inv b) as Hinv by (eapply attempts_inv; [by left|done]).
  assert (last times = bo_last_started_at b) as Hlast.
  { clear Hinv now. revert Ha. generalize backoff_new.
    induction times as [|t times IH]; intros b0; [done|]. cbn [attempts].
    destruct (can_retry b0 t); [|done]. destruct times as [|t' times'].
    - cbn. by intros [= <-].
    - intros Ha. change (last (t' :: times') = bo_last_started_at b). by eapply IH. }
  assert (exists t, last times = Some t) as [t0 Ht0].
  { destruct (last times) eqn:E; [eauto|]. by apply last_None in E. }
  destruct Hinv as [->|(k & lst & Hk & Hl & Hn & Hc)]; [rewrite Ht0 in Hlast; done|].
  assert (armed b = secs (2 ^ k)) as Harm by (unfold armed; rewrite Hl, Hn; lia).
  assert (2 ^ k <> 0)%N by (apply N.pow_nonzero; lia).
  rewrite Harm in *. split; [split; [apply (proj1 (secs_mono 1 _)); lia|done]|].
  exists lst. split; [done|]. split; [congruence|]. split.
  - unfold can_retry. rewrite Hn. apply N.leb_le.
  - intros Hr. unfold can_retry in Hr. rewrite Hn in Hr. bool_to_prop.
    unfold record_attempt. rewrite Hl, Hc. unfold armed. cbn.
    change RESET_UPTIME_THRESHOLD with (secs 60). change INITIAL_DELAY with (secs 1).
    destruct (_ <=? _)%N; [lia|].
    rewrite N.add_1_r, N.pow_succ_r' by lia. unfold secs. lia.
Qed.

(** A jail that crashes as soon as it is started. *)
Definition crash_times : list Instant :=
  secs <$> [0; 1; 3; 7; 15; 31; 63]%N.

Definition crashed : BackoffState := mkBackoff (secs 128) (Some (secs 127)) (Some (secs 63)).

Lemma backoff_discipline_witness :
  attempts backoff_new crash_times = Some crashed /\ armed crashed = secs 64 /\
  can_retry crashed (secs 127) = true /\ armed (record_attempt crashed (secs 127)) = secs 1.
Proof.
  split; [vm_compute; reflexivity|]. split; [vm_compute; reflexivity|].
  split; [vm_compute; reflexivity|].
  destruct (backoff_discipline crash_times crashed (secs 127)) as (_ & t & Hl & _ & _ & H);
    [vm_compute; reflexivity | discriminate|].
  rewrite (H ltac:(vm_compute; reflexivity)). injection Hl as <-. vm_compute. reflexivity.
Defined.
