(* ===== verification/AgentHost.v ===== *)
(** * Host interfaces of the node agent

    The traits [JailRuntime], [MountManager] ([keel-jail/src/lib.rs]),
    [ZfsManager] ([keel-zfs/src/lib.rs]) and [NetManager]
    ([keel-net/src/lib.rs]) as classes over the type of the host object, and
    the in-memory implementations of the repository ([FakeJailRuntime],
    [FakeMountManager], [FakeZfsManager], [FakeNetManager]) as instances.  A
    method that may change the host returns the object after it; queries only
    read it.  [send_snapshot] writes to a stream: its last argument is the error the
    stream meets before everything is written, if it does, and it returns what it
    put on the stream next to its result.  The implementations that run FreeBSD's tools are in HostCli. *)

From S2P Require Import Prelude RustStr Text Ipnet.

(** ** Errors *)

Inductive JailError : Type :=
  | JSpawn (cmd e : string)
  | JCommandFailed (cmd : string) (status : N) (stderr : string)
  | JNotFound (name : string).

Inductive MountError : Type :=
  | MSpawn (cmd e : string)
  | MCommandFailed (cmd : string) (status : N) (stderr : string)
  | NotMounted (target : string)
  | MIo (e : string).

Inductive ZfsError : Type :=
  | ZSpawn (cmd e : string)
  | ZCommandFailed (cmd : string) (status : N) (stderr : string)
  | ZNotFound (dataset : string)
  | Busy (dataset : string).

Inductive NetError : Type :=
  | NSpawn (cmd e : string)
  | NCommandFailed (cmd : string) (status : N) (stderr : string)
  | NNotFound (bridge : string).

(** ** Traits *)

Class JailRuntime (J : Type) : Type := {
  jail_create : string -> string -> bool -> J -> result JailError unit * J;
  jail_exists : J -> string -> result JailError bool;
  start_command : string -> list string -> J -> result JailError unit * J;
  jail_destroy : string -> J -> result JailError unit * J;
  is_running : J -> string -> result JailError bool;
  set_resource_limits : string -> N -> N -> J -> result JailError unit * J;
  remove_resource_limits : string -> J -> result JailError unit * J
}.

Class MountManager (M : Type) : Type := {
  ensure_mount_point : string -> M -> result MountError unit * M;
  mount_nullfs : string -> string -> M -> result MountError unit * M;
  unmount : string -> M -> result MountError unit * M;
  is_mounted : M -> string -> result MountError bool
}.

Class ZfsManager (Z : Type) : Type := {
  dataset_exists : Z -> string -> result ZfsError bool;
  clone_from_base : string -> string -> Z -> result ZfsError unit * Z;
  create_volume : string -> string -> Z -> result ZfsError unit * Z;
  destroy_dataset : string -> Z -> result ZfsError unit * Z;
  snapshot : string -> string -> Z -> result ZfsError unit * Z;
  destroy_snapshot : string -> string -> Z -> result ZfsError unit * Z;
  send_snapshot : Z -> string -> string -> option string -> option string -> result ZfsError unit * string;
  receive_snapshot : string -> string -> Z -> result ZfsError unit * Z
}.

(** [attach_jail] computes the bridge's gateway and may panic. *)
Class NetManager (Nt : Type) : Type := {
  ensure_bridge_exists : string -> Nt -> result NetError unit * Nt;
  attach_jail : string -> string -> string -> string -> Nt -> comp (result NetError unit * Nt);
  detach_jail : string -> Nt -> result NetError unit * Nt;
  add_route : string -> string -> Nt -> result NetError unit * Nt;
  remove_route : string -> Nt -> result NetError unit * Nt;
  add_alias : string -> string -> Nt -> result NetError unit * Nt;
  remove_alias : string -> string -> Nt -> result NetError unit * Nt
}.

(** ** [bridge_gateway] *)

Definition bridge_gateway {I : Ipnet} (address : string) : comp string :=
  match net_parse address with
  | None => Panic
  | Some net =>
      gateway_ip ← add_u32 (network net) 1;
      Val (ipv4_to_string gateway_ip +:+ "/" +:+ u_to_string (prefix_len net))
  end.

(** ** [FakeJailRuntime] *)

Record FakeJail : Type := mkFakeJail {
  fj_rootfs : string;
  fj_vnet : bool;
  fj_running : bool;
  fj_pcpu_percent : option N;
  fj_memory_bytes : option N;
  fj_fail_start : bool
}.

Record FakeJailRuntime : Type := mkFakeJailRuntime { fjr_jails : gmap string FakeJail }.

Definition fake_jail_new : FakeJailRuntime := mkFakeJailRuntime ∅.

Definition fake_mark_exited (name : string) (j : FakeJailRuntime) : FakeJailRuntime :=
  match fjr_jails j !! name with
  | Some jail =>
      mkFakeJailRuntime (<[name := mkFakeJail (fj_rootfs jail) (fj_vnet jail) false
        (fj_pcpu_percent jail) (fj_memory_bytes jail) (fj_fail_start jail)]> (fjr_jails j))
  | None => j
  end.

Definition fake_fail_start_command (name : string) (fail : bool) (j : FakeJailRuntime)
    : FakeJailRuntime :=
  match fjr_jails j !! name with
  | Some jail =>
      mkFakeJailRuntime (<[name := mkFakeJail (fj_rootfs jail) (fj_vnet jail) (fj_running jail)
        (fj_pcpu_percent jail) (fj_memory_bytes jail) fail]> (fjr_jails j))
  | None => j
  end.

Definition fake_jail_create (name rootfs : string) (vnet : bool) (j : FakeJailRuntime)
    : result JailError unit * FakeJailRuntime :=
  (Ok tt, mkFakeJailRuntime (<[name := mkFakeJail rootfs vnet false None None false]> (fjr_jails j))).

Definition fake_jail_exists (j : FakeJailRuntime) (name : string) : result JailError bool :=
  Ok (is_some (fjr_jails j !! name)).

Definition fake_start_command (name : string) (_command : list string) (j : FakeJailRuntime)
    : result JailError unit * FakeJailRuntime :=
  match fjr_jails j !! name with
  | None => (Err (JNotFound name), j)
  | Some jail =>
      if fj_fail_start jail then
        (Err (JNotFound (name +:+ " (start_command failure injected for testing)")), j)
      else
        (Ok tt, mkFakeJailRuntime (<[name := mkFakeJail (fj_rootfs jail) (fj_vnet jail) true
           (fj_pcpu_percent jail) (fj_memory_bytes jail) (fj_fail_start jail)]> (fjr_jails j)))
  end.

Definition fake_jail_destroy (name : string) (j : FakeJailRuntime)
    : result JailError unit * FakeJailRuntime :=
  match fjr_jails j !! name with
  | None => (Err (JNotFound name), j)
  | Some _ => (Ok tt, mkFakeJailRuntime (delete name (fjr_jails j)))
  end.

Definition fake_is_running (j : FakeJailRuntime) (name : string) : result JailError bool :=
  Ok (default false (fj_running <$> fjr_jails j !! name)).

(** Both limit methods overwrite the two limits of an existing jail. *)
Definition fake_with_limits (name : string) (pcpu mem : option N) (j : FakeJailRuntime)
    : result JailError unit * FakeJailRuntime :=
  match fjr_jails j !! name with
  | None => (Err (JNotFound name), j)
  | Some jail =>
      (Ok tt, mkFakeJailRuntime (<[name := mkFakeJail (fj_rootfs jail) (fj_vnet jail)
         (fj_running jail) pcpu mem (fj_fail_start jail)]> (fjr_jails j)))
  end.
Definition fake_set_resource_limits (name : string) (pcpu_percent memory_bytes : N)
    : FakeJailRuntime -> result JailError unit * FakeJailRuntime :=
  fake_with_limits name (Some pcpu_percent) (Some memory_bytes).
Definition fake_remove_resource_limits (name : string)
    : FakeJailRuntime -> result JailError unit * FakeJailRuntime :=
  fake_with_limits name None None.

#[global] Instance fake_jail_runtime : JailRuntime FakeJailRuntime := {|
  jail_create := fake_jail_create;
  jail_exists := fake_jail_exists;
  start_command := fake_start_command;
  jail_destroy := fake_jail_destroy;
  is_running := fake_is_running;
  set_resource_limits := fake_set_resource_limits;
  remove_resource_limits := fake_remove_resource_limits
|}.

(** ** [FakeMountManager] *)

Record FakeMountManager : Type := mkFakeMountManager { fm_mounted : gset string }.

Definition fake_ensure_mount_point (_target : string) (m : FakeMountManager)
    : result MountError unit * FakeMountManager := (Ok tt, m).
Definition fake_mount_nullfs (_source target : string) (m : FakeMountManager)
    : result MountError unit * FakeMountManager :=
  (Ok tt, mkFakeMountManager ({[target]} ∪ fm_mounted m)).
Definition fake_unmount (target : string) (m : FakeMountManager)
    : result MountError unit * FakeMountManager :=
  if bool_decide (target ∈ fm_mounted m)
  then (Ok tt, mkFakeMountManager (fm_mounted m ∖ {[target]}))
  else (Err (NotMounted target), m).
Definition fake_is_mounted (m : FakeMountManager) (target : string) : result MountError bool :=
  Ok (bool_decide (target ∈ fm_mounted m)).

#[global] Instance fake_mount_manager : MountManager FakeMountManager := {|
  ensure_mount_point := fake_ensure_mount_point;
  mount_nullfs := fake_mount_nullfs;
  unmount := fake_unmount;
  is_mounted := fake_is_mounted
|}.

(** ** [FakeZfsManager] *)

Record FakeZfsManager : Type := mkFakeZfsManager {
  fz_datasets : gset string;
  fz_snapshots : gset string;
  fz_busy : gset string
}.

Definition fake_seed_dataset (dataset : string) (z : FakeZfsManager) : FakeZfsManager :=
  mkFakeZfsManager ({[dataset]} ∪ fz_datasets z) (fz_snapshots z) (fz_busy z).
Definition fake_mark_busy (dataset : string) (z : FakeZfsManager) : FakeZfsManager :=
  mkFakeZfsManager (fz_datasets z) (fz_snapshots z) ({[dataset]} ∪ fz_busy z).

Definition fake_dataset_exists (z : FakeZfsManager) (dataset : string) : result ZfsError bool :=
  Ok (bool_decide (dataset ∈ fz_datasets z)).

Definition fake_clone_from_base (base_dataset target_dataset : string) (z : FakeZfsManager)
    : result ZfsError unit * FakeZfsManager :=
  if bool_decide (base_dataset ∈ fz_datasets z)
  then (Ok tt, fake_seed_dataset target_dataset z)
  else (Err (ZNotFound base_dataset), z).

Definition fake_create_volume (dataset _quota : string) (z : FakeZfsManager)
    : result ZfsError unit * FakeZfsManager := (Ok tt, fake_seed_dataset dataset z).

Definition fake_destroy_dataset (dataset : string) (z : FakeZfsManager)
    : result ZfsError unit * FakeZfsManager :=
  if bool_decide (dataset ∈ fz_busy z) then (Err (Busy dataset), z)
  else if bool_decide (dataset ∈ fz_datasets z)
  then (Ok tt, mkFakeZfsManager (fz_datasets z ∖ {[dataset]}) (fz_snapshots z) (fz_busy z))
  else (Err (ZNotFound dataset), z).

Definition snapshot_key (dataset snapshot : string) : string := dataset +:+ "@" +:+ snapshot.

Definition fake_snapshot (dataset snapshot : string) (z : FakeZfsManager)
    : result ZfsError unit * FakeZfsManager :=
  if bool_decide (dataset ∈ fz_datasets z)
  then (Ok tt, mkFakeZfsManager (fz_datasets z) ({[snapshot_key dataset snapshot]} ∪ fz_snapshots z)
                 (fz_busy z))
  else (Err (ZNotFound dataset), z).

Definition fake_destroy_snapshot (dataset snapshot : string) (z : FakeZfsManager)
    : result ZfsError unit * FakeZfsManager :=
  let key := snapshot_key dataset snapshot in
  if bool_decide (key ∈ fz_snapshots z)
  then (Ok tt, mkFakeZfsManager (fz_datasets z) (fz_snapshots z ∖ {[key]}) (fz_busy z))
  else (Err (ZNotFound key), z).

Definition newline : string := String (ascii_of_N 10) EmptyString.

Definition fake_send_snapshot (z : FakeZfsManager) (dataset snapshot : string)
    (base out_error : option string) : result ZfsError unit * string :=
  let key := snapshot_key dataset snapshot in
  let found := if bool_decide (key ∈ fz_snapshots z) then
                 match base with
                 | Some b =>
                     let base_key := snapshot_key dataset b in
                     if bool_decide (base_key ∈ fz_snapshots z) then Ok tt else Err (ZNotFound base_key)
                 | None => Ok tt
                 end
               else Err (ZNotFound key) in
  match found with
  | Err e => (Err e, EmptyString)
  | Ok _ =>
      (match out_error with Some e => Err (ZSpawn "fake zfs send" e) | None => Ok tt end,
       "keel-zfs-fake-send:" +:+ dataset +:+ "@" +:+ snapshot +:+ ":base="
       +:+ default "none" base +:+ newline)
  end.

Definition parse_fake_stream (buf : string) : option (string * option string) :=
  rest ← strip_prefix "keel-zfs-fake-send:" buf;
  let rest := default rest (strip_suffix_char (ascii_of_N 10) rest) in
  '(sent, base_part) ← split_once_str ":base=" rest;
  '(_, snap) ← split_once "@"%char sent;
  Some (snap, if String.eqb base_part "none" then None else Some base_part).

Definition fake_receive_snapshot (dataset input : string) (z : FakeZfsManager)
    : result ZfsError unit * FakeZfsManager :=
  match parse_fake_stream input with
  | None => (Err (ZCommandFailed "zfs receive (fake)" 256 "malformed stream"), z)
  | Some (snap, base) =>
      let received := mkFakeZfsManager ({[dataset]} ∪ fz_datasets z)
                        ({[snapshot_key dataset snap]} ∪ fz_snapshots z) (fz_busy z) in
      match base with
      | Some b =>
          let base_key := snapshot_key dataset b in
          if bool_decide (base_key ∈ fz_snapshots z) then (Ok tt, received)
          else (Err (ZCommandFailed "zfs receive (fake)" 256
                       ("cannot receive incremental stream: base snapshot " +:+ base_key
                        +:+ " does not exist")), z)
      | None => (Ok tt, received)
      end
  end.

#[global] Instance fake_zfs_manager : ZfsManager FakeZfsManager := {|
  dataset_exists := fake_dataset_exists;
  clone_from_base := fake_clone_from_base;
  create_volume := fake_create_volume;
  destroy_dataset := fake_destroy_dataset;
  snapshot := fake_snapshot;
  destroy_snapshot := fake_destroy_snapshot;
  send_snapshot := fake_send_snapshot;
  receive_snapshot := fake_receive_snapshot
|}.

(** ** [FakeNetManager] *)

Record FakeNetManager : Type := mkFakeNetManager {
  fn_bridges : gset string;
  fn_bridge_addresses : gmap string string;
  fn_attachments : gmap string (string * string * string);
  fn_routes : gmap string string;
  fn_aliases : gmap string (gset string)
}.

Definition fake_ensure_bridge_exists (bridge : string) (n : FakeNetManager)
    : result NetError unit * FakeNetManager :=
  (Ok tt, mkFakeNetManager ({[bridge]} ∪ fn_bridges n) (fn_bridge_addresses n)
            (fn_attachments n) (fn_routes n) (fn_aliases n)).

Definition fake_attach_jail {I : Ipnet} (jail_name bridge epair_base address : string)
    (n : FakeNetManager) : comp (result NetError unit * FakeNetManager) :=
  if bool_decide (bridge ∈ fn_bridges n) then
    gateway ← bridge_gateway address;
    Val (Ok tt, mkFakeNetManager (fn_bridges n) (<[bridge := gateway]> (fn_bridge_addresses n))
                  (<[epair_base := (jail_name, bridge, address)]> (fn_attachments n))
                  (fn_routes n) (fn_aliases n))
  else Val (Err (NNotFound bridge), n).

Definition fake_detach_jail (epair_base : string) (n : FakeNetManager)
    : result NetError unit * FakeNetManager :=
  (Ok tt, mkFakeNetManager (fn_bridges n) (fn_bridge_addresses n)
            (delete epair_base (fn_attachments n)) (fn_routes n) (fn_aliases n)).

Definition fake_add_route (subnet gateway_addr : string) (n : FakeNetManager)
    : result NetError unit * FakeNetManager :=
  (Ok tt, mkFakeNetManager (fn_bridges n) (fn_bridge_addresses n) (fn_attachments n)
            (<[subnet := gateway_addr]> (fn_routes n)) (fn_aliases n)).

Definition fake_remove_route (subnet : string) (n : FakeNetManager)
    : result NetError unit * FakeNetManager :=
  (Ok tt, mkFakeNetManager (fn_bridges n) (fn_bridge_addresses n) (fn_attachments n)
            (delete subnet (fn_routes n)) (fn_aliases n)).

Definition fake_add_alias (bridge address : string) (n : FakeNetManager)
    : result NetError unit * FakeNetManager :=
  let set := default ∅ (fn_aliases n !! bridge) in
  (Ok tt, mkFakeNetManager (fn_bridges n) (fn_bridge_addresses n) (fn_attachments n)
            (fn_routes n) (<[bridge := {[address]} ∪ set]> (fn_aliases n))).

Definition fake_remove_alias (bridge address : string) (n : FakeNetManager)
    : result NetError unit * FakeNetManager :=
  (Ok tt, match fn_aliases n !! bridge with
          | Some set =>
              mkFakeNetManager (fn_bridges n) (fn_bridge_addresses n) (fn_attachments n)
                (fn_routes n) (<[bridge := set ∖ {[address]}]> (fn_aliases n))
          | None => n
          end).

#[global] Instance fake_net_manager {I : Ipnet} : NetManager FakeNetManager := {|
  ensure_bridge_exists := fake_ensure_bridge_exists;
  attach_jail := fake_attach_jail;
  detach_jail := fake_detach_jail;
  add_route := fake_add_route;
  remove_route := fake_remove_route;
  add_alias := fake_add_alias;
  remove_alias := fake_remove_alias
|}.
