(* ===== verification/VolumeData.v ===== *)
(** * What a ZFS dataset holds

    The traits of [keel-zfs/src/lib.rs] speak of names only; what replication
    moves is data.  [ZfsData] states what zfs(8) documents about the data and
    the snapshots of a dataset under the eight operations of [ZfsManager], for
    the commands that [keel-zfs/src/cli.rs] runs ([zfs clone], [zfs create],
    [zfs destroy] without [-r], [zfs snapshot], [zfs send], [zfs send -i] and
    [zfs receive] without [-F]).  The names go to the tool as they are, and it also
    takes snapshot names: [zfs destroy d@s] destroys snapshots of [d], and
    [zfs receive d@s] receives into [d].  ZFS itself is not code of the repository: the
    class is what the theorems on data assume of it. *)

From S2P Require Import Prelude RustStr Text Spec AgentHost.

(** ** Datasets *)

(** The target [t] names a snapshot of [d] (or several, [d@a,b] and [d@a%b]). *)
Definition snapshot_of (t d : string) : Prop :=
  exists s, t = d +:+ "@" +:+ s /\ contains_char "/"%char s = false.
(** The name of one snapshot. *)
Definition one_snapshot (s : string) : Prop :=
  contains_char "@"%char s = false /\ contains_char ","%char s = false /\ contains_char "%"%char s = false.

Lemma snapshot_of_ne t d : snapshot_of t d -> d <> t.
Proof.
  intros (s & -> & _) E. apply (f_equal String.length) in E. rewrite !length_app_str in E.
  change (String.length "@") with 1%nat in E. lia.
Qed.

(** A path whose last component has no at sign names no snapshot. *)
Lemma not_snapshot_of a n d : contains_char "@"%char n = false -> ~ snapshot_of (a +:+ String "/" n) d.
Proof.
  intros Hn (s & E & Hs). revert d E. induction a as [|c a IH]; intros [|e d] E; autorewrite with keel_str in E.
  - discriminate E.
  - injection E as _ ->. by rewrite contains_char_app, orb_true_r in Hn.
  - injection E as _ <-. by rewrite contains_char_app, orb_true_r in Hs.
  - injection E as _ E. by apply (IH d).
Qed.

#[global] Instance snapshot_of_dec t d : Decision (snapshot_of t d).
Proof.
  destruct (strip_prefix (d +:+ "@") t) as [s|] eqn:E.
  - apply strip_prefix_Some in E. rewrite <- app_assoc_str in E.
    destruct (contains_char "/"%char s) eqn:Es; [right|left; by exists s].
    intros (s' & E' & Hs'). rewrite E' in E. do 2 apply app_inv_l_str in E. congruence.
  - right. intros (s & -> & _). by rewrite app_assoc_str, strip_prefix_app in E.
Defined.

Section volumes.
Context {Data Snap : Type}.

(** The live data of a dataset and its snapshots, newest first. *)
Record Volume : Type := mkVolume {
  vl_data : Data;
  vl_snapshots : list (string * Snap)
}.

Fixpoint assoc_find (name : string) (l : list (string * Snap)) : option Snap :=
  match l with
  | [] => None
  | (n, x) :: l => if String.eqb n name then Some x else assoc_find name l
  end.

Definition vl_find (name : string) (v : Volume) : option Snap := assoc_find name (vl_snapshots v).
Definition vl_head (v : Volume) : option Snap := snd <$> head (vl_snapshots v).
Definition vl_take (name : string) (x : Snap) (v : Volume) : Volume :=
  mkVolume (vl_data v) ((name, x) :: vl_snapshots v).
Definition vl_drop (name : string) (v : Volume) : Volume :=
  mkVolume (vl_data v) (List.filter (fun p => negb (String.eqb p.1 name)) (vl_snapshots v)).

Context (sn_data : Snap -> Data).

(** A dataset no operation has written: at most snapshots of its data were taken. *)
Definition vl_kept (v v' : Volume) : Prop :=
  vl_data v' = vl_data v /\
  exists l, vl_snapshots v' = l ++ vl_snapshots v /\ Forall (fun p => sn_data p.2 = vl_data v) l.

(** A dataset that lost snapshots, and nothing else. *)
Definition vl_trimmed (v v' : Volume) : Prop :=
  vl_data v' = vl_data v /\ vl_snapshots v' `sublist_of` vl_snapshots v.

(** An incremental stream goes onto a dataset whose newest snapshot is the
    stream's base and that was not written since; a full one onto no dataset. *)
Definition receivable (base : option Snap) (d : option Volume) : Prop :=
  match base, d with
  | None, None => True
  | Some y, Some v => vl_head v = Some y /\ vl_data v = sn_data y
  | _, _ => False
  end.
Definition vl_received (name : string) (x : Snap) (d : option Volume) : Volume :=
  mkVolume (sn_data x) ((name, x) :: from_option vl_snapshots [] d).

#[global] Instance vl_kept_preorder : PreOrder vl_kept.
Proof.
  split; [intros v; split; [done|by exists []]|].
  intros v1 v2 v3 [E1 (l1 & S1 & F1)] [E2 (l2 & S2 & F2)]. split; [congruence|].
  exists (l2 ++ l1). rewrite S2, S1, app_assoc. split; [done|]. apply Forall_app. split; [|done].
  rewrite E1 in F2. done.
Qed.

Lemma vl_kept_take name x v : sn_data x = vl_data v -> vl_kept v (vl_take name x v).
Proof. intros E. split; [done|]. exists [(name, x)]. split; [done|]. by constructor. Qed.

#[global] Instance vl_trimmed_reflexive : Reflexive vl_trimmed.
Proof. by split. Qed.

Lemma vl_trimmed_drop name v : vl_trimmed v (vl_drop name v).
Proof.
  split; [done|]. cbn. induction (vl_snapshots v) as [|p l IH]; [done|]. cbn.
  destruct (negb _); by constructor.
Qed.

Lemma vl_find_take name x v : vl_find name (vl_take name x v) = Some x.
Proof. unfold vl_find. cbn. by rewrite String.eqb_refl. Qed.

Lemma vl_find_take_ne name n x v : n <> name -> vl_find name (vl_take n x v) = vl_find name v.
Proof. intros H%String.eqb_neq. unfold vl_find. cbn. by rewrite H. Qed.

Lemma vl_find_drop_ne name n v : n <> name -> vl_find name (vl_drop n v) = vl_find name v.
Proof.
  intros H. unfold vl_find. cbn. induction (vl_snapshots v) as [|[m x] l IH]; [done|]. cbn.
  destruct (String.eqb_spec m n) as [->|_]; cbn; rewrite IH; [|done].
  by apply String.eqb_neq in H as ->.
Qed.

Lemma vl_find_drop_None name n v : vl_find name v = None -> vl_find name (vl_drop n v) = None.
Proof.
  unfold vl_find. cbn. induction (vl_snapshots v) as [|[m x] l IH]; [done|]. cbn.
  destruct (String.eqb m name) eqn:Em; [done|]. intros H.
  destruct (String.eqb m n); cbn; rewrite ?Em; auto.
Qed.
End volumes.
Arguments Volume : clear implicits.

(** ** The contract of zfs(8) *)

(** [volume z d]: the dataset [d] of the host [z], if it exists.  [carries st b n x]:
    the stream [st] is a complete [zfs send] of the snapshot [x] taken under the name
    [n], relative to [b].  [zd_healthy z]: the commands run, the pool has room and
    the parent datasets exist. *)
Class ZfsData (Zf : Type) {HZ : ZfsManager Zf} (Data Snap : Type) : Type := {
  sn_data : Snap -> Data;
  volume : Zf -> string -> option (Volume Data Snap);
  carries : string -> option Snap -> string -> Snap -> Prop;
  zd_healthy : Zf -> Prop;

  (** The checksummed stream determines what it carries. *)
  zd_carries_inj st b n x b' n' x' :
    carries st b n x -> carries st b' n' x' -> b = b' /\ n = n' /\ x = x';

  zd_carries_empty b n x : ~ carries EmptyString b n x;

  (** [zfs clone] and [zfs create] refuse an existing target; a clone may take a
      snapshot of its base.  [zfs destroy] removes one dataset, without snapshots. *)
  zd_clone b t z d v : volume z d = Some v ->
    exists v', volume (clone_from_base b t z).2 d = Some v' /\ vl_kept sn_data v v';
  zd_create t q z d v : volume z d = Some v ->
    exists v', volume (create_volume t q z).2 d = Some v' /\ vl_kept sn_data v v';
  zd_destroy_ne t z d : d <> t -> ~ snapshot_of t d -> volume (destroy_dataset t z).2 d = volume z d;
  zd_destroy_snapshots t z d : snapshot_of t d ->
    option_Forall2 vl_trimmed (volume z d) (volume (destroy_dataset t z).2 d);
  zd_destroy_refused t z v : volume z t = Some v -> vl_snapshots v <> [] ->
    exists e z', destroy_dataset t z = (Err e, z') /\ volume z' t = Some v;

  (** [zfs snapshot] names the data the dataset has now, once. *)
  zd_snapshot_ne d s z d' : d' <> d -> volume (snapshot d s z).2 d' = volume z d';
  zd_snapshot d s z r z' : snapshot d s z = (r, z') ->
    match r with
    | Ok _ => exists v x, volume z d = Some v /\ vl_find s v = None /\ sn_data x = vl_data v /\
                volume z' d = Some (vl_take s x v)
    | Err _ => volume z' d = volume z d
    end;
  zd_snapshot_live d s z v : zd_healthy z -> volume z d = Some v -> vl_find s v = None ->
    exists z', snapshot d s z = (Ok tt, z') /\ zd_healthy z';

  (** [zfs destroy d@s]. *)
  zd_destroy_snapshot_ne d s z d' : d' <> d -> volume (destroy_snapshot d s z).2 d' = volume z d';
  zd_destroy_snapshot d s z : one_snapshot s -> volume (destroy_snapshot d s z).2 d = volume z d \/
    volume (destroy_snapshot d s z).2 d = vl_drop s <$> volume z d;
  zd_destroy_snapshot_healthy d s z : zd_healthy z -> zd_healthy (destroy_snapshot d s z).2;

  (** [zfs send] and [zfs send -i]: what is written is not complete unless it is the
      snapshot asked for, and it is complete when the tool succeeds, which it does not
      on a stream that fails. *)
  zd_send z d s base out r st b n x : send_snapshot z d s base out = (r, st) -> carries st b n x ->
    n = s /\ exists v, volume z d = Some v /\ vl_find s v = Some x /\
      b = (base ≫= fun b => vl_find b v) /\ (is_Some base -> is_Some b);
  zd_send_complete z d s base out st : send_snapshot z d s base out = (Ok tt, st) ->
    out = None /\ exists b n x, carries st b n x;
  zd_send_live z d s base v x l : zd_healthy z -> volume z d = Some v ->
    vl_snapshots v = (s, x) :: l -> (forall b, base = Some b -> is_Some (assoc_find b l)) ->
    exists st, send_snapshot z d s base None = (Ok tt, st);

  (** [zfs receive]: all of a complete stream, or nothing.  A failure reported after
      the stream was received (an unmounted target, a reset connection) is a failure. *)
  zd_receive_ne d st z d' : d' <> d -> ~ snapshot_of d d' ->
    volume (receive_snapshot d st z).2 d' = volume z d';
  zd_receive d st z r z' : (forall d', ~ snapshot_of d d') -> receive_snapshot d st z = (r, z') ->
    (volume z' d = volume z d /\ r <> Ok tt) \/
    (exists b n x, carries st b n x /\ receivable sn_data b (volume z d) /\
       volume z' d = Some (vl_received sn_data n x (volume z d)));
  zd_receive_live d st z b n x : (forall d', ~ snapshot_of d d') -> zd_healthy z -> carries st b n x ->
    receivable sn_data b (volume z d) -> from_option (vl_find n) None (volume z d) = None ->
    exists z', receive_snapshot d st z = (Ok tt, z') /\ zd_healthy z'
}.
Arguments zd_healthy {_ _ _ _ _}.
Arguments carries {_ _ _ _ _}.

(** A host on which the data of the dataset [d] was not touched. *)
Section kept.
Context {Zf Data Snap : Type} {HZ : ZfsManager Zf} {HD : ZfsData Zf Data Snap}.
Implicit Types z : Zf.

Definition dataset_kept (d : string) z z' : Prop :=
  forall v, volume z d = Some v -> exists v', volume z' d = Some v' /\ vl_kept sn_data v v'.

#[global] Instance dataset_kept_preorder d : PreOrder (dataset_kept d).
Proof.
  split; [intros z v E; by exists v|]. intros z1 z2 z3 H1 H2 v E.
  destruct (H1 v E) as (v1 & E1 & K1). destruct (H2 v1 E1) as (v2 & E2 & K2).
  exists v2. split; [done|]. by transitivity v1.
Qed.

Lemma dataset_kept_same d z z' : volume z' d = volume z d -> dataset_kept d z z'.
Proof. intros E v Ev. exists v. split; [by rewrite E|done]. Qed.

Lemma clone_kept b t z d : dataset_kept d z (clone_from_base b t z).2.
Proof. intros v E. by apply zd_clone. Qed.
Lemma create_kept t q z d : dataset_kept d z (create_volume t q z).2.
Proof. intros v E. by apply zd_create. Qed.
Lemma destroy_kept t z d : d <> t -> ~ snapshot_of t d -> dataset_kept d z (destroy_dataset t z).2.
Proof. intros Hne Hs. by apply dataset_kept_same, zd_destroy_ne. Qed.

(** Once a snapshot was taken, it stays the newest one: nothing but the
    replication of the dataset itself removes one. *)
Lemma vl_kept_head (v v' : Volume Data Snap) x : vl_kept sn_data v v' -> vl_head v' = Some x ->
  vl_head v = Some x \/ sn_data x = vl_data v.
Proof.
  intros [_ ([|[n y] l] & E & F)] Hh; unfold vl_head in *; rewrite E in Hh; [by left|right].
  cbn in Hh. injection Hh as <-. by apply Forall_cons in F as [].
Qed.
End kept.
#[global] Hint Resolve clone_kept create_kept dataset_kept_same : keel.

(** ** The contract can be kept

    A pool that keeps its datasets in a table: data is text, a snapshot is a
    serial number with the data it froze, a stream the text of what it carries. *)

Record Pool : Type := mkPool { pl_volumes : gmap string (Volume string (N * string)); pl_serial : N }.
Definition pool_put (d : string) (v : Volume string (N * string)) (z : Pool) : Pool :=
  mkPool (<[d := v]> (pl_volumes z)) (pl_serial z).

Definition pool_fail (z : Pool) : result ZfsError unit * Pool := (Err (ZSpawn "zfs" "refused"), z).

Definition pool_clone (b t : string) (z : Pool) : result ZfsError unit * Pool :=
  match pl_volumes z !! b, pl_volumes z !! t with
  | Some v, None => (Ok tt, pool_put t (mkVolume (vl_data v) []) z)
  | _, _ => pool_fail z
  end.
Definition pool_create (t _quota : string) (z : Pool) : result ZfsError unit * Pool :=
  match pl_volumes z !! t with
  | Some _ => (Ok tt, z)
  | None => (Ok tt, pool_put t (mkVolume EmptyString []) z)
  end.
Definition pool_snapshot (d s : string) (z : Pool) : result ZfsError unit * Pool :=
  match pl_volumes z !! d with
  | Some v =>
      match vl_find s v with
      | None => (Ok tt, mkPool (<[d := vl_take s (pl_serial z, vl_data v) v]> (pl_volumes z)) (pl_serial z + 1))
      | Some _ => pool_fail z
      end
  | None => pool_fail z
  end.
Definition pool_destroy_snapshot (d s : string) (z : Pool) : result ZfsError unit * Pool :=
  match pl_volumes z !! d with
  | Some v => (Ok tt, pool_put d (vl_drop s v) z)
  | None => pool_fail z
  end.

(** The text after a dataset and an at sign, with the dataset. *)
Definition pool_target (t : string) : option (string * string) :=
  '(d, s) ← split_once "@"%char t;
  if contains_char "/"%char s then None else Some (d, s).
Definition pool_destroy (t : string) (z : Pool) : result ZfsError unit * Pool :=
  match pl_volumes z !! t with
  | Some (mkVolume _ []) => (Ok tt, mkPool (delete t (pl_volumes z)) (pl_serial z))
  | Some _ => pool_fail z
  | None => match pool_target t with
            | Some (d, s) => pool_destroy_snapshot d s z
            | None => pool_fail z
            end
  end.

Definition pool_stream (b : option (N * string)) (n : string) (x : N * string) : string :=
  bits_to_string (encode (b, n, x)).
Definition pool_decode (st : string) : option (option (N * string) * string * (N * string)) :=
  p ← bits_parse st; decode p.
Definition pool_offer (z : Pool) (d s : string) (base : option string) : result ZfsError string :=
  match pl_volumes z !! d with
  | Some v =>
      match vl_find s v, base with
      | Some x, None => Ok (pool_stream None s x)
      | Some x, Some b => match vl_find b v with
                          | Some y => Ok (pool_stream (Some y) s x)
                          | None => Err (ZNotFound b)
                          end
      | None, _ => Err (ZNotFound s)
      end
  | None => Err (ZNotFound d)
  end.
Definition pool_send (z : Pool) (d s : string) (base out : option string) : result ZfsError unit * string :=
  match pool_offer z d s base with
  | Err e => (Err e, EmptyString)
  | Ok st => (match out with Some e => Err (ZSpawn "zfs send" e) | None => Ok tt end, st)
  end.
#[export] Instance receivable_dec b d : Decision (receivable (snd : N * string -> string) b d).
Proof. unfold receivable. destruct b, d; apply _. Defined.
Definition pool_receive (d st : string) (z : Pool) : result ZfsError unit * Pool :=
  match pool_decode st with
  | Some (b, n, x) =>
      if bool_decide (receivable snd b (pl_volumes z !! d)
                      /\ from_option (vl_find n) None (pl_volumes z !! d) = None)
      then (Ok tt, pool_put d (vl_received snd n x (pl_volumes z !! d)) z) else pool_fail z
  | None => pool_fail z
  end.

#[export] Instance pool_zfs : ZfsManager Pool := {|
  dataset_exists z d := Ok (is_some (pl_volumes z !! d));
  clone_from_base := pool_clone;
  create_volume := pool_create;
  destroy_dataset := pool_destroy;
  snapshot := pool_snapshot;
  destroy_snapshot := pool_destroy_snapshot;
  send_snapshot := pool_send;
  receive_snapshot := pool_receive
|}.

Definition pool_carries (st : string) (b : option (N * string)) (n : string) (x : N * string) : Prop :=
  pool_decode st = Some (b, n, x).

Lemma pool_carries_stream b n x : pool_carries (pool_stream b n x) b n x.
Proof. unfold pool_carries, pool_decode, pool_stream. rewrite bits_parse_to_string. apply decode_encode. Qed.

Lemma pool_put_kept t v0 z d v : pl_volumes z !! t = None -> pl_volumes z !! d = Some v ->
  exists v', pl_volumes (pool_put t v0 z) !! d = Some v' /\ vl_kept (snd : N * string -> string) v v'.
Proof. intros H1 H2. exists v. split; [|done]. cbn. rewrite lookup_insert_ne; [done|congruence]. Qed.

Lemma pool_snapshot_spec d s z r z' : pool_snapshot d s z = (r, z') ->
  match r with
  | Ok _ => exists v x, pl_volumes z !! d = Some v /\ vl_find s v = None /\ snd x = vl_data v /\
              pl_volumes z' !! d = Some (vl_take s x v)
  | Err _ => pl_volumes z' !! d = pl_volumes z !! d
  end.
Proof.
  unfold pool_snapshot. destruct (pl_volumes z !! d) as [v|] eqn:Ev; [|intros [= <- <-]; by rewrite Ev].
  destruct (vl_find s v) eqn:Es; intros [= <- <-]; [by rewrite Ev|].
  exists v, (pl_serial z, vl_data v). cbn. by rewrite lookup_insert_eq.
Qed.

Lemma pool_offer_spec z d s base st : pool_offer z d s base = Ok st ->
  exists v x, pl_volumes z !! d = Some v /\ vl_find s v = Some x /\
    (is_Some base -> is_Some (base ≫= fun b => vl_find b v)) /\
    pool_carries st (base ≫= fun b => vl_find b v) s x.
Proof.
  unfold pool_offer. destruct (pl_volumes z !! d) as [v|]; [|done].
  destruct (vl_find s v) as [x|] eqn:Es; [|done]. intros E. exists v, x. split; [done|]. split; [done|].
  destruct base as [b|]; cbn; [destruct (vl_find b v) as [y|]; [|done]|];
    injection E as <-; (split; [|apply pool_carries_stream]); [by eauto|by intros []].
Qed.

Lemma pool_carries_empty b n x : ~ pool_carries EmptyString b n x.
Proof. intros E. vm_compute in E. discriminate E. Qed.

Lemma pool_send_spec z d s base out r st b n x : pool_send z d s base out = (r, st) -> pool_carries st b n x ->
  n = s /\ exists v, pl_volumes z !! d = Some v /\ vl_find s v = Some x /\
    b = (base ≫= fun b => vl_find b v) /\ (is_Some base -> is_Some b).
Proof.
  unfold pool_send. destruct (pool_offer z d s base) as [st0|e] eqn:E;
    [|intros [= _ <-] H; by destruct (pool_carries_empty _ _ _ H)].
  intros [= _ <-] H. destruct (pool_offer_spec _ _ _ _ _ E) as (v & y & Ev & Ef & Hb & Hc).
  unfold pool_carries in *. rewrite H in Hc. injection Hc as -> -> ->. split; [done|]. by exists v.
Qed.

Lemma pool_send_complete z d s base out st : pool_send z d s base out = (Ok tt, st) ->
  out = None /\ exists b n x, pool_carries st b n x.
Proof.
  unfold pool_send. destruct (pool_offer z d s base) as [st0|e] eqn:E; [|done]. destruct out; [done|].
  intros [= <-]. split; [done|]. destruct (pool_offer_spec _ _ _ _ _ E) as (v & y & _ & _ & _ & Hc). by eauto.
Qed.

Lemma pool_send_live z d s base v x l : pl_volumes z !! d = Some v -> vl_snapshots v = (s, x) :: l ->
  (forall b, base = Some b -> is_Some (assoc_find b l)) -> exists st, pool_send z d s base None = (Ok tt, st).
Proof.
  intros Ev El Hb. unfold pool_send, pool_offer. rewrite Ev. unfold vl_find. rewrite El. cbn. rewrite String.eqb_refl.
  destruct base as [b|]; [|by eexists]. destruct (Hb b eq_refl) as [y Hy].
  destruct (String.eqb s b); [by eexists|]. rewrite Hy. by eexists.
Qed.

Lemma pool_target_Some t d s : pool_target t = Some (d, s) -> snapshot_of t d.
Proof.
  unfold pool_target. destruct (split_once _ _) as [[d0 s0]|] eqn:E; [|done]. cbn.
  destruct (contains_char "/"%char s0) eqn:Es; [done|]. intros [= -> ->].
  apply split_once_Some in E as [-> _]. by exists s.
Qed.

Lemma pool_destroy_snapshot_ne d s z d' : d' <> d ->
  pl_volumes (pool_destroy_snapshot d s z).2 !! d' = pl_volumes z !! d'.
Proof.
  intros Hne. unfold pool_destroy_snapshot. destruct (pl_volumes z !! d); [|done]. by apply lookup_insert_ne.
Qed.

Lemma pool_destroy_snapshot_eq d s z :
  pl_volumes (pool_destroy_snapshot d s z).2 !! d = vl_drop s <$> pl_volumes z !! d.
Proof.
  unfold pool_destroy_snapshot. destruct (pl_volumes z !! d) as [v|] eqn:Ev; cbn; [|by rewrite Ev].
  by rewrite lookup_insert_eq.
Qed.

Lemma pool_destroy_ne t z d : d <> t -> ~ snapshot_of t d ->
  pl_volumes (pool_destroy t z).2 !! d = pl_volumes z !! d.
Proof.
  intros Hne Hs. unfold pool_destroy. destruct (pl_volumes z !! t) as [[? []]|]; [by apply lookup_delete_ne|done|].
  destruct (pool_target t) as [[d0 s]|] eqn:Et; [|done]. apply pool_target_Some in Et.
  apply pool_destroy_snapshot_ne. by intros ->.
Qed.

Lemma pool_destroy_snapshots t z d : snapshot_of t d ->
  option_Forall2 vl_trimmed (pl_volumes z !! d) (pl_volumes (pool_destroy t z).2 !! d).
Proof.
  intros Hs. pose proof (snapshot_of_ne t d Hs) as Hne. unfold pool_destroy.
  destruct (pl_volumes z !! t) as [[? []]|]; [|reflexivity|].
  { cbn [snd pl_volumes]. by rewrite lookup_delete_ne. }
  destruct (pool_target t) as [[d0 s]|]; [|reflexivity]. destruct (decide (d = d0)) as [->|Hd].
  - rewrite pool_destroy_snapshot_eq. destruct (pl_volumes z !! d0); cbn; constructor. apply vl_trimmed_drop.
  - by rewrite pool_destroy_snapshot_ne.
Qed.

Lemma pool_receive_spec d st z r z' : pool_receive d st z = (r, z') ->
  (pl_volumes z' !! d = pl_volumes z !! d /\ r <> Ok tt) \/
  (exists b n x, pool_carries st b n x /\ receivable snd b (pl_volumes z !! d) /\
     pl_volumes z' !! d = Some (vl_received snd n x (pl_volumes z !! d))).
Proof.
  unfold pool_receive, pool_carries. destruct (pool_decode st) as [[[b n] x]|]; [|intros [= <- <-]; by left].
  case_bool_decide as Hr; intros [= <- <-]; [right|by left].
  exists b, n, x. destruct Hr. cbn. by rewrite lookup_insert_eq.
Qed.

Lemma pool_receive_live d st z b n x : pool_carries st b n x -> receivable snd b (pl_volumes z !! d) ->
  from_option (vl_find n) None (pl_volumes z !! d) = None ->
  exists z', pool_receive d st z = (Ok tt, z') /\ True.
Proof.
  intros Hc Hr Hn. unfold pool_receive. rewrite Hc, bool_decide_eq_true_2 by done. by eexists.
Qed.

#[export] Instance pool_data : ZfsData Pool string (N * string).
Proof.
  refine {| sn_data := snd; volume z d := pl_volumes z !! d; carries := pool_carries; zd_healthy _ := True |};
    cbn.
  - unfold pool_carries. intros st b n x b' n' x' E E'. rewrite E in E'. by simplify_eq.
  - apply pool_carries_empty.
  - intros b t z d v E. unfold pool_clone. destruct (pl_volumes z !! b), (pl_volumes z !! t) eqn:Et;
      try (by exists v). by apply pool_put_kept.
  - intros t q z d v E. unfold pool_create. destruct (pl_volumes z !! t) eqn:Et; [by exists v|].
    by apply pool_put_kept.
  - apply pool_destroy_ne.
  - apply pool_destroy_snapshots.
  - intros t z v E Hs. unfold pool_destroy. rewrite E. destruct v as [? []]; [done|]. by eexists _, _.
  - intros d s z d' Hne. unfold pool_snapshot. destruct (pl_volumes z !! d); [|done].
    destruct (vl_find _ _); [done|]. by apply lookup_insert_ne.
  - apply pool_snapshot_spec.
  - intros d s z v _ Ev Es. unfold pool_snapshot. rewrite Ev, Es. by eexists.
  - apply pool_destroy_snapshot_ne.
  - intros d s z _. right. apply pool_destroy_snapshot_eq.
  - done.
  - apply pool_send_spec.
  - apply pool_send_complete.
  - intros z d s base v x l _. apply pool_send_live.
  - intros d st z d' Hne _. unfold pool_receive. destruct (pool_decode st) as [[[b n] x]|]; [|done].
    case_bool_decide; [|done]. by apply lookup_insert_ne.
  - intros d st z r z' _. apply pool_receive_spec.
  - intros d st z b n x _ _. apply pool_receive_live.
Defined.
