(* ===== verification/Store.v ===== *)
(** * Records on disk

    [keel-agentd/src/record.rs], [store.rs], [ingress_record.rs] and
    [ingress_store.rs]: one YAML file per record, replaced by writing a
    temporary file and renaming it.  A [Disk] is the content of one directory;
    it also says which operations fail, so that every I/O error path is
    covered, and what a failed or interrupted write leaves in the file. *)

From S2P Require Import Prelude RustStr Spec Codecs.

(** ** [record.rs] and [ingress_record.rs] *)

Record JailRecord : Type := mkJailRecord {
  jr_spec : JailSpec;
  jr_epair_ordinal : N
}.
Definition jr_name (r : JailRecord) : string := meta_name (js_metadata (jr_spec r)).

Record IngressRecord : Type := mkIngressRecord {
  ir_spec : IngressSpec;
  ir_cert_expires_at_unix : option Z
}.
Definition ir_name (r : IngressRecord) : string := meta_name (is_metadata (ir_spec r)).

#[global] Instance JailRecord_repr : Repr JailRecord := fun r => (jr_epair_ordinal r <= u32_max)%N.
#[global] Instance IngressRecord_repr : Repr IngressRecord := fun r =>
  (ib_port (isb_backend (is_spec (ir_spec r))) <= u16_max)%N /\
  match ir_cert_expires_at_unix r with
  | Some t => (- 2 ^ 63 <= t < 2 ^ 63)%Z
  | None => True
  end.

(** Executable codecs, as in [Codecs]. *)
#[global] Instance JailRecord_eq_dec : EqDecision JailRecord.
Proof. solve_decision. Defined.
#[global] Instance JailRecord_countable : Countable JailRecord.
Proof.
  refine (inj_countable' (fun x => (jr_spec x, jr_epair_ordinal x))
    (fun '(a0, a1) => mkJailRecord a0 a1) _).
  by intros [].
Defined.
#[global] Instance IngressRecord_eq_dec : EqDecision IngressRecord.
Proof. solve_decision. Defined.
#[global] Instance IngressRecord_countable : Countable IngressRecord.
Proof.
  refine (inj_countable' (fun x => (ir_spec x, ir_cert_expires_at_unix x))
    (fun '(a0, a1) => mkIngressRecord a0 a1) _).
  by intros [].
Defined.
#[global] Instance repr_dec_jail_record (x : JailRecord) : Decision (repr x).
Proof. unfold repr, JailRecord_repr. apply _. Defined.
#[global] Instance repr_dec_ingress_record (x : IngressRecord) : Decision (repr x).
Proof. unfold repr, IngressRecord_repr. destruct (ir_cert_expires_at_unix x); apply _. Defined.
Definition yaml_jail_record : SerdeYaml JailRecord := serde_countable.
Definition yaml_ingress_record : SerdeYaml IngressRecord := serde_countable.

Definition jail_name (spec_name : string) : string := "keel-" +:+ spec_name.
Definition INGRESS_JAIL_BRIDGE_ADDR : string := "10.0.0.2".
Definition base_dataset_path (pool image : string) : string := pool +:+ "/keel/" +:+ image.
Definition jail_dataset_path (pool spec_name : string) : string :=
  pool +:+ "/keel/jails/" +:+ spec_name.
Definition jail_rootfs_path (pool spec_name : string) : string :=
  "/" +:+ jail_dataset_path pool spec_name.
Definition epair_base_name (ordinal : N) : string := "epair" +:+ u_to_string ordinal.
Definition volume_dataset_path (pool name : string) : string :=
  pool +:+ "/keel/volumes/" +:+ name.
Definition volume_mountpoint (pool name : string) : string :=
  "/" +:+ volume_dataset_path pool name.

Lemma jail_name_inj n1 n2 : jail_name n1 = jail_name n2 -> n1 = n2.
Proof.
  intros E. apply (f_equal (strip_prefix "keel-")) in E. unfold jail_name in E.
  rewrite !strip_prefix_app in E. by simplify_eq.
Qed.
Lemma epair_base_name_inj o1 o2 : epair_base_name o1 = epair_base_name o2 -> o1 = o2.
Proof.
  unfold epair_base_name. intros E. apply (f_equal (strip_prefix "epair")) in E.
  rewrite !strip_prefix_app in E. injection E as E. apply (f_equal parse_digits) in E.
  rewrite !parse_digits_u_to_string in E. by simplify_eq.
Qed.

(** ** Files *)

(** [Path::extension]: what follows the last dot, unless nothing precedes it. *)
Definition extension (file : string) : option string :=
  match rsplit_once "."%char file with
  | Some (EmptyString, _) => None
  | Some (_, e) => Some e
  | None => None
  end.

Inductive io_op : Type := CreateDir | ReadDir | ReadFile | WriteFile | RenameFile | RemoveFile.

Record Disk : Type := mkDisk {
  dk_files : gmap string string;
  dk_fault : io_op -> string -> option string;
  dk_torn : string -> string
}.

Definition with_files (f : gmap string string) (d : Disk) : Disk :=
  mkDisk f (dk_fault d) (dk_torn d).

Inductive StoreError : Type :=
  | Io (path e : string)
  | Parse (path e : string).

Definition io {E} (d : Disk) (op : io_op) (file : string) (err : string -> E) : result E unit :=
  match dk_fault d op file with
  | Some e => Err (err e)
  | None => Ok tt
  end.

Definition path_join (dir file : string) : string := dir +:+ "/" +:+ file.

(** ** The store, for either kind of record *)

Section store.
Context {HO : HashOrder}.
Context {A : Type} {RA : Repr A} {YA : SerdeYaml A}.
Variable name_of : A -> string.
(** The directory, for error messages. *)
Variable dir : string.

Definition yaml_file (name : string) : string := name +:+ ".yaml".
Definition tmp_file (name : string) : string := name +:+ ".yaml.tmp".

Fixpoint load_entries (d : Disk) (entries : list (string * string)) : result StoreError (list A) :=
  match entries with
  | [] => Ok []
  | (file, content) :: rest =>
      if bool_decide (extension file = Some "yaml") then
        _ ← io d ReadFile file (Io (path_join dir file));
        record ← map_err (Parse (path_join dir file)) (from_yaml content);
        records ← load_entries d rest;
        Ok (record :: records)
      else load_entries d rest
  end.

Definition load_all (d : Disk) : result StoreError (list A) :=
  _ ← io d CreateDir dir (Io dir);
  _ ← io d ReadDir dir (Io dir);
  load_entries d (hash_iter (dk_files d)).

Definition save (record : A) (d : Disk) : result StoreError unit * Disk :=
  match io d CreateDir dir (Io dir) with
  | Err e => (Err e, d)
  | Ok _ =>
      let path := yaml_file (name_of record) in
      let tmp_path := tmp_file (name_of record) in
      let content := to_yaml record in
      match io d WriteFile tmp_path (Io (path_join dir tmp_path)) with
      | Err e => (Err e, with_files (<[tmp_path := dk_torn d content]> (dk_files d)) d)
      | Ok _ =>
          let d := with_files (<[tmp_path := content]> (dk_files d)) d in
          match io d RenameFile path (Io (path_join dir path)) with
          | Err e => (Err e, d)
          | Ok _ => (Ok tt, with_files (<[path := content]> (delete tmp_path (dk_files d))) d)
          end
      end
  end.

(** The states a crash during [save] can leave behind. *)
Inductive save_crash (record : A) (d : Disk) : Disk -> Prop :=
  | crash_before : save_crash record d d
  | crash_writing torn :
      save_crash record d (with_files (<[tmp_file (name_of record) := torn]> (dk_files d)) d)
  | crash_renamed :
      save_crash record d
        (with_files (<[yaml_file (name_of record) := to_yaml record]>
                       (delete (tmp_file (name_of record)) (dk_files d))) d).

Definition remove (spec_name : string) (d : Disk) : result StoreError unit * Disk :=
  let path := yaml_file spec_name in
  match io d RemoveFile path (Io (path_join dir path)) with
  | Err e => (Err e, d)
  | Ok _ => (Ok tt, with_files (delete path (dk_files d)) d)
  end.

(** ** File names *)

Lemma rsplit_once_app a s t :
  contains_char a t = false -> rsplit_once a (s +:+ String a t) = Some (s, t).
Proof.
  intros Ht. induction s as [|c s IH]; str_simpl.
  - assert (rsplit_once a t = None) as ->.
    { revert Ht. unfold contains_char. induction t as [|b t IHt]; cbn; [done|].
      intros [Hb Ht]%orb_false_iff. by rewrite IHt, Hb. }
    unfold ascii_eqb. by rewrite bool_decide_eq_true_2.
  - by rewrite IH.
Qed.

Lemma extension_yaml name : name <> EmptyString -> extension (yaml_file name) = Some "yaml".
Proof.
  intros Hn. unfold extension, yaml_file.
  change (name +:+ ".yaml") with (name +:+ String "."%char "yaml").
  rewrite rsplit_once_app by reflexivity. by destruct name.
Qed.

Lemma extension_tmp name : extension (tmp_file name) <> Some "yaml".
Proof.
  unfold extension, tmp_file.
  replace (name +:+ ".yaml.tmp") with ((name +:+ ".yaml") +:+ String "."%char "tmp")
    by (by rewrite <-app_assoc_str).
  rewrite rsplit_once_app by reflexivity. by destruct (name +:+ ".yaml").
Qed.

Lemma app_inj_r s1 s2 t : s1 +:+ t = s2 +:+ t -> s1 = s2.
Proof.
  intros H. assert (String.length s1 = String.length s2) as Hl.
  { apply (f_equal String.length) in H. rewrite !length_app_str in H. lia. }
  revert s2 H Hl. induction s1 as [|c s1 IH]; intros [|b s2]; try done.
  str_simpl. intros [= -> H] [= Hl]. f_equal. by apply IH.
Qed.

Lemma yaml_file_inj n1 n2 : yaml_file n1 = yaml_file n2 -> n1 = n2.
Proof. apply app_inj_r. Qed.

Lemma yaml_not_tmp n1 n2 : n1 <> EmptyString -> yaml_file n1 <> tmp_file n2.
Proof. intros Hn E. apply (extension_tmp n2). rewrite <-E. by apply extension_yaml. Qed.

(** ** What a disk holds *)

(** The directory holds exactly the records of [m], each in the file of its
    name; other files have another extension. *)
Record disk_holds (d : Disk) (m : gmap string A) : Prop := {
  dh_named : forall name r, m !! name = Some r -> name_of r = name /\ name <> EmptyString;
  dh_stored : forall name r, m !! name = Some r ->
    exists content, dk_files d !! yaml_file name = Some content /\ from_yaml content = Ok r;
  dh_only : forall file content, dk_files d !! file = Some content ->
    extension file = Some "yaml" -> exists name, is_Some (m !! name) /\ file = yaml_file name
}.

Definition readable (d : Disk) : Prop :=
  forall op file, op = CreateDir \/ op = ReadDir \/ op = ReadFile -> dk_fault d op file = None.

Lemma load_entries_spec d m entries :
  disk_holds d m -> readable d ->
  NoDup entries.*1 -> (forall f c, (f, c) ∈ entries -> dk_files d !! f = Some c) ->
  exists l, load_entries d entries = Ok l /\ NoDup (name_of <$> l) /\
    forall r, r ∈ l <-> m !! name_of r = Some r /\ yaml_file (name_of r) ∈ entries.*1.
Proof.
  intros Hd Hr. induction entries as [|[file content] entries IH]; intros Hnd Hin.
  - exists []. split; [done|]. split; [constructor|]. intros r. cbn. set_solver.
  - cbn in Hnd. apply NoDup_cons in Hnd as [Hnotin Hnd].
    destruct IH as (l & El & Hndl & Hl); [done|intros f c H; apply Hin; set_solver|].
    assert (dk_files d !! file = Some content) as Hf by (apply Hin; set_solver).
    cbn [load_entries]. case_bool_decide as Hext.
    + destruct (dh_only d m Hd file content Hf Hext) as (name & [r Hm] & ->).
      destruct (dh_stored d m Hd name r Hm) as (content' & Hf' & Hp).
      assert (content' = content) as -> by congruence.
      destruct (dh_named d m Hd name r Hm) as [Hname Hne].
      unfold io. rewrite Hr by auto. rewrite Hp, El. cbn. exists (r :: l). split; [done|].
      split.
      * rewrite fmap_cons. constructor; [|done]. intros (r' & E & Hr')%list_elem_of_fmap.
        apply Hl in Hr' as [_ Hin']. rewrite <-E, Hname in Hin'. done.
      * intros r'. rewrite elem_of_cons, Hl. cbn. rewrite elem_of_cons. split.
        -- intros [->|[Hm' Hin']]; [rewrite Hname; auto|auto].
        -- intros [Hm' [E|Hin']]; [|by right]. left. apply yaml_file_inj in E. congruence.
    + exists l. split; [done|]. split; [done|]. intros r. rewrite Hl. cbn. rewrite elem_of_cons.
      split; [naive_solver|]. intros [Hm [E|Hin']]; [|done]. subst file.
      destruct (dh_named d m Hd _ r Hm) as [_ Hne]. by destruct Hext; apply extension_yaml.
Qed.

Lemma load_all_spec d m :
  disk_holds d m -> readable d ->
  exists l, load_all d = Ok l /\ NoDup (name_of <$> l) /\
    forall r, r ∈ l <-> m !! name_of r = Some r.
Proof.
  intros Hd Hr. unfold load_all, io. rewrite !Hr by auto. cbn.
  destruct (load_entries_spec d m (hash_iter (dk_files d)) Hd Hr) as (l & E & Hnd & Hl).
  - apply NoDup_fst_hash_iter.
  - intros f c. apply elem_of_hash_iter.
  - exists l. split; [done|]. split; [done|]. intros r. rewrite Hl. split; [by intros [? _]|].
    intros Hm. split; [done|]. destruct (dh_stored d m Hd _ r Hm) as (c & Hf & _).
    apply list_elem_of_fmap. exists (yaml_file (name_of r), c). split; [done|].
    by apply elem_of_hash_iter.
Qed.

Lemma disk_holds_empty d : dk_files d = ∅ -> disk_holds d ∅.
Proof. intros E. split; rewrite ?E; [done|done|]. intros f c Hf. by rewrite lookup_empty in Hf. Qed.

Lemma disk_holds_tmp d m name content :
  disk_holds d m -> disk_holds (with_files (<[tmp_file name := content]> (dk_files d)) d) m.
Proof.
  intros [Hn Hs Ho]. split; cbn; [done| |].
  - intros n r Hm. destruct (Hs n r Hm) as (c & Hf & Hp). exists c. split; [|done].
    rewrite lookup_insert_ne; [done|]. apply not_eq_sym, yaml_not_tmp. by eapply Hn.
  - intros file c [[<- _]|[_ Hf]]%lookup_insert_Some Hext; [by apply extension_tmp in Hext|eauto].
Qed.

Lemma disk_holds_insert d m r :
  disk_holds d m -> repr r -> name_of r <> EmptyString ->
  disk_holds (with_files (<[yaml_file (name_of r) := to_yaml r]>
                            (delete (tmp_file (name_of r)) (dk_files d))) d)
    (<[name_of r := r]> m).
Proof.
  intros [Hn Hs Ho] Hrep Hne. split; cbn.
  - intros name r' [[<- <-]|[_ Hm]]%lookup_insert_Some; [done|eauto].
  - intros name r' [[<- <-]|[Hneq Hm]]%lookup_insert_Some.
    + exists (to_yaml r). split; [apply lookup_insert_eq|]. by apply from_to_yaml.
    + destruct (Hs name r' Hm) as (c & Hf & Hp). exists c. split; [|done].
      rewrite lookup_insert_ne by (by intros E%yaml_file_inj).
      rewrite lookup_delete_ne; [done|]. apply not_eq_sym, yaml_not_tmp. by eapply Hn.
  - intros file c [[<- _]|[_ Hf]]%lookup_insert_Some Hext.
    + exists (name_of r). by rewrite lookup_insert_eq.
    + apply lookup_delete_Some in Hf as [_ Hf]. destruct (Ho file c Hf Hext) as (n & Hm & ->).
      exists n. split; [|done]. destruct (decide (name_of r = n)) as [->|];
        [by rewrite lookup_insert_eq|by rewrite lookup_insert_ne].
Qed.

Lemma disk_holds_delete d m name :
  disk_holds d m ->
  disk_holds (with_files (delete (yaml_file name) (dk_files d)) d) (delete name m).
Proof.
  intros [Hn Hs Ho]. split; cbn.
  - intros n r [_ Hm]%lookup_delete_Some. eauto.
  - intros n r [Hne Hm]%lookup_delete_Some. destruct (Hs n r Hm) as (c & Hf & Hp). exists c.
    split; [|done]. rewrite lookup_delete_ne; [done|]. by intros E%yaml_file_inj.
  - intros file c [Hne Hf]%lookup_delete_Some Hext. destruct (Ho file c Hf Hext) as (n & Hm & ->).
    exists n. split; [|done]. rewrite lookup_delete_ne; [done|]. intros ->. done.
Qed.

(** The outcome of [save]: the new record on success, the old ones otherwise. *)
Lemma save_spec d m r res d' :
  disk_holds d m -> repr r -> name_of r <> EmptyString -> save r d = (res, d') ->
  match res with
  | Ok _ => disk_holds d' (<[name_of r := r]> m)
  | Err _ => disk_holds d' m
  end /\ dk_fault d' = dk_fault d.
Proof.
  intros Hd Hrep Hne. unfold save, io.
  destruct (dk_fault d CreateDir dir) as [e|]; [by intros [= <- <-]|].
  destruct (dk_fault d WriteFile _) as [e|];
    [intros [= <- <-]; split; [by apply disk_holds_tmp|done]|]. cbn.
  destruct (dk_fault d RenameFile _) as [e|]; intros [= <- <-];
    (split; [|done]); [by apply disk_holds_tmp|].
  rewrite delete_insert_eq. by apply (disk_holds_insert d).
Qed.

(** A disk without faults. *)
Lemma save_ok d r :
  (forall op file, dk_fault d op file = None) ->
  exists files, save r d = (Ok tt, with_files files d).
Proof. intros Hd. unfold save, io. rewrite !Hd. cbn. rewrite Hd. eauto. Qed.
Lemma remove_ok d name :
  (forall op file, dk_fault d op file = None) ->
  remove name d = (Ok tt, with_files (delete (yaml_file name) (dk_files d)) d).
Proof. intros Hd. unfold remove, io. by rewrite Hd. Qed.

Lemma remove_spec d m name res d' :
  disk_holds d m -> remove name d = (res, d') ->
  match res with
  | Ok _ => disk_holds d' (delete name m)
  | Err _ => disk_holds d' m
  end /\ dk_fault d' = dk_fault d.
Proof.
  intros Hd. unfold remove, io. destruct (dk_fault d RemoveFile _) as [e|]; intros [= <- <-];
    [done|]. split; [|done]. by apply disk_holds_delete.
Qed.

(** C23: saving a record is atomic.  Whatever the disk held and wherever [save] is
    interrupted, fails or finishes, the next [load_all] succeeds and returns,
    each once, either exactly the records from before or those with the new
    record in place of its old version; a half-written temporary file is never
    read. *)
Theorem save_atomic d m r d' :
  disk_holds d m -> repr r -> name_of r <> EmptyString -> readable d ->
  save_crash r d d' \/ (exists res, save r d = (res, d')) ->
  exists l m', load_all d' = Ok l /\ NoDup (name_of <$> l) /\
    (m' = m \/ m' = <[name_of r := r]> m) /\
    (forall x, x ∈ l <-> m' !! name_of x = Some x).
Proof.
  intros Hd Hrep Hne Hr Hc.
  assert (exists m', disk_holds d' m' /\ (m' = m \/ m' = <[name_of r := r]> m) /\ readable d')
    as (m' & Hd' & Hm' & Hr').
  { destruct Hc as [Hc|[res Hs]].
    - destruct Hc as [|torn|].
      + exists m. auto.
      + exists m. split; [by apply disk_holds_tmp|]. split; [by left|]. intros op f. apply Hr.
      + exists (<[name_of r := r]> m). split; [by apply disk_holds_insert|]. split; [by right|].
        intros op f. apply Hr.
    - destruct (save_spec d m r res d' Hd Hrep Hne Hs) as [Hres Hf].
      assert (readable d') by (intros op f; rewrite Hf; apply Hr).
      destruct res; eauto. }
  destruct (load_all_spec d' m' Hd' Hr') as (l & El & Hnd & Hl). eauto 10.
Qed.

(** The store is a faithful map.  Saving a record and loading returns it and
    leaves the others; removing a name and loading returns all but that one,
    and removing a name that is not there succeeds. *)
Theorem store_roundtrip d m r name d1 d2 :
  disk_holds d m -> repr r -> name_of r <> EmptyString -> readable d ->
  save r d = (Ok tt, d1) -> remove name d1 = (Ok tt, d2) ->
  (exists l, load_all d1 = Ok l /\
     forall x, x ∈ l <-> <[name_of r := r]> m !! name_of x = Some x) /\
  (exists l, load_all d2 = Ok l /\
     forall x, x ∈ l <-> delete name (<[name_of r := r]> m) !! name_of x = Some x).
Proof.
  intros Hd Hrep Hne Hr Hs Hrm.
  destruct (save_spec d m r _ d1 Hd Hrep Hne Hs) as [Hd1 Hf1].
  destruct (remove_spec d1 _ name _ d2 Hd1 Hrm) as [Hd2 Hf2].
  assert (readable d1) by (intros op f; rewrite Hf1; apply Hr).
  assert (readable d2) by (intros op f; rewrite Hf2, Hf1; apply Hr).
  destruct (load_all_spec d1 _ Hd1) as (l1 & E1 & _ & Hl1); [done|].
  destruct (load_all_spec d2 _ Hd2) as (l2 & E2 & _ & Hl2); [done|].
  split; eauto.
Qed.
End store.

(** ** Witnesses *)

Definition web_spec : JailSpec :=
  mkJailSpec "keel/v1" "Jail" (mkMetadata "web-1")
    (mkSpec "base/14.2-web" ["/usr/local/bin/myapp"] (mkNetworkSpec true "keel0" "10.0.0.5/24")
       (mkResourcesSpec "2" "512M") Always [] None).
Definition web_record : JailRecord := mkJailRecord web_spec 5.
Definition empty_disk : Disk := mkDisk ∅ (fun _ _ => None) (fun s => s).

Lemma save_atomic_witness :
  exists l, @load_all list_order _ _ yaml_jail_record "state"
              (with_files {[ "web-1.yaml.tmp" := "half a rec" ]} empty_disk) = Ok l /\ l = [].
Proof.
  destruct (@save_atomic list_order _ _ yaml_jail_record jr_name "state" empty_disk ∅ web_record
    (with_files {[ "web-1.yaml.tmp" := "half a rec" ]} empty_disk)) as (l & m' & El & _ & _ & _).
  - by apply disk_holds_empty.
  - vm_compute. discriminate.
  - discriminate.
  - by intros op file _.
  - left. apply (crash_writing jr_name web_record empty_disk "half a rec").
  - exists l. split; [done|]. vm_compute in El. congruence.
Defined.

Lemma store_roundtrip_witness :
  exists d1 d2 l1 l2,
    @save _ _ yaml_jail_record jr_name "state" web_record empty_disk = (Ok tt, d1) /\
    remove "state" "web-1" d1 = (Ok tt, d2) /\
    @load_all list_order _ _ yaml_jail_record "state" d1 = Ok l1 /\ web_record ∈ l1 /\
    @load_all list_order _ _ yaml_jail_record "state" d2 = Ok l2 /\ web_record ∉ l2.
Proof.
  destruct (@save_ok _ _ yaml_jail_record jr_name "state" empty_disk web_record) as [files E1];
    [done|].
  set (d1 := with_files files empty_disk) in *.
  pose proof (remove_ok "state" d1 "web-1" ltac:(done)) as E2. set (d2 := with_files _ d1) in E2.
  destruct (@store_roundtrip list_order _ _ yaml_jail_record jr_name "state" empty_disk ∅ web_record
    "web-1" d1 d2) as [(l1 & El1 & Hl1) (l2 & El2 & Hl2)].
  - by apply disk_holds_empty.
  - vm_compute. discriminate.
  - discriminate.
  - by intros op file _.
  - done.
  - done.
  - exists d1, d2, l1, l2. split; [done|]. split; [done|]. split; [done|].
    split; [apply Hl1; apply lookup_insert_eq|]. split; [done|]. rewrite Hl2.
    change (jr_name web_record) with "web-1". rewrite lookup_delete_eq. discriminate.
Defined.
