(* ===== verification/Ovh.v ===== *)
(** * The OVH DNS provider

    [keel-ingress/src/ovh.rs]: TXT records of a zone through the signed HTTP API of
    OVH.  The API, the clock and the [host] tool are the environment, which may
    answer anything, depending on all that has happened so far; what was asked of
    it is kept in a log.  The SHA-1 digest and the two uses of [serde_json] are
    parameters. *)

From S2P Require Import Prelude RustStr Text Spec Wire Ingress.

(** ** The environment *)

Record HttpRequest : Type := mkHttpRequest {
  hq_method : string;
  hq_uri : string;
  hq_headers : list (string * string);
  hq_body : string
}.

Inductive OvhEvent : Type :=
  | Sent (q : HttpRequest) (answer : result string string)
  | LookedUp (name : string) (output : result string string)
  | Slept (secs : N).

(** [os_run] covers building the request, [Agent::run] and reading the body;
    [os_host] is the standard output of [host -t TXT]. *)
Record Outside : Type := mkOutside {
  os_log : list OvhEvent;
  os_clock : list OvhEvent -> result string N;
  os_run : list OvhEvent -> HttpRequest -> result string string;
  os_host : list OvhEvent -> string -> result string string
}.

Definition happened (e : OvhEvent) (o : Outside) : Outside :=
  mkOutside (os_log o ++ [e]) (os_clock o) (os_run o) (os_host o).

Record OvhDnsProvider : Type := mkOvhDnsProvider {
  ov_app_key : string;
  ov_app_secret : string;
  ov_consumer_key : string;
  ov_zone : string;
  ov_endpoint : string;
  ov_outside : Outside
}.
Definition ovh_new (app_key app_secret consumer_key zone : string) (o : Outside) : OvhDnsProvider :=
  mkOvhDnsProvider app_key app_secret consumer_key zone "https://eu.api.ovh.com/1.0" o.
Definition with_outside (o : Outside) (p : OvhDnsProvider) : OvhDnsProvider :=
  mkOvhDnsProvider (ov_app_key p) (ov_app_secret p) (ov_consumer_key p) (ov_zone p) (ov_endpoint p) o.

(** ** Names in the zone *)

Fixpoint strip_suffix_str (pat s : string) : option string :=
  if String.eqb s pat then Some EmptyString
  else match s with
       | EmptyString => None
       | String c s => String c <$> strip_suffix_str pat s
       end.

(** [str::trim_end_matches] with a string: the suffix is removed as often as it is
    there; [fuel] bounds the number of times. *)
Fixpoint trim_end_fuel (fuel : nat) (pat s : string) : string :=
  match fuel with
  | O => s
  | S fuel =>
      match strip_suffix_str pat s with
      | Some s => trim_end_fuel fuel pat s
      | None => s
      end
  end.
Definition trim_end_str (pat s : string) : string :=
  if str_is_empty pat then s else trim_end_fuel (String.length s) pat s.

Definition sub_domain (zone name : string) : string :=
  trim_end_str zone (trim_end_str ("." +:+ zone) name).

(** ** Requests *)

Section ovh.
(** The hexadecimal SHA-1 digest; the JSON text of a record; the ids in a listing. *)
Context (sha1_hex : string -> string) (record_json : string -> string -> string)
        (parse_ids : string -> result string (list N)).

Definition sign (p : OvhDnsProvider) (method url body : string) (timestamp : N) : string :=
  "$1$" +:+ sha1_hex (ov_app_secret p +:+ "+" +:+ ov_consumer_key p +:+ "+" +:+ method +:+ "+" +:+ url
                      +:+ "+" +:+ body +:+ "+" +:+ u_to_string timestamp).

Definition signed_request (p : OvhDnsProvider) (method path body : string) (timestamp : N) : HttpRequest :=
  let url := ov_endpoint p +:+ path in
  mkHttpRequest method url
    [("X-Ovh-Application", ov_app_key p); ("X-Ovh-Consumer", ov_consumer_key p);
     ("X-Ovh-Timestamp", u_to_string timestamp); ("X-Ovh-Signature", sign p method url body timestamp);
     ("Content-Type", "application/json")] body.

Definition ovh_request (method path body : string) (p : OvhDnsProvider)
    : result DnsError string * OvhDnsProvider :=
  let o := ov_outside p in
  match os_clock o (os_log o) with
  | Err e => (Err (DnsRequest e), p)
  | Ok timestamp =>
      let q := signed_request p method path body timestamp in
      let answer := os_run o (os_log o) q in
      (map_err DnsRequest answer, with_outside (happened (Sent q answer) o) p)
  end.

Definition record_path (p : OvhDnsProvider) : string := "/domain/zone/" +:+ ov_zone p +:+ "/record".
Definition refresh_path (p : OvhDnsProvider) : string := "/domain/zone/" +:+ ov_zone p +:+ "/refresh".

Definition ovh_create_txt_record (name value : string) (p : OvhDnsProvider)
    : result DnsError unit * OvhDnsProvider :=
  let body := record_json (sub_domain (ov_zone p) name) value in
  let '(r, p) := ovh_request "POST" (record_path p) body p in
  match r with
  | Err e => (Err e, p)
  | Ok _ =>
      let '(r, p) := ovh_request "POST" (refresh_path p) EmptyString p in
      (_ ← r; Ok tt, p)
  end.

Fixpoint delete_ids (ids : list N) (p : OvhDnsProvider) : result DnsError unit * OvhDnsProvider :=
  match ids with
  | [] => (Ok tt, p)
  | id :: ids =>
      let '(r, p) := ovh_request "DELETE" (record_path p +:+ "/" +:+ u_to_string id) EmptyString p in
      match r with
      | Err e => (Err e, p)
      | Ok _ => delete_ids ids p
      end
  end.

Definition listing_path (p : OvhDnsProvider) (name : string) : string :=
  record_path p +:+ "?fieldType=TXT&subDomain=" +:+ sub_domain (ov_zone p) name.

Definition ovh_delete_txt_record (name : string) (p : OvhDnsProvider)
    : result DnsError unit * OvhDnsProvider :=
  let '(r, p) := ovh_request "GET" (listing_path p name) EmptyString p in
  match r with
  | Err e => (Err e, p)
  | Ok list_body =>
      match map_err DnsRequest (parse_ids list_body) with
      | Err e => (Err e, p)
      | Ok ids =>
          let '(r, p) := delete_ids ids p in
          match r with
          | Err e => (Err e, p)
          | Ok _ =>
              let '(r, p) := ovh_request "POST" (refresh_path p) EmptyString p in
              (_ ← r; Ok tt, p)
          end
      end
  end.

Definition MAX_ATTEMPTS : nat := 30.
Definition RETRY_DELAY : N := 10.

(** The exit status of [host] is not looked at. *)
Fixpoint wait_attempts (n : nat) (name value : string) (p : OvhDnsProvider)
    : result DnsError unit * OvhDnsProvider :=
  match n with
  | O => (Err (PropagationTimeout name), p)
  | S n =>
      let o := ov_outside p in
      let output := os_host o (os_log o) name in
      let p := with_outside (happened (LookedUp name output) o) p in
      match output with
      | Err e => (Err (DnsRequest e), p)
      | Ok stdout =>
          if contains_str value (from_utf8_lossy stdout) then (Ok tt, p)
          else wait_attempts n name value (with_outside (happened (Slept RETRY_DELAY) (ov_outside p)) p)
      end
  end.
Definition ovh_wait_for_propagation : string -> string -> OvhDnsProvider ->
    result DnsError unit * OvhDnsProvider := wait_attempts MAX_ATTEMPTS.

Definition ovh_dns : DnsProvider OvhDnsProvider := {|
  create_txt_record := ovh_create_txt_record;
  delete_txt_record := ovh_delete_txt_record;
  wait_for_propagation := ovh_wait_for_propagation
|}.

(** ** What is asked of the API *)

(** The credentials stay; what happened is added to the log. *)
Definition extends (p : OvhDnsProvider) (evs : list OvhEvent) (p' : OvhDnsProvider) : Prop :=
  p' = with_outside (ov_outside p') p /\ os_log (ov_outside p') = os_log (ov_outside p) ++ evs.

Lemma extends_refl p : extends p [] p.
Proof. split; [by destruct p|]. by rewrite app_nil_r. Qed.
Lemma extends_trans p1 p2 p3 e1 e2 : extends p1 e1 p2 -> extends p2 e2 p3 -> extends p1 (e1 ++ e2) p3.
Proof. intros [E1 L1] [E2 L2]. split; [by rewrite E2, E1|]. by rewrite L2, L1, app_assoc. Qed.

(** A call of the API as its documentation writes it: the request carries the
    digest of exactly its own method, address, body and time, and was answered. *)
Definition called (p : OvhDnsProvider) (method path body : string) (answer : result string string)
    (e : OvhEvent) : Prop :=
  exists timestamp, e = Sent (signed_request p method path body timestamp) answer.

Lemma called_same p p' evs method path body answer e :
  extends p evs p' -> called p' method path body answer e -> called p method path body answer e.
Proof. intros [E _] [t ->]. exists t. by rewrite E. Qed.

Lemma ovh_request_spec method path body p :
  let '(r, p') := ovh_request method path body p in
  (exists e, r = Err (DnsRequest e) /\ p' = p) \/
  exists answer e, r = map_err DnsRequest answer /\ extends p [e] p' /\ called p method path body answer e.
Proof.
  unfold ovh_request. destruct (os_clock _ _) as [t|e]; [|by left; exists e].
  right. eexists _, _. split; [done|]. split; [done|]. by exists t.
Qed.

(** The calls of [paths], all bodies empty, all answered with success. *)
Definition all_called (p : OvhDnsProvider) (calls : list (string * string)) (evs : list OvhEvent) : Prop :=
  Forall2 (fun c e => exists answer, called p c.1 c.2 EmptyString (Ok answer) e) calls evs.

Lemma all_called_same p p' evs calls l : extends p evs p' -> all_called p' calls l -> all_called p calls l.
Proof.
  intros He Hl. eapply Forall2_impl; [exact Hl|]. intros c e [answer Hc]. exists answer. by eapply called_same.
Qed.

Definition delete_call (p : OvhDnsProvider) (id : N) : string * string :=
  ("DELETE", record_path p +:+ "/" +:+ u_to_string id).

Lemma delete_ids_spec ids p p' :
  delete_ids ids p = (Ok tt, p') -> exists evs, extends p evs p' /\ all_called p (delete_call p <$> ids) evs.
Proof.
  revert p. induction ids as [|id ids IH]; intros p; cbn [delete_ids].
  { intros [= <-]. exists []. split; [apply extends_refl|constructor]. }
  pose proof (ovh_request_spec "DELETE" (record_path p +:+ "/" +:+ u_to_string id) EmptyString p) as Hq.
  destruct (ovh_request _ _ _ _) as [r p1].
  destruct Hq as [(e & -> & ->)|([answer|err] & ev & -> & He & Hc)]; cbn [map_err]; [done| |done].
  intros (evs & He2 & Hr)%IH. exists ([ev] ++ evs). split; [by eapply extends_trans|].
  assert (delete_call p1 <$> ids = delete_call p <$> ids) as Ecalls by (destruct He as [-> _]; done).
  rewrite Ecalls in Hr. constructor; [by exists answer|]. by eapply all_called_same.
Qed.

(** Deleting a name deletes its whole listing.  A deletion reported as done
    has sent exactly: the listing of the name's TXT records, one deletion for each
    record listed, in order, and the refresh of the zone, each answered with
    success and signed over what was sent; nothing else happened. *)
Theorem ovh_delete_correct name p p' :
  ovh_delete_txt_record name p = (Ok tt, p') ->
  exists evs listing ids ev, extends p (ev :: evs) p' /\
    called p "GET" (listing_path p name) EmptyString (Ok listing) ev /\ parse_ids listing = Ok ids /\
    all_called p ((delete_call p <$> ids) ++ [("POST", refresh_path p)]) evs.
Proof.
  unfold ovh_delete_txt_record.
  pose proof (ovh_request_spec "GET" (listing_path p name) EmptyString p) as Hq.
  destruct (ovh_request _ _ _ _) as [r p1].
  destruct Hq as [(e & -> & ->)|([listing|err] & ev & -> & He & Hc)]; cbn [map_err]; [done| |done].
  destruct (parse_ids listing) as [ids|] eqn:Ep; cbn [map_err]; [|done].
  destruct (delete_ids ids p1) as [[[]|] p2] eqn:Ed; [|done].
  destruct (delete_ids_spec _ _ _ Ed) as (evs & He2 & Hall).
  pose proof (ovh_request_spec "POST" (refresh_path p2) EmptyString p2) as Hq.
  destruct (ovh_request _ _ _ _) as [r p3].
  destruct Hq as [(e & -> & ->)|([answer|err] & ev3 & -> & He3 & Hc3)]; [done| |done]. intros [= <-].
  assert (extends p ([ev] ++ evs) p2) as He12 by (by eapply extends_trans).
  exists (evs ++ [ev3]), listing, ids, ev. split; [eapply (extends_trans _ _ _ ([ev] ++ evs) [ev3]); done|].
  split; [done|]. split; [done|]. apply Forall2_app.
  - replace (delete_call p <$> ids) with (delete_call p1 <$> ids) by (by destruct He as [-> _]).
    eapply all_called_same; [exact He|exact Hall].
  - constructor; [|constructor]. exists answer. cbn [fst snd].
    replace (refresh_path p) with (refresh_path p2) by (by destruct He12 as [-> _]).
    eapply called_same; [exact He12|exact Hc3].
Qed.

(** ** Waiting *)

(** Lookups that did not show the value, each followed by a pause. *)
Definition misses (name : string) (outputs : list string) : list OvhEvent :=
  mjoin ((fun output => [LookedUp name (Ok output); Slept RETRY_DELAY]) <$> outputs).
Definition shows (value output : string) : bool := contains_str value (from_utf8_lossy output).

Lemma wait_attempts_spec n name value p :
  let '(r, p') := wait_attempts n name value p in
  exists outputs last, extends p (misses name outputs ++ last) p' /\
    Forall (fun output => shows value output = false) outputs /\
    match r with
    | Ok _ => (length outputs < n)%nat /\
        exists output, shows value output = true /\ last = [LookedUp name (Ok output)]
    | Err (PropagationTimeout x) => x = name /\ length outputs = n /\ last = []
    | Err (DnsRequest e) => (length outputs < n)%nat /\ last = [LookedUp name (Err e)]
    | Err (DnsNotFound _) => False
    end.
Proof.
  revert p. induction n as [|n IH]; intros p; cbn [wait_attempts].
  { exists [], []. split; [apply extends_refl|]. by split. }
  destruct (os_host (ov_outside p) (os_log (ov_outside p)) name) as [stdout|e].
  2: { exists [], [LookedUp name (Err e)]. split; [done|]. split; [done|]. split; [cbn; lia|done]. }
  change (contains_str value (from_utf8_lossy stdout)) with (shows value stdout).
  destruct (shows value stdout) eqn:Es.
  { exists [], [LookedUp name (Ok stdout)]. split; [done|]. split; [done|]. split; [cbn; lia|eauto]. }
  set (p1 := with_outside _ (with_outside _ p)). specialize (IH p1).
  assert (extends p [LookedUp name (Ok stdout); Slept RETRY_DELAY] p1) as He
    by (split; [done|]; cbn; by rewrite <- app_assoc).
  destruct (wait_attempts n name value p1) as [r p2]. destruct IH as (outputs & last & He2 & Hall & Hr).
  exists (stdout :: outputs), last. split; [by eapply (extends_trans _ _ _ _ _ He)|]. split; [by constructor|].
  destruct r as [u|[]]; cbn [length] in *; [|done| |]; destruct Hr as [? ?]; (split; [lia || done|]); try done.
  destruct H0. split; [lia|done].
Qed.

(** Waiting ends, and what it says is so.  The wait looks the name up at most
    thirty times, ten seconds apart.  It succeeds exactly when a lookup shows the
    value, right after that lookup; it reports a timeout only after thirty lookups
    that did not show it; a lookup that cannot be run ends it. *)
Theorem ovh_wait_bounded name value p :
  let '(r, p') := ovh_wait_for_propagation name value p in
  exists outputs last, extends p (misses name outputs ++ last) p' /\
    Forall (fun output => shows value output = false) outputs /\
    match r with
    | Ok _ => (length outputs < 30)%nat /\
        exists output, shows value output = true /\ last = [LookedUp name (Ok output)]
    | Err (PropagationTimeout x) => x = name /\ length outputs = 30%nat /\ last = []
    | Err (DnsRequest e) => (length outputs < 30)%nat /\ last = [LookedUp name (Err e)]
    | Err (DnsNotFound _) => False
    end.
Proof. apply wait_attempts_spec. Qed.
End ovh.

(** ** Names *)

Lemma strip_suffix_cons pat c s : strip_suffix_str pat (String c s) =
  if String.eqb (String c s) pat then Some EmptyString else String c <$> strip_suffix_str pat s.
Proof. done. Qed.

Lemma strip_suffix_app pat s : strip_suffix_str pat (s +:+ pat) = Some s.
Proof.
  induction s as [|c s IH]; [rewrite app_nil_l_str|rewrite app_cons_str].
  - destruct pat as [|c pat]; [done|]. by rewrite strip_suffix_cons, String.eqb_refl.
  - rewrite strip_suffix_cons, IH. destruct (String.eqb_spec (String c (s +:+ pat)) pat) as [E|_]; [|done].
    apply (f_equal String.length) in E. cbn in E. rewrite length_app_str in E. lia.
Qed.

Lemma strip_suffix_Some pat s t : strip_suffix_str pat s = Some t -> s = t +:+ pat.
Proof.
  revert t. induction s as [|c s IH]; intros t.
  - by destruct pat; intros [= <-].
  - rewrite strip_suffix_cons. destruct (String.eqb_spec (String c s) pat) as [<-|_]; [by intros [= <-]|].
    intros H. apply fmap_Some in H as (t' & E & ->). by rewrite app_cons_str, <- (IH t' E).
Qed.

Lemma trim_end_fuel_none fuel pat s : strip_suffix_str pat s = None -> trim_end_fuel fuel pat s = s.
Proof. intros E. destruct fuel; cbn; [done|by rewrite E]. Qed.

Lemma trim_end_fuel_complete fuel pat s :
  pat <> EmptyString -> (String.length s <= fuel)%nat -> strip_suffix_str pat (trim_end_fuel fuel pat s) = None.
Proof.
  intros Hp. revert s. induction fuel as [|fuel IH]; intros s Hl; cbn.
  - destruct s; [|cbn in Hl; lia]. cbn. by destruct pat.
  - destruct (strip_suffix_str pat s) as [t|] eqn:E; [|done]. apply IH. apply strip_suffix_Some in E as ->.
    rewrite length_app_str in Hl. destruct pat; [done|]. cbn in Hl. lia.
Qed.

(** Nothing is left to trim: the bound on the repetitions is enough. *)
Lemma trim_end_complete pat s : pat <> EmptyString -> strip_suffix_str pat (trim_end_str pat s) = None.
Proof.
  intros Hp. unfold trim_end_str. destruct pat; [done|]. cbn [str_is_empty].
  by apply trim_end_fuel_complete.
Qed.

Lemma trim_end_none pat s : strip_suffix_str pat s = None -> trim_end_str pat s = s.
Proof. intros E. unfold trim_end_str. destruct (str_is_empty pat); [done|]. by apply trim_end_fuel_none. Qed.

Lemma trim_end_once pat s :
  pat <> EmptyString -> strip_suffix_str pat s = None -> trim_end_str pat (s +:+ pat) = s.
Proof.
  intros Hp E. unfold trim_end_str. destruct pat as [|c pat]; [done|]. cbn [str_is_empty].
  rewrite length_app_str. cbn [String.length]. rewrite Nat.add_succ_r. cbn [trim_end_fuel].
  rewrite strip_suffix_app. by apply trim_end_fuel_none.
Qed.

(** The record of a name is put at the name's place in the zone.  For a name in
    the zone the sub-domain is what precedes the zone, for the zone itself it is
    empty; in every case the result ends neither in the zone nor in a dot and the
    zone. *)
Theorem sub_domain_correct zone name :
  zone <> EmptyString ->
  (forall label, name = label +:+ "." +:+ zone -> strip_suffix_str ("." +:+ zone) label = None ->
     strip_suffix_str zone label = None -> sub_domain zone name = label) /\
  (name = zone -> sub_domain zone name = EmptyString) /\
  strip_suffix_str zone (sub_domain zone name) = None.
Proof.
  intros Hz. split; [|split].
  - intros label -> H1 H2. unfold sub_domain. rewrite (trim_end_once ("." +:+ zone)) by done. by apply trim_end_none.
  - intros ->. unfold sub_domain. rewrite (trim_end_none ("." +:+ zone)).
    + apply (trim_end_once zone EmptyString); [done|]. by destruct zone.
    + destruct (strip_suffix_str _ zone) as [t|] eqn:E; [|done]. apply strip_suffix_Some in E.
      apply (f_equal String.length) in E. rewrite !length_app_str in E. cbn in E. lia.
  - by apply trim_end_complete.
Qed.

(** A name that only ends like the zone is cut inside a label. *)
Example sub_domain_inside_label :
  sub_domain "example.com" "_acme-challenge.myexample.com" = "_acme-challenge.my".
Proof. reflexivity. Qed.

(** ** Evaluation *)

(** An API with two records under the name; the tool shows the value at once. *)
Definition demo_outside : Outside :=
  mkOutside [] (fun _ => Ok 1800000000%N)
    (fun log q => if String.eqb (hq_method q) "GET" then Ok "[7,9]" else Ok "null")
    (fun log name => if (length log <? 4)%nat then Ok "not found" else Ok "descriptive text token").
Definition demo_ovh : OvhDnsProvider := ovh_new "ak" "as" "ck" "example.com" demo_outside.
Definition demo_sha1 (s : string) : string := "digest of " +:+ s.
Definition demo_ids (s : string) : result string (list N) :=
  if String.eqb s "[7,9]" then Ok [7%N; 9%N] else Err "expected a list".
Notation demo_delete := (ovh_delete_txt_record demo_sha1 demo_ids).

Lemma ovh_delete_correct_witness :
  exists evs listing ids ev,
    extends demo_ovh (ev :: evs) (demo_delete "_acme-challenge.example.com" demo_ovh).2 /\
    called demo_sha1 demo_ovh "GET" "/domain/zone/example.com/record?fieldType=TXT&subDomain=_acme-challenge"
      EmptyString (Ok listing) ev /\ demo_ids listing = Ok ids /\
    all_called demo_sha1 demo_ovh ((delete_call demo_ovh <$> ids) ++ [("POST", refresh_path demo_ovh)]) evs.
Proof.
  exact (ovh_delete_correct demo_sha1 demo_ids "_acme-challenge.example.com" demo_ovh
    (demo_delete "_acme-challenge.example.com" demo_ovh).2 eq_refl).
Defined.

Example demo_delete_ids : length (os_log (ov_outside (demo_delete "_acme-challenge.example.com" demo_ovh).2)) = 4%nat.
Proof. reflexivity. Qed.

Example demo_wait :
  (ovh_wait_for_propagation "_acme-challenge.example.com" "token" demo_ovh).1 = Ok tt /\
  length (os_log (ov_outside (ovh_wait_for_propagation "_acme-challenge.example.com" "token" demo_ovh).2)) = 5%nat.
Proof. split; reflexivity. Qed.

Lemma sub_domain_correct_witness :
  sub_domain "example.com" "_acme-challenge.www.example.com" = "_acme-challenge.www" /\
  sub_domain "example.com" "example.com" = EmptyString.
Proof.
  split.
  - refine (proj1 (sub_domain_correct "example.com" "_acme-challenge.www.example.com" _) _ _ _ _);
      [discriminate|reflexivity..].
  - refine (proj1 (proj2 (sub_domain_correct "example.com" "example.com" _)) _); [discriminate|reflexivity].
Defined.
