(* ===== verification/Acme.v ===== *)
(** * The ACME client

    [keel-ingress/src/instant_acme_client.rs]: certificates from an ACME server by
    the DNS-01 challenge, with an account kept in a file.  The ACME library and
    the server behind it are a class of operations ([AcmeServer]); the DNS
    provider is any of [Ingress]. *)

From S2P Require Import Prelude RustStr Text Spec Wire Codecs Store Ingress.

Inductive OrderStatus : Type := Pending | Ready | Processing | Valid | Invalid.
Definition order_status_to_string (s : OrderStatus) : string :=
  match s with
  | Pending => "Pending"
  | Ready => "Ready"
  | Processing => "Processing"
  | Valid => "Valid"
  | Invalid => "Invalid"
  end.

(** What the client uses of [instant_acme]: [S] is the library with the server,
    the others are its handles.  Building a client is part of the calls that
    follow; an authorization that is fetched is seen as its DNS-01 challenge, if
    it offers one; the polls include their retries. *)
Class AcmeServer (S Account Credentials Order Challenge : Type) : Type := {
  from_credentials : Credentials -> S -> result string Account * S;
  create : string -> string -> S -> result string (Account * Credentials) * S;
  new_order : Account -> string -> S -> result string Order * S;
  authorizations : Order -> list string;
  fetch_authorization : Order -> string -> S -> result string (option Challenge) * S;
  dns_value : Challenge -> string;
  set_ready : Challenge -> S -> result string unit * S;
  poll_ready : Order -> S -> result string OrderStatus * S;
  finalize : Order -> S -> result string string * S;
  poll_certificate : Order -> S -> result string string * S
}.

(** ** Paths *)

(** [Path::with_extension] and [Path::parent] of a path to a file. *)
Definition split_file (path : string) : string * string :=
  match rsplit_once "/"%char path with
  | Some (dir, name) => (dir +:+ "/", name)
  | None => (EmptyString, path)
  end.
Definition file_stem (name : string) : string :=
  match rsplit_once "."%char name with
  | Some (EmptyString, _) | None => name
  | Some (stem, _) => stem
  end.
Definition with_extension (path ext : string) : string :=
  let '(dir, name) := split_file path in dir +:+ file_stem name +:+ "." +:+ ext.
Definition parent (path : string) : string :=
  match rsplit_once "/"%char path with
  | Some (dir, _) => dir
  | None => EmptyString
  end.

(** [std::fs::read_to_string]: a file that is missing, cannot be read or is not
    UTF-8 is an error. *)
Definition read_to_string (path : string) (d : Disk) : result string string :=
  match dk_fault d ReadFile path with
  | Some e => Err e
  | None =>
      content ← ok_or (dk_files d !! path) "No such file or directory (os error 2)";
      if bool_decide (from_utf8_lossy content = content) then Ok content
      else Err "stream did not contain valid UTF-8"
  end.

Section acme.
Context {S Account Credentials Order Challenge : Type}.
Context {HS : AcmeServer S Account Credentials Order Challenge}.
(** The JSON of the credentials. *)
Context (parse_credentials : string -> result string Credentials)
        (serialize_credentials : Credentials -> result string string).

Record InstantAcmeClient : Type := mkInstantAcme {
  ia_directory_url : string;
  ia_account_key_path : string;
  ia_disk : Disk;
  ia_server : S
}.
Definition instant_acme_new (runtime : result string unit) (directory_url account_key_path : string) (d : Disk) (s : S)
    : result AcmeError InstantAcmeClient :=
  _ ← map_err AcmeRequest runtime; Ok (mkInstantAcme directory_url account_key_path d s).

Definition set_server (s : S) (c : InstantAcmeClient) : InstantAcmeClient :=
  mkInstantAcme (ia_directory_url c) (ia_account_key_path c) (ia_disk c) s.
Definition set_files (f : gmap string string) (c : InstantAcmeClient) : InstantAcmeClient :=
  mkInstantAcme (ia_directory_url c) (ia_account_key_path c) (with_files f (ia_disk c)) (ia_server c).

(** A call of the server. *)
Definition on_server {T} (f : S -> result string T * S) (c : InstantAcmeClient)
    : result AcmeError T * InstantAcmeClient :=
  let '(r, s) := f (ia_server c) in (map_err AcmeRequest r, set_server s c).

Definition account_tmp (c : InstantAcmeClient) : string := with_extension (ia_account_key_path c) "tmp".

(** The second half of [load_or_create_account]: temporary file, then rename. *)
Definition persist_account (serialized : string) (c : InstantAcmeClient) : result AcmeError unit * InstantAcmeClient :=
  let path := ia_account_key_path c in
  let tmp_path := account_tmp c in
  let d := ia_disk c in
  match io d CreateDir (parent path) AcmeRequest with
  | Err e => (Err e, c)
  | Ok _ =>
      match io d WriteFile tmp_path AcmeRequest with
      | Err e => (Err e, set_files (<[tmp_path := dk_torn d serialized]> (dk_files d)) c)
      | Ok _ =>
          let written := <[tmp_path := serialized]> (dk_files d) in
          match io d RenameFile path AcmeRequest with
          | Err e => (Err e, set_files written c)
          | Ok _ => (Ok tt, set_files (<[path := serialized]> (delete tmp_path written)) c)
          end
      end
  end.

Definition load_or_create_account (contact_email : string) (c : InstantAcmeClient)
    : result AcmeError Account * InstantAcmeClient :=
  match read_to_string (ia_account_key_path c) (ia_disk c) with
  | Ok existing =>
      match parse_credentials existing with
      | Err e => (Err (AcmeRequest ("malformed account credentials: " +:+ e)), c)
      | Ok credentials => on_server (from_credentials credentials) c
      end
  | Err _ =>
      let '(r, c) := on_server (create ("mailto:" +:+ contact_email) (ia_directory_url c)) c in
      match r with
      | Err e => (Err e, c)
      | Ok (account, credentials) =>
          match serialize_credentials credentials with
          | Err e => (Err (AcmeRequest ("failed to serialize account credentials: " +:+ e)), c)
          | Ok serialized =>
              let '(r, c) := persist_account serialized c in
              (_ ← r; Ok account, c)
          end
      end
  end.

(** ** The account survives *)

(** The client on a machine that stops: the operations of [fault] do not happen, and
    a write among them leaves any content in its file.  The code returns at the
    first operation that fails, so the files it then leaves are those of a crash
    before, or during, that operation. *)
Definition cut_short (fault : io_op -> string -> option string) (torn : string -> string)
    (c : InstantAcmeClient) : InstantAcmeClient :=
  mkInstantAcme (ia_directory_url c) (ia_account_key_path c) (mkDisk (dk_files (ia_disk c)) fault torn)
    (ia_server c).

(** Whatever fails, the account file is as it was, or holds the text, all of it. *)
Lemma persist_account_spec serialized c :
  let '(r, c') := persist_account serialized c in
  let path := ia_account_key_path c in
  (account_tmp c <> path -> dk_files (ia_disk c') !! path = dk_files (ia_disk c) !! path \/
   dk_files (ia_disk c') !! path = Some serialized) /\
  (is_ok r = true -> dk_files (ia_disk c') !! path = Some serialized).
Proof.
  unfold persist_account, io. destruct (dk_fault _ CreateDir _); [by split; [left|]|].
  destruct (dk_fault _ WriteFile _); [by split; [left; apply lookup_insert_ne|]|].
  destruct (dk_fault _ RenameFile _); [by split; [left; apply lookup_insert_ne|]|]. cbn.
  rewrite lookup_insert_eq. by split; [right|].
Qed.

Context (serde_json : forall credentials text, serialize_credentials credentials = Ok text ->
  parse_credentials text = Ok credentials /\ from_utf8_lossy text = text).

Lemma read_key_file c text : dk_fault (ia_disk c) ReadFile (ia_account_key_path c) = None ->
  dk_files (ia_disk c) !! ia_account_key_path c = Some text -> from_utf8_lossy text = text ->
  read_to_string (ia_account_key_path c) (ia_disk c) = Ok text.
Proof. intros Hf Hl Ht. unfold read_to_string. rewrite Hf, Hl. cbn. by rewrite bool_decide_eq_true_2. Qed.

(** Without an account file, one is created. *)
Lemma load_missing email c : dk_files (ia_disk c) !! ia_account_key_path c = None ->
  load_or_create_account email c =
    let '(r, c) := on_server (create ("mailto:" +:+ email) (ia_directory_url c)) c in
    match r with
    | Err e => (Err e, c)
    | Ok (account, credentials) =>
        match serialize_credentials credentials with
        | Err e => (Err (AcmeRequest ("failed to serialize account credentials: " +:+ e)), c)
        | Ok serialized => let '(r, c) := persist_account serialized c in (_ ← r; Ok account, c)
        end
    end.
Proof.
  intros Hnone. unfold load_or_create_account, read_to_string. rewrite Hnone. by destruct (dk_fault _ _ _).
Qed.

(** C24: an account is created once.  When the agent has no account file, the
    account it obtains is the one the server has created, and from then on every
    process that finds that file and can read it asks the server for the same
    account, whatever the contact it is given, and creates none.  And had the
    process been stopped anywhere (see [cut_short]: any operation on files may not
    happen, a write that is cut short leaves any content), it would have left
    either no account file or a whole one.  The temporary file's path is not the
    account file's own (the configured path does not end in [.tmp]). *)
Theorem acme_account_reused email c account c' :
  account_tmp c <> ia_account_key_path c -> dk_files (ia_disk c) !! ia_account_key_path c = None ->
  load_or_create_account email c = (Ok account, c') ->
  exists credentials text s,
    create ("mailto:" +:+ email) (ia_directory_url c) (ia_server c) = (Ok (account, credentials), s) /\
    serialize_credentials credentials = Ok text /\ dk_files (ia_disk c') !! ia_account_key_path c = Some text /\
    (forall later email', ia_account_key_path later = ia_account_key_path c ->
       dk_files (ia_disk later) !! ia_account_key_path c = Some text ->
       dk_fault (ia_disk later) ReadFile (ia_account_key_path c) = None ->
       load_or_create_account email' later = on_server (from_credentials credentials) later) /\
    (forall fault torn,
       let files := dk_files (ia_disk (load_or_create_account email (cut_short fault torn c)).2) in
       files !! ia_account_key_path c = None \/ files !! ia_account_key_path c = Some text).
Proof.
  intros Htmp Hnone E. rewrite load_missing in E by done. unfold on_server in E.
  destruct (create _ _ _) as [[[acc cr]|e] s] eqn:Ec; cbn [map_err] in E; [|done].
  destruct (serialize_credentials cr) as [text|] eqn:Es; [|done].
  pose proof (persist_account_spec text (set_server s c)) as Hp.
  destruct (persist_account text (set_server s c)) as [[u|] c1]; [|done]. cbn in E. injection E as -> ->.
  destruct Hp as [_ Hkey]. destruct (serde_json cr text Es) as [Hparse Hutf].
  exists cr, text, s. split; [done|]. split; [done|]. split; [by apply Hkey|]. split.
  - intros later email' Hpath Hl Hf. unfold load_or_create_account.
    rewrite (read_key_file later text); [by rewrite Hparse|by rewrite Hpath|by rewrite Hpath|done].
  - intros fault torn. rewrite load_missing by done. unfold on_server. cbn [cut_short ia_server ia_directory_url].
    rewrite Ec. cbn [map_err]. rewrite Es.
    pose proof (persist_account_spec text (set_server s (cut_short fault torn c))) as Hp.
    destruct (persist_account text (set_server s (cut_short fault torn c))) as [r c2].
    destruct Hp as [[Hp|Hp] _]; [exact Htmp|left; rewrite <- Hnone; exact Hp|right; exact Hp].
Qed.

(** An account file that is there but cannot be read is treated as missing: a new
    account is created and written over it. *)
Lemma unreadable_account_replaced email c e account credentials s text :
  dk_fault (ia_disk c) ReadFile (ia_account_key_path c) = Some e ->
  create ("mailto:" +:+ email) (ia_directory_url c) (ia_server c) = (Ok (account, credentials), s) ->
  serialize_credentials credentials = Ok text ->
  dk_fault (ia_disk c) CreateDir (parent (ia_account_key_path c)) = None ->
  dk_fault (ia_disk c) WriteFile (account_tmp c) = None ->
  dk_fault (ia_disk c) RenameFile (ia_account_key_path c) = None ->
  exists c', load_or_create_account email c = (Ok account, c') /\
    dk_files (ia_disk c') !! ia_account_key_path c = Some text.
Proof.
  intros Hf Ec Es H1 H2 H3. unfold load_or_create_account, read_to_string. rewrite Hf. unfold on_server. rewrite Ec.
  cbn [map_err]. rewrite Es. unfold persist_account, io. cbn [ia_disk set_server ia_account_key_path].
  change (account_tmp (set_server s c)) with (account_tmp c). rewrite H1, H2, H3.
  eexists. split; [done|]. cbn. apply lookup_insert_eq.
Qed.

(** ** A certificate *)

Section dns.
Context {D : Type} {HD : DnsProvider D}.

(** One turn of the loop over the authorizations; the value is that of the record
    it created. *)
Definition authorize_one (domain challenge_name : string) (order : Order) (url : string)
    (c : InstantAcmeClient) (dns : D) : result AcmeError string * (InstantAcmeClient * D) :=
  let '(r, c) := on_server (fetch_authorization order url) c in
  match r with
  | Err e => (Err e, (c, dns))
  | Ok None => (Err (AcmeRequest ("no DNS-01 challenge offered for '" +:+ domain +:+ "'")), (c, dns))
  | Ok (Some challenge) =>
      let value := dns_value challenge in
      let '(r, dns) := create_txt_record challenge_name value dns in
      match r with
      | Err e => (Err (AcmeDns e), (c, dns))
      | Ok _ =>
          let '(r, dns) := wait_for_propagation challenge_name value dns in
          match r with
          | Err e => (Err (AcmeDns e), (c, dns))
          | Ok _ =>
              let '(r, c) := on_server (set_ready challenge) c in
              (_ ← r; Ok value, (c, dns))
          end
      end
  end.

Fixpoint authorize (domain challenge_name : string) (order : Order) (urls : list string)
    (dns_values : list string) (c : InstantAcmeClient) (dns : D)
    : result AcmeError (list string) * (InstantAcmeClient * D) :=
  match urls with
  | [] => (Ok dns_values, (c, dns))
  | url :: urls =>
      let '(r, (c, dns)) := authorize_one domain challenge_name order url c dns in
      match r with
      | Err e => (Err e, (c, dns))
      | Ok value => authorize domain challenge_name order urls (dns_values ++ [value]) c dns
      end
  end.

Definition finalize_and_download (order : Order) (c : InstantAcmeClient)
    : result AcmeError Cert * InstantAcmeClient :=
  let '(r, c) := on_server (poll_ready order) c in
  match r with
  | Err e => (Err e, c)
  | Ok Ready =>
      let '(r, c) := on_server (finalize order) c in
      match r with
      | Err e => (Err e, c)
      | Ok key =>
          let '(r, c) := on_server (poll_certificate order) c in
          (cert ← r; Ok (mkCert cert key), c)
      end
  | Ok status =>
      (Err (AcmeRequest ("order did not become ready, status: " +:+ order_status_to_string status)), c)
  end.

Definition request_certificate_async (domain contact_email : string) (c : InstantAcmeClient) (dns : D)
    : result AcmeError Cert * (InstantAcmeClient * D) :=
  let '(r, c) := load_or_create_account contact_email c in
  match r with
  | Err e => (Err e, (c, dns))
  | Ok account =>
      let '(r, c) := on_server (new_order account domain) c in
      match r with
      | Err e => (Err e, (c, dns))
      | Ok order =>
          let challenge_name := "_acme-challenge." +:+ domain in
          let '(r, (c, dns)) := authorize domain challenge_name order (authorizations order) [] c dns in
          match r with
          | Err e => (Err e, (c, dns))
          | Ok dns_values =>
              let '(issuance_result, c) := finalize_and_download order c in
              (issuance_result,
               (c, match dns_values with
                   | [] => dns
                   | _ => (delete_txt_record challenge_name dns).2
                   end))
          end
      end
  end.

Definition instant_acme : AcmeClient InstantAcmeClient D := {|
  request_certificate c domain email dns := request_certificate_async domain email c dns
|}.

(** ** The zone *)

(** What a DNS provider promises of its zone, for the names that are in it, as long
    as it is one of the zone's ([zone_ok]). *)
Class DnsZone : Type := {
  has_txt : D -> string -> bool;
  in_zone : string -> Prop;
  zone_ok : D -> Prop;
  create_has : forall name value d, in_zone name -> zone_ok d -> let '(r, d') := create_txt_record name value d in
    zone_ok d' /\ (forall n, in_zone n -> n <> name -> has_txt d' n = has_txt d n) /\
    (is_ok r = true -> has_txt d' name = true);
  wait_has : forall name value d, zone_ok d -> let d' := (wait_for_propagation name value d).2 in
    zone_ok d' /\ forall n, has_txt d' n = has_txt d n;
  delete_has : forall name d, in_zone name -> zone_ok d -> let '(r, d') := delete_txt_record name d in
    zone_ok d' /\ (forall n, in_zone n -> n <> name -> has_txt d' n = has_txt d n) /\
    (is_ok r = true -> has_txt d' name = false)
}.
Context {ZD : DnsZone}.

(** The other names of the zone are as before. *)
Definition others_same (name : string) (d d' : D) : Prop :=
  zone_ok d' /\ forall n, in_zone n -> n <> name -> has_txt d' n = has_txt d n.

Lemma authorize_one_zone domain name order url c dns :
  in_zone name -> zone_ok dns -> others_same name dns (authorize_one domain name order url c dns).2.2.
Proof.
  intros Hz Ho. unfold authorize_one. destruct (on_server _ _) as [[[chal|]|] c1]; try done.
  pose proof (create_has name (dns_value chal) dns Hz Ho) as Hc.
  destruct (create_txt_record _ _ _) as [[u|] d1]; destruct Hc as (Ho1 & Hc & _); [|done].
  pose proof (wait_has name (dns_value chal) d1 Ho1) as [Ho2 Hw].
  assert (others_same name dns (wait_for_propagation name (dns_value chal) d1).2) as H
    by (split; [done|]; intros n Hi Hn; by rewrite Hw, Hc).
  destruct (wait_for_propagation _ _ _) as [[u2|] d2]; [|done].
  by destruct (on_server (set_ready chal) c1) as [[u3|] c2].
Qed.

Lemma authorize_zone domain name order urls values c dns :
  in_zone name -> zone_ok dns -> others_same name dns (authorize domain name order urls values c dns).2.2.
Proof.
  intros Hz. revert values c dns. induction urls as [|url urls IH]; intros values c dns Ho; cbn; [done|].
  pose proof (authorize_one_zone domain name order url c dns Hz Ho) as H1.
  destruct (authorize_one _ _ _ _ _ _) as [[value|] [c1 d1]]; cbn in H1; [|done]. destruct H1 as [Ho1 H1].
  destruct (IH (values ++ [value]) c1 d1 Ho1) as [Ho2 H2]. split; [done|].
  intros n Hi Hn. by rewrite H2, H1.
Qed.

Lemma authorize_values domain name order urls values c dns values' c' dns' :
  authorize domain name order urls values c dns = (Ok values', (c', dns')) ->
  (urls = [] /\ values' = values /\ dns' = dns) \/ values' <> [].
Proof.
  revert values c dns. induction urls as [|url urls IH]; intros values c dns; cbn; [intros [= -> _ ->]; by left|].
  destruct (authorize_one _ _ _ _ _ _) as [[value|] [c1 d1]]; [|done].
  intros [(_ & -> & _)|H]%IH; right; [|done]. by destruct values.
Qed.

Lemma request_certificate_zone domain email c dns :
  let challenge_name := "_acme-challenge." +:+ domain in
  in_zone challenge_name -> zone_ok dns ->
  let '(r, (c', dns')) := request_certificate_async domain email c dns in
  others_same challenge_name dns dns' /\
  forall cert, r = Ok cert ->
    (exists order s1 s2 s3, poll_ready order s1 = (Ok Ready, s2) /\ finalize order s2 = (Ok (key_pem cert), s3) /\
       (poll_certificate order s3).1 = Ok (cert_pem cert) /\ ia_server c' = (poll_certificate order s3).2) /\
    ((forall d, zone_ok d -> is_ok (delete_txt_record challenge_name d).1 = true) ->
       has_txt dns' challenge_name = false \/ dns' = dns).
Proof.
  cbn zeta. intros Hi Ho. unfold request_certificate_async. set (name := "_acme-challenge." +:+ domain) in *.
  destruct (load_or_create_account email c) as [[account|] c1]; [|by split].
  destruct (on_server (new_order account domain) c1) as [[order|] c2]; [|by split].
  pose proof (authorize_zone domain name order (authorizations order) [] c2 dns Hi Ho) as Hz.
  destruct (authorize _ _ _ _ _ _ _) as [[values|] [c3 d3]] eqn:Ea; cbn in Hz; destruct Hz as [Ho3 Hz]; [|by split].
  apply authorize_values in Ea. destruct (finalize_and_download order c3) as [r c4] eqn:Ef. split.
  - destruct values; [done|]. pose proof (delete_has name d3 Hi Ho3) as Hd.
    destruct (delete_txt_record name d3) as [r2 d4]. destruct Hd as (Ho4 & Hd & _). split; [done|].
    intros n Hn Hne. cbn. by rewrite Hd, Hz.
  - intros cert ->. split.
    + unfold finalize_and_download, on_server in Ef.
      destruct (poll_ready order (ia_server c3)) as [[[]|] s2] eqn:E1; cbn in Ef; try done.
      destruct (finalize order s2) as [[key|] s3] eqn:E2; cbn in Ef; [|done].
      destruct (poll_certificate order s3) as [[pem|] s4] eqn:E3; cbn in Ef; [|done]. injection Ef as <- <-.
      exists order, (ia_server c3), s2, s3. by rewrite E3.
    + intros Hdel. destruct Ea as [(_ & -> & ->)|Hne]; [by right|]. left. destruct values; [done|].
      pose proof (delete_has name d3 Hi Ho3) as Hd. specialize (Hdel d3 Ho3).
      destruct (delete_txt_record name d3) as [r2 d4]. by apply Hd.
Qed.

(** C21: a certificate comes from a validated order and leaves no challenge behind.
    A request that succeeds returns the key and the certificate the server gave for
    an order it had declared ready; the record of the challenge is gone if the
    provider can delete it, and by a request for a name of the provider's zone,
    whether it succeeds or fails, no other name of the zone gains its first TXT
    record or loses its last one (a zone is observed as which names have one, not
    by their values). *)
Theorem acme_request_correct domain email c dns :
  let challenge_name := "_acme-challenge." +:+ domain in
  in_zone challenge_name -> zone_ok dns ->
  let '(r, (c', dns')) := request_certificate_async domain email c dns in
  (forall name, in_zone name -> name <> challenge_name -> has_txt dns' name = has_txt dns name) /\
  forall cert, r = Ok cert ->
    (exists order s1 s2 s3, poll_ready order s1 = (Ok Ready, s2) /\ finalize order s2 = (Ok (key_pem cert), s3) /\
       (poll_certificate order s3).1 = Ok (cert_pem cert) /\ ia_server c' = (poll_certificate order s3).2) /\
    ((forall d, zone_ok d -> is_ok (delete_txt_record challenge_name d).1 = true) ->
       has_txt dns' challenge_name = false \/ dns' = dns).
Proof.
  cbn zeta. intros Hi Ho. pose proof (request_certificate_zone domain email c dns Hi Ho) as H.
  destruct (request_certificate_async _ _ _ _) as [r [c' dns']]. destruct H as [[_ H1] H2]. by split.
Qed.

(** C36: a failed challenge leaves its record in the zone.  The clean-up at the end
    of a request is not reached when a step of the challenge itself fails: if the
    record was created but does not propagate in time, or the server refuses to be
    told that it is there, the request fails and the record stays. *)
Theorem failed_challenge_leaves_record domain email c dns account c1 order c2 url urls challenge c3 dns1 dns2 c4 e :
  let name := "_acme-challenge." +:+ domain in
  in_zone name -> zone_ok dns -> load_or_create_account email c = (Ok account, c1) ->
  on_server (new_order account domain) c1 = (Ok order, c2) -> authorizations order = url :: urls ->
  on_server (fetch_authorization order url) c2 = (Ok (Some challenge), c3) ->
  create_txt_record name (dns_value challenge) dns = (Ok tt, dns1) ->
  (exists e', wait_for_propagation name (dns_value challenge) dns1 = (Err e', dns2) /\ e = AcmeDns e' /\ c4 = c3) \/
  (wait_for_propagation name (dns_value challenge) dns1 = (Ok tt, dns2) /\
   on_server (set_ready challenge) c3 = (Err e, c4)) ->
  request_certificate_async domain email c dns = (Err e, (c4, dns2)) /\ has_txt dns2 name = true.
Proof.
  cbn zeta. intros Hi Ho E1 E2 E3 E4 E5 E6. set (name := "_acme-challenge." +:+ domain) in *. split.
  - unfold request_certificate_async. rewrite E1, E2, E3. fold name. cbn [authorize]. unfold authorize_one.
    rewrite E4, E5. by destruct E6 as [(e' & -> & -> & ->)|[-> ->]].
  - pose proof (create_has name (dns_value challenge) dns Hi Ho) as Hc. rewrite E5 in Hc. destruct Hc as (Ho1 & _ & Hc).
    destruct (wait_has name (dns_value challenge) dns1 Ho1) as [_ Hw].
    assert ((wait_for_propagation name (dns_value challenge) dns1).2 = dns2) as E
      by (by destruct E6 as [(e' & -> & _)|[-> _]]). rewrite E in Hw. rewrite Hw. by apply Hc.
Qed.
End dns.
End acme.

(** ** A zone in memory, and a server that accepts or refuses *)

#[global] Instance fake_dns_zone : DnsZone (D := FakeDnsProvider).
Proof.
  refine {| has_txt d name := bool_decide (is_Some (fd_records d !! name)); in_zone _ := True; zone_ok _ := True |}.
  - intros name value d _ _. cbn. unfold fake_create_txt_record. destruct (fd_fail_create d); [done|].
    split; [done|]. split; [intros n _ Hn|intros _]; cbn; [|by rewrite lookup_insert_eq]. by rewrite lookup_insert_ne by done.
  - done.
  - intros name d _ _. cbn. split; [done|]. split; [intros n _ Hn|intros _]; [|by rewrite lookup_delete_eq].
    by rewrite lookup_delete_ne by done.
Defined.

Record DemoServer : Type := mkDemoServer { ds_accounts : nat; ds_refuse : bool }.

#[local] Instance demo_server : AcmeServer DemoServer string string string string := {|
  from_credentials credentials s := (Ok credentials, s);
  create contact url s := (Ok (contact, contact), mkDemoServer (1 + ds_accounts s) (ds_refuse s));
  new_order account domain s := (Ok domain, s);
  authorizations order := ["https://acme/authz/1"];
  fetch_authorization order url s := (Ok (Some "token"), s);
  dns_value challenge := "digest of " +:+ challenge;
  set_ready challenge s := (if ds_refuse s then Err "429 Too Many Requests" else Ok tt, s);
  poll_ready order s := (Ok Ready, s);
  finalize order s := (Ok "KEY", s);
  poll_certificate order s := (Ok "CHAIN", s)
|}.

Definition demo_acme (refuse : bool) : InstantAcmeClient (S := DemoServer) :=
  mkInstantAcme "https://acme/directory" "/var/db/keel/acme-account.json"
    (mkDisk ∅ (fun _ _ => None) id) (mkDemoServer 0 refuse).
Definition demo_zone : FakeDnsProvider := mkFakeDns ∅ false.
Notation demo_load := (load_or_create_account (S := DemoServer) Ok Ok "ops@example.com").
Notation demo_request := (request_certificate_async (S := DemoServer) Ok Ok "example.com" "ops@example.com").

Example demo_issued :
  let '(r, (c, dns)) := demo_request (demo_acme false) demo_zone in
  r = Ok (mkCert "CHAIN" "KEY") /\ fd_records dns = ∅ /\ ds_accounts (ia_server c) = 1%nat /\
  ds_accounts (ia_server (demo_request c dns).2.1) = 1%nat.
Proof. vm_compute. tauto. Qed.

Lemma acme_request_correct_witness :
  has_txt (demo_request (demo_acme false) (mkFakeDns {["_dmarc.example.com" := "v=DMARC1"]} false)).2.2
    "_dmarc.example.com" = true.
Proof.
  pose proof (acme_request_correct (S := DemoServer) Ok Ok "example.com" "ops@example.com" (demo_acme false)
    (mkFakeDns {["_dmarc.example.com" := "v=DMARC1"]} false)) I I as H. cbn zeta in H.
  destruct (demo_request _ _) as [r [c' dns']]. destruct H as [H _].
  exact (H "_dmarc.example.com" I ltac:(discriminate)).
Defined.

Lemma failed_challenge_leaves_record_witness :
  demo_request (demo_acme true) demo_zone =
    (Err (AcmeRequest "429 Too Many Requests"),
     ((demo_load (demo_acme true)).2, mkFakeDns {["_acme-challenge.example.com" := "digest of token"]} false)) /\
  has_txt (mkFakeDns {["_acme-challenge.example.com" := "digest of token"]} false) "_acme-challenge.example.com" = true.
Proof.
  apply (failed_challenge_leaves_record (S := DemoServer) Ok Ok "example.com" "ops@example.com" (demo_acme true) demo_zone
    "mailto:ops@example.com" (demo_load (demo_acme true)).2 "example.com" (demo_load (demo_acme true)).2
    "https://acme/authz/1" [] "token" (demo_load (demo_acme true)).2
    (mkFakeDns {["_acme-challenge.example.com" := "digest of token"]} false)
    (mkFakeDns {["_acme-challenge.example.com" := "digest of token"]} false) (demo_load (demo_acme true)).2).
  - exact I.
  - exact I.
  - vm_compute; reflexivity.
  - vm_compute; reflexivity.
  - vm_compute; reflexivity.
  - vm_compute; reflexivity.
  - vm_compute; reflexivity.
  - right. split; vm_compute; reflexivity.
Defined.

(** Credentials that are their own text. *)
Definition plain_credentials (text : string) : result string string :=
  if bool_decide (from_utf8_lossy text = text) then Ok text else Err "invalid credentials".
Notation plain_load := (load_or_create_account (S := DemoServer) plain_credentials plain_credentials).

Lemma acme_account_reused_witness :
  exists s, create "mailto:ops@example.com" "https://acme/directory" (mkDemoServer 0 false) =
    (Ok ("mailto:ops@example.com", "mailto:ops@example.com"), s) /\
  (plain_load "other@example.com" (plain_load "ops@example.com" (demo_acme false)).2).1 = Ok "mailto:ops@example.com".
Proof.
  destruct (acme_account_reused (S := DemoServer) plain_credentials plain_credentials
    ltac:(unfold plain_credentials; intros cr text; case_bool_decide; [|discriminate];
          intros [= <-]; by rewrite bool_decide_eq_true_2 by done)
    "ops@example.com" (demo_acme false) "mailto:ops@example.com" (plain_load "ops@example.com" (demo_acme false)).2
    ltac:(vm_compute; discriminate) ltac:(reflexivity) ltac:(vm_compute; reflexivity))
    as (credentials & text & s & E & Es & Hl & Hlater & _).
  exists s. assert (credentials = "mailto:ops@example.com") as -> by (cbn in E; congruence).
  split; [exact E|]. rewrite Hlater; [reflexivity|reflexivity|exact Hl|reflexivity].
Defined.
