(* ===== verification/OvhZone.v ===== *)
(** * The OVH provider keeps a zone

    Ovh.v says what the provider sends; this file what that does to the zone
    behind the API, under the documented meaning of the four calls
    ([POST /record], [GET /record], [DELETE /record/id], [POST /refresh]).  The
    provider then has the contract of a DNS zone that the ACME client relies on
    ([DnsZone] of Acme.v), for the names below the zone, so that the two clients
    of [keel-ingress] compose: [instant_acme_client.rs] over [ovh.rs]. *)

From S2P Require Import Prelude RustStr Text Spec Wire Codecs Store Ingress Ovh Acme.

(** ** The API *)

(** [or_records log]: the TXT records of the zone, by id, after what happened: the
    sub-domain and the text of each.  Sub-domains go into the address of a listing
    as they are, so what a listing selects is only stated for plain ones. *)
Definition plain_char (c : ascii) : bool :=
  is_ascii_alphanumeric c || ascii_eqb c "-"%char || ascii_eqb c "_"%char || ascii_eqb c "."%char.

Class OvhRecords (zone_url : string) (record_json : string -> string -> string)
    (parse_ids : string -> result string (list N))
    (run : list OvhEvent -> HttpRequest -> result string string) : Type := {
  or_records : list OvhEvent -> gmap N (string * string);
  or_looked_up log name output : or_records (log ++ [LookedUp name output]) = or_records log;
  or_slept log secs : or_records (log ++ [Slept secs]) = or_records log;
  or_create log q sub value : hq_method q = "POST" -> hq_uri q = zone_url +:+ "/record" ->
    hq_body q = record_json sub value ->
    let answer := run log q in
    (exists id, or_records log !! id = None /\
       or_records (log ++ [Sent q answer]) = <[id := (sub, value)]> (or_records log)) \/
    (is_ok answer = false /\ or_records (log ++ [Sent q answer]) = or_records log);
  or_listing log q sub : hq_method q = "GET" ->
    hq_uri q = zone_url +:+ "/record?fieldType=TXT&subDomain=" +:+ sub ->
    let answer := run log q in
    or_records (log ++ [Sent q answer]) = or_records log /\
    (str_all plain_char sub = true -> forall body, answer = Ok body -> exists ids, parse_ids body = Ok ids /\
       forall id, id ∈ ids <-> exists value, or_records log !! id = Some (sub, value));
  or_delete log q id : hq_method q = "DELETE" -> hq_uri q = zone_url +:+ "/record/" +:+ u_to_string id ->
    let answer := run log q in
    or_records (log ++ [Sent q answer]) = delete id (or_records log) \/
    (is_ok answer = false /\ or_records (log ++ [Sent q answer]) = or_records log);
  or_refresh log q : hq_method q = "POST" -> hq_uri q = zone_url +:+ "/refresh" ->
    or_records (log ++ [Sent q (run log q)]) = or_records log
}.

Section zone.
Context (sha1_hex : string -> string) (record_json : string -> string -> string)
        (parse_ids : string -> result string (list N)).
Context (app_key app_secret consumer_key zone endpoint : string).
Context (clock : list OvhEvent -> result string N)
        (run : list OvhEvent -> HttpRequest -> result string string)
        (host : list OvhEvent -> string -> result string string).
Notation zone_url := (endpoint +:+ "/domain/zone/" +:+ zone).
Context {OR : OvhRecords zone_url record_json parse_ids run}.

(** The provider of these credentials after what happened. *)
Definition provider (log : list OvhEvent) : OvhDnsProvider :=
  mkOvhDnsProvider app_key app_secret consumer_key zone endpoint (mkOutside log clock run host).

Notation request := (ovh_request sha1_hex).
Notation records := or_records.

(** A call either does not reach the API, or is answered by it. *)
Lemma request_cases method path body log :
  (exists e, request method path body (provider log) = (Err (DnsRequest e), provider log)) \/
  (exists q, hq_method q = method /\ hq_uri q = endpoint +:+ path /\ hq_body q = body /\
     request method path body (provider log) =
       (map_err DnsRequest (run log q), provider (log ++ [Sent q (run log q)]))).
Proof.
  unfold ovh_request. cbn. destruct (clock log) as [t|e]; [right|left; by exists e].
  by exists (signed_request sha1_hex (provider log) method path body t).
Qed.

(** ** Creating *)

Definition created (sub value : string) (z z' : gmap N (string * string)) : Prop :=
  exists id, z !! id = None /\ z' = <[id := (sub, value)]> z.

Lemma create_txt_spec name value log :
  exists r log', ovh_create_txt_record sha1_hex record_json name value (provider log) = (r, provider log') /\
    (created (sub_domain zone name) value (records log) (records log') \/
     (is_ok r = false /\ records log' = records log)).
Proof.
  unfold ovh_create_txt_record. change (ov_zone (provider log)) with zone.
  destruct (request_cases "POST" (record_path (provider log)) (record_json (sub_domain zone name) value) log)
    as [[e ->]|(q & Hm & Hu & Hb & ->)]; [eexists _, log; split; [done|by right]|].
  unfold record_path in Hu. cbn [ov_zone provider] in Hu. rewrite !app_assoc_str in Hu. rewrite <- (app_assoc_str endpoint) in Hu.
  pose proof (or_create log q _ _ Hm Hu Hb) as Hc. cbv zeta in Hc. set (log1 := log ++ [_]) in *.
  destruct (run log q) as [answer|e]; cbn [map_err]; [|eexists _, log1; split; [done|]; tauto].
  destruct Hc as [Hc|[[=] _]].
  destruct (request_cases "POST" (refresh_path (provider log1)) EmptyString log1)
    as [[e ->]|(q2 & Hm2 & Hu2 & _ & ->)]; [eexists _, log1; split; [done|by left]|].
  eexists _, _. split; [done|]. left. unfold refresh_path in Hu2. cbn [ov_zone provider] in Hu2.
  rewrite !app_assoc_str in Hu2. rewrite <- (app_assoc_str endpoint) in Hu2.
  by rewrite (or_refresh log1 q2 Hm2 Hu2).
Qed.

(** ** Deleting *)

(** Some of the records of [sub] are gone, and nothing else changed. *)
Definition removed (sub : string) (z z' : gmap N (string * string)) : Prop :=
  forall id, z' !! id = z !! id \/ z' !! id = None /\ exists value, z !! id = Some (sub, value).

Lemma delete_ids_zone sub ids log :
  (forall id, id ∈ ids -> records log !! id = None \/ exists value, records log !! id = Some (sub, value)) ->
  exists r log', delete_ids sha1_hex ids (provider log) = (r, provider log') /\
    removed sub (records log) (records log') /\
    (is_ok r = true -> forall id, id ∈ ids -> records log' !! id = None).
Proof.
  revert log. induction ids as [|id ids IH]; intros log Hids; cbn [delete_ids].
  { eexists _, log. split; [done|]. split; [intros id; by left|]. intros _ id Hid. by apply not_elem_of_nil in Hid. }
  destruct (request_cases "DELETE" (record_path (provider log) +:+ "/" +:+ u_to_string id) EmptyString log)
    as [[e ->]|(q & Hm & Hu & _ & ->)]; [eexists _, log; split; [done|]; split; [intros i; by left|done]|].
  unfold record_path in Hu. cbn [ov_zone provider] in Hu.
  assert (hq_uri q = zone_url +:+ "/record/" +:+ u_to_string id) as Hu' by (rewrite Hu; by rewrite <- !app_assoc_str).
  pose proof (or_delete log q id Hm Hu') as Hd. cbv zeta in Hd. set (log1 := log ++ [_]) in *.
  assert (removed sub (records log) (records log1)) as H1.
  { intros i. destruct Hd as [->|[_ ->]]; [|by left].
    destruct (decide (i = id)) as [->|Hne]; [|left; by apply lookup_delete_ne].
    destruct (Hids id) as [E|E]; [set_solver|left|right]; rewrite lookup_delete_eq; [done|by split]. }
  destruct (run log q) as [answer|e]; cbn [map_err]; [|by exists (Err (DnsRequest e)), log1].
  destruct Hd as [Hd|[[=] _]].
  destruct (IH log1) as (r & log' & E & Hr & Hok).
  { intros i Hi. destruct (H1 i) as [->|[-> _]]; [apply Hids; set_solver|by left]. }
  exists r, log'. split; [exact E|]. split.
  - intros i. destruct (Hr i) as [->|[-> (v & Ev)]]; [apply H1|]. destruct (H1 i) as [E1|[E1 Hv]]; [|by right].
    right. split; [done|]. exists v. congruence.
  - intros Hr' i [->|Hi]%elem_of_cons; [|by apply Hok].
    destruct (Hr id) as [->|[-> _]]; [|done]. by rewrite Hd, lookup_delete_eq.
Qed.

Lemma delete_txt_spec name log :
  str_all plain_char (sub_domain zone name) = true ->
  exists r log', ovh_delete_txt_record sha1_hex parse_ids name (provider log) = (r, provider log') /\
    removed (sub_domain zone name) (records log) (records log') /\
    (is_ok r = true -> forall id value, records log' !! id <> Some (sub_domain zone name, value)).
Proof.
  intros Hplain. unfold ovh_delete_txt_record.
  destruct (request_cases "GET" (listing_path (provider log) name) EmptyString log)
    as [[e ->]|(q & Hm & Hu & _ & ->)]; [eexists _, log; split; [done|]; split; [intros i; by left|done]|].
  assert (hq_uri q = zone_url +:+ "/record?fieldType=TXT&subDomain=" +:+ sub_domain zone name) as Hu'
    by (rewrite Hu; unfold listing_path, record_path; cbn [ov_zone provider]; by rewrite <- !app_assoc_str).
  destruct (or_listing log q _ Hm Hu') as [Hsame Hlist]. specialize (Hlist Hplain).
  set (log1 := log ++ [_]) in *. set (sub := sub_domain zone name) in *.
  destruct (run log q) as [body|e]; cbn [map_err];
    [|eexists _, log1; split; [done|]; rewrite Hsame; split; [intros i; by left|done]].
  destruct (Hlist body eq_refl) as (ids & -> & Hids). cbn [map_err].
  destruct (delete_ids_zone sub ids log1) as (r & log2 & E & Hr & Hok).
  { intros id Hid. right. rewrite Hsame. by apply Hids. }
  rewrite E, Hsame in *. clear E.
  destruct r as [[]|e]; [|eexists _, log2; split; [done|by split]].
  assert (forall id value, records log2 !! id <> Some (sub, value)) as Hnone.
  { intros id value Ev. assert (id ∈ ids) as Hid.
    { apply Hids. destruct (Hr id) as [E|[E _]]; [|congruence]. exists value. by rewrite <- E. }
    by rewrite Hok in Ev. }
  destruct (request_cases "POST" (refresh_path (provider log2)) EmptyString log2)
    as [[e ->]|(q2 & Hm2 & Hu2 & _ & ->)]; [eexists _, log2; split; [done|by split]|].
  eexists _, _. split; [done|]. unfold refresh_path in Hu2. cbn [ov_zone provider] in Hu2.
  rewrite !app_assoc_str in Hu2. rewrite <- (app_assoc_str endpoint) in Hu2.
  by rewrite (or_refresh log2 q2 Hm2 Hu2).
Qed.

(** ** Waiting *)

Lemma wait_txt_spec n name value log :
  exists r log', wait_attempts n name value (provider log) = (r, provider log') /\ records log' = records log.
Proof.
  revert log. induction n as [|n IH]; intros log; cbn [wait_attempts]; [by eexists _, log|].
  cbn [ov_outside provider os_host os_log]. destruct (host log name) as [stdout|e].
  2:{ eexists _, (log ++ [_]). split; [done|]. apply or_looked_up. }
  destruct (contains_str _ _); [eexists _, (log ++ [_]); split; [done|]; apply or_looked_up|].
  destruct (IH ((log ++ [LookedUp name (Ok stdout)]) ++ [Slept RETRY_DELAY])) as (r & log' & E & Hr).
  exists r, log'. split; [exact E|]. by rewrite Hr, or_slept, or_looked_up.
Qed.

(** ** The contract *)

(** A plain name below the zone that does not repeat it. *)
Definition below_zone (name : string) : Prop :=
  exists label, name = label +:+ "." +:+ zone /\ strip_suffix_str ("." +:+ zone) label = None /\
    strip_suffix_str zone label = None /\ str_all plain_char label = true.

Lemma below_zone_sub name : zone <> EmptyString -> below_zone name ->
  name = sub_domain zone name +:+ "." +:+ zone /\ str_all plain_char (sub_domain zone name) = true.
Proof.
  intros Hz (label & E & H1 & H2 & Hp).
  assert (sub_domain zone name = label) as -> by (subst name; unfold sub_domain;
    rewrite (trim_end_once ("." +:+ zone)) by done; by apply trim_end_none). done.
Qed.

Definition has_sub (sub : string) (z : gmap N (string * string)) : bool :=
  existsb (fun r => String.eqb r.2.1 sub) (map_to_list z).

Lemma has_sub_spec sub z : has_sub sub z = true <-> exists id value, z !! id = Some (sub, value).
Proof.
  unfold has_sub. rewrite existsb_exists. split.
  - intros ([id [s v]] & Hin & E%String.eqb_eq). cbn in E. subst s. exists id, v.
    by apply elem_of_map_to_list, list_elem_of_In.
  - intros (id & v & E). exists (id, (sub, v)). split; [by apply list_elem_of_In, elem_of_map_to_list|].
    apply String.eqb_refl.
Qed.

Lemma has_sub_ext sub z z' :
  (forall id value, z !! id = Some (sub, value) <-> z' !! id = Some (sub, value)) -> has_sub sub z = has_sub sub z'.
Proof.
  intros H. apply eq_true_iff_eq. rewrite !has_sub_spec. split; intros (id & v & E); exists id, v; by apply H.
Qed.

Lemma created_other sub value other z z' : other <> sub -> created sub value z z' -> has_sub other z' = has_sub other z.
Proof.
  intros Hne (id & Hn & ->). apply has_sub_ext. intros i v. destruct (decide (i = id)) as [->|Hi].
  - rewrite lookup_insert_eq, Hn. split; [intros [=]; congruence|done].
  - by rewrite lookup_insert_ne.
Qed.

Lemma removed_other sub other z z' : other <> sub -> removed sub z z' -> has_sub other z' = has_sub other z.
Proof.
  intros Hne Hr. apply has_sub_ext. intros i v. destruct (Hr i) as [->|[-> (w & ->)]]; [done|].
  split; [done|intros [=]; congruence].
Qed.

Context (Hzone : zone <> EmptyString).

(** The provider is a zone the ACME client can rely on. *)
#[local] Instance ovh_dns_provider : DnsProvider OvhDnsProvider := ovh_dns sha1_hex record_json parse_ids.
#[local] Instance ovh_zone : DnsZone (D := OvhDnsProvider).
Proof.
  refine {| has_txt p name := has_sub (sub_domain zone name) (records (os_log (ov_outside p)));
            in_zone := below_zone; zone_ok p := exists log, p = provider log |}.
  - intros name value p Hn [log ->]. destruct (create_txt_spec name value log) as (r & log' & E & Hc).
    cbn [create_txt_record ovh_dns_provider ovh_dns]. rewrite E. split; [exact (ex_intro _ log' eq_refl)|]. split.
    + intros n Hb Hne. cbn. destruct Hc as [Hc|[_ ->]]; [|done]. eapply created_other; [|exact Hc].
      intros Es. apply Hne. destruct (below_zone_sub n Hzone Hb) as [-> _]. destruct (below_zone_sub name Hzone Hn) as [-> _].
      by rewrite Es.
    + intros Hok. cbn. destruct Hc as [(id & _ & ->)|[Hc _]]; [|congruence].
      apply has_sub_spec. exists id, value. apply lookup_insert_eq.
  - intros name value p [log ->]. cbn zeta. cbn [wait_for_propagation ovh_dns_provider ovh_dns].
    destruct (wait_txt_spec MAX_ATTEMPTS name value log) as (r & log' & E & Hr).
    unfold ovh_wait_for_propagation. rewrite E. cbn [snd ov_outside provider os_log]. split; [exact (ex_intro _ log' eq_refl)|]. intros n. by rewrite Hr.
  - intros name p Hn [log ->]. destruct (below_zone_sub name Hzone Hn) as [En Hplain].
    destruct (delete_txt_spec name log Hplain) as (r & log' & E & Hr & Hok).
    cbn [delete_txt_record ovh_dns_provider ovh_dns]. rewrite E. split; [exact (ex_intro _ log' eq_refl)|]. split.
    + intros n Hb Hne. cbn. eapply removed_other; [|exact Hr]. intros Es. apply Hne.
      destruct (below_zone_sub n Hzone Hb) as [-> _]. rewrite En. by rewrite Es.
    + intros H. cbn. destruct (has_sub _ _) eqn:Eh; [|done]. apply has_sub_spec in Eh as (id & v & Ev).
      by destruct (Hok H id v).
Defined.

(** A deletion whose every call is answered with success succeeds. *)
Lemma delete_txt_answers name log :
  str_all plain_char (sub_domain zone name) = true ->
  (forall log, is_ok (clock log) = true) -> (forall log q, is_ok (run log q) = true) ->
  is_ok (ovh_delete_txt_record sha1_hex parse_ids name (provider log)).1 = true.
Proof.
  intros Hplain Hclock Hrun.
  assert (forall method path body log, exists answer log',
    request method path body (provider log) = (Ok answer, provider log')) as Hreq.
  { intros method path body l. unfold ovh_request. cbn [os_clock os_run os_log ov_outside provider].
    specialize (Hclock l). destruct (clock l) as [t|]; [|done].
    set (q := signed_request sha1_hex _ method path body t). specialize (Hrun l q).
    destruct (run l q) as [answer|]; [|done]. by exists answer, (l ++ [Sent q (Ok answer)]). }
  assert (forall ids log, exists log', delete_ids sha1_hex ids (provider log) = (Ok tt, provider log')) as Hids.
  { induction ids as [|id ids IH]; intros l; cbn [delete_ids]; [by exists l|].
    destruct (Hreq "DELETE" (record_path (provider l) +:+ "/" +:+ u_to_string id) EmptyString l) as (a & l' & ->).
    apply IH. }
  unfold ovh_delete_txt_record.
  destruct (request_cases "GET" (listing_path (provider log) name) EmptyString log) as [[e E]|(q & Hm & Hu & _ & E)].
  { destruct (Hreq "GET" (listing_path (provider log) name) EmptyString log) as (a & l & E2). congruence. }
  rewrite E.
  assert (hq_uri q = zone_url +:+ "/record?fieldType=TXT&subDomain=" +:+ sub_domain zone name) as Hu'
    by (rewrite Hu; unfold listing_path, record_path; cbn [ov_zone provider]; by rewrite <- !app_assoc_str).
  destruct (or_listing log q _ Hm Hu') as [_ Hlist]. specialize (Hrun log q). set (log1 := log ++ [_]) in *.
  destruct (run log q) as [body|]; [|done]. cbn [map_err].
  destruct (Hlist Hplain body eq_refl) as (ids & -> & _). cbn [map_err].
  destruct (Hids ids log1) as (log2 & ->).
  by destruct (Hreq "POST" (refresh_path (provider log2)) EmptyString log2) as (a & l & ->).
Qed.

(** ** The two clients together *)

Context {S Account Credentials Order Challenge : Type}.
Context {HS : AcmeServer S Account Credentials Order Challenge}.
Context (parse_credentials : string -> result string Credentials)
        (serialize_credentials : Credentials -> result string string).

(** C31: certificates through OVH leave the zone as it was.  For a domain below
    the zone, whatever the ACME server and the API answer, by a request no other
    name of the zone gains its first TXT record or loses its last one (a zone is
    observed as which names have one); and when it ends with a certificate,
    and the API and the clock answered, no record of the challenge is left, also
    none an earlier failed request had left there. *)
Theorem certificate_through_ovh domain email (c : InstantAcmeClient (S := S)) log :
  let name := "_acme-challenge." +:+ domain in
  below_zone name ->
  exists r c' log',
    request_certificate_async parse_credentials serialize_credentials domain email c (provider log) =
      (r, (c', provider log')) /\
    (forall other, below_zone other -> other <> name ->
       has_sub (sub_domain zone other) (records log') = has_sub (sub_domain zone other) (records log)) /\
    (is_ok r = true -> (forall log, is_ok (clock log) = true) -> (forall log q, is_ok (run log q) = true) ->
       log' = log \/ forall id value, records log' !! id <> Some (sub_domain zone name, value)).
Proof.
  cbn zeta. intros Hn. set (name := "_acme-challenge." +:+ domain) in *.
  pose proof (request_certificate_zone parse_credentials serialize_credentials domain email c (provider log) Hn
    (ex_intro _ log eq_refl)) as H. cbv zeta in H. fold name in H.
  destruct (request_certificate_async _ _ domain email c (provider log)) as [r [c' p']].
  destruct H as [[[log' ->] Hother] Hcert]. exists r, c', log'. split; [done|]. split; [exact Hother|].
  intros Hok Hclock Hrun. destruct r as [cert|]; [|done]. destruct (Hcert cert eq_refl) as [_ H].
  destruct (below_zone_sub name Hzone Hn) as [_ Hplain]. destruct H as [H|H].
  - intros d [l ->]. by apply delete_txt_answers.
  - right. intros id value Ev. apply not_true_iff_false in H. apply H. apply has_sub_spec. by exists id, value.
  - left. by injection H.
Qed.
End zone.

(** ** The contract can be kept

    An API that replays its log: bodies and listings are codes of what they carry. *)

Definition demo_url : string := "https://eu.api.ovh.com/1.0/domain/zone/example.com".
Definition text_of {T} `{Countable T} (x : T) : string := bits_to_string (encode x).
Definition of_text {T} `{Countable T} (s : string) : option T := p ← bits_parse s; decode p.
Definition demo_json (sub value : string) : string := text_of (sub, value).
Definition demo_parse_ids (s : string) : result string (list N) := ok_or (of_text s) "expected a list".

Definition next_id (z : gmap N (string * string)) : N := foldr N.max 0%N (map_to_list z).*1 + 1.
Definition demo_apply (q : HttpRequest) (z : gmap N (string * string)) : gmap N (string * string) :=
  if String.eqb (hq_method q) "DELETE" then
    match strip_prefix (demo_url +:+ "/record/") (hq_uri q) ≫= parse_digits with
    | Some id => delete id z
    | None => z
    end
  else if String.eqb (hq_method q) "POST" && String.eqb (hq_uri q) (demo_url +:+ "/record") then
    match of_text (hq_body q) with Some r => <[next_id z := r]> z | None => z end
  else z.
Definition demo_event (z : gmap N (string * string)) (e : OvhEvent) : gmap N (string * string) :=
  match e with Sent q (Ok _) => demo_apply q z | _ => z end.
Definition demo_records (log : list OvhEvent) : gmap N (string * string) := fold_left demo_event log ∅.
Definition demo_run (log : list OvhEvent) (q : HttpRequest) : result string string :=
  match strip_prefix (demo_url +:+ "/record?fieldType=TXT&subDomain=") (hq_uri q) with
  | Some sub => Ok (text_of (omap (fun r : N * (string * string) => if String.eqb r.2.1 sub then Some r.1 else None)
                              (map_to_list (demo_records log))))
  | None => Ok "null"
  end.

Lemma of_text_of {T} `{Countable T} (x : T) : of_text (text_of x) = Some x.
Proof. unfold of_text, text_of. rewrite bits_parse_to_string. apply decode_encode. Qed.

Lemma next_id_fresh z : z !! next_id z = None.
Proof.
  destruct (z !! next_id z) as [r|] eqn:E; [|done]. exfalso.
  assert (forall l : list N, next_id z ∈ l -> (next_id z <= foldr N.max 0 l)%N) as Hmax.
  { induction l as [|k l IH]; [set_solver|]. intros [->|Hk]%elem_of_cons; cbn; [lia|]. specialize (IH Hk). lia. }
  pose proof (Hmax (map_to_list z).*1) as H. unfold next_id in H at 2.
  assert (next_id z ∈ (map_to_list z).*1) as Hin.
  { apply list_elem_of_fmap. exists (next_id z, r). split; [done|by apply elem_of_map_to_list]. }
  specialize (H Hin). unfold next_id in H. lia.
Qed.

Lemma demo_records_sent log q :
  demo_records (log ++ [Sent q (demo_run log q)]) = demo_apply q (demo_records log).
Proof.
  unfold demo_records at 1. rewrite fold_left_app. cbn. unfold demo_run. by destruct (strip_prefix _ _).
Qed.

#[local] Instance demo_api : OvhRecords demo_url demo_json demo_parse_ids demo_run.
Proof.
  refine {| or_records := demo_records |}.
  - intros log name output. unfold demo_records. by rewrite fold_left_app.
  - intros log secs. unfold demo_records. by rewrite fold_left_app.
  - intros log q sub value Hm Hu Hb. cbv zeta. left. rewrite demo_records_sent.
    exists (next_id (demo_records log)). split; [apply next_id_fresh|].
    unfold demo_apply. rewrite Hm, Hu, Hb. change (String.eqb "POST" "DELETE") with false.
    rewrite String.eqb_refl. cbn [andb]. rewrite String.eqb_refl. unfold demo_json. by rewrite of_text_of.
  - intros log q sub Hm Hu. cbv zeta. rewrite demo_records_sent. split; [unfold demo_apply; by rewrite Hm|].
    intros _ body Hbody. unfold demo_run in Hbody. rewrite Hu, app_assoc_str, strip_prefix_app in Hbody.
    injection Hbody as <-. eexists. split; [unfold demo_parse_ids; by rewrite of_text_of|].
    intros id. rewrite list_elem_of_omap. split.
    + intros ([i [s v]] & Hin & E). cbn in E. destruct (String.eqb_spec s sub) as [->|]; [|done].
      injection E as ->. exists v. by apply elem_of_map_to_list in Hin.
    + intros [v E]. exists (id, (sub, v)). split; [by apply elem_of_map_to_list|]. cbn. by rewrite String.eqb_refl.
  - intros log q id Hm Hu. cbv zeta. left. rewrite demo_records_sent. unfold demo_apply.
    rewrite Hm, Hu, app_assoc_str, strip_prefix_app. cbn [String.eqb mbind option_bind].
    by rewrite parse_digits_u_to_string.
  - intros log q Hm Hu. rewrite demo_records_sent. unfold demo_apply. rewrite Hm, Hu. reflexivity.
Defined.

(** A record of another name, and one a failed request left behind. *)
Definition stale_log : list OvhEvent :=
  [Sent (mkHttpRequest "POST" (demo_url +:+ "/record") [] (demo_json "_dmarc" "v=DMARC1")) (Ok "null");
   Sent (mkHttpRequest "POST" (demo_url +:+ "/record") [] (demo_json "_acme-challenge" "an old digest")) (Ok "null")].
Definition shown_host (log : list OvhEvent) (name : string) : result string string := Ok "digest of token".
Notation demo_issue := (@request_certificate_async _ _ _ _ _ demo_server Ok Ok OvhDnsProvider
  (ovh_dns demo_sha1 demo_json demo_parse_ids) "example.com" "ops@example.com" (demo_acme false)).
Notation demo_provider := (provider "ak" "as" "ck" "example.com" "https://eu.api.ovh.com/1.0"
  (fun _ => Ok 1800000000%N) demo_run shown_host).

Lemma certificate_through_ovh_witness :
  exists c' log', demo_issue (demo_provider stale_log) = (Ok (mkCert "CHAIN" "KEY"), (c', demo_provider log')) /\
    has_sub "_dmarc" (demo_records log') = true /\
    forall id value, demo_records log' !! id <> Some ("_acme-challenge", value).
Proof.
  destruct (@certificate_through_ovh demo_sha1 demo_json demo_parse_ids "ak" "as" "ck" "example.com"
    "https://eu.api.ovh.com/1.0" (fun _ => Ok 1800000000%N) demo_run shown_host demo_api ltac:(discriminate)
    DemoServer string string string string demo_server Ok Ok "example.com" "ops@example.com" (demo_acme false)
    stale_log) as (r & c' & log' & E & Hother & Hgone).
  - exists "_acme-challenge". repeat split; reflexivity.
  - change (demo_issue (demo_provider stale_log) = (r, (c', demo_provider log'))) in E.
    assert ((demo_issue (demo_provider stale_log)).1 = Ok (mkCert "CHAIN" "KEY")) as Er by (vm_compute; reflexivity).
    rewrite E in Er. cbn in Er. subst r. exists c', log'. split; [exact E|]. split.
    + assert (has_sub "_dmarc" (demo_records stale_log) = true) as Hs by (vm_compute; reflexivity).
      rewrite <- Hs. apply (Hother "_dmarc.example.com"); [|discriminate].
      exists "_dmarc". repeat split; reflexivity.
    + destruct (Hgone eq_refl (fun _ => eq_refl)) as [El|H]; [| |exact H].
      * intros log q. unfold demo_run. by destruct (strip_prefix _ _).
      * exfalso. assert (length (os_log (ov_outside (demo_issue (demo_provider stale_log)).2.2)) <> 2%nat) as Hl
          by (vm_compute; discriminate).
        rewrite E in Hl. cbn in Hl. by rewrite El in Hl.
Defined.
