(* ===== verification/Reconciler.v ===== *)
(** * The node agent's reconciler

    [keel-agentd/src/reconciler.rs]: the desired jails and ingresses of a node,
    mirrored to disk, and the host operations that bring the node there.  The
    reconciler is generic in its host objects (the classes of [AgentHost] and
    [Ingress]), as the source is; an operation is a state transformer that may
    fail with a [ReconcileError], keeping what it already did, or panic. *)

From S2P Require Import Prelude RustStr Float64 Ipnet Spec Codecs Registry Wire Backoff.
From S2P Require Import AgentHost Store Ingress.

Open Scope keel_scope.

Inductive ReconcileError : Type :=
  | InvalidSpec (e : SpecError)
  | EStore (e : StoreError)
  | EJail (e : JailError)
  | EZfs (e : ZfsError)
  | ENet (e : NetError)
  | EMount (e : MountError)
  | NotFound (name : string)
  | BaseImageNotFound (dataset : string).

(** The state directory and its [ingress] subdirectory are two disks; a third
    holds the certificates inside the ingress jail's root. *)
Record Reconciler (J Zf Nt M A D X : Type) : Type := mkReconciler {
  rc_jails : J;
  rc_zfs : Zf;
  rc_net : Nt;
  rc_mounts : M;
  rc_pool : string;
  rc_disk : Disk;
  rc_ingress_disk : Disk;
  rc_cert_disk : Disk;
  rc_records : gmap string JailRecord;
  rc_backoff : gmap string BackoffState;
  rc_next_epair_ordinal : N;
  rc_ingress_records : gmap string IngressRecord;
  rc_ingress_backoff : gmap string BackoffState;
  rc_acme : A;
  rc_dns : D;
  rc_nginx : X;
  rc_service_vips : ServiceVipSlot
}.
Arguments mkReconciler {J Zf Nt M A D X}.
Arguments rc_jails {J Zf Nt M A D X}.
Arguments rc_zfs {J Zf Nt M A D X}.
Arguments rc_net {J Zf Nt M A D X}.
Arguments rc_mounts {J Zf Nt M A D X}.
Arguments rc_pool {J Zf Nt M A D X}.
Arguments rc_disk {J Zf Nt M A D X}.
Arguments rc_ingress_disk {J Zf Nt M A D X}.
Arguments rc_cert_disk {J Zf Nt M A D X}.
Arguments rc_records {J Zf Nt M A D X}.
Arguments rc_backoff {J Zf Nt M A D X}.
Arguments rc_next_epair_ordinal {J Zf Nt M A D X}.
Arguments rc_ingress_records {J Zf Nt M A D X}.
Arguments rc_ingress_backoff {J Zf Nt M A D X}.
Arguments rc_acme {J Zf Nt M A D X}.
Arguments rc_dns {J Zf Nt M A D X}.
Arguments rc_nginx {J Zf Nt M A D X}.
Arguments rc_service_vips {J Zf Nt M A D X}.

Record JailStatus : Type := mkJailStatus {
  jst_record : JailRecord;
  jst_running : bool;
  jst_backoff : BackoffStatus
}.

Section reconciler.
Context {HO : HashOrder} {I : Ipnet} {YJR : SerdeYaml JailRecord} {YIR : SerdeYaml IngressRecord}.
Context {J Zf Nt M A D X : Type}.
Context {HJ : JailRuntime J} {HZ : ZfsManager Zf} {HN : NetManager Nt} {HM : MountManager M}
        {HA : AcmeClient A D} {HX : NginxController X}.

Definition RC : Type := Reconciler J Zf Nt M A D X.
Definition op (T : Type) : Type := stres RC ReconcileError T.

Definition set_jails (x : J) (s : RC) : RC :=
  mkReconciler x (rc_zfs s) (rc_net s) (rc_mounts s) (rc_pool s) (rc_disk s) (rc_ingress_disk s) (rc_cert_disk s) (rc_records s) (rc_backoff s) (rc_next_epair_ordinal s) (rc_ingress_records s) (rc_ingress_backoff s) (rc_acme s) (rc_dns s) (rc_nginx s) (rc_service_vips s).
Definition set_zfs (x : Zf) (s : RC) : RC :=
  mkReconciler (rc_jails s) x (rc_net s) (rc_mounts s) (rc_pool s) (rc_disk s) (rc_ingress_disk s) (rc_cert_disk s) (rc_records s) (rc_backoff s) (rc_next_epair_ordinal s) (rc_ingress_records s) (rc_ingress_backoff s) (rc_acme s) (rc_dns s) (rc_nginx s) (rc_service_vips s).
Definition set_net (x : Nt) (s : RC) : RC :=
  mkReconciler (rc_jails s) (rc_zfs s) x (rc_mounts s) (rc_pool s) (rc_disk s) (rc_ingress_disk s) (rc_cert_disk s) (rc_records s) (rc_backoff s) (rc_next_epair_ordinal s) (rc_ingress_records s) (rc_ingress_backoff s) (rc_acme s) (rc_dns s) (rc_nginx s) (rc_service_vips s).
Definition set_mounts (x : M) (s : RC) : RC :=
  mkReconciler (rc_jails s) (rc_zfs s) (rc_net s) x (rc_pool s) (rc_disk s) (rc_ingress_disk s) (rc_cert_disk s) (rc_records s) (rc_backoff s) (rc_next_epair_ordinal s) (rc_ingress_records s) (rc_ingress_backoff s) (rc_acme s) (rc_dns s) (rc_nginx s) (rc_service_vips s).
Definition set_disk (x : Disk) (s : RC) : RC :=
  mkReconciler (rc_jails s) (rc_zfs s) (rc_net s) (rc_mounts s) (rc_pool s) x (rc_ingress_disk s) (rc_cert_disk s) (rc_records s) (rc_backoff s) (rc_next_epair_ordinal s) (rc_ingress_records s) (rc_ingress_backoff s) (rc_acme s) (rc_dns s) (rc_nginx s) (rc_service_vips s).
Definition set_ingress_disk (x : Disk) (s : RC) : RC :=
  mkReconciler (rc_jails s) (rc_zfs s) (rc_net s) (rc_mounts s) (rc_pool s) (rc_disk s) x (rc_cert_disk s) (rc_records s) (rc_backoff s) (rc_next_epair_ordinal s) (rc_ingress_records s) (rc_ingress_backoff s) (rc_acme s) (rc_dns s) (rc_nginx s) (rc_service_vips s).
Definition set_cert_disk (x : Disk) (s : RC) : RC :=
  mkReconciler (rc_jails s) (rc_zfs s) (rc_net s) (rc_mounts s) (rc_pool s) (rc_disk s) (rc_ingress_disk s) x (rc_records s) (rc_backoff s) (rc_next_epair_ordinal s) (rc_ingress_records s) (rc_ingress_backoff s) (rc_acme s) (rc_dns s) (rc_nginx s) (rc_service_vips s).
Definition set_records (x : gmap string JailRecord) (s : RC) : RC :=
  mkReconciler (rc_jails s) (rc_zfs s) (rc_net s) (rc_mounts s) (rc_pool s) (rc_disk s) (rc_ingress_disk s) (rc_cert_disk s) x (rc_backoff s) (rc_next_epair_ordinal s) (rc_ingress_records s) (rc_ingress_backoff s) (rc_acme s) (rc_dns s) (rc_nginx s) (rc_service_vips s).
Definition set_backoff (x : gmap string BackoffState) (s : RC) : RC :=
  mkReconciler (rc_jails s) (rc_zfs s) (rc_net s) (rc_mounts s) (rc_pool s) (rc_disk s) (rc_ingress_disk s) (rc_cert_disk s) (rc_records s) x (rc_next_epair_ordinal s) (rc_ingress_records s) (rc_ingress_backoff s) (rc_acme s) (rc_dns s) (rc_nginx s) (rc_service_vips s).
Definition set_next_epair_ordinal (x : N) (s : RC) : RC :=
  mkReconciler (rc_jails s) (rc_zfs s) (rc_net s) (rc_mounts s) (rc_pool s) (rc_disk s) (rc_ingress_disk s) (rc_cert_disk s) (rc_records s) (rc_backoff s) x (rc_ingress_records s) (rc_ingress_backoff s) (rc_acme s) (rc_dns s) (rc_nginx s) (rc_service_vips s).
Definition set_ingress_records (x : gmap string IngressRecord) (s : RC) : RC :=
  mkReconciler (rc_jails s) (rc_zfs s) (rc_net s) (rc_mounts s) (rc_pool s) (rc_disk s) (rc_ingress_disk s) (rc_cert_disk s) (rc_records s) (rc_backoff s) (rc_next_epair_ordinal s) x (rc_ingress_backoff s) (rc_acme s) (rc_dns s) (rc_nginx s) (rc_service_vips s).
Definition set_ingress_backoff (x : gmap string BackoffState) (s : RC) : RC :=
  mkReconciler (rc_jails s) (rc_zfs s) (rc_net s) (rc_mounts s) (rc_pool s) (rc_disk s) (rc_ingress_disk s) (rc_cert_disk s) (rc_records s) (rc_backoff s) (rc_next_epair_ordinal s) (rc_ingress_records s) x (rc_acme s) (rc_dns s) (rc_nginx s) (rc_service_vips s).
Definition set_acme (x : A) (s : RC) : RC :=
  mkReconciler (rc_jails s) (rc_zfs s) (rc_net s) (rc_mounts s) (rc_pool s) (rc_disk s) (rc_ingress_disk s) (rc_cert_disk s) (rc_records s) (rc_backoff s) (rc_next_epair_ordinal s) (rc_ingress_records s) (rc_ingress_backoff s) x (rc_dns s) (rc_nginx s) (rc_service_vips s).
Definition set_dns (x : D) (s : RC) : RC :=
  mkReconciler (rc_jails s) (rc_zfs s) (rc_net s) (rc_mounts s) (rc_pool s) (rc_disk s) (rc_ingress_disk s) (rc_cert_disk s) (rc_records s) (rc_backoff s) (rc_next_epair_ordinal s) (rc_ingress_records s) (rc_ingress_backoff s) (rc_acme s) x (rc_nginx s) (rc_service_vips s).
Definition set_nginx (x : X) (s : RC) : RC :=
  mkReconciler (rc_jails s) (rc_zfs s) (rc_net s) (rc_mounts s) (rc_pool s) (rc_disk s) (rc_ingress_disk s) (rc_cert_disk s) (rc_records s) (rc_backoff s) (rc_next_epair_ordinal s) (rc_ingress_records s) (rc_ingress_backoff s) (rc_acme s) (rc_dns s) x (rc_service_vips s).

(** Calls on the host objects, with [?] converting the error. *)
Definition on_jails {T} (f : J -> result JailError T * J) : op T :=
  fun s => let '(r, j) := f (rc_jails s) in Val (map_err EJail r, set_jails j s).
Definition on_zfs {T} (f : Zf -> result ZfsError T * Zf) : op T :=
  fun s => let '(r, z) := f (rc_zfs s) in Val (map_err EZfs r, set_zfs z s).
Definition on_net {T} (f : Nt -> result NetError T * Nt) : op T :=
  fun s => let '(r, n) := f (rc_net s) in Val (map_err ENet r, set_net n s).
Definition on_net_comp {T} (f : Nt -> comp (result NetError T * Nt)) : op T :=
  fun s => '(r, n) ← f (rc_net s); Val (map_err ENet r, set_net n s).
Definition on_mounts {T} (f : M -> result MountError T * M) : op T :=
  fun s => let '(r, m) := f (rc_mounts s) in Val (map_err EMount r, set_mounts m s).
Definition on_disk {T} (f : Disk -> result StoreError T * Disk) : op T :=
  fun s => let '(r, d) := f (rc_disk s) in Val (map_err EStore r, set_disk d s).
Definition on_ingress_disk {T} (f : Disk -> result StoreError T * Disk) : op T :=
  fun s => let '(r, d) := f (rc_ingress_disk s) in Val (map_err EStore r, set_ingress_disk d s).
Definition asks {T} (f : RC -> result ReconcileError T) : op T := fun s => Val (f s, s).

Definition spec_check {T} (r : result SpecError T) : op T := st_lift (map_err InvalidSpec r).

(** ** [Reconciler::new] *)

Definition STATE_DIR : string := "state".
Definition INGRESS_DIR : string := "state/ingress".

Definition load_jails : Disk -> result StoreError (list JailRecord) := load_all STATE_DIR.
Definition save_jail : JailRecord -> Disk -> result StoreError unit * Disk := save jr_name STATE_DIR.
Definition remove_jail : string -> Disk -> result StoreError unit * Disk := remove STATE_DIR.
Definition load_ingresses : Disk -> result StoreError (list IngressRecord) := load_all INGRESS_DIR.
Definition save_ingress : IngressRecord -> Disk -> result StoreError unit * Disk :=
  save ir_name INGRESS_DIR.
Definition remove_ingress : string -> Disk -> result StoreError unit * Disk := remove INGRESS_DIR.

(** [loaded.iter().map(..).max().map(|m| m + 1).unwrap_or(1)]. *)
Definition next_ordinal (loaded : list JailRecord) : comp N :=
  match loaded with
  | [] => Val 1%N
  | _ => add_u32 (foldr N.max 0%N (jr_epair_ordinal <$> loaded)) 1
  end.

Definition collect_records {R} (name_of : R -> string) (l : list R) : gmap string R :=
  foldl (fun m r => <[name_of r := r]> m) ∅ l.

Definition reconciler_new (jails : J) (zfs : Zf) (net : Nt) (mounts : M) (pool : string)
    (disk ingress_disk cert_disk : Disk) (acme : A) (dns : D) (nginx : X) (vips : ServiceVipSlot)
    : comp (result ReconcileError RC) :=
  match load_jails disk with
  | Err e => Val (Err (EStore e))
  | Ok loaded =>
      next ← next_ordinal loaded;
      match load_ingresses ingress_disk with
      | Err e => Val (Err (EStore e))
      | Ok ingress_loaded =>
          Val (Ok (mkReconciler jails zfs net mounts pool disk ingress_disk cert_disk
                     (collect_records jr_name loaded) ∅ next
                     (collect_records ir_name ingress_loaded) ∅ acme dns nginx vips))
      end
  end.

(** ** Jails *)

(** The fresh ordinal of a new jail; [+= 1] on a u32. *)
Definition take_ordinal : op N := fun s =>
  next ← add_u32 (rc_next_epair_ordinal s) 1;
  Val (Ok (rc_next_epair_ordinal s), set_next_epair_ordinal next s).

Definition insert_record (r : JailRecord) (name : string) (s : RC) : RC :=
  set_records (<[name := r]> (rc_records s)) s.

Definition apply (spec : JailSpec) : op unit :=
  let name := meta_name (js_metadata spec) in
  spec_check (validate_name name) ;;!
  spec_check (validate_address (net_address (sp_network (js_spec spec)))) ;;!
  spec_check (parse_cpu_cores (res_cpu (sp_resources (js_spec spec)))) ;;!
  spec_check (parse_memory_bytes (res_memory (sp_resources (js_spec spec)))) ;;!
  s <-! st_get ;;
  epair_ordinal <-! match rc_records s !! name with
                    | Some existing =>
                        spec_check (validate_transition (jr_spec existing) spec) ;;!
                        st_ret (jr_epair_ordinal existing)
                    | None => take_ordinal
                    end ;;
  let record := mkJailRecord spec epair_ordinal in
  on_disk (save_jail record) ;;!
  st_modify (insert_record record name).

Definition mount_target (rootfs : string) (v : VolumeMount) : string :=
  path_join rootfs (trim_start_matches "/"%char (vol_mount_path v)).

Definition jail_not_found (e : ReconcileError) : bool :=
  match e with EJail (JNotFound _) => true | _ => false end.
Definition not_mounted (e : ReconcileError) : bool :=
  match e with EMount (NotMounted _) => true | _ => false end.
Definition zfs_not_found (e : ReconcileError) : bool :=
  match e with EZfs (ZNotFound _) => true | _ => false end.

Definition drop_record (name : string) (s : RC) : RC :=
  set_backoff (delete name (rc_backoff s)) (set_records (delete name (rc_records s)) s).

Definition delete_jail (name : string) : op unit :=
  record <-! asks (fun s => ok_or (rc_records s !! name) (NotFound name)) ;;
  s <-! st_get ;;
  let jname := jail_name name in
  let epair_base := epair_base_name (jr_epair_ordinal record) in
  let jail_dataset := jail_dataset_path (rc_pool s) name in
  let rootfs := jail_rootfs_path (rc_pool s) name in
  on_net (detach_jail epair_base) ;;!
  st_tolerate jail_not_found (on_jails (jail_destroy jname)) ;;!
  st_for (sp_volumes (js_spec (jr_spec record))) (fun volume =>
    st_tolerate not_mounted (on_mounts (unmount (mount_target rootfs volume)))) ;;!
  st_tolerate zfs_not_found (on_zfs (destroy_dataset jail_dataset)) ;;!
  st_tolerate jail_not_found (on_jails (remove_resource_limits jname)) ;;!
  on_disk (remove_jail name) ;;!
  st_modify (drop_record name).

(** Routes and aliases go straight to the network manager. *)
Definition net_call (f : Nt -> result NetError unit * Nt) (s : RC) : result NetError unit * RC :=
  let '(r, n) := f (rc_net s) in (r, set_net n s).
Definition rc_add_route (subnet gateway_addr : string) : RC -> result NetError unit * RC :=
  net_call (add_route subnet gateway_addr).
Definition rc_remove_route (subnet : string) : RC -> result NetError unit * RC :=
  net_call (remove_route subnet).
Definition rc_add_alias (bridge address : string) : RC -> result NetError unit * RC :=
  net_call (add_alias bridge address).
Definition rc_remove_alias (bridge address : string) : RC -> result NetError unit * RC :=
  net_call (remove_alias bridge address).

Definition get_volume (name : string) : op unit :=
  s <-! st_get ;;
  let dataset := volume_dataset_path (rc_pool s) name in
  exists_ <-! asks (fun s => map_err EZfs (dataset_exists (rc_zfs s) dataset)) ;;
  if exists_ : bool then st_ret tt else st_err (EZfs (ZNotFound dataset)).

Definition delete_volume (name : string) : op unit :=
  s <-! st_get ;;
  on_zfs (destroy_dataset (volume_dataset_path (rc_pool s) name)).

Definition with_replicate_to (to : option string) (spec : JailSpec) : JailSpec :=
  let sp := js_spec spec in
  mkJailSpec (js_api_version spec) (js_kind spec) (js_metadata spec)
    (mkSpec (sp_image sp) (sp_command sp) (sp_network sp) (sp_resources sp)
       (sp_restart_policy sp) (sp_volumes sp) to).

Definition set_replicate_to (name : string) (replicate_to : option string) : op unit :=
  record <-! asks (fun s => ok_or (rc_records s !! name) (NotFound name)) ;;
  let record := mkJailRecord (with_replicate_to replicate_to (jr_spec record))
                  (jr_epair_ordinal record) in
  on_disk (save_jail record) ;;!
  st_modify (insert_record record name).

(** ** Ingresses *)

Definition insert_ingress (r : IngressRecord) (name : string) (s : RC) : RC :=
  set_ingress_records (<[name := r]> (rc_ingress_records s)) s.

Definition apply_ingress (spec : IngressSpec) : op unit :=
  let name := meta_name (is_metadata spec) in
  spec_check (validate_name name) ;;!
  spec_check (validate_host (isb_host (is_spec spec))) ;;!
  spec_check (validate_email (it_email (isb_tls (is_spec spec)))) ;;!
  (if (ib_port (isb_backend (is_spec spec)) =? 0)%N
   then st_err (InvalidSpec (InvalidPort 0)) else st_ret tt) ;;!
  s <-! st_get ;;
  let expires := rc_ingress_records s !! name ≫= ir_cert_expires_at_unix in
  let record := mkIngressRecord spec expires in
  on_ingress_disk (save_ingress record) ;;!
  st_modify (insert_ingress record name).

Definition get_ingress (s : RC) (name : string) : option IngressRecord := rc_ingress_records s !! name.
Definition list_ingress (s : RC) : list IngressRecord := (hash_iter (rc_ingress_records s)).*2.

Definition delete_ingress (name : string) : op unit :=
  asks (fun s => ok_or (rc_ingress_records s !! name) (NotFound name)) ;;!
  on_ingress_disk (remove_ingress name) ;;!
  st_modify (fun s =>
    set_ingress_backoff (delete name (rc_ingress_backoff s))
      (set_ingress_records (delete name (rc_ingress_records s)) s)).

(** ** Provisioning *)

Definition configure_networking_and_limits (name : string) (record : JailRecord) : op unit :=
  let jname := jail_name name in
  let net := sp_network (js_spec (jr_spec record)) in
  let res := sp_resources (js_spec (jr_spec record)) in
  on_net (ensure_bridge_exists (net_bridge net)) ;;!
  on_net_comp (attach_jail jname (net_bridge net) (epair_base_name (jr_epair_ordinal record))
                 (net_address net)) ;;!
  cores <-! spec_check (parse_cpu_cores (res_cpu res)) ;;
  memory_bytes <-! spec_check (parse_memory_bytes (res_memory res)) ;;
  on_jails (set_resource_limits jname (cores_to_pcpu_percent cores) memory_bytes).

Definition provision_volume (rootfs : string) (volume : VolumeMount) : op unit :=
  s <-! st_get ;;
  let dataset := volume_dataset_path (rc_pool s) (vol_name volume) in
  let target := mount_target rootfs volume in
  on_mounts (ensure_mount_point target) ;;!
  exists_ <-! asks (fun s => map_err EZfs (dataset_exists (rc_zfs s) dataset)) ;;
  (if exists_ : bool then st_ret tt else on_zfs (create_volume dataset (vol_size volume))) ;;!
  mounted <-! asks (fun s => map_err EMount (is_mounted (rc_mounts s) target)) ;;
  if mounted : bool then st_ret tt
  else on_mounts (mount_nullfs (volume_mountpoint (rc_pool s) (vol_name volume)) target).

Definition provision (name : string) (record : JailRecord) : op unit :=
  s <-! st_get ;;
  let jname := jail_name name in
  let sp := js_spec (jr_spec record) in
  let base_dataset := base_dataset_path (rc_pool s) (sp_image sp) in
  let jail_dataset := jail_dataset_path (rc_pool s) name in
  let rootfs := jail_rootfs_path (rc_pool s) name in
  exists_ <-! asks (fun s => map_err EZfs (dataset_exists (rc_zfs s) base_dataset)) ;;
  (if exists_ : bool then st_ret tt else st_err (BaseImageNotFound base_dataset)) ;;!
  on_zfs (clone_from_base base_dataset jail_dataset) ;;!
  on_jails (jail_create jname rootfs (net_vnet (sp_network sp))) ;;!
  st_for (sp_volumes sp) (provision_volume rootfs) ;;!
  configure_networking_and_limits name record ;;!
  on_jails (start_command jname (sp_command sp)).

Definition restart (name : string) (record : JailRecord) : op unit :=
  configure_networking_and_limits name record ;;!
  on_jails (start_command (jail_name name) (sp_command (js_spec (jr_spec record)))).

Definition rollback_provision (name : string) (record : JailRecord) : op unit :=
  s <-! st_get ;;
  let jname := jail_name name in
  let rootfs := jail_rootfs_path (rc_pool s) name in
  st_ignore (on_net (detach_jail (epair_base_name (jr_epair_ordinal record)))) ;;!
  st_ignore (on_jails (jail_destroy jname)) ;;!
  st_for (sp_volumes (js_spec (jr_spec record))) (fun volume =>
    st_ignore (on_mounts (unmount (mount_target rootfs volume)))) ;;!
  st_ignore (on_zfs (destroy_dataset (jail_dataset_path (rc_pool s) name))) ;;!
  st_ignore (on_jails (remove_resource_limits jname)).

(** ** The reconcile pass *)

Definition ingress_jail_spec : JailSpec :=
  mkJailSpec "keel/v1" "Jail" (mkMetadata "ingress")
    (mkSpec "base/keel-ingress"
       ["/usr/local/sbin/nginx"; "-c"; NGINX_CONF_PATH; "-g"; "daemon off;"]
       (mkNetworkSpec true "keel0" (INGRESS_JAIL_BRIDGE_ADDR +:+ "/24"))
       (mkResourcesSpec "1" "256M") Always [] None).

Definition ensure_ingress_jail : op unit :=
  s <-! st_get ;;
  if bool_decide (rc_ingress_records s = ∅) || is_some (rc_records s !! "ingress")
  then st_ret tt else apply ingress_jail_spec.

(** [backoff.entry(name).or_default()] and the attempt recorded on it. *)
Definition touch_backoff (name : string) (m : gmap string BackoffState) : gmap string BackoffState :=
  match m !! name with Some _ => m | None => <[name := backoff_new]> m end.
Definition arm_backoff (name : string) (now : Instant) (m : gmap string BackoffState)
    : gmap string BackoffState :=
  <[name := record_attempt (default backoff_new (m !! name)) now]> m.

Definition RENEWAL_THRESHOLD_SECS : Z := (30 * 24 * 60 * 60)%Z.
Definition CERTS_DIR : string := "usr/local/etc/nginx/certs".

Definition cert_exists_in_ingress_jail (s : RC) (host : string) : bool :=
  is_some (dk_files (rc_cert_disk s) !! (host +:+ ".crt")).

Definition write_cert_to_ingress_jail (host : string) (cert : Cert) : op unit := fun s =>
  let d := rc_cert_disk s in
  let crt := host +:+ ".crt" in
  let key := host +:+ ".key" in
  match io d CreateDir CERTS_DIR (fun e => EStore (Io CERTS_DIR e)) with
  | Err e => Val (Err e, s)
  | Ok _ =>
      match io d WriteFile crt (fun e => EStore (Io (path_join CERTS_DIR crt) e)) with
      | Err e => Val (Err e, set_cert_disk (with_files (<[crt := dk_torn d (cert_pem cert)]> (dk_files d)) d) s)
      | Ok _ =>
          let files := <[crt := cert_pem cert]> (dk_files d) in
          match io d WriteFile key (fun e => EStore (Io (path_join CERTS_DIR key) e)) with
          | Err e => Val (Err e, set_cert_disk (with_files (<[key := dk_torn d (key_pem cert)]> files) d) s)
          | Ok _ => Val (Ok tt, set_cert_disk (with_files (<[key := key_pem cert]> files) d) s)
          end
      end
  end.

(** One iteration of [reconcile_certs]; [mono] is the clock at that point.  Every
    failure is logged and arms the backoff. *)
Definition reconcile_cert (now_unix : Z) (mono : Instant) (name : string) (s : RC) : comp RC :=
  let s := set_ingress_backoff (touch_backoff name (rc_ingress_backoff s)) s in
  let arm s := set_ingress_backoff (arm_backoff name mono (rc_ingress_backoff s)) s in
  if negb (can_retry (default backoff_new (rc_ingress_backoff s !! name)) mono) then Val s
  else match rc_ingress_records s !! name with
  | None => Panic
  | Some record =>
      let host := isb_host (is_spec (ir_spec record)) in
      let needs_issuance :=
        match ir_cert_expires_at_unix record with
        | None => true
        | Some expires_at =>
            negb (cert_exists_in_ingress_jail s host)
            || (expires_at - now_unix <? RENEWAL_THRESHOLD_SECS)%Z
        end in
      if negb needs_issuance then Val s
      else
        let '(r, (acme, dns)) := request_certificate (rc_acme s) host
                           (it_email (isb_tls (is_spec (ir_spec record)))) (rc_dns s) in
        let s := set_dns dns (set_acme acme s) in
        match r with
        | Err _ => Val (arm s)
        | Ok cert =>
            '(w, s) ← write_cert_to_ingress_jail host cert s;
            match w with
            | Err _ => Val (arm s)
            | Ok _ =>
                let updated := mkIngressRecord (ir_spec record)
                                 (Some (now_unix + 90 * 24 * 60 * 60)%Z) in
                '(p, s) ← on_ingress_disk (save_ingress updated) s;
                match p with
                | Err _ => Val (arm s)
                | Ok _ => Val (insert_ingress updated name s)
                end
            end
        end
  end.

Fixpoint for_comp {B S} (l : list B) (f : B -> S -> comp S) (s : S) : comp S :=
  match l with
  | [] => Val s
  | x :: l => s ← f x s; for_comp l f s
  end.

Definition reconcile_certs (now_unix : Z) (mono : string -> Instant) (s : RC) : comp RC :=
  for_comp (hash_iter (rc_ingress_records s)).*1
    (fun name => reconcile_cert now_unix (mono name) name) s.

Definition ingress_backends (s : RC) : list IngressBackendConfig :=
  omap (fun record =>
          '(vip, port) ← vips_get (rc_service_vips s) (ib_service (isb_backend (is_spec (ir_spec record))));
          let host := isb_host (is_spec (ir_spec record)) in
          Some (mkIngressBackendConfig host vip port
                  ("/usr/local/etc/nginx/certs/" +:+ host +:+ ".crt")
                  ("/usr/local/etc/nginx/certs/" +:+ host +:+ ".key")))
       (hash_iter (rc_ingress_records s)).*2.

Definition reconcile_ingress_config (s : RC) : RC :=
  let config := render_nginx_config (ingress_backends s) in
  let '(r1, x) := write_config "keel-ingress" config (rc_nginx s) in
  match r1 with
  | Err _ => set_nginx x s
  | Ok _ =>
      let '(r2, x) := test_config "keel-ingress" x in
      match r2 with
      | Err _ => set_nginx x s
      | Ok _ => let '(_, x) := reload "keel-ingress" x in set_nginx x s
      end
  end.

(** Running jails only get their limits re-applied; a jail that is gone is
    provisioned, one that stopped is restarted unless its policy says never. *)
Definition reconcile_existing (name : string) (record : JailRecord) (now : Instant) : op unit :=
  let jname := jail_name name in
  let sp := js_spec (jr_spec record) in
  running <-! asks (fun s => map_err EJail (is_running (rc_jails s) jname)) ;;
  if running : bool then
    cores <-! spec_check (parse_cpu_cores (res_cpu (sp_resources sp))) ;;
    memory_bytes <-! spec_check (parse_memory_bytes (res_memory (sp_resources sp))) ;;
    on_jails (set_resource_limits jname (cores_to_pcpu_percent cores) memory_bytes)
  else if bool_decide (sp_restart_policy sp = Never) then st_ret tt
  else fun s =>
    '(result, s) ← restart name record s;
    Val (result, set_backoff (arm_backoff name now (rc_backoff s)) s).

Definition reconcile_one (name : string) (now : Instant) : op unit := fun s =>
  match rc_records s !! name with
  | None => Panic
  | Some record =>
      let s := set_backoff (touch_backoff name (rc_backoff s)) s in
      if negb (can_retry (default backoff_new (rc_backoff s !! name)) now) then Val (Ok tt, s)
      else match jail_exists (rc_jails s) (jail_name name) with
      | Err e => Val (Err (EJail e), s)
      | Ok true => reconcile_existing name record now s
      | Ok false =>
          '(result, s) ← provision name record s;
          let s := set_backoff (arm_backoff name now (rc_backoff s)) s in
          match result with
          | Ok _ => Val (result, s)
          | Err _ => '(_, s) ← rollback_provision name record s; Val (result, s)
          end
      end
  end.

(** The loop over the jails, collecting failures. *)
Fixpoint reconcile_names (names : list string) (now : Instant) (s : RC)
    : comp (list (string * ReconcileError) * RC) :=
  match names with
  | [] => Val ([], s)
  | name :: names =>
      '(r, s) ← reconcile_one name now s;
      '(failures, s) ← reconcile_names names now s;
      Val (match r with Ok _ => failures | Err e => (name, e) :: failures end, s)
  end.

Definition reconcile (now : Instant) (now_unix : Z) (mono : string -> Instant) (s : RC)
    : comp (list (string * ReconcileError) * RC) :=
  '(_, s) ← ensure_ingress_jail s;
  s ← reconcile_certs now_unix mono s;
  let s := reconcile_ingress_config s in
  reconcile_names (hash_iter (rc_records s)).*1 now s.

(** ** Queries *)

Definition get_jail (s : RC) (name : string) (now : Instant) : option JailStatus :=
  record ← rc_records s !! name;
  let running := match is_running (rc_jails s) (jail_name name) with Ok b => b | Err _ => false end in
  let backoff := match rc_backoff s !! name with
                 | Some b => backoff_status b now
                 | None => mkBackoffStatus None None
                 end in
  Some (mkJailStatus record running backoff).

Definition list_jails (s : RC) (now : Instant) : list JailStatus :=
  omap (fun name => get_jail s name now) (sort_by_key id (hash_iter (rc_records s)).*1).

Definition add_u64 (a b : N) : comp N := if (a + b <=? u64_max)%N then Val (a + b)%N else Panic.

Definition committed_resources (s : RC) : comp (f64 * N) :=
  for_comp (hash_iter (rc_records s)).*2 (fun record '(cpu, mem) =>
    let res := sp_resources (js_spec (jr_spec record)) in
    match parse_cpu_cores (res_cpu res), parse_memory_bytes (res_memory res) with
    | Ok cores, Ok bytes => mem' ← add_u64 mem bytes; Val (f64_add cpu cores, mem')
    | _, _ => Panic
    end) (f64_zero, 0%N).
End reconciler.
