(* ===== verification/ReconcilerInv.v ===== *)
(** * Invariants of the node agent's reconciler

    What every operation of [Reconciler] keeps true, for any host: the tables in
    memory are the ones a restart loads from the disk, each jail's epair ordinal
    is its own, every desired jail passed validation, and each cooldown is one
    the backoff discipline produces.  Host calls may fail in any way. *)

From S2P Require Import Prelude RustStr Float64 Ipnet Spec Codecs Registry Wire Backoff.
From S2P Require Import AgentHost Store Ingress Reconciler.

Open Scope keel_scope.

Section reconciler_inv.
Context {HO : HashOrder} {I : Ipnet} {YJR : SerdeYaml JailRecord} {YIR : SerdeYaml IngressRecord}.
Context {J Zf Nt M A D X : Type}.
Context {HJ : JailRuntime J} {HZ : ZfsManager Zf} {HN : NetManager Nt} {HM : MountManager M}
        {HA : AcmeClient A D} {HX : NginxController X}.

Notation RC := (@RC J Zf Nt M A D X).
Notation aop := (@op J Zf Nt M A D X).
Implicit Types s : RC.

(** ** The desired state, and calls that leave it alone *)

Definition desired s :=
  (rc_disk s, rc_ingress_disk s, rc_records s, rc_backoff s, rc_next_epair_ordinal s,
   rc_ingress_records s, rc_ingress_backoff s).

Definition same_desired s s' : Prop := desired s = desired s'.
#[global] Instance same_desired_preorder : PreOrder same_desired.
Proof. split; [intros s; done|intros s1 s2 s3; unfold same_desired; congruence]. Qed.

Lemma on_jails_same {T} (f : J -> result JailError T * J) : preserves same_desired (on_jails f).
Proof. intros s r s'. unfold on_jails. destruct (f _). by intros [= <- <-]. Qed.
Lemma on_zfs_same {T} (f : Zf -> result ZfsError T * Zf) : preserves same_desired (on_zfs f).
Proof. intros s r s'. unfold on_zfs. destruct (f _). by intros [= <- <-]. Qed.
Lemma on_net_same {T} (f : Nt -> result NetError T * Nt) : preserves same_desired (on_net f).
Proof. intros s r s'. unfold on_net. destruct (f _). by intros [= <- <-]. Qed.
Lemma on_net_comp_same {T} (f : Nt -> comp (result NetError T * Nt)) :
  preserves same_desired (on_net_comp f).
Proof. intros s r s'. unfold on_net_comp. destruct (f _) as [[]|]; [|done]. by intros [= <- <-]. Qed.
Lemma on_mounts_same {T} (f : M -> result MountError T * M) : preserves same_desired (on_mounts f).
Proof. intros s r s'. unfold on_mounts. destruct (f _). by intros [= <- <-]. Qed.
Lemma asks_preserves {T} (R : relation RC) `{!PreOrder R} (f : RC -> result ReconcileError T) :
  preserves R (asks f).
Proof. by intros s r s' [= <- <-]. Qed.
Lemma spec_check_preserves {T} (R : relation RC) `{!PreOrder R} (x : result SpecError T) :
  preserves R (spec_check x).
Proof. by intros s r s' [= <- <-]. Qed.
Hint Resolve on_jails_same on_zfs_same on_net_same on_net_comp_same on_mounts_same
  asks_preserves spec_check_preserves : keel.

Lemma configure_same name record : preserves same_desired (configure_networking_and_limits name record).
Proof. unfold configure_networking_and_limits. preserves_auto. Qed.
Lemma provision_volume_same rootfs v : preserves same_desired (provision_volume rootfs v).
Proof. unfold provision_volume. preserves_auto. Qed.
Hint Resolve configure_same provision_volume_same : keel.

Lemma provision_same name record : preserves same_desired (provision name record).
Proof. unfold provision. preserves_auto. Qed.
Lemma restart_same name record : preserves same_desired (restart name record).
Proof. unfold restart. preserves_auto. Qed.
Lemma rollback_provision_same name record : preserves same_desired (rollback_provision name record).
Proof. unfold rollback_provision. preserves_auto. Qed.
Hint Resolve provision_same restart_same rollback_provision_same : keel.

(** ** The invariant *)

Definition jail_valid (spec : JailSpec) : Prop :=
  validate_name (meta_name (js_metadata spec)) = Ok tt /\
  validate_address (net_address (sp_network (js_spec spec))) = Ok tt /\
  is_ok (parse_cpu_cores (res_cpu (sp_resources (js_spec spec)))) = true /\
  is_ok (parse_memory_bytes (res_memory (sp_resources (js_spec spec)))) = true.

Record agent_inv s : Prop := {
  ai_disk : disk_holds jr_name (rc_disk s) (rc_records s);
  ai_ingress_disk : disk_holds ir_name (rc_ingress_disk s) (rc_ingress_records s);
  ai_valid : forall name r, rc_records s !! name = Some r -> jail_valid (jr_spec r);
  ai_ordinal : forall name r, rc_records s !! name = Some r ->
    (jr_epair_ordinal r < rc_next_epair_ordinal s)%N;
  ai_inj : forall n1 n2 r1 r2, rc_records s !! n1 = Some r1 -> rc_records s !! n2 = Some r2 ->
    jr_epair_ordinal r1 = jr_epair_ordinal r2 -> n1 = n2;
  ai_next : (1 <= rc_next_epair_ordinal s <= u32_max)%N;
  ai_backoff : forall name b, rc_backoff s !! name = Some b ->
    backoff_inv b /\ is_Some (rc_records s !! name);
  ai_ingress_backoff : forall name b, rc_ingress_backoff s !! name = Some b ->
    backoff_inv b /\ is_Some (rc_ingress_records s !! name)
}.

Lemma empty_inv jails zfs net mounts pool disk ingress_disk cert_disk acme dns nginx vips :
  dk_files disk = ∅ -> dk_files ingress_disk = ∅ ->
  agent_inv (mkReconciler jails zfs net mounts pool disk ingress_disk cert_disk ∅ ∅ 1 ∅ ∅ acme dns
               nginx vips : RC).
Proof.
  intros Ed Edi. split; cbn; try (intros; simplify_map_eq; fail); try done;
    by apply disk_holds_empty.
Qed.

(** Operations that keep it, on any outcome. *)
Definition keeps_inv s s' : Prop := agent_inv s -> agent_inv s'.
#[global] Instance keeps_inv_preorder : PreOrder keeps_inv.
Proof. split; [intros s; unfold keeps_inv; auto|intros s1 s2 s3; unfold keeps_inv; auto]. Qed.

Lemma same_desired_keeps s s' : same_desired s s' -> keeps_inv s s'.
Proof.
  unfold same_desired, desired. intros [= E1 E2 E3 E4 E5 E6 E7] [K1 K2 K3 K4 K5 K6 K7 K8].
  split; rewrite <- ?E1, <- ?E2, <- ?E3, <- ?E4, <- ?E5, <- ?E6, <- ?E7; done.
Qed.

Lemma preserves_same_keeps {T} (m : op T) : preserves same_desired m -> preserves keeps_inv m.
Proof. intros Hm s r s' E. apply same_desired_keeps. by eapply Hm. Qed.

Lemma backoff_inv_arm name now (m : gmap string BackoffState) :
  (forall b, m !! name = Some b -> backoff_inv b) ->
  can_retry (default backoff_new (m !! name)) now = true ->
  backoff_inv (record_attempt (default backoff_new (m !! name)) now).
Proof.
  intros Hm Hr. apply record_attempt_inv; [|done].
  destruct (m !! name) as [b|]; [by apply Hm|by left].
Qed.

(** Replacing or adding the record of a name by one with its own ordinal. *)
Lemma agent_inv_insert s d name record :
  agent_inv s -> jr_name record = name -> jail_valid (jr_spec record) ->
  disk_holds jr_name d (<[name := record]> (rc_records s)) ->
  (jr_epair_ordinal record < rc_next_epair_ordinal s)%N ->
  (forall n r, n <> name -> rc_records s !! n = Some r ->
     jr_epair_ordinal r <> jr_epair_ordinal record) ->
  agent_inv (insert_record record name (set_disk d s)).
Proof.
  intros [K1 K2 K3 K4 K5 K6 K7 K8] Hname Hv Hd Ho Hfresh. split; try done; cbn.
  - intros n r [[<- <-]|[_ Hr]]%lookup_insert_Some; eauto.
  - intros n r [[<- <-]|[_ Hr]]%lookup_insert_Some; eauto.
  - intros n1 n2 r1 r2 [[<- <-]|[Hn1 Hr1]]%lookup_insert_Some
      [[<- <-]|[Hn2 Hr2]]%lookup_insert_Some E; [done| | |by eapply K5].
    + by destruct (Hfresh n2 r2).
    + by destruct (Hfresh n1 r1).
  - intros n b Hb. destruct (K7 n b Hb) as [? Hr]. split; [done|].
    destruct (decide (name = n)) as [->|]; [by rewrite lookup_insert_eq|by rewrite lookup_insert_ne].
Qed.

Lemma agent_inv_set_disk s d :
  agent_inv s -> disk_holds jr_name d (rc_records s) -> agent_inv (set_disk d s).
Proof. intros [] Hd. by split. Qed.

Lemma agent_inv_set_ingress_disk s d :
  agent_inv s -> disk_holds ir_name d (rc_ingress_records s) -> agent_inv (set_ingress_disk d s).
Proof. intros [] Hd. by split. Qed.

Lemma agent_inv_next s n :
  agent_inv s -> (rc_next_epair_ordinal s <= n <= u32_max)%N -> agent_inv (set_next_epair_ordinal n s).
Proof. intros [] Hn. split; try done; cbn; [|lia]. intros name r Hr. specialize (ai_ordinal0 name r Hr); lia. Qed.

Lemma name_nonempty name : validate_name name = Ok tt -> name <> EmptyString.
Proof. by intros H%validate_name_Ok ->. Qed.

(** ** Jails *)

Lemma bind_ok_unit {T B} (x : result SpecError T) (k : T -> op B) s :
  (v <-! spec_check x ;; k v) s =
    match x with Ok v => k v s | Err e => Val (Err (InvalidSpec e), s) end.
Proof. by destruct x. Qed.

(** [save] then insert in memory, or neither. *)
Lemma persist_keeps record name s r s' :
  agent_inv s -> jr_name record = name -> jail_valid (jr_spec record) -> repr record ->
  (jr_epair_ordinal record < rc_next_epair_ordinal s)%N ->
  (forall n x, n <> name -> rc_records s !! n = Some x ->
     jr_epair_ordinal x <> jr_epair_ordinal record) ->
  (on_disk (save_jail record) ;;! st_modify (insert_record record name)) s = Val (r, s') ->
  agent_inv s'.
Proof.
  intros Hs Hname Hv Hrep Ho Hf. unfold st_bind, on_disk.
  destruct (save_jail record (rc_disk s)) as [res d] eqn:E.
  assert (name <> EmptyString) by (rewrite <-Hname; apply name_nonempty, Hv).
  apply (save_spec jr_name STATE_DIR _ (rc_records s)) in E as [Hd _];
    [|apply Hs|done|by rewrite Hname].
  destruct res as [[]|e]; cbn in *; intros [= <- <-].
  - rewrite Hname in Hd. by apply agent_inv_insert.
  - by apply agent_inv_set_disk.
Qed.

(** The ordinal of an applied jail and the counter after it. *)
Definition ordinal_for (spec : JailSpec) s (o next : N) : Prop :=
  match rc_records s !! meta_name (js_metadata spec) with
  | Some existing =>
      o = jr_epair_ordinal existing /\ next = rc_next_epair_ordinal s /\
      validate_transition (jr_spec existing) spec = Ok tt
  | None => o = rc_next_epair_ordinal s /\ next = (o + 1)%N /\ (next <= u32_max)%N
  end.

(** [apply] on a spec that passes: the record is saved and then inserted. *)
Lemma apply_outcome spec s :
  apply spec s = Panic /\ rc_records s !! meta_name (js_metadata spec) = None /\
    (u32_max <= rc_next_epair_ordinal s)%N \/
  (exists e, apply spec s = Val (Err (InvalidSpec e), s)) \/
  jail_valid spec /\ exists o next, ordinal_for spec s o next /\
    apply spec s =
      (on_disk (save_jail (mkJailRecord spec o)) ;;!
       st_modify (insert_record (mkJailRecord spec o) (meta_name (js_metadata spec))))
        (set_next_epair_ordinal next s).
Proof.
  unfold apply, jail_valid. rewrite !bind_ok_unit.
  destruct (validate_name _) as [[]|] eqn:Ev1; [|right; left; eauto].
  destruct (validate_address _) as [[]|] eqn:Ev2; [|right; left; eauto].
  destruct (parse_cpu_cores _) eqn:Ev3; [|right; left; eauto].
  destruct (parse_memory_bytes _) eqn:Ev4; [|right; left; eauto].
  unfold st_bind, st_get, ordinal_for. destruct (rc_records s !! _) as [existing|].
  - unfold spec_check, st_lift. destruct (validate_transition _ _) as [[]|];
      [|right; left; cbn; eauto]. right; right. split; [done|].
    exists (jr_epair_ordinal existing), (rc_next_epair_ordinal s). split; [done|]. by destruct s.
  - unfold take_ordinal, add_u32. destruct (_ <=? u32_max)%N eqn:El; bool_to_prop.
    + right; right. split; [done|]. exists (rc_next_epair_ordinal s), (rc_next_epair_ordinal s + 1)%N.
      done.
    + left. split; [done|]. split; [done|]. lia.
Qed.

Lemma apply_keeps spec : preserves keeps_inv (apply spec).
Proof.
  intros s r s' E Hs.
  destruct (apply_outcome spec s) as [[Hp _]|[[e Hp]|(Hv & o & next & Ho & Hp)]];
    rewrite Hp in E; [done|by simplify_eq|].
  pose proof (ai_next s Hs). unfold ordinal_for in Ho.
  refine (persist_keeps (mkJailRecord spec o) _ (set_next_epair_ordinal next s) r s' _ eq_refl Hv _ _ _ E);
    cbn; destruct (rc_records s !! _) as [existing|] eqn:Er.
  - destruct Ho as (_ & -> & _). apply agent_inv_next; [done|lia].
  - destruct Ho as (-> & -> & ?). apply agent_inv_next; [done|lia].
  - destruct Ho as (-> & -> & _). pose proof (ai_ordinal s Hs _ _ Er).
    unfold repr, JailRecord_repr; cbn. lia.
  - destruct Ho as (-> & -> & ?). unfold repr, JailRecord_repr; cbn. lia.
  - destruct Ho as (-> & -> & _). exact (ai_ordinal s Hs _ _ Er).
  - destruct Ho as (-> & -> & ?). lia.
  - destruct Ho as (-> & _ & _). intros n x Hn Hx Heq. apply Hn.
    by apply (ai_inj s Hs _ _ _ _ Hx Er).
  - destruct Ho as (-> & _ & _). intros n x Hn Hx Heq. pose proof (ai_ordinal s Hs _ _ Hx). lia.
Qed.

Lemma set_replicate_to_keeps name to : preserves keeps_inv (set_replicate_to name to).
Proof.
  intros s r s' E Hs. unfold set_replicate_to, st_bind at 1, asks in E.
  destruct (rc_records s !! name) as [record|] eqn:Er; cbn in E; [|by simplify_eq].
  pose proof (ai_valid s Hs _ _ Er) as Hv. pose proof (ai_ordinal s Hs _ _ Er) as Ho.
  pose proof (ai_next s Hs).
  refine (persist_keeps (mkJailRecord (with_replicate_to to _) _) _ s r s' Hs _ Hv _ Ho _ E).
  - apply (dh_named _ _ _ (ai_disk s Hs) _ _ Er).
  - unfold repr, JailRecord_repr; cbn. lia.
  - intros n x Hn Hx Ho'. apply Hn. by apply (ai_inj s Hs _ _ _ _ Hx Er).
Qed.

Lemma agent_inv_drop s d name :
  agent_inv s -> disk_holds jr_name d (delete name (rc_records s)) ->
  agent_inv (drop_record name (set_disk d s)).
Proof.
  intros [K1 K2 K3 K4 K5 K6 K7 K8] Hd. split; try done; cbn.
  - intros n r [_ Hr]%lookup_delete_Some. eauto.
  - intros n r [_ Hr]%lookup_delete_Some. eauto.
  - intros n1 n2 r1 r2 [_ Hr1]%lookup_delete_Some [_ Hr2]%lookup_delete_Some. eauto.
  - intros n b [Hn Hb]%lookup_delete_Some. rewrite lookup_delete_ne by done. eauto.
Qed.

Lemma forget_keeps name :
  preserves keeps_inv (on_disk (remove_jail name) ;;! st_modify (drop_record name)).
Proof.
  intros s r s' E Hs. unfold st_bind, on_disk in E.
  destruct (remove_jail name (rc_disk s)) as [res d] eqn:Er.
  apply (remove_spec jr_name STATE_DIR _ (rc_records s)) in Er as [Hd _]; [|apply Hs].
  destruct res as [[]|e]; unfold st_modify in *; cbn in *; simplify_eq.
  - by apply agent_inv_drop.
  - by apply agent_inv_set_disk.
Qed.

Hint Resolve preserves_same_keeps forget_keeps : keel.
Lemma delete_jail_keeps name : preserves keeps_inv (delete_jail name).
Proof. unfold delete_jail. preserves_auto. Qed.

Lemma get_volume_same name : preserves same_desired (get_volume name).
Proof. unfold get_volume. preserves_auto. Qed.
Lemma delete_volume_same name : preserves same_desired (delete_volume name).
Proof. unfold delete_volume. preserves_auto. Qed.

(** ** Ingresses *)

Lemma agent_inv_ingress_insert s d name record :
  agent_inv s -> disk_holds ir_name d (<[name := record]> (rc_ingress_records s)) ->
  agent_inv (insert_ingress record name (set_ingress_disk d s)).
Proof.
  intros [K1 K2 K3 K4 K5 K6 K7 K8] Hd. split; try done; cbn.
  intros n b Hb. destruct (K8 n b Hb) as [? Hr]. split; [done|].
  destruct (decide (name = n)) as [->|]; [by rewrite lookup_insert_eq|by rewrite lookup_insert_ne].
Qed.

(** Saving an ingress record: the disk holds the new table or the old one. *)
Lemma save_ingress_spec s record res d :
  agent_inv s -> repr record -> ir_name record <> EmptyString ->
  save_ingress record (rc_ingress_disk s) = (res, d) ->
  match res with
  | Ok _ => agent_inv (insert_ingress record (ir_name record) (set_ingress_disk d s))
  | Err _ => agent_inv (set_ingress_disk d s)
  end.
Proof.
  intros Hs Hrep Hne E.
  apply (save_spec ir_name INGRESS_DIR _ (rc_ingress_records s)) in E as [Hd _]; [|apply Hs|done|done].
  destruct res; [by apply agent_inv_ingress_insert|by apply agent_inv_set_ingress_disk].
Qed.

Lemma ingress_expiry_repr s name r :
  agent_inv s -> rc_ingress_records s !! name = Some r -> repr r.
Proof.
  intros Hs Hr. destruct (dh_stored _ _ _ (ai_ingress_disk s Hs) _ _ Hr) as (c & _ & Hc).
  by apply from_yaml_repr in Hc.
Qed.

Lemma apply_ingress_keeps spec : repr spec -> preserves keeps_inv (apply_ingress spec).
Proof.
  intros Hspec s r s' E Hs. unfold apply_ingress in E. rewrite !bind_ok_unit in E.
  destruct (validate_name _) as [[]|] eqn:Ev1; [|by simplify_eq].
  destruct (validate_host _) as [[]|]; [|by simplify_eq].
  destruct (validate_email _) as [[]|]; [|by simplify_eq].
  destruct (ib_port _ =? 0)%N; [by unfold st_bind, st_err in E; simplify_eq|].
  unfold st_bind at 1, st_ret in E. unfold st_bind, st_get, on_ingress_disk in E.
  set (record := mkIngressRecord spec _) in *.
  destruct (save_ingress record (rc_ingress_disk s)) as [res d] eqn:Esave.
  apply save_ingress_spec in Esave; [|done| |by apply name_nonempty].
  - destruct res as [[]|]; unfold st_modify in *; cbn in *; by simplify_eq.
  - split; [apply Hspec|]. cbn. destruct (rc_ingress_records s !! _) as [old|] eqn:Eo; cbn; [|done].
    apply (ingress_expiry_repr s _ _ Hs Eo).
Qed.

Lemma delete_ingress_keeps name : preserves keeps_inv (delete_ingress name).
Proof.
  intros s r s' E Hs. unfold delete_ingress, st_bind at 1, asks in E.
  destruct (rc_ingress_records s !! name) as [record|] eqn:Er; cbn in E; [|by simplify_eq].
  unfold st_bind, on_ingress_disk in E.
  destruct (remove_ingress name (rc_ingress_disk s)) as [res d] eqn:Erm.
  apply (remove_spec ir_name INGRESS_DIR _ (rc_ingress_records s)) in Erm as [Hd _]; [|apply Hs].
  destruct res as [[]|e]; unfold st_modify in *; cbn in *; simplify_eq;
    [|by apply agent_inv_set_ingress_disk].
  destruct Hs as [K1 K2 K3 K4 K5 K6 K7 K8]. split; try done; cbn.
  intros n b [Hn Hb]%lookup_delete_Some. rewrite lookup_delete_ne by done. eauto.
Qed.

(** ** The reconcile pass *)

Definition unix_ok (now_unix : Z) : Prop :=
  (- 2 ^ 63 <= now_unix)%Z /\ (now_unix + 90 * 24 * 60 * 60 < 2 ^ 63)%Z.

Lemma ensure_ingress_jail_keeps : preserves keeps_inv ensure_ingress_jail.
Proof.
  intros s r s' E Hs. unfold ensure_ingress_jail, st_bind, st_get in E.
  destruct (_ || _); [by unfold st_ret in E; simplify_eq|]. by eapply apply_keeps.
Qed.

Lemma agent_inv_set_backoff s m :
  agent_inv s ->
  (forall name b, m !! name = Some b -> backoff_inv b /\ is_Some (rc_records s !! name)) ->
  agent_inv (set_backoff m s).
Proof. intros [] Hm. by split. Qed.

Lemma agent_inv_set_ingress_backoff s m :
  agent_inv s ->
  (forall name b, m !! name = Some b -> backoff_inv b /\ is_Some (rc_ingress_records s !! name)) ->
  agent_inv (set_ingress_backoff m s).
Proof. intros [] Hm. by split. Qed.

(** Touching or arming the cooldown of a known name. *)
Lemma touch_backoff_spec {V} name (m : gmap string BackoffState) (t : gmap string V) :
  (forall n b, m !! n = Some b -> backoff_inv b /\ is_Some (t !! n)) -> is_Some (t !! name) ->
  forall n b, touch_backoff name m !! n = Some b -> backoff_inv b /\ is_Some (t !! n).
Proof.
  intros Hm Ht n b. unfold touch_backoff. destruct (m !! name) eqn:E; [apply Hm|].
  intros [[<- <-]|[_ Hb]]%lookup_insert_Some; [|by apply Hm]. split; [by left|done].
Qed.

Lemma arm_backoff_spec {V} name now (m : gmap string BackoffState) (t : gmap string V) :
  (forall n b, m !! n = Some b -> backoff_inv b /\ is_Some (t !! n)) -> is_Some (t !! name) ->
  can_retry (default backoff_new (m !! name)) now = true ->
  forall n b, arm_backoff name now m !! n = Some b -> backoff_inv b /\ is_Some (t !! n).
Proof.
  intros Hm Ht Hr n b. unfold arm_backoff.
  intros [[<- <-]|[_ Hb]]%lookup_insert_Some; [|by apply Hm]. split; [|done].
  apply backoff_inv_arm; [|done]. intros b Hb. by apply Hm in Hb as [].
Qed.

Lemma write_cert_same host cert : preserves same_desired (write_cert_to_ingress_jail host cert).
Proof.
  intros s r s'. unfold write_cert_to_ingress_jail, io.
  repeat case_match; cbn; by intros [= <- <-].
Qed.

Lemma reconcile_cert_keeps now_unix mono name s s' :
  unix_ok now_unix -> is_Some (rc_ingress_records s !! name) ->
  reconcile_cert now_unix mono name s = Val s' -> agent_inv s ->
  agent_inv s' /\ dom (rc_ingress_records s') = dom (rc_ingress_records s).
Proof.
  intros Hu [record Hr] E Hs. unfold reconcile_cert in E.
  set (s0 := set_ingress_backoff _ s) in E.
  assert (agent_inv s0) as Hs0.
  { apply agent_inv_set_ingress_backoff; [done|].
    apply (touch_backoff_spec _ _ _ (ai_ingress_backoff s Hs)). by rewrite Hr. }
  destruct (negb (can_retry _ mono)) eqn:Ecan; [by simplify_eq|]. apply negb_false_iff in Ecan.
  assert (forall s1, agent_inv s1 -> rc_ingress_backoff s1 = rc_ingress_backoff s0 ->
    rc_ingress_records s1 = rc_ingress_records s ->
    agent_inv (set_ingress_backoff (arm_backoff name mono (rc_ingress_backoff s1)) s1)) as Harm.
  { intros s1 Hs1 Eb Er. apply agent_inv_set_ingress_backoff; [done|].
    apply (arm_backoff_spec _ _ _ _ (ai_ingress_backoff s1 Hs1)); [by rewrite Er, Hr|by rewrite Eb]. }
  change (rc_ingress_records s0) with (rc_ingress_records s) in E. rewrite Hr in E.
  destruct (negb _); [by simplify_eq|].
  destruct (request_certificate _ _ _ _) as [rq [acme dns]].
  assert (agent_inv (set_dns dns (set_acme acme s0))) as Hsd by (by apply (same_desired_keeps s0)).
  destruct rq as [cert|]; [|simplify_eq; split; [by apply Harm|done]].
  destruct (write_cert_to_ingress_jail _ _ _) as [[w s1]|] eqn:Ew; [|done].
  apply write_cert_same in Ew. pose proof (same_desired_keeps _ _ Ew) as Hs1.
  specialize (Hs1 Hsd).
  unfold same_desired, desired in Ew. cbn in E. injection Ew as _ _ _ _ _ Er1 Eb1. cbn in Er1, Eb1.
  destruct w as [[]|]; [|injection E as <-; split; [by apply Harm|cbn; by rewrite Er1]].
  unfold on_ingress_disk in E. set (updated := mkIngressRecord _ _) in E.
  destruct (save_ingress updated _) as [res d] eqn:Esave.
  destruct (dh_named _ _ _ (ai_ingress_disk s Hs) _ _ Hr) as [Hname Hne].
  assert (ir_name updated = name) as Hupd by done.
  apply save_ingress_spec in Esave; [|done| |by rewrite Hupd].
  - destruct res as [[]|]; cbn in E; injection E as <-.
    + rewrite Hupd in Esave. split; [done|]. cbn. rewrite dom_insert_L, <-Er1.
      apply elem_of_dom_2 in Hr. set_solver.
    + split; [by apply (Harm (set_ingress_disk d s1))|cbn; by rewrite Er1].
  - split; [apply (ingress_expiry_repr s _ _ Hs Hr)|]. unfold unix_ok in Hu. cbn. lia.
Qed.

Lemma hash_iter_dom {V} (m : gmap string V) name : name ∈ (hash_iter m).*1 <-> is_Some (m !! name).
Proof.
  rewrite list_elem_of_fmap. split.
  - intros ([n r] & -> & Hr). apply elem_of_hash_iter in Hr. by exists r.
  - intros [r Hr]. exists (name, r). split; [done|]. by apply elem_of_hash_iter.
Qed.

Lemma ingress_names s name :
  name ∈ (hash_iter (rc_ingress_records s)).*1 -> name ∈ dom (rc_ingress_records s).
Proof. by rewrite hash_iter_dom, elem_of_dom. Qed.

Lemma reconcile_certs_keeps now_unix mono s s' :
  unix_ok now_unix -> reconcile_certs now_unix mono s = Val s' -> agent_inv s -> agent_inv s'.
Proof.
  intros Hu. unfold reconcile_certs. pose proof (ingress_names s) as Hin. revert Hin. generalize (hash_iter (rc_ingress_records s)).*1. intros names. revert s.
  induction names as [|name names IH]; intros s Hin E Hs; cbn in E; [by simplify_eq|].
  destruct (reconcile_cert _ _ _ s) as [s1|] eqn:E1; [|done].
  apply reconcile_cert_keeps in E1 as [Hs1 Hd1]; [|done| |done].
  - apply (IH s1); [|done|done]. intros n Hn. rewrite Hd1. apply Hin. set_solver.
  - apply elem_of_dom, Hin. set_solver.
Qed.

Lemma reconcile_ingress_config_same s : same_desired s (reconcile_ingress_config s).
Proof.
  unfold reconcile_ingress_config. destruct (write_config _ _ _) as [[] ?]; [|done].
  destruct (test_config _ _) as [[] ?]; [|done]. by destruct (reload _ _).
Qed.

Lemma agent_inv_arm s name now :
  agent_inv s -> is_Some (rc_records s !! name) ->
  can_retry (default backoff_new (rc_backoff s !! name)) now = true ->
  agent_inv (set_backoff (arm_backoff name now (rc_backoff s)) s).
Proof.
  intros Hs Hr Hc. apply agent_inv_set_backoff; [done|].
  by apply (arm_backoff_spec _ _ _ _ (ai_backoff s Hs)).
Qed.

(** The tables a jail's reconciliation does not change. *)
Definition same_tables s s' : Prop :=
  rc_records s' = rc_records s /\ rc_ingress_records s' = rc_ingress_records s /\
  rc_next_epair_ordinal s' = rc_next_epair_ordinal s.

Lemma same_desired_tables s s' : same_desired s s' -> same_tables s s'.
Proof. unfold same_desired, desired. intros E. by injection E. Qed.

Lemma same_tables_trans s1 s2 s3 : same_tables s1 s2 -> same_tables s2 s3 -> same_tables s1 s3.
Proof. unfold same_tables. intros (-> & -> & ->) (-> & -> & ->). done. Qed.

(** Running the jail's actions and then arming its cooldown. *)
Lemma armed_keeps {T} (m : op T) name now s r s1 :
  preserves same_desired m -> m s = Val (r, s1) -> agent_inv s -> is_Some (rc_records s !! name) ->
  can_retry (default backoff_new (rc_backoff s !! name)) now = true ->
  agent_inv (set_backoff (arm_backoff name now (rc_backoff s1)) s1) /\ same_tables s s1.
Proof.
  intros Hm E Hs Hr Hc. apply Hm in E. pose proof (same_desired_keeps _ _ E Hs) as Hs1.
  unfold same_desired, desired in E. injection E as _ _ Er Eb En Ei _.
  split; [|done]. apply agent_inv_arm; [done|by rewrite <-Er|by rewrite <-Eb].
Qed.

Lemma reconcile_existing_keeps name record now s r s' :
  reconcile_existing name record now s = Val (r, s') -> agent_inv s -> is_Some (rc_records s !! name) ->
  can_retry (default backoff_new (rc_backoff s !! name)) now = true ->
  agent_inv s' /\ same_tables s s'.
Proof.
  intros E Hs Hr Hc. unfold reconcile_existing, st_bind at 1, asks in E.
  destruct (is_running _ _) as [[|]|]; cbn in E; [| |by simplify_eq].
  - assert (preserves same_desired
      (cores <-! spec_check (parse_cpu_cores (res_cpu (sp_resources (js_spec (jr_spec record))))) ;;
       memory_bytes <-! spec_check (parse_memory_bytes (res_memory (sp_resources (js_spec (jr_spec record))))) ;;
       on_jails (set_resource_limits (jail_name name) (cores_to_pcpu_percent cores) memory_bytes)))
      as Hm by preserves_auto.
    apply Hm in E. split; [by apply (same_desired_keeps _ _ E)|by apply same_desired_tables].
  - destruct (bool_decide _); [by unfold st_ret in E; simplify_eq|].
    destruct (restart name record s) as [[res s1]|] eqn:E1; [|done]. cbn in E. injection E as <- <-.
    by eapply (armed_keeps (restart name record)) in E1; [|apply restart_same|..].
Qed.

Lemma reconcile_one_keeps name now s r s' :
  reconcile_one name now s = Val (r, s') -> agent_inv s -> agent_inv s' /\ same_tables s s'.
Proof.
  intros E Hs. unfold reconcile_one in E. destruct (rc_records s !! name) as [record|] eqn:Er; [|done].
  set (s0 := set_backoff _ s) in E.
  assert (agent_inv s0) as Hs0.
  { apply agent_inv_set_backoff; [done|]. apply (touch_backoff_spec _ _ _ (ai_backoff s Hs)).
    by rewrite Er. }
  assert (is_Some (rc_records s0 !! name)) as Hr0 by (cbn; by rewrite Er).
  destruct (negb _) eqn:Ec; [by simplify_eq|]. apply negb_false_iff in Ec.
  destruct (jail_exists _ _) as [[|]|]; [| |by simplify_eq].
  - by apply reconcile_existing_keeps in E.
  - destruct (provision name record s0) as [[res s1]|] eqn:E1; [|done].
    rewrite Val_bind in E.
    eapply (armed_keeps (provision name record)) in E1 as [Hs1 Ht1];
      [|apply provision_same|done|done|done].
    destruct res as [[]|e]; [by simplify_eq|].
    destruct (rollback_provision _ _ _) as [[res2 s2]|] eqn:E2; [|done]. cbn in E. injection E as <- <-.
    apply rollback_provision_same in E2. split; [by apply (same_desired_keeps _ _ E2)|].
    exact (same_tables_trans s0 s1 s2 Ht1 (same_desired_tables _ _ E2)).
Qed.

Lemma reconcile_names_keeps names now s fs s' :
  reconcile_names names now s = Val (fs, s') -> agent_inv s -> agent_inv s' /\ same_tables s s'.
Proof.
  revert s fs s'. induction names as [|name names IH]; intros s fs s' E Hs; cbn in E;
    [by simplify_eq|].
  destruct (reconcile_one name now s) as [[r s1]|] eqn:E1; [|done]. cbn in E.
  destruct (reconcile_names names now s1) as [[fs1 s2]|] eqn:E2; [|done]. cbn in E. injection E as <- <-.
  apply reconcile_one_keeps in E1 as [Hs1 Ht1]; [|done].
  apply IH in E2 as [Hs2 Ht2]; [|done]. split; [done|by eapply same_tables_trans].
Qed.

Lemma reconcile_keeps now now_unix mono s fs s' :
  unix_ok now_unix -> reconcile now now_unix mono s = Val (fs, s') -> agent_inv s -> agent_inv s'.
Proof.
  intros Hu E Hs. unfold reconcile in E. destruct (ensure_ingress_jail s) as [[r1 s1]|] eqn:E1; [|done].
  cbn in E. destruct (reconcile_certs _ _ s1) as [s2|] eqn:E2; [|done]. cbn in E.
  apply reconcile_names_keeps in E as [Hs' _]; [done|].
  eapply same_desired_keeps; [apply reconcile_ingress_config_same|].
  eapply reconcile_certs_keeps; [done..|]. by eapply ensure_ingress_jail_keeps.
Qed.

(** ** Restart *)

Lemma foldl_insert_lookup {R} (name_of : R -> string) (l : list R) (acc : gmap string R) name :
  NoDup (name_of <$> l) ->
  foldl (fun m r => <[name_of r := r]> m) acc l !! name =
    match list_find (fun r => name_of r = name) l with
    | Some (_, r) => Some r
    | None => acc !! name
    end.
Proof.
  revert acc. induction l as [|x l IH]; intros acc Hl; [done|]. cbn in Hl |- *.
  apply NoDup_cons in Hl as [Hx Hl]. rewrite IH by done.
  destruct (decide (name_of x = name)) as [<-|Hne].
  - destruct (list_find _ l) as [[i y]|] eqn:Ef; cbn; [|by rewrite lookup_insert_eq].
    apply list_find_Some in Ef as (Hy & Hy' & _). apply list_elem_of_lookup_2 in Hy.
    destruct Hx. rewrite <-Hy'. by apply list_elem_of_fmap_2.
  - destruct (list_find _ l) as [[i y]|]; cbn; [done|by rewrite lookup_insert_ne].
Qed.

Lemma collect_records_spec {R} (name_of : R -> string) (l : list R) (m : gmap string R) :
  NoDup (name_of <$> l) -> (forall r, r ∈ l <-> m !! name_of r = Some r) ->
  (forall name r, m !! name = Some r -> name_of r = name) -> collect_records name_of l = m.
Proof.
  intros Hnd Hl Hn. apply map_eq. intros name. unfold collect_records.
  rewrite foldl_insert_lookup, lookup_empty by done.
  destruct (list_find _ l) as [[i r]|] eqn:Ef.
  - apply list_find_Some in Ef as (Hr & <- & _). apply list_elem_of_lookup_2, Hl in Hr. done.
  - apply list_find_None in Ef. destruct (m !! name) as [r|] eqn:Er; [|done].
    pose proof (Hn _ _ Er) as <-. rewrite Forall_forall in Ef. destruct (Ef r); [|done]. by apply Hl.
Qed.

Lemma next_ordinal_spec (l : list JailRecord) bound :
  (1 <= bound <= u32_max)%N -> (forall r, r ∈ l -> (jr_epair_ordinal r < bound)%N) ->
  exists n, next_ordinal l = Val n /\ (1 <= n <= bound)%N /\
    forall r, r ∈ l -> (jr_epair_ordinal r < n)%N.
Proof.
  intros Hb Hl.
  assert (forall r, r ∈ l -> (jr_epair_ordinal r <= foldr N.max 0 (jr_epair_ordinal <$> l))%N) as Hle.
  { clear. induction l as [|x l IH]; intros r Hr; [by apply elem_of_nil in Hr|]. cbn.
    apply elem_of_cons in Hr as [->|Hr]; [lia|]. specialize (IH r Hr). lia. }
  assert (foldr N.max 0 (jr_epair_ordinal <$> l) < bound)%N as Hmax.
  { clear Hle. induction l as [|x l IH]; cbn; [lia|].
    pose proof (Hl x ltac:(set_solver)). pose proof (IH ltac:(set_solver)). lia. }
  unfold next_ordinal. destruct l as [|x l'] eqn:El.
  - exists 1%N. split; [done|]. split; [lia|]. intros r Hr. by apply elem_of_nil in Hr.
  - rewrite <-El in *. exists (foldr N.max 0 (jr_epair_ordinal <$> l) + 1)%N.
    split; [by rewrite add_u32_Val by lia|]. split; [lia|]. intros r Hr. specialize (Hle r Hr). lia.
Qed.

(** Anything but the desired state may change between two commands: jails exit,
    datasets and routes come and go, disks start or stop failing. *)
Record host_change s s' : Prop := {
  hc_files : dk_files (rc_disk s') = dk_files (rc_disk s);
  hc_ingress_files : dk_files (rc_ingress_disk s') = dk_files (rc_ingress_disk s);
  hc_records : rc_records s' = rc_records s;
  hc_backoff : rc_backoff s' = rc_backoff s;
  hc_next : rc_next_epair_ordinal s' = rc_next_epair_ordinal s;
  hc_ingress_records : rc_ingress_records s' = rc_ingress_records s;
  hc_ingress_backoff : rc_ingress_backoff s' = rc_ingress_backoff s
}.

Lemma disk_holds_files {R} `{SerdeYaml R} (name_of : R -> string) d d' m :
  dk_files d' = dk_files d -> disk_holds name_of d m -> disk_holds name_of d' m.
Proof. intros E [Hn Hs Ho]. split; rewrite ?E; [done|done|done]. Qed.

Lemma host_change_keeps s s' : host_change s s' -> agent_inv s -> agent_inv s'.
Proof.
  intros [E1 E2 E3 E4 E5 E6 E7] [K1 K2 K3 K4 K5 K6 K7 K8].
  split; rewrite ?E3, ?E4, ?E5, ?E6, ?E7; try done; by eapply disk_holds_files.
Qed.

(** A restart on the files of a state loads the same tables and keeps the
    invariant; cooldowns are forgotten. *)
Lemma restart_spec s (jails : J) (zfs : Zf) (net : Nt) (mounts : M) pool disk ingress_disk cert_disk
    (acme : A) (dns : D) (nginx : X) vips :
  agent_inv s -> dk_files disk = dk_files (rc_disk s) ->
  dk_files ingress_disk = dk_files (rc_ingress_disk s) -> readable disk -> readable ingress_disk ->
  exists s', reconciler_new jails zfs net mounts pool disk ingress_disk cert_disk acme dns nginx vips
               = Val (Ok s') /\
    rc_records s' = rc_records s /\ rc_ingress_records s' = rc_ingress_records s /\
    rc_backoff s' = ∅ /\ agent_inv s' /\ (rc_next_epair_ordinal s' <= rc_next_epair_ordinal s)%N.
Proof.
  intros Hs Ed Edi Hr Hri. unfold reconciler_new, load_jails, load_ingresses.
  pose proof (disk_holds_files _ _ _ _ Ed (ai_disk s Hs)) as Hd.
  pose proof (disk_holds_files _ _ _ _ Edi (ai_ingress_disk s Hs)) as Hdi.
  destruct (load_all_spec jr_name STATE_DIR _ _ Hd Hr) as (l & -> & Hnd & Hl).
  destruct (load_all_spec ir_name INGRESS_DIR _ _ Hdi Hri) as (li & -> & Hndi & Hli).
  destruct (next_ordinal_spec l (rc_next_epair_ordinal s)) as (n & -> & Hn & Hln).
  { apply (ai_next s Hs). }
  { intros r Hin%Hl. by eapply ai_ordinal. }
  rewrite Val_bind.
  rewrite (collect_records_spec jr_name l (rc_records s)), (collect_records_spec ir_name li (rc_ingress_records s));
    [|done|done|by intros name r Hx; eapply (dh_named _ _ _ Hdi)
     |done|done|by intros name r Hx; eapply (dh_named _ _ _ Hd)].
  eexists. split; [done|]. cbn. split; [done|]. split; [done|]. split; [done|]. split; [|lia].
  destruct Hs as [K1 K2 K3 K4 K5 K6 K7 K8]. split; try done; cbn.
  - intros name r Hx. apply Hln, Hl. by rewrite (proj1 (dh_named _ _ _ K1 _ _ Hx)).
  - lia.
Qed.

(** ** Addresses *)

Notation address_of record := (net_address (sp_network (js_spec (jr_spec record)))).

(** No jail appears, none gets another address, no ordinal is taken. *)
Definition no_new_address s s' : Prop :=
  rc_next_epair_ordinal s' = rc_next_epair_ordinal s /\
  forall name record', rc_records s' !! name = Some record' ->
    exists record, rc_records s !! name = Some record /\ address_of record' = address_of record.
#[global] Instance no_new_address_preorder : PreOrder no_new_address.
Proof.
  split; [intros s; split; eauto|]. intros s1 s2 s3 [En1 H1] [En2 H2]. split; [congruence|].
  intros name r3 Hr3. destruct (H2 _ _ Hr3) as (r2 & Hr2 & E2).
  destruct (H1 _ _ Hr2) as (r1 & Hr1 & E1). exists r1. split; [done|congruence].
Qed.

Lemma same_desired_no_new s s' : same_desired s s' -> no_new_address s s'.
Proof. intros (Er & _ & En)%same_desired_tables. split; [done|]. rewrite Er. eauto. Qed.
Lemma preserves_same_no_new {T} (m : op T) : preserves same_desired m -> preserves no_new_address m.
Proof. intros Hm s r s' E. apply same_desired_no_new. by eapply Hm. Qed.
Lemma on_disk_no_new {T} (f : Disk -> result StoreError T * Disk) : preserves no_new_address (on_disk f).
Proof. intros s r s'. unfold on_disk. destruct (f _). intros [= <- <-]. split; [done|eauto]. Qed.
Lemma on_ingress_disk_no_new {T} (f : Disk -> result StoreError T * Disk) :
  preserves no_new_address (on_ingress_disk f).
Proof. intros s r s'. unfold on_ingress_disk. destruct (f _). intros [= <- <-]. split; [done|eauto]. Qed.
Lemma modify_no_new (f : RC -> RC) :
  (forall s, no_new_address s (f s)) -> preserves no_new_address (st_modify (E := ReconcileError) f).
Proof. intros Hf s r s' [= <- <-]. apply Hf. Qed.
Lemma drop_record_no_new name s : no_new_address s (drop_record name s).
Proof. split; [done|]. cbn. intros n r [_ Hr]%lookup_delete_Some. eauto. Qed.
Hint Resolve preserves_same_no_new on_disk_no_new on_ingress_disk_no_new modify_no_new
  drop_record_no_new : keel.

Lemma delete_jail_no_new name : preserves no_new_address (delete_jail name).
Proof. unfold delete_jail. preserves_auto. Qed.
Lemma delete_ingress_no_new name : preserves no_new_address (delete_ingress name).
Proof.
  unfold delete_ingress. preserves_auto. apply modify_no_new. intros s. split; [done|eauto].
Qed.
Lemma apply_ingress_no_new spec : preserves no_new_address (apply_ingress spec).
Proof.
  unfold apply_ingress. preserves_auto. apply modify_no_new. intros s. split; [done|eauto].
Qed.
Lemma set_replicate_to_no_new name to : preserves no_new_address (set_replicate_to name to).
Proof.
  intros s r s' E. unfold set_replicate_to, st_bind at 1, asks in E.
  destruct (rc_records s !! name) as [record|] eqn:Er; cbn in E; [|by simplify_eq].
  unfold st_bind, on_disk, st_modify in E.
  destruct (save_jail _ _) as [[[]|e] d]; cbn in E; simplify_eq; (split; [done|]); cbn; [|eauto].
  intros n r' [[<- <-]|[_ Hr]]%lookup_insert_Some; eauto.
Qed.

(** ** Panics *)

Definition gateway_ok (address : string) : Prop := bridge_gateway address <> Panic.

Lemma on_jails_no_panic {T} (f : J -> result JailError T * J) : no_panic (on_jails f : aop T).
Proof. intros s. unfold on_jails. by destruct (f _). Qed.
Lemma on_zfs_no_panic {T} (f : Zf -> result ZfsError T * Zf) : no_panic (on_zfs f : aop T).
Proof. intros s. unfold on_zfs. by destruct (f _). Qed.
Lemma on_net_no_panic {T} (f : Nt -> result NetError T * Nt) : no_panic (on_net f : aop T).
Proof. intros s. unfold on_net. by destruct (f _). Qed.
Lemma on_mounts_no_panic {T} (f : M -> result MountError T * M) : no_panic (on_mounts f : aop T).
Proof. intros s. unfold on_mounts. by destruct (f _). Qed.
Lemma on_disk_no_panic {T} (f : Disk -> result StoreError T * Disk) : no_panic (on_disk f : aop T).
Proof. intros s. unfold on_disk. by destruct (f _). Qed.
Lemma on_ingress_disk_no_panic {T} (f : Disk -> result StoreError T * Disk) : no_panic (on_ingress_disk f : aop T).
Proof. intros s. unfold on_ingress_disk. by destruct (f _). Qed.
Lemma asks_no_panic {T} (f : RC -> result ReconcileError T) : no_panic (asks f : aop T).
Proof. done. Qed.
Lemma spec_check_no_panic {T} (x : result SpecError T) : no_panic (spec_check x : aop T).
Proof. done. Qed.
Hint Resolve on_jails_no_panic on_zfs_no_panic on_net_no_panic on_mounts_no_panic on_disk_no_panic
  on_ingress_disk_no_panic asks_no_panic spec_check_no_panic : keel.

Lemma delete_jail_no_panic name : no_panic (delete_jail name : aop unit).
Proof. unfold delete_jail. no_panic_auto. Qed.
Lemma set_replicate_to_no_panic name to : no_panic (set_replicate_to name to : aop unit).
Proof. unfold set_replicate_to. no_panic_auto. Qed.
Lemma apply_ingress_no_panic spec : no_panic (apply_ingress spec : aop unit).
Proof. unfold apply_ingress. no_panic_auto. Qed.
Lemma delete_ingress_no_panic name : no_panic (delete_ingress name : aop unit).
Proof. unfold delete_ingress. no_panic_auto. Qed.
Lemma get_volume_no_panic name : no_panic (get_volume name : aop unit).
Proof. unfold get_volume. no_panic_auto. Qed.
Lemma delete_volume_no_panic name : no_panic (delete_volume name : aop unit).
Proof. unfold delete_volume. no_panic_auto. Qed.
Lemma rollback_provision_no_panic name record : no_panic (rollback_provision name record : aop unit).
Proof. unfold rollback_provision. no_panic_auto. Qed.

Lemma reconcile_cert_spec now_unix mono name s :
  is_Some (rc_ingress_records s !! name) ->
  exists s', reconcile_cert now_unix mono name s = Val s' /\
    (rc_records s', rc_next_epair_ordinal s', rc_backoff s', rc_pool s', rc_jails s', rc_zfs s',
     rc_net s', rc_mounts s') =
    (rc_records s, rc_next_epair_ordinal s, rc_backoff s, rc_pool s, rc_jails s, rc_zfs s,
     rc_net s, rc_mounts s).
Proof.
  intros [record Hr]. unfold reconcile_cert. cbn -[can_retry]. rewrite Hr.
  repeat first
    [ by eexists
    | progress (unfold write_cert_to_ingress_jail, on_ingress_disk; cbn -[can_retry save_ingress io])
    | case_match; simplify_eq ].
Qed.

Lemma reconcile_certs_spec now_unix mono s :
  unix_ok now_unix -> agent_inv s ->
  exists s', reconcile_certs now_unix mono s = Val s' /\
    (rc_records s', rc_next_epair_ordinal s', rc_backoff s', rc_pool s', rc_jails s', rc_zfs s',
     rc_net s', rc_mounts s') =
    (rc_records s, rc_next_epair_ordinal s, rc_backoff s, rc_pool s, rc_jails s, rc_zfs s,
     rc_net s, rc_mounts s).
Proof.
  intros Hu. unfold reconcile_certs. pose proof (ingress_names s) as Hin.
  revert Hin. generalize (hash_iter (rc_ingress_records s)).*1. intros names. revert s.
  induction names as [|name names IH]; intros s Hin Hs; cbn; [eauto|].
  destruct (reconcile_cert_spec now_unix (mono name) name s) as (s1 & E1 & Heq1);
    [apply elem_of_dom, Hin; set_solver|].
  pose proof E1 as E2. apply reconcile_cert_keeps in E2 as [Hs1 Hd1];
    [|done|apply elem_of_dom, Hin; set_solver|done].
  rewrite E1, Val_bind, <-Heq1. apply IH; [|done]. intros n Hn. rewrite Hd1. apply Hin. set_solver.
Qed.

(** A network manager that panics only where [bridge_gateway] does. *)
Context (attach_total : forall jname bridge epair address (n : Nt),
  gateway_ok address -> attach_jail jname bridge epair address n <> Panic).

Lemma attach_no_panic jname bridge epair address :
  gateway_ok address -> no_panic (on_net_comp (attach_jail jname bridge epair address) : aop unit).
Proof.
  intros Hg s. unfold on_net_comp. pose proof (attach_total jname bridge epair address (rc_net s) Hg).
  by destruct (attach_jail _ _ _ _ _) as [[]|].
Qed.

Lemma configure_no_panic name record :
  gateway_ok (address_of record) -> no_panic (configure_networking_and_limits name record : aop unit).
Proof.
  intros Hg. pose proof (attach_no_panic (jail_name name)). unfold configure_networking_and_limits.
  no_panic_auto.
Qed.
Hint Resolve configure_no_panic : keel.

Lemma provision_no_panic name record :
  gateway_ok (address_of record) -> no_panic (provision name record : aop unit).
Proof. intros Hg. unfold provision, provision_volume. no_panic_auto. Qed.
Lemma restart_no_panic name record :
  gateway_ok (address_of record) -> no_panic (restart name record : aop unit).
Proof. intros Hg. unfold restart. no_panic_auto. Qed.

Definition gateways_ok s : Prop :=
  forall name record, rc_records s !! name = Some record -> gateway_ok (address_of record).

Lemma no_new_gateways s s' : no_new_address s s' -> gateways_ok s -> gateways_ok s'.
Proof.
  intros [_ Hn] Hg name r' Hr'. destruct (Hn _ _ Hr') as (r & Hr & ->). by eapply Hg.
Qed.

Lemma gateway_ok_spec address :
  gateway_ok address <-> exists n, net_parse address = Some n /\ (network n + 1 <= u32_max)%N.
Proof.
  unfold gateway_ok, bridge_gateway. destruct (net_parse address) as [n|]; [|naive_solver].
  unfold add_u32. destruct (_ <=? _)%N eqn:El; bool_to_prop; cbn; split; try done; [naive_solver|].
  intros (n' & [= <-] & Hn). lia.
Qed.

Lemma ingress_gateway_ok : gateway_ok (net_address (sp_network (js_spec ingress_jail_spec))).
Proof.
  apply gateway_ok_spec. set (n := mkNet 167772162 24).
  assert (net_wf n) as Hwf by (vm_compute; split; discriminate).
  exists n. split; [|rewrite network_spec by done; vm_compute; discriminate].
  pose proof (net_parse_to_string n Hwf) as Hp. by rewrite net_to_string_spec in Hp.
Qed.

Lemma apply_records spec s r s' :
  apply spec s = Val (r, s') ->
  (rc_next_epair_ordinal s' <= rc_next_epair_ordinal s + 1)%N /\
  forall name record, rc_records s' !! name = Some record ->
    rc_records s !! name = Some record \/ jr_spec record = spec.
Proof.
  intros E. destruct (apply_outcome spec s) as [[Hp _]|[[e Hp]|(Hv & o & next & Ho & Hp)]];
    rewrite Hp in E; [done|simplify_eq; split; [lia|auto]|].
  assert (next <= rc_next_epair_ordinal s + 1)%N as Hn.
  { unfold ordinal_for in Ho. destruct (rc_records s !! _); destruct Ho as (-> & -> & ?); lia. }
  unfold st_bind, on_disk, st_modify in E.
  destruct (save_jail _ _) as [[[]|e] d]; cbn in E; simplify_eq; cbn.
  - split; [done|]. intros name record [[<- <-]|[_ Hr]]%lookup_insert_Some; auto.
  - split; [done|auto].
Qed.

Lemma apply_no_panic spec s : (rc_next_epair_ordinal s < u32_max)%N -> apply spec s <> Panic.
Proof.
  intros Hn. destruct (apply_outcome spec s) as [(_ & _ & Hp)|[[e ->]|(_ & o & next & _ & ->)]];
    [lia|done|]. set (m := on_disk _). assert (no_panic (m ;;! st_modify
      (insert_record (mkJailRecord spec o) (meta_name (js_metadata spec))) : aop unit)) as Hm
      by (unfold m; no_panic_auto). apply Hm.
Qed.

Lemma ensure_ingress_jail_spec s :
  (rc_next_epair_ordinal s < u32_max)%N -> gateways_ok s ->
  exists r s', ensure_ingress_jail s = Val (r, s') /\ gateways_ok s' /\
    (rc_next_epair_ordinal s' <= rc_next_epair_ordinal s + 1)%N.
Proof.
  intros Hn Hg. unfold ensure_ingress_jail, st_bind, st_get.
  destruct (_ || _); [exists (Ok tt), s; unfold st_ret; split; [done|split; [done|lia]]|].
  pose proof (apply_no_panic ingress_jail_spec s Hn) as Hp.
  destruct (apply _ s) as [[r s']|] eqn:E; [|done]. exists r, s'. split; [done|].
  apply apply_records in E as [Hn' Hr]. split; [|done]. intros name record Hrec.
  destruct (Hr name record Hrec) as [Hold| ->]; [by eapply Hg|apply ingress_gateway_ok].
Qed.

Lemma reconcile_one_no_panic name record now s :
  rc_records s !! name = Some record -> gateway_ok (address_of record) ->
  reconcile_one name now s <> Panic.
Proof.
  intros Hr Hg. unfold reconcile_one. rewrite Hr. destruct (negb _); [done|].
  destruct (jail_exists _ _) as [[|]|]; [| |done].
  - unfold reconcile_existing.
    pose proof (restart_no_panic name record Hg) as Hrestart.
    match goal with |- ?m ?st <> Panic => assert (no_panic m) as Hm end; [|apply Hm].
    apply no_panic_bind; [done|]. intros [|]; [no_panic_auto|]. case_match; [done|].
    intros st. pose proof (Hrestart st). by destruct (restart name record st) as [[]|].
  - pose proof (provision_no_panic name record Hg) as Hp.
    match goal with |- context [provision name record ?st] => specialize (Hp st) end.
    destruct (provision name record _) as [[[[]|e] s1]|]; [done| |done]. rewrite Val_bind.
    match goal with |- context [rollback_provision name record ?st] =>
      pose proof (rollback_provision_no_panic name record st) as Hrb end.
    by destruct (rollback_provision name record _) as [[]|].
Qed.

Lemma reconcile_names_no_panic names now s :
  agent_inv s -> gateways_ok s -> (forall name, name ∈ names -> is_Some (rc_records s !! name)) ->
  reconcile_names names now s <> Panic.
Proof.
  revert s. induction names as [|name names IH]; intros s Hs Hg Hin; cbn; [done|].
  destruct (Hin name) as [record Hr]; [set_solver|].
  pose proof (reconcile_one_no_panic name record now s Hr (Hg _ _ Hr)) as Hone.
  destruct (reconcile_one name now s) as [[r s1]|] eqn:E1; [|done].
  apply reconcile_one_keeps in E1 as [Hs1 [Ht1 _]]; [|done]. rewrite Val_bind.
  pose proof (IH s1 Hs1) as Hrest. destruct (reconcile_names names now s1) as [[fs s2]|]; [done|].
  destruct Hrest; [|intros n Hn; rewrite Ht1; apply Hin; set_solver|done].
  intros n rec. rewrite Ht1. apply Hg.
Qed.

(** A pass returns from every state whose addresses have a gateway. *)
Lemma reconcile_total now now_unix mono s :
  agent_inv s -> unix_ok now_unix -> gateways_ok s -> (rc_next_epair_ordinal s < u32_max)%N ->
  exists fs s', reconcile now now_unix mono s = Val (fs, s') /\ agent_inv s' /\ gateways_ok s' /\
    (rc_next_epair_ordinal s' <= rc_next_epair_ordinal s + 1)%N.
Proof.
  intros Hs Hu Hg Hn. unfold reconcile.
  destruct (ensure_ingress_jail_spec s Hn Hg) as (r1 & s1 & E1 & Hg1 & Hn1). rewrite E1, Val_bind.
  apply ensure_ingress_jail_keeps in E1. specialize (E1 Hs).
  destruct (reconcile_certs_spec now_unix mono s1 Hu E1) as (s2 & E2 & Heq2).
  rewrite E2, Val_bind. eapply reconcile_certs_keeps in E2 as Hs2; [|done|done].
  injection Heq2 as Er2 En2 _ _ _ _ _ _.
  pose proof (reconcile_ingress_config_same s2) as Hc.
  set (s3 := reconcile_ingress_config s2) in *. pose proof (same_desired_keeps _ _ Hc Hs2) as Hs3.
  apply same_desired_tables in Hc as (Er3 & _ & En3).
  assert (gateways_ok s3) as Hg3 by (intros n rec; rewrite Er3, Er2; apply Hg1).
  pose proof (reconcile_names_no_panic (hash_iter (rc_records s3)).*1 now s3 Hs3 Hg3
                (fun name => proj1 (hash_iter_dom _ name))) as Hp.
  destruct (reconcile_names _ now s3) as [[fs s4]|] eqn:E4; [|done]. exists fs, s4. split; [done|].
  apply reconcile_names_keeps in E4 as [Hs4 (Er4 & _ & En4)]; [|done]. split; [done|].
  split; [intros n rec; rewrite Er4; apply Hg3|]. rewrite En4, En3, En2. done.
Qed.

(** ** Which records an operation touches *)

(** A successful [apply] records the spec it was given, a failed one records
    nothing; other names are untouched. *)
Lemma apply_lookup spec s r s' :
  apply spec s = Val (r, s') ->
  match r with
  | Ok _ => exists record, rc_records s' = <[meta_name (js_metadata spec) := record]> (rc_records s) /\
              jr_spec record = spec
  | Err _ => rc_records s' = rc_records s
  end.
Proof.
  intros E. destruct (apply_outcome spec s) as [[Hp _]|[[e Hp]|(_ & o & next & _ & Hp)]];
    rewrite Hp in E; [done|by simplify_eq|].
  unfold st_bind, on_disk, st_modify in E.
  destruct (save_jail _ _) as [[[]|e] d]; cbn in E; simplify_eq; cbn; [|done].
  by exists (mkJailRecord spec o).
Qed.

(** Applying a jail again cannot move it. *)
Lemma apply_same_address spec s s' old :
  apply spec s = Val (Ok tt, s') -> rc_records s !! meta_name (js_metadata spec) = Some old ->
  address_of old = net_address (sp_network (js_spec spec)).
Proof.
  intros E Ho. unfold apply in E. rewrite !bind_ok_unit in E.
  destruct (validate_name _) as [[]|]; [|done]. destruct (validate_address _) as [[]|]; [|done].
  destruct (parse_cpu_cores _); [|done]. destruct (parse_memory_bytes _); [|done].
  rewrite (st_bind_Ok _ _ s _ _ eq_refl), Ho in E. unfold validate_transition in E.
  destruct (negb (String.eqb (sp_image _) _)); [done|].
  destruct (String.eqb_spec (address_of old) (net_address (sp_network (js_spec spec)))) as [->|Hne];
    [done|]. done.
Qed.

Lemma ensure_ingress_jail_lookup s r s' name :
  ensure_ingress_jail s = Val (r, s') -> name <> "ingress" \/ is_Some (rc_records s !! name) ->
  rc_records s' !! name = rc_records s !! name.
Proof.
  unfold ensure_ingress_jail, st_bind, st_get.
  destruct (_ || _) eqn:Eb; [by intros [= <- <-]|]. intros E%apply_lookup Hn.
  apply orb_false_iff in Eb as [_ Eb]. apply is_some_false in Eb.
  destruct r; [|by rewrite E]. destruct E as (record & -> & _). apply lookup_insert_ne.
  cbn. intros <-. destruct Hn as [Hn|[x Hx]]; [done|]. congruence.
Qed.

(** A pass records nothing but, at most, the ingress jail. *)
Lemma reconcile_lookup now now_unix mono s fs s' name :
  unix_ok now_unix -> reconcile now now_unix mono s = Val (fs, s') -> agent_inv s ->
  name <> "ingress" \/ is_Some (rc_records s !! name) ->
  rc_records s' !! name = rc_records s !! name.
Proof.
  intros Hu E Hs Hn. unfold reconcile in E.
  destruct (ensure_ingress_jail s) as [[r1 s1]|] eqn:E1; [|done]. rewrite Val_bind in E.
  rewrite <- (ensure_ingress_jail_lookup _ _ _ _ E1 Hn). apply ensure_ingress_jail_keeps in E1.
  specialize (E1 Hs). destruct (reconcile_certs_spec now_unix mono s1 Hu E1) as (s2 & E2 & Heq).
  rewrite E2, Val_bind in E. eapply reconcile_certs_keeps in E2; [|done|done].
  injection Heq as Er2 _ _ _ _ _ _ _.
  pose proof (reconcile_ingress_config_same s2) as Hc.
  apply reconcile_names_keeps in E as [_ (-> & _)]; [|by eapply same_desired_keeps].
  apply same_desired_tables in Hc as (-> & _). by rewrite Er2.
Qed.
End reconciler_inv.
