(* ===== verification/AgentFakes.v ===== *)
(** * The reconciler on the in-memory host

    What a pass, a deletion and a failed provisioning do to the host, on the
    repository's in-memory host objects ([FakeJailRuntime], [FakeZfsManager],
    [FakeNetManager], [FakeMountManager]): the jails that run, their datasets,
    mounts and network interfaces. *)

From S2P Require Import Prelude RustStr Float64 Ipnet Spec Codecs Registry Wire Backoff.
From S2P Require Import AgentHost Store Ingress Reconciler ReconcilerInv.

Open Scope keel_scope.

Section agent_fakes.
Context {HO : HashOrder} {I : Ipnet} {YJR : SerdeYaml JailRecord} {YIR : SerdeYaml IngressRecord}.
Context {A D X : Type} {HA : AcmeClient A D} {HX : NginxController X}.

Notation RC := (@RC FakeJailRuntime FakeZfsManager FakeNetManager FakeMountManager A D X).
Implicit Types s : RC.

Notation jails s := (fjr_jails (rc_jails s)).
Notation datasets s := (fz_datasets (rc_zfs s)).
Notation mounted s := (fm_mounted (rc_mounts s)).
Notation attachments s := (fn_attachments (rc_net s)).
Notation spec_of record := (js_spec (jr_spec record)).

Lemma fake_attach_total jname bridge epair address (n : FakeNetManager) :
  gateway_ok address -> attach_jail jname bridge epair address n <> Panic.
Proof.
  unfold gateway_ok. cbn. unfold fake_attach_jail. intros Hg.
  case_bool_decide; [|done]. by destruct (bridge_gateway address).
Qed.

(** ** Provisioning *)

Definition volume_up s rootfs (v : VolumeMount) : Prop :=
  volume_dataset_path (rc_pool s) (vol_name v) ∈ datasets s /\ mount_target rootfs v ∈ mounted s.

Lemma provision_volume_ok rootfs v s :
  exists z m, provision_volume rootfs v s = Val (Ok tt, set_mounts m (set_zfs z s)) /\
    fz_datasets z = {[volume_dataset_path (rc_pool s) (vol_name v)]} ∪ datasets s /\
    fz_busy z = fz_busy (rc_zfs s) /\
    fm_mounted m = {[mount_target rootfs v]} ∪ mounted s.
Proof.
  unfold provision_volume, st_bind, st_get, asks, on_mounts. cbn.
  case_bool_decide as Hd; cbn; case_bool_decide as Hm; cbn; unfold st_ret, fake_mount_nullfs; cbn.
  - exists (rc_zfs s), (rc_mounts s). split; [by destruct s|]. split; [set_solver|].
    split; [done|set_solver].
  - exists (rc_zfs s), (mkFakeMountManager ({[mount_target rootfs v]} ∪ mounted s)).
    split; [by destruct s|]. split; [set_solver|]. done.
  - exists (fake_seed_dataset (volume_dataset_path (rc_pool s) (vol_name v)) (rc_zfs s)), (rc_mounts s).
    split; [by destruct s|]. split; [done|]. split; [done|set_solver].
  - eexists _, _. split; [done|]. done.
Qed.

Lemma provision_volumes_ok rootfs vs s :
  exists z m, st_for vs (provision_volume rootfs) s = Val (Ok tt, set_mounts m (set_zfs z s)) /\
    datasets s ⊆ fz_datasets z /\ fz_busy z = fz_busy (rc_zfs s) /\ mounted s ⊆ fm_mounted m /\
    forall v, v ∈ vs -> volume_dataset_path (rc_pool s) (vol_name v) ∈ fz_datasets z /\
      mount_target rootfs v ∈ fm_mounted m.
Proof.
  revert s. induction vs as [|v vs IH]; intros s; cbn.
  - exists (rc_zfs s), (rc_mounts s). split; [by destruct s|]. set_solver.
  - destruct (provision_volume_ok rootfs v s) as (z1 & m1 & E1 & Hz1 & Hb1 & Hm1).
    rewrite (st_bind_Ok _ _ _ _ _ E1).
    destruct (IH (set_mounts m1 (set_zfs z1 s))) as (z & m & -> & Hz & Hb & Hm & Hv). cbn in *.
    exists z, m. split; [done|]. split; [set_solver|]. split; [congruence|]. split; [set_solver|].
    intros v' [->|Hv']%elem_of_cons; [set_solver|by apply Hv].
Qed.

(** The limits a spec asks for, and a jail that runs under them. *)
Definition limits_of (record : JailRecord) : option (N * N) :=
  match parse_cpu_cores (res_cpu (sp_resources (spec_of record))),
        parse_memory_bytes (res_memory (sp_resources (spec_of record))) with
  | Ok cores, Ok bytes => Some (cores_to_pcpu_percent cores, bytes)
  | _, _ => None
  end.
Definition jail_up s name (record : JailRecord) : Prop :=
  exists j p m, jails s !! jail_name name = Some j /\ fj_running j = true /\
    limits_of record = Some (p, m) /\ fj_pcpu_percent j = Some p /\ fj_memory_bytes j = Some m.
Definition attached s name (record : JailRecord) : Prop :=
  attachments s !! epair_base_name (jr_epair_ordinal record) =
    Some (jail_name name, net_bridge (sp_network (spec_of record)),
          net_address (sp_network (spec_of record))).
Definition storage_up s name (record : JailRecord) : Prop :=
  jail_dataset_path (rc_pool s) name ∈ datasets s /\
  forall v, v ∈ sp_volumes (spec_of record) -> volume_up s (jail_rootfs_path (rc_pool s) name) v.

(** What raising one jail leaves alone. *)
Record raises name (record : JailRecord) s s' : Prop := {
  ra_jails : forall k, k <> jail_name name -> jails s' !! k = jails s !! k;
  ra_datasets : datasets s ⊆ datasets s';
  ra_mounted : mounted s ⊆ mounted s';
  ra_attachments : forall e, e <> epair_base_name (jr_epair_ordinal record) ->
    attachments s' !! e = attachments s !! e;
  ra_pool : rc_pool s' = rc_pool s
}.

Lemma raises_refl name record s : raises name record s s.
Proof. by split. Qed.

Lemma configure_ok name record s j :
  jails s !! jail_name name = Some j -> jail_valid (jr_spec record) ->
  gateway_ok (net_address (sp_network (spec_of record))) ->
  exists n p m, limits_of record = Some (p, m) /\
    configure_networking_and_limits name record s =
      Val (Ok tt, set_jails (mkFakeJailRuntime (<[jail_name name :=
             mkFakeJail (fj_rootfs j) (fj_vnet j) (fj_running j) (Some p) (Some m) (fj_fail_start j)]>
             (jails s))) (set_net n s)) /\
    fn_attachments n = <[epair_base_name (jr_epair_ordinal record) :=
      (jail_name name, net_bridge (sp_network (spec_of record)),
       net_address (sp_network (spec_of record)))]> (attachments s).
Proof.
  intros Hj (_ & _ & Hc & Hm) Hg. unfold limits_of. unfold gateway_ok in Hg.
  destruct (parse_cpu_cores _) as [cores|] eqn:Ec; [|done].
  destruct (parse_memory_bytes _) as [bytes|] eqn:Em; [|done].
  unfold configure_networking_and_limits, st_bind, on_net, on_net_comp. cbn -[fake_attach_jail].
  unfold fake_attach_jail. cbn. rewrite bool_decide_eq_true_2 by set_solver.
  destruct (bridge_gateway _) as [gw|]; [|done]. cbn. unfold spec_check, st_lift.
  rewrite Ec. cbn. rewrite Em. cbn. unfold on_jails. cbn.
  unfold fake_set_resource_limits, fake_with_limits. rewrite Hj.
  eexists _, _, _. split; [done|]. split; [done|]. done.
Qed.

Lemma start_ok name cmd s j :
  jails s !! jail_name name = Some j -> fj_fail_start j = false ->
  on_jails (start_command (jail_name name) cmd) s =
    Val (Ok tt, set_jails (mkFakeJailRuntime (<[jail_name name :=
           mkFakeJail (fj_rootfs j) (fj_vnet j) true (fj_pcpu_percent j) (fj_memory_bytes j)
             (fj_fail_start j)]> (jails s))) s).
Proof. intros Hj Hf. unfold on_jails. cbn. unfold fake_start_command. by rewrite Hj, Hf. Qed.

Lemma restart_ok name record s j :
  jails s !! jail_name name = Some j -> fj_fail_start j = false -> jail_valid (jr_spec record) ->
  gateway_ok (net_address (sp_network (spec_of record))) ->
  exists s', restart name record s = Val (Ok tt, s') /\ raises name record s s' /\
    jail_up s' name record /\ attached s' name record.
Proof.
  intros Hj Hf Hv Hg. unfold restart.
  destruct (configure_ok name record s j Hj Hv Hg) as (n & p & m & Hl & E1 & Hn).
  rewrite (st_bind_Ok _ _ _ _ _ E1). erewrite start_ok; [|apply lookup_insert_eq|done]. cbn.
  eexists. split; [done|]. split; [split; cbn; try done|split].
  - intros k Hk. by rewrite !lookup_insert_ne.
  - intros e He. by rewrite Hn, lookup_insert_ne.
  - eexists _, p, m. cbn. split; [apply lookup_insert_eq|done].
  - unfold attached. cbn. by rewrite Hn, lookup_insert_eq.
Qed.

Lemma provision_ok name record s :
  base_dataset_path (rc_pool s) (sp_image (spec_of record)) ∈ datasets s ->
  jail_valid (jr_spec record) -> gateway_ok (net_address (sp_network (spec_of record))) ->
  exists s', provision name record s = Val (Ok tt, s') /\ raises name record s s' /\
    jail_up s' name record /\ attached s' name record /\ storage_up s' name record.
Proof.
  intros Hb Hv Hg. unfold provision, st_bind at 1, st_get.
  unfold st_bind at 1, asks. cbn [dataset_exists fake_zfs_manager]. unfold fake_dataset_exists.
  rewrite bool_decide_eq_true_2 by done. cbn [map_err]. unfold st_bind at 1, st_ret.
  set (z0 := fake_seed_dataset (jail_dataset_path (rc_pool s) name) (rc_zfs s)).
  rewrite (st_bind_Ok _ _ s tt (set_zfs z0 s)).
  2:{ unfold on_zfs. cbn. unfold fake_clone_from_base. by rewrite bool_decide_eq_true_2. }
  set (j0 := mkFakeJail (jail_rootfs_path (rc_pool s) name) (net_vnet (sp_network (spec_of record)))
    false None None false).
  set (s1 := set_jails (mkFakeJailRuntime (<[jail_name name := j0]> (jails s))) (set_zfs z0 s)).
  rewrite (st_bind_Ok _ _ (set_zfs z0 s) tt s1) by done.
  destruct (provision_volumes_ok (jail_rootfs_path (rc_pool s) name) (sp_volumes (spec_of record)) s1)
    as (z & mn & E2 & Hz & _ & Hm & Hvols).
  rewrite (st_bind_Ok _ _ _ _ _ E2). set (s2 := set_mounts mn (set_zfs z s1)).
  destruct (configure_ok name record s2 j0) as (n & p & m & Hl & E3 & Hn);
    [apply lookup_insert_eq|done|done|].
  rewrite (st_bind_Ok _ _ _ _ _ E3). erewrite start_ok; [|apply lookup_insert_eq|done]. cbn in *.
  eexists. split; [done|]. split; [split; cbn; try done|split; [|split; [|split]]]; cbn.
  - intros k Hk. by rewrite !lookup_insert_ne.
  - set_solver.
  - intros e He. by rewrite Hn, lookup_insert_ne.
  - eexists _, p, m. cbn. split; [apply lookup_insert_eq|done].
  - unfold attached. cbn. by rewrite Hn, lookup_insert_eq.
  - set_solver.
  - intros v Hv'. apply (Hvols v Hv').
Qed.

(** ** One pass over the jails *)

(** A jail whose reconciliation can succeed: not cooling down, its image is
    there, its address has a gateway, and its command can start. *)
Record ready s now name (record : JailRecord) : Prop := {
  rd_retry : can_retry (default backoff_new (rc_backoff s !! name)) now = true;
  rd_image : base_dataset_path (rc_pool s) (sp_image (spec_of record)) ∈ datasets s;
  rd_gateway : gateway_ok (net_address (sp_network (spec_of record)));
  rd_start : forall j, jails s !! jail_name name = Some j -> fj_fail_start j = false
}.

(** What a pass from [s] to [s'] must have made of a jail: a new one is
    provisioned, a running one keeps running under the limits of its spec, an
    exited one is started again unless its policy is never to. *)
Definition settled s s' name (record : JailRecord) : Prop :=
  match jails s !! jail_name name with
  | None => jail_up s' name record /\ attached s' name record /\ storage_up s' name record
  | Some j =>
      if fj_running j then jail_up s' name record
      else if bool_decide (sp_restart_policy (spec_of record) = Never)
      then jails s' !! jail_name name = Some j
      else jail_up s' name record /\ attached s' name record
  end.

Lemma default_touch name (m : gmap string BackoffState) :
  default backoff_new (touch_backoff name m !! name) = default backoff_new (m !! name).
Proof.
  unfold touch_backoff. destruct (m !! name) eqn:E; [by rewrite E|by rewrite lookup_insert_eq].
Qed.
Lemma touch_ne name k (m : gmap string BackoffState) :
  k <> name -> touch_backoff name m !! k = m !! k.
Proof. intros Hk. unfold touch_backoff. destruct (m !! name); [done|by rewrite lookup_insert_ne]. Qed.

Lemma same_desired_backoff s s' : same_desired s s' -> rc_backoff s' = rc_backoff s.
Proof. unfold same_desired, desired. intros E. by injection E. Qed.

Lemma reconcile_existing_ok name record now s j :
  jails s !! jail_name name = Some j -> jail_valid (jr_spec record) -> ready s now name record ->
  exists s', reconcile_existing name record now s = Val (Ok tt, s') /\ raises name record s s' /\
    settled s s' name record /\ (forall k, k <> name -> rc_backoff s' !! k = rc_backoff s !! k).
Proof.
  intros Hj Hv [Hr Hb Hg Hf]. unfold reconcile_existing, settled. rewrite Hj.
  unfold st_bind at 1, asks. cbn [is_running fake_jail_runtime]. unfold fake_is_running.
  rewrite Hj. cbn. destruct (fj_running j) eqn:Erun.
  - destruct Hv as (_ & _ & Hc & Hm). unfold jail_up, limits_of.
    destruct (parse_cpu_cores _) as [cores|] eqn:Ec; [|done].
    destruct (parse_memory_bytes _) as [bytes|] eqn:Em; [|done].
    unfold st_bind, spec_check, st_lift, on_jails. cbn. unfold fake_set_resource_limits, fake_with_limits.
    rewrite Hj. eexists. split; [done|]. split; [split; cbn; try done; intros k Hk; by rewrite lookup_insert_ne|].
    split; [|done]. eexists _, _, _. cbn. split; [apply lookup_insert_eq|done].
  - case_bool_decide as Hn.
    + exists s. split; [done|]. split; [apply raises_refl|]. done.
    + destruct (restart_ok name record s j Hj (Hf j Hj) Hv Hg) as (s1 & E1 & Hra & Hup & Hat).
      rewrite E1. eexists. split; [done|].
      pose proof (same_desired_backoff _ _ (restart_same _ _ _ _ _ E1)) as Hbo.
      destruct Hra. split; [by split|]. split; [done|]. intros k Hk. cbn. unfold arm_backoff.
      by rewrite lookup_insert_ne, Hbo.
Qed.

Lemma reconcile_one_ok name record now s :
  rc_records s !! name = Some record -> jail_valid (jr_spec record) -> ready s now name record ->
  exists s', reconcile_one name now s = Val (Ok tt, s') /\ raises name record s s' /\
    settled s s' name record /\ (forall k, k <> name -> rc_backoff s' !! k = rc_backoff s !! k).
Proof.
  intros Hr Hv Hrd. unfold reconcile_one. rewrite Hr. cbn [rc_backoff set_backoff].
  rewrite default_touch, (rd_retry _ _ _ _ Hrd). cbn [negb].
  set (s0 := set_backoff (touch_backoff name (rc_backoff s)) s).
  assert (ready s0 now name record) as Hrd0
    by (destruct Hrd; split; cbn; rewrite ?default_touch; done).
  cbn [jail_exists fake_jail_runtime]. unfold fake_jail_exists.
  destruct (jails s !! jail_name name) as [j|] eqn:Hj; cbn [is_some].
  - change (rc_jails s0) with (rc_jails s). rewrite Hj. cbn [is_some].
    destruct (reconcile_existing_ok name record now s0 j Hj Hv Hrd0) as (s' & -> & Hra & Hse & Hbo).
    exists s'. split; [done|]. destruct Hra. split; [by split|]. split; [done|].
    intros k Hk. rewrite Hbo by done. by apply touch_ne.
  - change (rc_jails s0) with (rc_jails s). rewrite Hj. cbn [is_some].
    destruct (provision_ok name record s0) as (s1 & E1 & Hra & Hup & Hat & Hst); [apply Hrd0|done|apply Hrd|].
    rewrite E1, Val_bind. eexists. split; [done|].
    pose proof (same_desired_backoff _ _ (provision_same _ _ _ _ _ E1)) as Hbo.
    destruct Hra. split; [by split|]. split; [unfold settled; by rewrite Hj|].
    intros k Hk. cbn. unfold arm_backoff. rewrite lookup_insert_ne, Hbo by done. by apply touch_ne.
Qed.

(** What the rest of a pass leaves of a jail that is not its turn. *)
Record spares name (record : JailRecord) s s' : Prop := {
  sv_jail : jails s' !! jail_name name = jails s !! jail_name name;
  sv_attachment : attachments s' !! epair_base_name (jr_epair_ordinal record) =
    attachments s !! epair_base_name (jr_epair_ordinal record);
  sv_datasets : datasets s ⊆ datasets s';
  sv_mounted : mounted s ⊆ mounted s';
  sv_pool : rc_pool s' = rc_pool s;
  sv_backoff : rc_backoff s' !! name = rc_backoff s !! name
}.

Lemma spares_refl name record s : spares name record s s.
Proof. by split. Qed.
Lemma spares_trans name record s1 s2 s3 :
  spares name record s1 s2 -> spares name record s2 s3 -> spares name record s1 s3.
Proof. intros [] []. split; try congruence; set_solver. Qed.

(** Raising a jail spares the others: jail and interface names are distinct. *)
Lemma raises_spares s s' n1 n2 r1 r2 :
  agent_inv s -> rc_records s !! n1 = Some r1 -> rc_records s !! n2 = Some r2 -> n1 <> n2 ->
  raises n1 r1 s s' -> (forall k, k <> n1 -> rc_backoff s' !! k = rc_backoff s !! k) ->
  spares n2 r2 s s'.
Proof.
  intros Hs H1 H2 Hne [] Hb. split; [| |done|done|done|by apply Hb].
  - apply ra_jails0. by intros E%jail_name_inj.
  - apply ra_attachments0. intros E%epair_base_name_inj. apply Hne. by eapply ai_inj.
Qed.

Lemma settled_spares s s1 s2 name record :
  settled s s1 name record -> spares name record s1 s2 -> settled s s2 name record.
Proof.
  intros Hse [Hj Ha Hd Hm Hp _].
  assert (jail_up s1 name record -> jail_up s2 name record) as Hup
    by (unfold jail_up; rewrite Hj; done).
  assert (attached s1 name record -> attached s2 name record) as Hat by (unfold attached; by rewrite Ha).
  unfold settled in *. destruct (jails s !! _) as [j|].
  - destruct (fj_running j); [by apply Hup|]. case_bool_decide; [by rewrite Hj|naive_solver].
  - destruct Hse as (H1 & H2 & H3 & H4). split; [by apply Hup|]. split; [by apply Hat|].
    unfold storage_up, volume_up in *. rewrite Hp. split; [by apply Hd|].
    intros v Hv. destruct (H4 v Hv). split; [by apply Hd|by apply Hm].
Qed.

Lemma settled_before s s1 s2 name record :
  spares name record s s1 -> settled s1 s2 name record -> settled s s2 name record.
Proof. intros [Hj _ _ _ _ _]. unfold settled. by rewrite Hj. Qed.

Lemma ready_spares s s1 now name record :
  ready s now name record -> spares name record s s1 -> ready s1 now name record.
Proof. intros [] []. split; [congruence|rewrite sv_pool0; set_solver|done|]. by rewrite sv_jail0. Qed.

Lemma reconcile_names_ok names now s :
  NoDup names -> agent_inv s ->
  (forall n, n ∈ names -> exists record, rc_records s !! n = Some record /\ ready s now n record) ->
  exists s', reconcile_names names now s = Val ([], s') /\
    (forall n record, rc_records s !! n = Some record -> n ∈ names -> settled s s' n record) /\
    (forall n record, rc_records s !! n = Some record -> n ∉ names -> spares n record s s').
Proof.
  revert s. induction names as [|name names IH]; intros s Hnd Hs Hrd; cbn.
  { exists s. split; [done|]. split; [set_solver|]. intros. apply spares_refl. }
  apply NoDup_cons in Hnd as [Hnotin Hnd]. destruct (Hrd name) as (record & Hr & Hrdy); [set_solver|].
  destruct (reconcile_one_ok name record now s Hr (ai_valid s Hs _ _ Hr) Hrdy)
    as (s1 & E1 & Hra & Hse & Hbo).
  destruct (reconcile_one_keeps _ _ _ _ _ E1 Hs) as [Hs1 (Er1 & _ & _)].
  assert (forall n r, rc_records s !! n = Some r -> n <> name -> spares n r s s1) as Hsp
    by (intros n r Hn Hne; exact (raises_spares _ _ _ _ _ _ Hs Hr Hn (not_eq_sym Hne) Hra Hbo)).
  destruct (IH s1 Hnd Hs1) as (s2 & E2 & Hset & Hspa).
  { intros n Hn. destruct (Hrd n) as (r & Hrn & Hrdn); [set_solver|]. exists r.
    rewrite Er1. split; [done|]. eapply ready_spares; [done|]. apply Hsp; [done|set_solver]. }
  rewrite Er1 in Hset, Hspa.
  rewrite E1, Val_bind, E2, Val_bind. exists s2. split; [done|]. split.
  - intros n r Hrn [->|Hin]%elem_of_cons.
    + assert (r = record) as -> by congruence. eapply settled_spares; [done|]. by apply Hspa.
    + eapply settled_before; [|by apply Hset]. apply Hsp; [done|set_solver].
  - intros n r Hrn Hnin. eapply spares_trans; [apply Hsp|apply Hspa]; set_solver.
Qed.

(** A pass brings the node to its desired state.  When no jail is cooling
    down, the images are there, the addresses have gateways and the commands
    can start, one reconcile pass reports no failure and leaves every desired
    jail as its spec says: a missing one cloned, mounted, attached, limited and
    running, an exited one running again unless its policy is never, and a
    running one left running, with no jail disturbing another. *)
Theorem agent_converges now now_unix mono s :
  agent_inv s -> unix_ok now_unix ->
  rc_ingress_records s = ∅ \/ is_Some (rc_records s !! "ingress") ->
  (forall name record, rc_records s !! name = Some record -> ready s now name record) ->
  exists s', reconcile now now_unix mono s = Val ([], s') /\
    forall name record, rc_records s !! name = Some record -> settled s s' name record.
Proof.
  intros Hs Hu Hi Hrd. unfold reconcile.
  assert (ensure_ingress_jail s = Val (Ok tt, s)) as ->.
  { unfold ensure_ingress_jail, st_bind, st_get. destruct Hi as [Hi|[r Hr]].
    - by rewrite bool_decide_eq_true_2.
    - by rewrite Hr, orb_true_r. }
  rewrite Val_bind. destruct (reconcile_certs_spec now_unix mono s Hu Hs) as (s2 & E2 & Heq2).
  rewrite E2, Val_bind. eapply reconcile_certs_keeps in E2 as Hs2; [|done|done].
  injection Heq2 as Er2 _ Eb2 Ep2 Ej2 Ez2 En2 Em2.
  pose proof (reconcile_ingress_config_same s2) as Hc. set (s3 := reconcile_ingress_config s2) in *.
  assert ((rc_pool s3, rc_jails s3, rc_zfs s3, rc_net s3, rc_mounts s3) =
          (rc_pool s2, rc_jails s2, rc_zfs s2, rc_net s2, rc_mounts s2)) as Heq3.
  { unfold s3, reconcile_ingress_config. destruct (write_config _ _ _) as [[] ?]; [|done].
    destruct (test_config _ _) as [[] ?]; [|done]. by destruct (reload _ _). }
  injection Heq3 as Ep3 Ej3 Ez3 En3 Em3. pose proof (same_desired_keeps _ _ Hc Hs2) as Hs3.
  pose proof (same_desired_backoff _ _ Hc) as Eb3. apply same_desired_tables in Hc as (Er3 & _ & _).
  assert (forall n r, spares n r s s3) as Hsp by (intros n r; split; congruence).
  destruct (reconcile_names_ok (hash_iter (rc_records s3)).*1 now s3) as (s' & E' & Hset & _).
  - auto with keel.
  - done.
  - intros n [r Hr]%hash_iter_dom. exists r. split; [done|]. rewrite Er3, Er2 in Hr.
    eapply ready_spares; [by apply Hrd|apply Hsp].
  - exists s'. split; [done|]. intros n r Hr. eapply settled_before; [apply Hsp|].
    rewrite Er3, Er2 in Hset. apply Hset; [done|]. apply hash_iter_dom. by rewrite Hr.
Qed.

(** ** Deletion *)

Notation targets s name record :=
  (mount_target (jail_rootfs_path (rc_pool s) name) <$> sp_volumes (spec_of record)).

Lemma unmount_volumes_ok rootfs vs s :
  st_for vs (fun v => st_tolerate not_mounted (on_mounts (unmount (mount_target rootfs v)))) s =
    Val (Ok tt, set_mounts (mkFakeMountManager (mounted s ∖ list_to_set (mount_target rootfs <$> vs))) s).
Proof.
  revert s. induction vs as [|v vs IH]; intros s; cbn.
  - unfold st_ret. destruct s as [? ? ? [mm]]. unfold set_mounts; cbn.
    by rewrite difference_empty_L.
  - unfold st_bind, st_tolerate, on_mounts at 1. cbn. unfold fake_unmount. case_bool_decide as Hin; cbn;
      rewrite IH; cbn; unfold set_mounts; cbn.
    + by rewrite difference_difference_l_L.
    + assert (mounted s ∖ ({[mount_target rootfs v]} ∪ list_to_set (mount_target rootfs <$> vs)) =
              mounted s ∖ list_to_set (mount_target rootfs <$> vs)) as -> by set_solver. done.
Qed.

Lemma volume_not_jail pool v name : volume_dataset_path pool v <> jail_dataset_path pool name.
Proof.
  unfold volume_dataset_path, jail_dataset_path. intros E. apply (f_equal (strip_prefix pool)) in E.
  rewrite !strip_prefix_app in E. discriminate.
Qed.

(** The jail, its interface, mounts and dataset gone, on the host alone. *)
Definition torn_down name (record : JailRecord) s s' : Prop :=
  jails s' = delete (jail_name name) (jails s) /\
  attachments s' = delete (epair_base_name (jr_epair_ordinal record)) (attachments s) /\
  mounted s' = mounted s ∖ list_to_set (targets s name record) /\
  datasets s' = datasets s ∖ {[jail_dataset_path (rc_pool s) name]}.

Lemma destroy_tolerated name s :
  st_tolerate jail_not_found (on_jails (jail_destroy name)) s =
    Val (Ok tt, set_jails (mkFakeJailRuntime (delete name (jails s))) s).
Proof.
  unfold st_tolerate, on_jails. cbn. unfold fake_jail_destroy.
  destruct (jails s !! name) eqn:E; cbn; [done|]. rewrite delete_id by done.
  by destruct s as [[]].
Qed.

Lemma remove_limits_tolerated name s :
  jails s !! name = None ->
  st_tolerate jail_not_found (on_jails (remove_resource_limits name)) s = Val (Ok tt, s).
Proof.
  intros E. unfold st_tolerate, on_jails. cbn. unfold fake_remove_resource_limits, fake_with_limits.
  rewrite E. cbn. by destruct s.
Qed.

Lemma destroy_dataset_tolerated ds s :
  st_tolerate zfs_not_found (on_zfs (destroy_dataset ds)) s =
    if bool_decide (ds ∈ fz_busy (rc_zfs s)) then Val (Err (EZfs (Busy ds)), s)
    else Val (Ok tt, set_zfs (mkFakeZfsManager (datasets s ∖ {[ds]}) (fz_snapshots (rc_zfs s))
                                (fz_busy (rc_zfs s))) s).
Proof.
  unfold st_tolerate, on_zfs. cbn. unfold fake_destroy_dataset.
  case_bool_decide; cbn; [by destruct s|]. case_bool_decide as Hin; cbn; [done|].
  assert (datasets s ∖ {[ds]} = datasets s) as -> by set_solver. by destruct s as [? []].
Qed.

(** Deleting a jail.  An unknown name is refused and nothing changes.
    Otherwise the jail, its interface, its mounts and its dataset are gone,
    present or not before, and then its record, in memory and on disk; its
    volumes' datasets and everything else on the host stay.  When the dataset
    is busy or the record cannot be removed, the record stays, so that the
    deletion can be repeated. *)
Theorem delete_jail_correct name s :
  match rc_records s !! name with
  | None => delete_jail name s = Val (Err (NotFound name), s)
  | Some record =>
      let dataset := jail_dataset_path (rc_pool s) name in
      exists r s', delete_jail name s = Val (r, s') /\
        (forall v, volume_dataset_path (rc_pool s) v ∈ datasets s <->
                   volume_dataset_path (rc_pool s) v ∈ datasets s') /\
        if bool_decide (dataset ∈ fz_busy (rc_zfs s))
        then r = Err (EZfs (Busy dataset)) /\ same_desired s s'
        else torn_down name record s s' /\
          match dk_fault (rc_disk s) RemoveFile (yaml_file name) with
          | Some e => is_ok r = false /\ same_desired s s'
          | None =>
              r = Ok tt /\ rc_records s' = delete name (rc_records s) /\
              rc_backoff s' = delete name (rc_backoff s) /\
              dk_files (rc_disk s') = delete (yaml_file name) (dk_files (rc_disk s))
          end
  end.
Proof.
  unfold delete_jail. destruct (rc_records s !! name) as [record|] eqn:Hr.
  2:{ rewrite (st_bind_Err _ _ s (NotFound name) s); [done|]. unfold asks. by rewrite Hr. }
  rewrite (st_bind_Ok _ _ s record s) by (unfold asks; by rewrite Hr).
  rewrite (st_bind_Ok _ _ s s s) by done. cbn zeta.
  set (s1 := set_net (fake_detach_jail (epair_base_name (jr_epair_ordinal record)) (rc_net s)).2 s).
  rewrite (st_bind_Ok _ _ s tt s1) by done.
  rewrite (st_bind_Ok _ _ _ _ _ (destroy_tolerated _ s1)).
  set (s2 := set_jails _ s1). rewrite (st_bind_Ok _ _ _ _ _ (unmount_volumes_ok _ _ s2)).
  set (s3 := set_mounts _ s2). unfold st_bind at 1. rewrite destroy_dataset_tolerated.
  change (fz_busy (rc_zfs s3)) with (fz_busy (rc_zfs s)). case_bool_decide as Hbusy.
  { eexists _, _. split; [done|]. split; [done|]. done. }
  set (s4 := set_zfs _ s3).
  rewrite (st_bind_Ok _ _ _ _ _ (remove_limits_tolerated _ s4 (lookup_delete_eq _ _))).
  unfold st_bind, on_disk, remove_jail, remove, io. change (rc_disk s4) with (rc_disk s).
  assert (forall v, volume_dataset_path (rc_pool s) v ∈ datasets s <->
                    volume_dataset_path (rc_pool s) v ∈ datasets s4) as Hvol.
  { intros v. pose proof (volume_not_jail (rc_pool s) v name). cbn. set_solver. }
  assert (torn_down name record s s4) as Htd by done.
  destruct (dk_fault _ _ _) as [e|]; cbn; eexists _, _; (split; [done|]); (split; [done|]); done.
Qed.

(** ** Addresses without a gateway *)

Lemma configure_panics name record s :
  bridge_gateway (net_address (sp_network (spec_of record))) = Panic ->
  configure_networking_and_limits name record s = Panic.
Proof.
  intros Hg. unfold configure_networking_and_limits, st_bind, on_net, on_net_comp.
  cbn -[fake_attach_jail]. unfold fake_attach_jail. cbn.
  rewrite bool_decide_eq_true_2 by set_solver. by rewrite Hg.
Qed.

Lemma provision_panics name record s :
  base_dataset_path (rc_pool s) (sp_image (spec_of record)) ∈ datasets s ->
  bridge_gateway (net_address (sp_network (spec_of record))) = Panic ->
  provision name record s = Panic.
Proof.
  intros Hb Hg. unfold provision. rewrite (st_bind_Ok _ _ s s s) by done.
  rewrite (st_bind_Ok _ _ s true s).
  2:{ unfold asks. cbn. unfold fake_dataset_exists. by rewrite bool_decide_eq_true_2. }
  rewrite (st_bind_Ok _ _ s tt s) by done.
  rewrite (st_bind_Ok _ _ s tt (set_zfs (fake_seed_dataset (jail_dataset_path (rc_pool s) name) (rc_zfs s)) s)).
  2:{ unfold on_zfs. cbn. unfold fake_clone_from_base. by rewrite bool_decide_eq_true_2. }
  erewrite st_bind_Ok by done.
  match goal with |- st_bind (st_for ?vs (provision_volume ?r)) _ ?st = _ =>
    destruct (provision_volumes_ok r vs st) as (z & m & E & _) end.
  rewrite (st_bind_Ok _ _ _ _ _ E). apply st_bind_Panic. by apply configure_panics.
Qed.

(** A node whose only desired jail has no gateway. *)
Record doomed s name (record : JailRecord) : Prop := {
  do_only : rc_records s = {[ name := record ]};
  do_ingress : rc_ingress_records s = ∅;
  do_image : base_dataset_path (rc_pool s) (sp_image (spec_of record)) ∈ datasets s;
  do_retry : rc_backoff s = ∅;
  do_policy : sp_restart_policy (spec_of record) <> Never;
  do_gateway : bridge_gateway (net_address (sp_network (spec_of record))) = Panic;
  do_stopped : forall j, jails s !! jail_name name = Some j -> fj_running j = false
}.

Lemma doomed_panics s name record now now_unix mono :
  doomed s name record -> reconcile now now_unix mono s = Panic.
Proof.
  intros [Hr Hi Hb Hbo Hp Hg Hj]. unfold reconcile.
  assert (ensure_ingress_jail s = Val (Ok tt, s)) as ->.
  { unfold ensure_ingress_jail, st_bind, st_get. by rewrite Hi, bool_decide_eq_true_2. }
  rewrite Val_bind. unfold reconcile_certs. rewrite Hi.
  assert (hash_iter (∅ : gmap string IngressRecord) = []) as ->
    by (apply Permutation_nil_r; rewrite hash_iter_perm; by rewrite map_to_list_empty).
  cbn [for_comp fmap list_fmap]. rewrite Val_bind. set (s1 := reconcile_ingress_config s).
  assert ((rc_records s1, rc_backoff s1, rc_pool s1, rc_jails s1, rc_zfs s1) =
          (rc_records s, rc_backoff s, rc_pool s, rc_jails s, rc_zfs s)) as Heq.
  { unfold s1, reconcile_ingress_config. destruct (write_config _ _ _) as [[] ?]; [|done].
    destruct (test_config _ _) as [[] ?]; [|done]. by destruct (reload _ _). }
  injection Heq as Er Eb Ep Ej Ez. rewrite Er, Hr.
  assert (hash_iter ({[ name := record ]} : gmap string JailRecord) = [(name, record)]) as ->
    by (apply Permutation_singleton_r; rewrite hash_iter_perm; by rewrite map_to_list_singleton).
  cbn [fmap list_fmap reconcile_names fst].
  match goal with |- context [reconcile_one ?n ?t ?st] =>
    assert (reconcile_one n t st = Panic) as ->; [|done] end.
  unfold reconcile_one. rewrite Er, Hr, lookup_singleton_eq. cbn [rc_backoff set_backoff].
  rewrite default_touch, Eb, Hbo, lookup_empty. cbn [default can_retry backoff_new bo_next_retry_at negb].
  change (rc_jails (set_backoff _ s1)) with (rc_jails s1). rewrite Ej.
  cbn [jail_exists fake_jail_runtime]. unfold fake_jail_exists.
  destruct (jails s !! jail_name name) as [j|] eqn:Hjail; cbn [is_some].
  - unfold reconcile_existing. rewrite (st_bind_Ok _ _ _ false (set_backoff (touch_backoff name ∅) s1)).
    + rewrite bool_decide_eq_false_2 by done. unfold restart, st_bind.
      by rewrite configure_panics.
    + unfold asks. cbn. unfold fake_is_running. rewrite Ej, Hjail. cbn. by rewrite (Hj j).
  - rewrite provision_panics; [done| |done]. cbn. by rewrite Ep, Ez.
Qed.

(** A node that has the image of the jail and no jail yet. *)
Definition fresh_node (acme : A) (dns : D) (nginx : X) : RC :=
  mkReconciler fake_jail_new (mkFakeZfsManager {[ "zroot/keel/base/14.2-web" ]} ∅ ∅)
    (mkFakeNetManager ∅ ∅ ∅ ∅ ∅) (mkFakeMountManager ∅) "zroot" empty_disk empty_disk empty_disk
    ∅ ∅ 1 ∅ ∅ acme dns nginx ∅.

Lemma apply_fresh spec (acme : A) (dns : D) (nginx : X) :
  jail_valid spec ->
  exists files, save_jail (mkJailRecord spec 1) empty_disk = (Ok tt, with_files files empty_disk) /\
    apply spec (fresh_node acme dns nginx) =
      Val (Ok tt, insert_record (mkJailRecord spec 1) (meta_name (js_metadata spec))
             (set_disk (with_files files empty_disk)
               (set_next_epair_ordinal 2 (fresh_node acme dns nginx)))).
Proof.
  intros (Hn & Ha & Hc & Hm).
  destruct (@save_ok _ _ YJR jr_name STATE_DIR empty_disk (mkJailRecord spec 1)) as [files Es]; [done|].
  exists files. split; [done|]. unfold apply. rewrite !bind_ok_unit, Hn, Ha.
  destruct (parse_cpu_cores _); [|done]. destruct (parse_memory_bytes _); [|done].
  assert (take_ordinal (fresh_node acme dns nginx) =
    Val (Ok 1%N, set_next_epair_ordinal 2 (fresh_node acme dns nginx))) as Eo by done.
  rewrite (st_bind_Ok _ _ (fresh_node acme dns nginx) _ _ eq_refl). cbn [rc_records fresh_node].
  rewrite lookup_empty, (st_bind_Ok _ _ (fresh_node acme dns nginx) _ _ Eo).
  unfold st_bind, on_disk, save_jail.
  change (rc_disk (set_next_epair_ordinal 2 (fresh_node acme dns nginx))) with empty_disk.
  by rewrite Es.
Qed.

Definition v6_spec : JailSpec :=
  mkJailSpec "keel/v1" "Jail" (mkMetadata "web-1")
    (mkSpec "base/14.2-web" ["/usr/local/bin/myapp"] (mkNetworkSpec true "keel0" "fd00::/32")
       (mkResourcesSpec "2" "512M") Always [] None).

Lemma v6_gateway : bridge_gateway "fd00::/32" = Panic.
Proof.
  unfold bridge_gateway. destruct (net_parse "fd00::/32") as [n|] eqn:E; [|done].
  apply ipnet_parse_v4 in E. destruct ipnet_parse_v6 as [n6 E6]. congruence.
Qed.

(** An IPv6 address takes the agent down for good.  Validation accepts the
    spec and [apply] persists it, but the pass that follows panics in
    [bridge_gateway]; and since the record is on disk, so does the first pass
    of every restart, whether the half-made jail survived or not. *)
Theorem ipv6_apply_crash_loop (acme : A) (dns : D) (nginx : X) now now_unix mono :
  exists s, apply v6_spec (fresh_node acme dns nginx) = Val (Ok tt, s) /\
    (exists content, dk_files (rc_disk s) !! "web-1.yaml" = Some content /\
       from_yaml content = Ok (mkJailRecord v6_spec 1)) /\
    reconcile now now_unix mono s = Panic /\
    forall s', rc_records s' = rc_records s -> rc_ingress_records s' = ∅ -> rc_backoff s' = ∅ ->
      rc_pool s' = "zroot" -> "zroot/keel/base/14.2-web" ∈ datasets s' ->
      (forall j, jails s' !! "keel-web-1" = Some j -> fj_running j = false) ->
      reconcile now now_unix mono s' = Panic.
Proof.
  destruct (apply_fresh v6_spec acme dns nginx) as (files & Es & Ea).
  { split; [done|]. split; [|done].
    change (net_address _) with "fd00::/32". unfold validate_address.
    by destruct ipnet_parse_v6 as [n6 ->]. }
  exists (insert_record (mkJailRecord v6_spec 1) "web-1"
           (set_disk (with_files files empty_disk)
             (set_next_epair_ordinal 2 (fresh_node acme dns nginx)))).
  assert (doomed (insert_record (mkJailRecord v6_spec 1) "web-1"
           (set_disk (with_files files empty_disk)
             (set_next_epair_ordinal 2 (fresh_node acme dns nginx)))) "web-1" (mkJailRecord v6_spec 1)) as Hd.
  { split; try done. apply v6_gateway. }
  split; [done|]. split; [|split; [by eapply doomed_panics|]].
  - cbn. unfold save_jail, save, io in Es. cbn in Es. injection Es as <-. eexists.
    split; [apply lookup_insert_eq|]. apply from_to_yaml. by vm_compute.
  - intros s' Er Ei Eb Ep Hds Hj. eapply doomed_panics. destruct Hd as [Hd1 _ _ _ Hd4 Hd5 _].
    split; [by rewrite Er|done|by rewrite Ep|done|done|done|done].
Qed.
End agent_fakes.

(** ** Witnesses *)

Definition demo_node : @RC FakeJailRuntime FakeZfsManager FakeNetManager FakeMountManager
    FakeAcmeClient FakeDnsProvider FakeNginxController :=
  fresh_node (mkFakeAcme false) (mkFakeDns ∅ false) (mkFakeNginx ∅ false ∅).

Lemma web_spec_valid : @jail_valid ipnet_model web_spec.
Proof. split; [done|]. split; [done|]. split; by vm_compute. Qed.

Lemma agent_converges_witness :
  exists s s', @apply ipnet_model yaml_jail_record _ _ _ _ _ _ _ web_spec demo_node = Val (Ok tt, s) /\
    @reconcile list_order ipnet_model yaml_jail_record yaml_ingress_record _ _ _ _ _ _ _
      fake_jail_runtime fake_zfs_manager (@fake_net_manager ipnet_model) fake_mount_manager fake_acme
      fake_nginx 0%N 0%Z (fun _ => 0%N) s = Val ([], s') /\
    settled s s' "web-1" (mkJailRecord web_spec 1) /\ jail_up s' "web-1" (mkJailRecord web_spec 1).
Proof.
  destruct (@apply_fresh ipnet_model yaml_jail_record _ _ _ web_spec (mkFakeAcme false)
    (mkFakeDns ∅ false) (mkFakeNginx ∅ false ∅) web_spec_valid) as (files & _ & Ea).
  set (s := insert_record _ _ _) in Ea.
  assert (@agent_inv ipnet_model yaml_jail_record yaml_ingress_record _ _ _ _ _ _ _ s) as Hs.
  { eapply apply_keeps; [exact Ea|]. by apply empty_inv. }
  destruct (@agent_converges list_order ipnet_model yaml_jail_record yaml_ingress_record _ _ _
    fake_acme fake_nginx 0%N 0%Z (fun _ => 0%N) s Hs) as (s' & E & Hset).
  - vm_compute. split; [discriminate|reflexivity].
  - by left.
  - change (rc_records s) with (<["web-1" := mkJailRecord web_spec 1]> (∅ : gmap string JailRecord)).
    intros name record [[<- <-]|[_ Hr]]%lookup_insert_Some; [|done].
    split; [done|by vm_compute| |done]. vm_compute. discriminate.
  - exists s, s'. pose proof (Hset "web-1" (mkJailRecord web_spec 1) (lookup_insert_eq _ _ _)) as Hw.
    split; [exact Ea|]. split; [exact E|]. split; [exact Hw|]. apply Hw.
Defined.
