(* ===== verification/AgentIsolation.v ===== *)
(** * One jail's trouble is not another's

    On the in-memory host: what an attempt at one jail, successful or not, rolled
    back or not, leaves of every other jail; and so what a pass does for a jail
    that can run, whatever happens to the others. *)

From S2P Require Import Prelude RustStr Text Float64 Ipnet Spec Codecs Registry Wire Backoff.
From S2P Require Import AgentHost Store Ingress Reconciler ReconcilerInv AgentFakes.

Open Scope keel_scope.

Section isolation.
Context {HO : HashOrder} {I : Ipnet} {YJR : SerdeYaml JailRecord} {YIR : SerdeYaml IngressRecord}.
Context {A D X : Type} {HA : AcmeClient A D} {HX : NginxController X}.

Notation RC := (@RC FakeJailRuntime FakeZfsManager FakeNetManager FakeMountManager A D X).
Notation aop := (@op FakeJailRuntime FakeZfsManager FakeNetManager FakeMountManager A D X).
Implicit Types s : RC.

Notation jails s := (fjr_jails (rc_jails s)).
Notation datasets s := (fz_datasets (rc_zfs s)).
Notation mounted s := (fm_mounted (rc_mounts s)).
Notation attachments s := (fn_attachments (rc_net s)).
Notation spec_of record := (js_spec (jr_spec record)).
Notation epair_of record := (epair_base_name (jr_epair_ordinal record)).

(** ** What a jail has on the host *)

(** Its image, its own dataset and those of its volumes. *)
Definition own_dataset (pool name : string) (record : JailRecord) (d : string) : Prop :=
  d = base_dataset_path pool (sp_image (spec_of record)) \/ d = jail_dataset_path pool name \/
  exists v, v ∈ sp_volumes (spec_of record) /\ d = volume_dataset_path pool (vol_name v).
Definition own_mount (pool name : string) (target : string) : Prop :=
  exists v, target = mount_target (jail_rootfs_path pool name) v.

Record undisturbed name (record : JailRecord) s s' : Prop := {
  ud_pool : rc_pool s' = rc_pool s;
  ud_jail : jails s' !! jail_name name = jails s !! jail_name name;
  ud_attachment : attachments s' !! epair_of record = attachments s !! epair_of record;
  ud_datasets : forall d, own_dataset (rc_pool s) name record d -> d ∈ datasets s -> d ∈ datasets s';
  ud_mounted : forall m, own_mount (rc_pool s) name m -> m ∈ mounted s -> m ∈ mounted s';
  ud_backoff : rc_backoff s' !! name = rc_backoff s !! name
}.

#[export] Instance undisturbed_preorder name record : PreOrder (undisturbed name record).
Proof.
  split; [by split|]. intros s1 s2 s3 [P1 J1 A1 D1 M1 B1] [P2 J2 A2 D2 M2 B2].
  rewrite P1 in D2, M2. split; try congruence; auto.
Qed.

Lemma settled_undisturbed s s1 s2 name record :
  settled s s1 name record -> undisturbed name record s1 s2 -> settled s s2 name record.
Proof.
  intros Hse [Hp Hj Ha Hd Hm _].
  assert (jail_up s1 name record -> jail_up s2 name record) as Hup
    by (unfold jail_up; rewrite Hj; done).
  assert (attached s1 name record -> attached s2 name record) as Hat by (unfold attached; by rewrite Ha).
  unfold settled in *. destruct (jails s !! _) as [j|].
  - destruct (fj_running j); [by apply Hup|]. case_bool_decide; [by rewrite Hj|naive_solver].
  - destruct Hse as (H1 & H2 & H3 & H4). split; [by apply Hup|]. split; [by apply Hat|].
    unfold storage_up, volume_up in *. rewrite Hp. split; [apply Hd; [right; by left|done]|].
    intros v Hv. destruct (H4 v Hv). split; [apply Hd; [right; right; eauto|done]|apply Hm; [by exists v|done]].
Qed.

Lemma ready_undisturbed s s1 now name record :
  ready s now name record -> undisturbed name record s s1 -> ready s1 now name record.
Proof.
  intros [] []. split; [congruence|rewrite ud_pool0; apply ud_datasets0; [by left|done]|done|].
  by rewrite ud_jail0.
Qed.

(** Raising a jail disturbs no other. *)
Lemma raises_undisturbed s s' n1 n2 r1 r2 :
  agent_inv s -> rc_records s !! n1 = Some r1 -> rc_records s !! n2 = Some r2 -> n1 <> n2 ->
  raises n1 r1 s s' -> (forall k, k <> n1 -> rc_backoff s' !! k = rc_backoff s !! k) ->
  undisturbed n2 r2 s s'.
Proof.
  intros Hs H1 H2 Hne Hr Hb. destruct (raises_spares _ _ _ _ _ _ Hs H1 H2 Hne Hr Hb).
  split; try done; auto.
Qed.

(** ** The names of two jails do not meet *)

(** An image that is no jail's own dataset. *)
Definition proper_image (record : JailRecord) : Prop :=
  forall n, sp_image (spec_of record) <> "jails/" +:+ n.

Lemma own_dataset_jail pool name record n :
  proper_image record -> n <> name -> ~ own_dataset pool name record (jail_dataset_path pool n).
Proof.
  intros Hi Hne [E|[E|(v & _ & E)]]; apply app_inv_l_str in E.
  - apply (app_inv_l_str "/keel/") in E. by apply (Hi n).
  - by apply (app_inv_l_str "/keel/jails/") in E.
  - by apply (app_inv_l_str "/keel/") in E.
Qed.

Lemma own_mount_other pool n1 n2 v :
  contains_char "/"%char n1 = false -> contains_char "/"%char n2 = false -> n1 <> n2 ->
  ~ own_mount pool n2 (mount_target (jail_rootfs_path pool n1) v).
Proof.
  intros H1 H2 Hne [w E]. unfold mount_target, path_join, jail_rootfs_path, jail_dataset_path in E.
  rewrite <- !app_assoc_str in E. apply (app_inv_l_str "/"), app_inv_l_str, (app_inv_l_str "/keel/jails/") in E.
  apply (sep_first_inj "/"%char) in E as [E _]; done.
Qed.
(** ** What an attempt at another jail leaves alone *)

Section frame.
Context (P name n1 : string) (record : JailRecord) (ordinal : N).
Context (Hne : n1 <> name) (Hord : epair_base_name ordinal <> epair_of record).
Context (Hslash : contains_char "/"%char name = false) (Hslash1 : contains_char "/"%char n1 = false).
Context (Himage : proper_image record).

(** [frames m]: a run of [m] on the pool [P] leaves the jail [name] undisturbed. *)
Definition frames {T} (m : aop T) : Prop := forall s r s',
  rc_pool s = P -> m s = Val (r, s') -> undisturbed name record s s'.

Lemma frames_bind {T U} (m : aop T) (k : T -> aop U) : frames m -> (forall a, frames (k a)) -> frames (st_bind m k).
Proof.
  intros Hm Hk s r s' Hp. unfold st_bind. destruct (m s) as [[[a|e] s1]|] eqn:E1; [| |done].
  - intros H. pose proof (Hm _ _ _ Hp E1) as H1. transitivity s1; [done|].
    eapply Hk; [|exact H]. by rewrite (ud_pool _ _ _ _ H1).
  - intros [= <- <-]. by eapply Hm.
Qed.
Lemma frames_get {T} (k : RC -> aop T) : (forall s, rc_pool s = P -> frames (k s)) -> frames (st_bind st_get k).
Proof. intros Hk s r s' Hp. cbn. unfold st_bind, st_get. by apply Hk. Qed.
Lemma frames_same {T} (m : aop T) : (forall s, exists r, m s = Val (r, s)) -> frames m.
Proof. intros Hm s r s' _ E. destruct (Hm s) as [r' E']. rewrite E' in E. injection E as <- <-. done. Qed.
Lemma frames_ignore {T} (m : aop T) : frames m -> frames (st_ignore m).
Proof.
  intros Hm s r s' Hp. unfold st_ignore. destruct (m s) as [[x s1]|] eqn:E1; [|done].
  intros [= <- <-]. by eapply Hm.
Qed.
Lemma frames_for {T} (l : list T) (f : T -> aop unit) : (forall x, frames (f x)) -> frames (st_for l f).
Proof.
  intros Hf. induction l as [|x l IH]; cbn; [apply frames_same; by eexists|].
  by apply frames_bind.
Qed.

Lemma frames_jails {T} (f : FakeJailRuntime -> result JailError T * FakeJailRuntime) :
  (forall j, fjr_jails (f j).2 !! jail_name name = fjr_jails j !! jail_name name) -> frames (on_jails f).
Proof.
  intros Hf s r s' _. unfold on_jails. pose proof (Hf (rc_jails s)) as H. destruct (f _) as [x j].
  intros [= <- <-]. by split; cbn; auto.
Qed.
Lemma frames_zfs {T} (f : FakeZfsManager -> result ZfsError T * FakeZfsManager) :
  (forall z d, own_dataset P name record d -> d ∈ fz_datasets z -> d ∈ fz_datasets (f z).2) -> frames (on_zfs f).
Proof.
  intros Hf s r s' Hp. unfold on_zfs. pose proof (Hf (rc_zfs s)) as H. destruct (f _) as [x z].
  intros [= <- <-]. rewrite <- Hp in H. by split; cbn; auto.
Qed.
Lemma frames_mounts {T} (f : FakeMountManager -> result MountError T * FakeMountManager) :
  (forall m t, own_mount P name t -> t ∈ fm_mounted m -> t ∈ fm_mounted (f m).2) -> frames (on_mounts f).
Proof.
  intros Hf s r s' Hp. unfold on_mounts. pose proof (Hf (rc_mounts s)) as H. destruct (f _) as [x m].
  intros [= <- <-]. rewrite <- Hp in H. by split; cbn; auto.
Qed.
Lemma frames_net {T} (f : FakeNetManager -> result NetError T * FakeNetManager) :
  (forall n, fn_attachments (f n).2 !! epair_of record = fn_attachments n !! epair_of record) -> frames (on_net f).
Proof.
  intros Hf s r s' _. unfold on_net. pose proof (Hf (rc_net s)) as H. destruct (f _) as [x n].
  intros [= <- <-]. by split; cbn; auto.
Qed.
Lemma frames_attach bridge address jname :
  frames (on_net_comp (attach_jail jname bridge (epair_base_name ordinal) address)).
Proof.
  intros s r s' _. unfold on_net_comp. cbn. unfold fake_attach_jail. case_bool_decide; cbn.
  - destruct (bridge_gateway address); cbn; [|done]. intros [= <- <-].
    split; cbn; auto. by rewrite lookup_insert_ne.
  - intros [= <- <-]. by split; cbn; auto.
Qed.

Lemma frames_configure record1 : jr_epair_ordinal record1 = ordinal ->
  frames (configure_networking_and_limits n1 record1).
Proof.
  intros Ho. unfold configure_networking_and_limits.
  apply frames_bind; [by apply frames_net|intros _].
  apply frames_bind; [rewrite Ho; apply frames_attach|intros _].
  apply frames_bind; [apply frames_same; by eexists|intros cores].
  apply frames_bind; [apply frames_same; by eexists|intros bytes].
  apply frames_jails. intros j. cbn. unfold fake_set_resource_limits, fake_with_limits.
  destruct (_ !! jail_name n1); [|done]. cbn. apply lookup_insert_ne. by intros E%jail_name_inj.
Qed.

Lemma frames_start cmd : frames (on_jails (start_command (jail_name n1) cmd)).
Proof.
  apply frames_jails. intros j. cbn. unfold fake_start_command. destruct (_ !! jail_name n1) as [k|]; [|done].
  destruct (fj_fail_start k); [done|]. apply lookup_insert_ne. by intros E%jail_name_inj.
Qed.

Lemma frames_restart record1 : jr_epair_ordinal record1 = ordinal -> frames (restart n1 record1).
Proof. intros Ho. apply frames_bind; [by apply frames_configure|intros _]. apply frames_start. Qed.

Lemma frames_volume v : frames (provision_volume (jail_rootfs_path P n1) v).
Proof.
  apply frames_get. intros s0 Hp.
  apply frames_bind; [by apply frames_mounts|intros _].
  apply frames_bind; [apply frames_same; by eexists|intros [|]].
  - apply frames_bind; [apply frames_same; by eexists|intros _].
    apply frames_bind; [apply frames_same; by eexists|intros [|]]; [apply frames_same; by eexists|].
    apply frames_mounts. intros m t _ Ht. cbn. set_solver.
  - apply frames_bind; [apply frames_zfs; intros z d _ Hd; cbn; set_solver|intros _].
    apply frames_bind; [apply frames_same; by eexists|intros [|]]; [apply frames_same; by eexists|].
    apply frames_mounts. intros m t _ Ht. cbn. set_solver.
Qed.

Lemma frames_provision record1 : jr_epair_ordinal record1 = ordinal -> frames (provision n1 record1).
Proof.
  intros Ho. apply frames_get. intros s0 Hp. rewrite Hp.
  apply frames_bind; [apply frames_same; by eexists|intros exists_].
  apply frames_bind; [by destruct exists_; apply frames_same; eexists|intros _].
  apply frames_bind; [apply frames_zfs; intros z d _ Hd; cbn; unfold fake_clone_from_base; case_bool_decide; cbn; set_solver|intros _].
  apply frames_bind; [|intros _].
  { apply frames_jails. intros j. apply lookup_insert_ne. by intros E%jail_name_inj. }
  apply frames_bind; [apply frames_for; intros v; apply frames_volume|intros _].
  apply frames_bind; [by apply frames_configure|intros _]. apply frames_start.
Qed.

Lemma frames_rollback record1 : jr_epair_ordinal record1 = ordinal -> frames (rollback_provision n1 record1).
Proof.
  intros Ho. apply frames_get. intros s0 Hp. rewrite Hp.
  apply frames_bind; [apply frames_ignore, frames_net; intros n; cbn; rewrite Ho; by apply lookup_delete_ne|intros _].
  apply frames_bind; [apply frames_ignore, frames_jails; intros j|intros _].
  { cbn. unfold fake_jail_destroy. destruct (_ !! jail_name n1); [|done].
    apply lookup_delete_ne. by intros E%jail_name_inj. }
  apply frames_bind; [apply frames_for; intros v; apply frames_ignore, frames_mounts; intros m t Hown Ht|intros _].
  { cbn. unfold fake_unmount. case_bool_decide; cbn; [|done]. apply elem_of_difference. split; [done|].
    intros ->%elem_of_singleton. exact (own_mount_other P n1 name v Hslash1 Hslash Hne Hown). }
  apply frames_bind; [apply frames_ignore, frames_zfs; intros z d Hown Hd|intros _].
  { cbn. unfold fake_destroy_dataset. repeat (case_bool_decide; cbn; try done). apply elem_of_difference.
    split; [done|]. intros ->%elem_of_singleton. exact (own_dataset_jail P name record n1 Himage Hne Hown). }
  apply frames_ignore, frames_jails. intros j. cbn. unfold fake_remove_resource_limits, fake_with_limits.
  destruct (_ !! jail_name n1); [|done]. apply lookup_insert_ne. by intros E%jail_name_inj.
Qed.

Lemma undisturbed_backoff s m : m !! name = rc_backoff s !! name -> undisturbed name record s (set_backoff m s).
Proof. by split; cbn; auto. Qed.

(** The whole attempt, whatever comes of it. *)
Lemma reconcile_one_frames record1 now s r s' :
  rc_pool s = P -> rc_records s !! n1 = Some record1 -> jr_epair_ordinal record1 = ordinal ->
  reconcile_one n1 now s = Val (r, s') -> undisturbed name record s s'.
Proof.
  intros Hp Hr Ho. unfold reconcile_one. rewrite Hr. set (s0 := set_backoff _ s).
  assert (undisturbed name record s s0) as H0
    by (apply undisturbed_backoff, touch_ne; congruence).
  assert (forall s1, undisturbed name record s1 (set_backoff (arm_backoff n1 now (rc_backoff s1)) s1)) as Harm
    by (intros s1; apply undisturbed_backoff; by apply lookup_insert_ne).
  destruct (negb _); [by intros [= <- <-]|]. destruct (jail_exists _ _) as [[|]|]; [| |by intros [= <- <-]].
  - unfold reconcile_existing, st_bind at 1, asks. destruct (is_running _ _) as [[|]|]; cbn [map_err]; [| |by intros [= <- <-]].
    + intros E. transitivity s0; [done|].
      assert (frames (cores <-! spec_check (parse_cpu_cores (res_cpu (sp_resources (spec_of record1)))) ;;
        memory_bytes <-! spec_check (parse_memory_bytes (res_memory (sp_resources (spec_of record1)))) ;;
        on_jails (set_resource_limits (jail_name n1) (cores_to_pcpu_percent cores) memory_bytes))) as Hf.
      { apply frames_bind; [apply frames_same; by eexists|intros cores].
        apply frames_bind; [apply frames_same; by eexists|intros bytes].
        apply frames_jails. intros j. cbn. unfold fake_set_resource_limits, fake_with_limits.
        destruct (_ !! jail_name n1); [|done]. apply lookup_insert_ne. by intros E'%jail_name_inj. }
      by eapply Hf.
    + case_bool_decide; [by intros [= <- <-]|]. destruct (restart n1 record1 s0) as [[x s1]|] eqn:E1; [|done].
      rewrite Val_bind. intros [= <- <-]. apply (frames_restart record1 Ho) in E1; [|done]. by do 2 (etransitivity; [done|]).
  - destruct (provision n1 record1 s0) as [[x s1]|] eqn:E1; [|done]. rewrite Val_bind.
    apply (frames_provision record1 Ho) in E1; [|done].
    assert (undisturbed name record s (set_backoff (arm_backoff n1 now (rc_backoff s1)) s1)) as H1
      by (by do 2 (etransitivity; [done|])).
    destruct x; [by intros [= <- <-]|]. destruct (rollback_provision _ _ _) as [[y s2]|] eqn:E2; [|done].
    rewrite Val_bind. intros [= <- <-]. etransitivity; [exact H1|].
    eapply (frames_rollback record1 Ho); [|exact E2]. by rewrite (ud_pool _ _ _ _ H1).
Qed.
End frame.

(** ** A pass *)

Lemma record_no_slash s name record :
  agent_inv s -> rc_records s !! name = Some record -> contains_char "/"%char name = false.
Proof.
  intros Hs Hr. destruct (dh_named _ _ _ (ai_disk s Hs) _ _ Hr) as [<- _].
  destruct (ai_valid s Hs _ _ Hr) as (Hv & _). apply validate_name_Ok in Hv. unfold name_valid in Hv.
  rewrite !andb_true_iff in Hv. destruct Hv as [[[_ Hv] _] _]. by apply name_char_no_slash.
Qed.

Lemma reconcile_one_undisturbed s n1 name record now r s' :
  agent_inv s -> rc_records s !! name = Some record -> n1 <> name ->
  proper_image record -> reconcile_one n1 now s = Val (r, s') -> undisturbed name record s s'.
Proof.
  intros Hs H2 Hne Hi E. destruct (rc_records s !! n1) as [r1|] eqn:H1; [|unfold reconcile_one in E; by rewrite H1 in E].
  refine (reconcile_one_frames (rc_pool s) name n1 record (jr_epair_ordinal r1) Hne _ _ _ Hi r1 now s r s' eq_refl H1 eq_refl E).
  - intros Eo%epair_base_name_inj. apply Hne. exact (ai_inj s Hs _ _ _ _ H1 H2 Eo).
  - by eapply record_no_slash.
  - by eapply record_no_slash.
Qed.

Lemma reconcile_names_undisturbed names now s name record fs s' :
  agent_inv s -> rc_records s !! name = Some record -> proper_image record -> name ∉ names ->
  reconcile_names names now s = Val (fs, s') -> name ∉ fs.*1 /\ undisturbed name record s s'.
Proof.
  intros Hs Hr Hi. revert s Hs Hr fs s'. induction names as [|n names IH]; intros s Hs Hr fs s' Hn; cbn.
  { intros [= <- <-]. split; [set_solver|done]. }
  destruct (reconcile_one n now s) as [[r s1]|] eqn:E1; [|done]. rewrite Val_bind.
  destruct (reconcile_names names now s1) as [[fs1 s2]|] eqn:E2; [|done]. rewrite Val_bind. intros [= <- <-].
  destruct (reconcile_one_keeps _ _ _ _ _ E1 Hs) as [Hs1 [Er1 _]].
  apply IH in E2 as [Hf Hu]; [|done|by rewrite Er1|set_solver]. split; [destruct r; [done|set_solver]|].
  transitivity s1; [|done].
  eapply (reconcile_one_undisturbed s n name record); [done|done| |done|exact E1]. set_solver.
Qed.

Lemma reconcile_names_isolated names now s name record fs s' :
  agent_inv s -> rc_records s !! name = Some record -> ready s now name record -> proper_image record ->
  NoDup names -> name ∈ names -> reconcile_names names now s = Val (fs, s') ->
  name ∉ fs.*1 /\ settled s s' name record.
Proof.
  intros Hs Hr Hrd Hi Hnd. revert s Hs Hr Hrd fs s'. induction names as [|n names IH]; [set_solver|].
  intros s Hs Hr Hrd fs s' Hn. cbn. apply NoDup_cons in Hnd as [Hnotin Hnd].
  destruct (reconcile_one n now s) as [[r s1]|] eqn:E1; [|done]. rewrite Val_bind.
  destruct (reconcile_names names now s1) as [[fs1 s2]|] eqn:E2; [|done]. rewrite Val_bind. intros [= <- <-].
  destruct (reconcile_one_keeps _ _ _ _ _ E1 Hs) as [Hs1 [Er1 _]].
  destruct (decide (n = name)) as [->|Hne].
  - destruct (reconcile_one_ok name record now s Hr (ai_valid s Hs _ _ Hr) Hrd) as (s1' & E1' & _ & Hse & _).
    rewrite E1 in E1'. injection E1' as -> <-.
    apply (reconcile_names_undisturbed _ _ _ name record) in E2 as [Hf Hu]; [|done|by rewrite Er1|done|done].
    split; [done|]. by eapply settled_undisturbed.
  - apply elem_of_cons in Hn as [->|Hn]; [done|].
    pose proof (reconcile_one_undisturbed _ _ _ _ _ _ _ Hs Hr Hne Hi E1) as Hu1.
    apply (IH Hnd) in E2 as [Hf Hse]; [|done|by rewrite Er1|by eapply ready_undisturbed|done].
    split; [destruct r; [done|set_solver]|]. unfold settled in *. by rewrite (ud_jail _ _ _ _ Hu1) in Hse.
Qed.

(** The steps before the loop over the jails do not touch the host. *)
Definition host s := (rc_jails s, rc_zfs s, rc_net s, rc_mounts s, rc_pool s, rc_backoff s).

Lemma apply_host spec : preserves (fun s s' => host s = host s') (apply spec : aop unit).
Proof.
  assert (PreOrder (fun s s' => host s = host s')) as Hpre by (split; [done|intros ? ? ? -> ->; done]).
  assert (preserves (fun s s' => host s = host s') (take_ordinal : aop N)) as Ht.
  { intros s r s'. unfold take_ordinal. destruct (add_u32 _ _); cbn; [|done]. by intros [= <- <-]. }
  assert (forall r, preserves (fun s s' => host s = host s') (on_disk (save_jail r) : aop unit)) as Hd.
  { intros r s x s'. unfold on_disk. destruct (save_jail _ _). by intros [= <- <-]. }
  assert (forall f : RC -> RC, (forall s, host s = host (f s)) ->
    preserves (fun s s' => host s = host s') (st_modify f : aop unit)) as Hm by (by intros f Hf s r s' [= <- <-]).
  unfold apply. preserves_auto; try (by apply Hm). 
Qed.

Lemma undisturbed_host name record s s' : host s = host s' -> undisturbed name record s s'.
Proof. unfold host. intros [= Ej Ez En Em Ep Eb]. split; try congruence; by rewrite <- ?Ez, <- ?Em. Qed.

Lemma ensure_ingress_jail_host s r s' : ensure_ingress_jail s = Val (r, s') -> host s = host s'.
Proof.
  unfold ensure_ingress_jail, st_bind, st_get. destruct (_ || _); [by intros [= <- <-]|]. apply apply_host.
Qed.

Lemma reconcile_ingress_config_host s : host s = host (reconcile_ingress_config s).
Proof.
  unfold reconcile_ingress_config. destruct (write_config _ _ _) as [[] ?]; [|done].
  destruct (test_config _ _) as [[] ?]; [|done]. by destruct (reload _ _).
Qed.

Lemma reconcile_settles now now_unix mono s name record fs s' :
  agent_inv s -> unix_ok now_unix -> rc_records s !! name = Some record -> ready s now name record ->
  proper_image record -> reconcile now now_unix mono s = Val (fs, s') ->
  name ∉ fs.*1 /\ settled s s' name record.
Proof.
  intros Hs Hu Hr Hrd Hi E.
  unfold reconcile in E. destruct (ensure_ingress_jail s) as [[r1 s1]|] eqn:E1; [|done]. rewrite Val_bind in E.
  pose proof (ensure_ingress_jail_lookup _ _ _ name E1 ltac:(right; by rewrite Hr)) as Er1.
  pose proof (ensure_ingress_jail_host _ _ _ E1) as Hh1. apply ensure_ingress_jail_keeps in E1. specialize (E1 Hs).
  destruct (reconcile_certs_spec now_unix mono s1 Hu E1) as (s2 & E2 & Heq2). rewrite E2, Val_bind in E.
  eapply reconcile_certs_keeps in E2 as Hs2; [|done|done]. injection Heq2 as Er2 _ Eb2 Ep2 Ej2 Ez2 En2 Em2.
  pose proof (reconcile_ingress_config_same s2) as Hc. pose proof (reconcile_ingress_config_host s2) as Hh3.
  set (s3 := reconcile_ingress_config s2) in *. pose proof (same_desired_keeps _ _ Hc Hs2) as Hs3.
  apply same_desired_tables in Hc as (Er3 & _ & _).
  assert (undisturbed name record s s3) as Hud.
  { apply undisturbed_host. rewrite Hh1, <- Hh3. unfold host. congruence. }
  assert (rc_records s3 !! name = Some record) as Hr3 by (by rewrite Er3, Er2, Er1).
  apply (reconcile_names_isolated _ _ _ name record) in E as [Hf Hse]; try done.
  - split; [done|]. unfold settled in *. by rewrite (ud_jail _ _ _ _ Hud) in Hse.
  - by eapply ready_undisturbed.
  - auto with keel.
  - apply hash_iter_dom. by rewrite Hr3.
Qed.
(** C11: a jail that can run, runs, although others fail.  On the in-memory host
    of the repository's tests, in every state that satisfies the agent's invariant,
    in which no recorded jail has an address without a bridge gateway (an IPv6
    address panics the pass, for every jail: see the findings), at least one
    interface ordinal of 2^32 is left and the clock is within range: a pass returns,
    and a jail that is not cooling down, whose image is there (and is not another
    jail's own dataset) and whose command can start, is left as its spec says (see
    [settled]) and not among the failures reported; also when other jails have no
    image, fail to start or are rolled back, and when certificates or the ingress
    configuration fail. *)
Theorem agent_isolates now now_unix mono s name record :
  agent_inv s -> unix_ok now_unix -> gateways_ok s -> (rc_next_epair_ordinal s < u32_max)%N ->
  rc_records s !! name = Some record -> ready s now name record -> proper_image record ->
  exists fs s', reconcile now now_unix mono s = Val (fs, s') /\ name ∉ fs.*1 /\ settled s s' name record.
Proof.
  intros Hs Hu Hg Hn Hr Hrd Hi.
  destruct (reconcile_total fake_attach_total now now_unix mono s Hs Hu Hg Hn) as (fs & s' & E & _).
  exists fs, s'. split; [done|]. by eapply reconcile_settles.
Qed.
End isolation.

(** ** Evaluation *)

(** A second jail, whose image is not there. *)
Definition stuck_spec : JailSpec :=
  mkJailSpec "keel/v1" "Jail" (mkMetadata "stuck")
    (mkSpec "base/missing" ["/bin/false"] (mkNetworkSpec true "keel0" "10.0.0.6/24")
       (mkResourcesSpec "1" "64M") Always [] None).
Notation demo_apply spec s := (@apply ipnet_model yaml_jail_record _ _ _ _ FakeAcmeClient FakeDnsProvider
  FakeNginxController spec s).
Definition after (spec : JailSpec) (s : @RC FakeJailRuntime FakeZfsManager FakeNetManager FakeMountManager
    FakeAcmeClient FakeDnsProvider FakeNginxController) :=
  match demo_apply spec s with
  | Val (_, s) => s
  | Panic => s
  end.
Definition two_jails := after stuck_spec (after web_spec demo_node).
Notation demo_inv := (@agent_inv ipnet_model yaml_jail_record yaml_ingress_record _ _ _ _ _ _ _).

Lemma after_inv spec s : demo_inv s -> demo_inv (after spec s).
Proof.
  intros Hs. unfold after. destruct (demo_apply spec s) as [[r s']|] eqn:E; [|done]. by eapply apply_keeps.
Qed.

Lemma two_records name record : rc_records two_jails !! name = Some record ->
  (name = "stuck" /\ record = mkJailRecord stuck_spec 2) \/ (name = "web-1" /\ record = mkJailRecord web_spec 1).
Proof.
  assert (rc_records two_jails = <["stuck" := mkJailRecord stuck_spec 2]> {["web-1" := mkJailRecord web_spec 1]}) as ->
    by (vm_compute; reflexivity).
  intros [[<- <-]|[_ [<- <-]%lookup_singleton_Some]]%lookup_insert_Some; auto.
Qed.

Lemma agent_isolates_witness :
  exists fs s', @reconcile list_order ipnet_model yaml_jail_record yaml_ingress_record _ _ _ _ _ _ _
      fake_jail_runtime fake_zfs_manager (@fake_net_manager ipnet_model) fake_mount_manager fake_acme
      fake_nginx 0%N 0%Z (fun _ => 0%N) two_jails = Val (fs, s') /\
    "web-1" ∉ fs.*1 /\ settled two_jails s' "web-1" (mkJailRecord web_spec 1).
Proof.
  apply (@agent_isolates list_order ipnet_model yaml_jail_record yaml_ingress_record _ _ _ fake_acme fake_nginx
    0%N 0%Z (fun _ => 0%N) two_jails "web-1" (mkJailRecord web_spec 1)).
  - apply after_inv, after_inv. by apply empty_inv.
  - vm_compute. split; [discriminate|reflexivity].
  - intros name record [[-> ->]|[-> ->]]%two_records; vm_compute; discriminate.
  - vm_compute. reflexivity.
  - vm_compute. reflexivity.
  - split; [vm_compute; reflexivity|vm_compute; tauto| |].
    + vm_compute. discriminate.
    + intros j. vm_compute. discriminate.
  - intros n. cbn. discriminate.
Defined.

Example stuck_reported :
  match @reconcile list_order ipnet_model yaml_jail_record yaml_ingress_record _ _ _ _ _ _ _
      fake_jail_runtime fake_zfs_manager (@fake_net_manager ipnet_model) fake_mount_manager fake_acme
      fake_nginx 0%N 0%Z (fun _ => 0%N) two_jails with
  | Val (fs, _) => fs.*1 = ["stuck"]
  | Panic => False
  end.
Proof. vm_compute. reflexivity. Qed.
