(* ===== verification/AgentWorker.v ===== *)
(** * The node agent's worker

    [keel-agentd/src/worker.rs]: one thread owns the reconciler and handles the
    commands of the HTTP server, the registration loop and the replication
    loops one by one, in the order they arrive.  [handle_command] is the body of
    that loop; the replies and the replication loops it spawns are part of its
    result. *)

From S2P Require Import Prelude RustStr Float64 Ipnet Spec Codecs Registry Wire Backoff.
From S2P Require Import AgentHost Store Ingress Reconciler ReconcilerInv AgentFakes.

Open Scope keel_scope.

Inductive AgentCommand : Type :=
  | AgApply (spec : JailSpec)
  | AgGet (name : option string)
  | AgDelete (name : string)
  | AgTick
  | AgCommittedResources
  | AgAddRoute (subnet gateway_addr : string)
  | AgRemoveRoute (subnet : string)
  | AgAddServiceAlias (bridge address : string)
  | AgRemoveServiceAlias (bridge address : string)
  | AgGetVolume (name : string)
  | AgDeleteVolume (name : string)
  | AgSetReplicateTo (name : string) (replicate_to : option string)
  | AgResumeReplicationLoops
  | AgApplyIngress (spec : IngressSpec)
  | AgGetIngress (name : option string)
  | AgDeleteIngress (name : string).

Inductive AgentReply : Type :=
  | ReplyResult (r : result ReconcileError unit)
  | ReplyNet (r : result NetError unit)
  | ReplyStatuses (l : list JailStatus)
  | ReplyIngresses (l : list IngressRecord)
  | ReplyResources (cpu : f64) (memory : N)
  | ReplyDone.

(** The clocks read while a command is handled. *)
Record Clock : Type := mkClock {
  ck_now : Instant;
  ck_unix : Z;
  ck_mono : string -> Instant
}.

Section agent_worker.
Context {HO : HashOrder} {I : Ipnet} {YJR : SerdeYaml JailRecord} {YIR : SerdeYaml IngressRecord}.
Context {J Zf Nt M A D X : Type}.
Context {HJ : JailRuntime J} {HZ : ZfsManager Zf} {HN : NetManager Nt} {HM : MountManager M}
        {HA : AcmeClient A D} {HX : NginxController X}.

Notation RC := (@RC J Zf Nt M A D X).

(** The reconciler and the names whose replication loop was spawned. *)
Record Agent : Type := mkAgent { ag_rc : RC; ag_replicating : gset string }.

(** A spawned replication loop: the replica and the volume it replicates. *)
Definition Spawned : Type := (string * string)%type.

Definition replicated (spec : JailSpec) : bool :=
  negb (bool_decide (sp_volumes (js_spec spec) = [])) && is_some (sp_replicate_to (js_spec spec)).

(** [replicating.insert(name)] and the spawn when it was not there. *)
Definition spawn_loop (name : string) (replicating : gset string) : list Spawned * gset string :=
  if bool_decide (name ∈ replicating) then ([], replicating)
  else ([(name, name +:+ "-data")], {[name]} ∪ replicating).

Fixpoint resume_loops (statuses : list JailStatus) (replicating : gset string)
    : list Spawned * gset string :=
  match statuses with
  | [] => ([], replicating)
  | status :: statuses =>
      let spec := jr_spec (jst_record status) in
      let '(spawned, replicating) :=
        if replicated spec then spawn_loop (meta_name (js_metadata spec)) replicating
        else ([], replicating) in
      let '(spawned', replicating) := resume_loops statuses replicating in
      (spawned ++ spawned', replicating)
  end.

Definition then_reconcile (ck : Clock) (m : op unit) (s : RC)
    : comp (result ReconcileError unit * RC) :=
  '(r, s) ← m s;
  '(_, s) ← reconcile (ck_now ck) (ck_unix ck) (ck_mono ck) s;
  Val (r, s).

Definition reply_result (a : Agent) (x : result ReconcileError unit * RC)
    : AgentReply * list Spawned * Agent :=
  (ReplyResult x.1, [], mkAgent x.2 (ag_replicating a)).
Definition reply_net (a : Agent) (x : result NetError unit * RC) : AgentReply * list Spawned * Agent :=
  (ReplyNet x.1, [], mkAgent x.2 (ag_replicating a)).

Definition handle_command (ck : Clock) (command : AgentCommand) (a : Agent)
    : comp (AgentReply * list Spawned * Agent) :=
  let s := ag_rc a in
  match command with
  | AgApply spec =>
      '(result, s) ← then_reconcile ck (apply spec) s;
      let '(spawned, replicating) :=
        if is_ok result && replicated spec
        then spawn_loop (meta_name (js_metadata spec)) (ag_replicating a)
        else ([], ag_replicating a) in
      Val (ReplyResult result, spawned, mkAgent s replicating)
  | AgDelete name => x ← then_reconcile ck (delete_jail name) s; Val (reply_result a x)
  | AgGet name =>
      let statuses := match name with
                      | Some n => option_list (get_jail s n (ck_now ck))
                      | None => list_jails s (ck_now ck)
                      end in
      Val (ReplyStatuses statuses, [], a)
  | AgTick =>
      '(_, s) ← reconcile (ck_now ck) (ck_unix ck) (ck_mono ck) s;
      Val (ReplyDone, [], mkAgent s (ag_replicating a))
  | AgCommittedResources =>
      '(cpu, memory) ← committed_resources s;
      Val (ReplyResources cpu memory, [], a)
  | AgAddRoute subnet gateway_addr => Val (reply_net a (rc_add_route subnet gateway_addr s))
  | AgRemoveRoute subnet => Val (reply_net a (rc_remove_route subnet s))
  | AgAddServiceAlias bridge address => Val (reply_net a (rc_add_alias bridge address s))
  | AgRemoveServiceAlias bridge address => Val (reply_net a (rc_remove_alias bridge address s))
  | AgGetVolume name => x ← get_volume name s; Val (reply_result a x)
  | AgDeleteVolume name => x ← delete_volume name s; Val (reply_result a x)
  | AgSetReplicateTo name replicate_to =>
      x ← set_replicate_to name replicate_to s; Val (reply_result a x)
  | AgResumeReplicationLoops =>
      let '(spawned, replicating) := resume_loops (list_jails s (ck_now ck)) (ag_replicating a) in
      Val (ReplyDone, spawned, mkAgent s replicating)
  | AgApplyIngress spec => x ← then_reconcile ck (apply_ingress spec) s; Val (reply_result a x)
  | AgGetIngress name =>
      Val (ReplyIngresses (match name with
                           | Some n => option_list (get_ingress s n)
                           | None => list_ingress s
                           end), [], a)
  | AgDeleteIngress name => x ← then_reconcile ck (delete_ingress name) s; Val (reply_result a x)
  end.

(** The worker's loop over the commands it receives. *)
Fixpoint agent_loop (commands : list (Clock * AgentCommand)) (a : Agent)
    : comp (list AgentReply * list Spawned * Agent) :=
  match commands with
  | [] => Val ([], [], a)
  | (ck, command) :: commands =>
      '(reply, spawned, a) ← handle_command ck command a;
      '(replies, spawned', a) ← agent_loop commands a;
      Val (reply :: replies, spawned ++ spawned', a)
  end.

(** ** Commands keep the invariant *)

Definition command_ok (ck : Clock) (command : AgentCommand) : Prop :=
  unix_ok (ck_unix ck) /\
  match command with AgApplyIngress spec => repr spec | _ => True end.

Lemma then_reconcile_keeps ck (m : @op J Zf Nt M A D X unit) s r s' :
  unix_ok (ck_unix ck) -> preserves keeps_inv m -> then_reconcile ck m s = Val (r, s') ->
  agent_inv s -> agent_inv s'.
Proof.
  intros Hu Hm E Hs. unfold then_reconcile in E. destruct (m s) as [[r1 s1]|] eqn:E1; [|done].
  rewrite Val_bind in E. destruct (reconcile _ _ _ s1) as [[fs s2]|] eqn:E2; [|done].
  rewrite Val_bind in E. injection E as <- <-. eapply reconcile_keeps; [done|done|]. by eapply Hm.
Qed.

Lemma net_call_keeps (f : Nt -> result NetError unit * Nt) (s : RC) :
  agent_inv s -> agent_inv (net_call f s).2.
Proof. unfold net_call. destruct (f _). by apply same_desired_keeps. Qed.

Lemma reply_result_keeps (a a' : Agent) (k : comp (result ReconcileError unit * RC)) reply spawned :
  (k ≫= (fun x => Val (reply_result a x))) = Val (reply, spawned, a') ->
  (forall r s', k = Val (r, s') -> agent_inv s') -> agent_inv (ag_rc a').
Proof.
  destruct k as [[r s']|]; [|done]. rewrite Val_bind. intros [= _ _ <-] Hk. by eapply Hk.
Qed.

Lemma handle_command_keeps ck command (a a' : Agent) reply spawned :
  command_ok ck command -> handle_command ck command a = Val (reply, spawned, a') ->
  agent_inv (ag_rc a) -> agent_inv (ag_rc a').
Proof.
  intros [Hu Hok] E Hs.
  destruct command; cbn [handle_command] in E; try (injection E as _ _ <-; done);
    try (injection E as _ _ <-; by apply net_call_keeps);
    try (eapply reply_result_keeps in E; [done|]; intros r s' E1;
         eapply then_reconcile_keeps in E1; [done|done| |done];
         eauto using delete_jail_keeps, apply_ingress_keeps, delete_ingress_keeps; fail).
  - destruct (then_reconcile _ _ _) as [[r s']|] eqn:E1; [|done]. rewrite Val_bind in E.
    match type of E with context [if ?b then ?x else ?y] =>
      destruct (if b then x else y) as [sp repl] end. injection E as _ _ <-.
    eapply then_reconcile_keeps in E1; [done|done|apply apply_keeps|done].
  - destruct (reconcile _ _ _ _) as [[fs s']|] eqn:E1; [|done]. rewrite Val_bind in E.
    injection E as _ _ <-. by eapply reconcile_keeps.
  - destruct (committed_resources _) as [[cpu mem]|]; [|done]. rewrite Val_bind in E.
    by injection E as _ _ <-.
  - eapply reply_result_keeps in E; [done|]. intros r s' E1. revert E1 Hs.
    apply (preserves_same_keeps _ (get_volume_same name)).
  - eapply reply_result_keeps in E; [done|]. intros r s' E1. revert E1 Hs.
    apply (preserves_same_keeps _ (delete_volume_same name)).
  - eapply reply_result_keeps in E; [done|]. intros r s' E1. by eapply set_replicate_to_keeps.
  - destruct (resume_loops _ _) as [sp repl]. by injection E as _ _ <-.
Qed.

(** ** Jails do not move *)

Notation address_of record := (net_address (sp_network (js_spec (jr_spec record)))).

(** The jails of [s'] were in [s], at the same address, but for the ingress jail,
    which a pass may create. *)
Definition addresses_kept (s s' : RC) : Prop := forall name record',
  rc_records s' !! name = Some record' -> name <> "ingress" ->
  exists record, rc_records s !! name = Some record /\ address_of record' = address_of record.

Lemma no_new_kept s s' : no_new_address s s' -> addresses_kept s s'.
Proof. intros [_ H] name record' Hr _. by apply H. Qed.
Lemma same_records_kept s s' : rc_records s' = rc_records s -> addresses_kept s s'.
Proof. intros E name record' Hr _. rewrite E in Hr. eauto. Qed.

Lemma net_call_records (f : Nt -> result NetError unit * Nt) (s : RC) :
  rc_records (net_call f s).2 = rc_records s.
Proof. unfold net_call. by destruct (f _). Qed.

Lemma then_reconcile_records ck (m : @op J Zf Nt M A D X unit) s r s' :
  unix_ok (ck_unix ck) -> preserves keeps_inv m -> then_reconcile ck m s = Val (r, s') ->
  agent_inv s -> exists s1, m s = Val (r, s1) /\
    forall name, name <> "ingress" -> rc_records s' !! name = rc_records s1 !! name.
Proof.
  intros Hu Hm E Hs. unfold then_reconcile in E. destruct (m s) as [[r1 s1]|] eqn:E1; [|done].
  rewrite Val_bind in E. destruct (reconcile _ _ _ s1) as [[fs s2]|] eqn:E2; [|done].
  rewrite Val_bind in E. injection E as <- <-. exists s1. split; [done|]. intros name Hn.
  eapply reconcile_lookup; [done|done|by eapply Hm|by left].
Qed.

Lemma quiet_records ck (m : @op J Zf Nt M A D X unit) s r s' :
  unix_ok (ck_unix ck) -> preserves keeps_inv m -> preserves no_new_address m ->
  then_reconcile ck m s = Val (r, s') -> agent_inv s -> addresses_kept s s'.
Proof.
  intros Hu Hk Hn E Hs name record' Hr Hne.
  destruct (then_reconcile_records _ _ _ _ _ Hu Hk E Hs) as (s1 & E1 & Hrec).
  rewrite Hrec in Hr by done. by eapply Hn.
Qed.

Lemma reply_result_state (a a' : Agent) (k : comp (result ReconcileError unit * RC)) reply spawned :
  (k ≫= (fun x => Val (reply_result a x))) = Val (reply, spawned, a') ->
  exists r, k = Val (r, ag_rc a').
Proof. destruct k as [[r s']|]; [|done]. rewrite Val_bind. intros [= _ _ <-]. by exists r. Qed.

(** Whatever the command, a jail is new only if the command applied it. *)
Lemma handle_command_addresses ck command (a a' : Agent) reply spawned name record' :
  command_ok ck command -> handle_command ck command a = Val (reply, spawned, a') ->
  agent_inv (ag_rc a) -> rc_records (ag_rc a') !! name = Some record' -> name <> "ingress" ->
  (exists record, rc_records (ag_rc a) !! name = Some record /\ address_of record' = address_of record) \/
  (command = AgApply (jr_spec record') /\ rc_records (ag_rc a) !! name = None).
Proof.
  intros [Hu Hok] E Hs Hr Hne.
  assert (addresses_kept (ag_rc a) (ag_rc a') ->
    exists record, rc_records (ag_rc a) !! name = Some record /\ address_of record' = address_of record)
    as Hkept by (intros H; by apply H).
  destruct command; cbn [handle_command] in E;
    try (left; apply Hkept; first
      [ injection E as _ _ <-; by apply same_records_kept
      | injection E as _ _ <-; by apply same_records_kept, net_call_records
      | apply reply_result_state in E as [r E]; eapply quiet_records;
          [| | |exact E|];
          eauto using delete_jail_keeps, delete_jail_no_new, apply_ingress_keeps, apply_ingress_no_new,
            delete_ingress_keeps, delete_ingress_no_new; fail
      | apply reply_result_state in E as [r E]; apply no_new_kept; revert E;
          first [apply set_replicate_to_no_new|apply preserves_same_no_new; apply get_volume_same
                |apply preserves_same_no_new; apply delete_volume_same] ]; fail).
  - destruct (then_reconcile _ _ _) as [[r s']|] eqn:E1; [|done]. rewrite Val_bind in E.
    assert (ag_rc a' = s') as Ea.
    { destruct (_ && _); [destruct (spawn_loop _ _)|]; by injection E as _ _ <-. }
    rewrite Ea in Hr. destruct (then_reconcile_records _ _ _ _ _ Hu (apply_keeps spec) E1 Hs)
      as (s1 & Em & Hrec).
    rewrite Hrec in Hr by done. pose proof (apply_lookup _ _ _ _ Em) as Hl. destruct r as [[]|e].
    + destruct Hl as (record & El & Hspec). rewrite El in Hr.
      apply lookup_insert_Some in Hr as [[<- <-]|[Hn Hr]]; [|left; eauto].
      destruct (rc_records (ag_rc a) !! _) as [old|] eqn:Eo; [left|right; by rewrite Hspec].
      exists old. split; [done|]. rewrite Hspec. symmetry. by eapply apply_same_address.
    + rewrite Hl in Hr. left. eauto.
  - left. apply Hkept. destruct (reconcile _ _ _ _) as [[fs s']|] eqn:E1; [|done].
    rewrite Val_bind in E. injection E as _ _ <-. intros n r Hr' Hn'. exists r. split; [|done].
    rewrite <- Hr'. symmetry. eapply reconcile_lookup; [done|done|done|by left].
  - destruct (committed_resources _) as [[cpu mem]|]; [|done]. rewrite Val_bind in E.
    injection E as _ _ <-. left. eauto.
  - destruct (resume_loops _ _) as [sp repl]. injection E as _ _ <-. left. eauto.
Qed.

(** ** Processes, crashes and restarts *)

(** The states of an agent over its life: a first start on empty disks, commands,
    changes of the host between them, and restarts, after a crash or not, on
    whatever host and on the files left on disk. *)
Inductive agent_reach : Agent -> Prop :=
  | reach_start jails zfs net mounts pool disk ingress_disk cert_disk acme dns nginx vips s :
      dk_files disk = ∅ -> dk_files ingress_disk = ∅ -> readable disk -> readable ingress_disk ->
      reconciler_new jails zfs net mounts pool disk ingress_disk cert_disk acme dns nginx vips
        = Val (Ok s) ->
      agent_reach (mkAgent s ∅)
  | reach_command ck command a reply spawned a' :
      agent_reach a -> command_ok ck command ->
      handle_command ck command a = Val (reply, spawned, a') -> agent_reach a'
  | reach_host a s :
      agent_reach a -> host_change (ag_rc a) s -> agent_reach (mkAgent s (ag_replicating a))
  | reach_restart a jails zfs net mounts pool disk ingress_disk cert_disk acme dns nginx vips s :
      agent_reach a -> dk_files disk = dk_files (rc_disk (ag_rc a)) ->
      dk_files ingress_disk = dk_files (rc_ingress_disk (ag_rc a)) ->
      readable disk -> readable ingress_disk ->
      reconciler_new jails zfs net mounts pool disk ingress_disk cert_disk acme dns nginx vips
        = Val (Ok s) ->
      agent_reach (mkAgent s ∅).

Lemma restart_inv (s0 s : RC) jails zfs net mounts pool disk ingress_disk cert_disk acme dns nginx vips :
  agent_inv s0 -> dk_files disk = dk_files (rc_disk s0) ->
  dk_files ingress_disk = dk_files (rc_ingress_disk s0) -> readable disk -> readable ingress_disk ->
  reconciler_new jails zfs net mounts pool disk ingress_disk cert_disk acme dns nginx vips
    = Val (Ok s) ->
  agent_inv s.
Proof.
  intros Hs Ed Edi Hr Hri E.
  destruct (restart_spec s0 jails zfs net mounts pool disk ingress_disk cert_disk acme dns nginx
    vips Hs Ed Edi Hr Hri) as (s' & E' & _ & _ & _ & Hs' & _).
  rewrite E in E'. by injection E' as <-.
Qed.

Lemma agent_reach_inv a : agent_reach a -> agent_inv (ag_rc a).
Proof.
  induction 1 as [jails zfs net mounts pool disk ingress_disk cert_disk acme dns nginx vips s Ed Edi Hr Hri E|ck command a reply spawned a' _ IH Hok E
    |a s _ IH Hc|a ? ? ? ? ? ? ? ? ? ? ? ? s _ IH Ed Edi Hr Hri E].
  - exact (restart_inv _ s _ _ _ _ _ disk ingress_disk _ _ _ _ _
      (empty_inv jails zfs net mounts pool disk ingress_disk cert_disk acme dns nginx vips Ed Edi)
      eq_refl eq_refl Hr Hri E).
  - by eapply handle_command_keeps.
  - by eapply host_change_keeps.
  - by eapply restart_inv.
Qed.

(** The agent survives crashes.  At every point of its life, whatever failed
    on the host or on the disk before, a restart on the files on disk succeeds
    and has exactly the desired jails and ingresses that the running process
    has in memory. *)
Theorem agent_restart_recovers a (jails : J) (zfs : Zf) (net : Nt) (mounts : M) pool disk
    ingress_disk cert_disk (acme : A) (dns : D) (nginx : X) vips :
  agent_reach a -> dk_files disk = dk_files (rc_disk (ag_rc a)) ->
  dk_files ingress_disk = dk_files (rc_ingress_disk (ag_rc a)) ->
  readable disk -> readable ingress_disk ->
  exists s, reconciler_new jails zfs net mounts pool disk ingress_disk cert_disk acme dns nginx vips
              = Val (Ok s) /\
    rc_records s = rc_records (ag_rc a) /\ rc_ingress_records s = rc_ingress_records (ag_rc a).
Proof.
  intros Ha Ed Edi Hr Hri.
  destruct (restart_spec (ag_rc a) jails zfs net mounts pool disk ingress_disk cert_disk acme dns nginx
    vips (agent_reach_inv a Ha) Ed Edi Hr Hri) as (s & E & Er & Ei & _). eauto.
Qed.

(** C20: network interfaces are never shared.  At every point of the agent's
    life, across deletions, failed applies and restarts, two desired jails have
    different epair interfaces, and the interface the next new jail will get is
    none of theirs.  Ordinals are taken from 32 bits with the overflow check of a
    debug build: the worker panics where a release build would start again at 0,
    after 2^32 jails. *)
Theorem epairs_unique a n1 n2 r1 r2 :
  agent_reach a -> rc_records (ag_rc a) !! n1 = Some r1 -> rc_records (ag_rc a) !! n2 = Some r2 ->
  (epair_base_name (jr_epair_ordinal r1) = epair_base_name (jr_epair_ordinal r2) -> n1 = n2) /\
  epair_base_name (jr_epair_ordinal r1) <> epair_base_name (rc_next_epair_ordinal (ag_rc a)).
Proof.
  intros Ha%agent_reach_inv H1 H2. split.
  - intros E%epair_base_name_inj. by eapply ai_inj.
  - intros E%epair_base_name_inj. pose proof (ai_ordinal _ Ha _ _ H1). lia.
Qed.

(** ** Replication loops *)

Definition spawns_new (a a' : Agent) (spawned : list Spawned) : Prop :=
  NoDup spawned.*1 /\ (forall n, n ∈ spawned.*1 -> n ∉ ag_replicating a) /\
  ag_replicating a' = ag_replicating a ∪ list_to_set spawned.*1.

Lemma spawns_none (a : Agent) s : spawns_new a (mkAgent s (ag_replicating a)) [].
Proof. split; [constructor|]. split; [set_solver|]. cbn. set_solver. Qed.

Lemma spawn_loop_new name (a : Agent) s sp repl :
  spawn_loop name (ag_replicating a) = (sp, repl) -> spawns_new a (mkAgent s repl) sp.
Proof.
  unfold spawn_loop. case_bool_decide; intros [= <- <-]; [apply spawns_none|].
  split; [apply NoDup_singleton|]. split; [set_solver|]. cbn. set_solver.
Qed.

Lemma spawns_new_trans (a1 a2 a3 : Agent) sp1 sp2 :
  spawns_new a1 a2 sp1 -> spawns_new a2 a3 sp2 -> spawns_new a1 a3 (sp1 ++ sp2).
Proof.
  intros (Hn1 & Hd1 & E1) (Hn2 & Hd2 & E2). split.
  - rewrite fmap_app. apply NoDup_app. split; [done|]. split; [|done].
    intros n Hn Hn'. apply (Hd2 n Hn'). rewrite E1. set_solver.
  - split; [|rewrite E2, E1, fmap_app, list_to_set_app_L; set_solver].
    rewrite fmap_app. intros n [Hn|Hn]%elem_of_app; [by apply Hd1|]. apply Hd2 in Hn. set_solver.
Qed.

Lemma resume_loops_new statuses (a : Agent) s sp repl :
  resume_loops statuses (ag_replicating a) = (sp, repl) -> spawns_new a (mkAgent s repl) sp.
Proof.
  revert a sp repl. induction statuses as [|st statuses IH]; intros a sp repl; cbn.
  { intros [= <- <-]. apply spawns_none. }
  match goal with |- context [if ?b then ?x else ?y] =>
    destruct (if b then x else y) as [sp1 repl1] eqn:E1 end.
  destruct (resume_loops statuses repl1) as [sp2 repl2] eqn:E2. intros [= <- <-].
  apply (spawns_new_trans _ (mkAgent s repl1)).
  - destruct (replicated _); [by eapply spawn_loop_new|].
    injection E1 as <- <-. apply spawns_none.
  - by apply (IH (mkAgent s repl1)).
Qed.

Lemma handle_command_spawns ck command (a a' : Agent) reply spawned :
  handle_command ck command a = Val (reply, spawned, a') -> spawns_new a a' spawned.
Proof.
  intros E. destruct command; cbn [handle_command] in E;
    try (injection E as _ <- <-; apply spawns_none);
    try (injection E as _ <- <-; destruct a; apply (spawns_none (mkAgent _ _)));
    try (match type of E with
         | ?x ≫= _ = _ => destruct x as [[r s']|]; [|done]; rewrite Val_bind in E;
             injection E as _ <- <-; apply spawns_none
         end; fail).
  - destruct (then_reconcile _ _ _) as [[r s']|]; [|done]. rewrite Val_bind in E.
    destruct (_ && _); [destruct (spawn_loop _ _) as [sp repl] eqn:Es|]; injection E as _ <- <-;
      [by eapply spawn_loop_new|apply spawns_none].
  - destruct (committed_resources _) as [[cpu mem]|]; [|done]. rewrite Val_bind in E.
    injection E as _ <- <-. destruct a. apply (spawns_none (mkAgent _ _)).
  - destruct (resume_loops _ _) as [sp repl] eqn:Es. injection E as _ <- <-.
    by eapply resume_loops_new.
Qed.

(** At most one replication loop per name and process.  Whatever commands a
    process handles, no name's loop is spawned twice, and a name once marked
    stays marked, also when its jail is deleted, and never gets a loop again: a
    jail that is deleted and applied again is not replicated by this process. *)
Theorem replication_loop_once commands (a a' : Agent) replies spawned :
  agent_loop commands a = Val (replies, spawned, a') ->
  NoDup spawned.*1 /\
  (forall name, name ∈ ag_replicating a -> name ∉ spawned.*1 /\ name ∈ ag_replicating a').
Proof.
  assert (forall commands (a : Agent) replies spawned, agent_loop commands a = Val (replies, spawned, a') ->
    spawns_new a a' spawned) as Hall.
  { clear. induction commands as [|[ck command] commands IH]; intros a replies spawned; cbn.
    - intros [= _ <- <-]. destruct a. apply (spawns_none (mkAgent _ _)).
    - destruct (handle_command ck command a) as [[[reply sp] a1]|] eqn:E1; [|done]. rewrite Val_bind.
      destruct (agent_loop commands a1) as [[[replies' sp'] a2]|] eqn:E2; [|done].
      intros [= _ <- <-]. eapply spawns_new_trans; [by eapply handle_command_spawns|by eapply IH]. }
  intros E. destruct (Hall _ _ _ _ E) as (Hn & Hd & Er). split; [done|]. intros name Hin.
  split; [intros Hs; by apply (Hd name)|]. rewrite Er. set_solver.
Qed.

(** ** The worker stays alive *)

Context (attach_total : forall jname bridge epair address (n : Nt),
  gateway_ok address -> attach_jail jname bridge epair address n <> Panic).

(** The memory the desired jails ask for, in bytes. *)
Definition memory_of (record : JailRecord) : N :=
  match parse_memory_bytes (res_memory (sp_resources (js_spec (jr_spec record)))) with
  | Ok bytes => bytes
  | Err _ => 0%N
  end.
Definition memory_sum (l : list JailRecord) : N := foldr (fun r acc => memory_of r + acc)%N 0%N l.

(** What keeps the worker alive: the addresses applied have an IPv4 gateway, and
    the memory sum of a heartbeat fits its type. *)
Definition command_safe (ck : Clock) (command : AgentCommand) (s : RC) : Prop :=
  command_ok ck command /\
  match command with
  | AgApply spec => gateway_ok (net_address (sp_network (js_spec spec)))
  | AgCommittedResources => (memory_sum (hash_iter (rc_records s)).*2 <= u64_max)%N
  | _ => True
  end.

Lemma committed_resources_sum (s : RC) :
  agent_inv s -> (memory_sum (hash_iter (rc_records s)).*2 <= u64_max)%N ->
  exists cpu, committed_resources s = Val (cpu, memory_sum (hash_iter (rc_records s)).*2).
Proof.
  intros Hs. unfold committed_resources.
  assert (forall r, r ∈ (hash_iter (rc_records s)).*2 -> jail_valid (jr_spec r)) as Hv.
  { intros r ([n r'] & -> & Hr)%list_elem_of_fmap. apply elem_of_hash_iter in Hr. by eapply ai_valid. }
  assert (forall l cpu mem, (forall r, r ∈ l -> jail_valid (jr_spec r)) ->
    (mem + memory_sum l <= u64_max)%N ->
    exists cpu', for_comp l (fun record '(cpu, mem) =>
      let res := sp_resources (js_spec (jr_spec record)) in
      match parse_cpu_cores (res_cpu res), parse_memory_bytes (res_memory res) with
      | Ok cores, Ok bytes => mem' ← add_u64 mem bytes; Val (f64_add cpu cores, mem')
      | _, _ => Panic
      end) (cpu, mem) = Val (cpu', mem + memory_sum l)%N) as Hloop.
  { unfold memory_sum.
    induction l as [|r l IH]; intros cpu mem Hl Hsum; cbn in *; [exists cpu; by rewrite N.add_0_r|].
    destruct (Hl r) as (_ & _ & Hc & Hm); [set_solver|].
    destruct (parse_cpu_cores _) as [cores|]; [|done].
    destruct (parse_memory_bytes _) as [bytes|] eqn:Em; [|done].
    assert (memory_of r = bytes) as Hmr by (unfold memory_of; by rewrite Em).
    rewrite Hmr in Hsum |- *. unfold add_u64.
    rewrite (proj2 (N.leb_le (mem + bytes) u64_max)) by lia. cbn. rewrite N.add_assoc.
    apply IH; [|lia]. intros r' Hr'. apply Hl. set_solver. }
  intros Hsum. destruct (Hloop (hash_iter (rc_records s)).*2 f64_zero 0%N Hv) as [cpu E]; [lia|].
  exists cpu. exact E.
Qed.

Lemma then_reconcile_total ck (m : @op J Zf Nt M A D X unit) s :
  unix_ok (ck_unix ck) -> agent_inv s -> (rc_next_epair_ordinal s + 1 < u32_max)%N ->
  (exists r s1, m s = Val (r, s1) /\ agent_inv s1 /\ gateways_ok s1 /\
     (rc_next_epair_ordinal s1 <= rc_next_epair_ordinal s + 1)%N) ->
  exists r s', then_reconcile ck m s = Val (r, s') /\ agent_inv s' /\ gateways_ok s' /\
    (rc_next_epair_ordinal s' <= rc_next_epair_ordinal s + 2)%N.
Proof.
  intros Hu Hs Hn (r & s1 & E1 & Hs1 & Hg1 & Hn1). unfold then_reconcile. rewrite E1, Val_bind.
  destruct (reconcile_total attach_total (ck_now ck) (ck_unix ck) (ck_mono ck) s1)
    as (fs & s2 & -> & Hs2 & Hg2 & Hn2); [done|done|done|lia|].
  rewrite Val_bind. exists r, s2. split; [done|]. split; [done|]. split; [done|lia].
Qed.

Definition agent_safe (a : Agent) : Prop := agent_inv (ag_rc a) /\ gateways_ok (ag_rc a).

(** An operation that takes no ordinal, followed by a pass. *)
Lemma quiet_then_reconcile ck (m : @op J Zf Nt M A D X unit) s :
  unix_ok (ck_unix ck) -> agent_inv s -> gateways_ok s -> (rc_next_epair_ordinal s + 1 < u32_max)%N ->
  no_panic m -> preserves keeps_inv m -> preserves no_new_address m ->
  exists r s', then_reconcile ck m s = Val (r, s') /\ agent_inv s' /\ gateways_ok s' /\
    (rc_next_epair_ordinal s' <= rc_next_epair_ordinal s + 2)%N.
Proof.
  intros Hu Hs Hg Hn Hp Hk Ha. apply then_reconcile_total; [done..|].
  specialize (Hp s). destruct (m s) as [[r s1]|] eqn:E; [|done]. exists r, s1. split; [done|].
  split; [by eapply Hk|]. pose proof (Ha _ _ _ E) as Hna.
  split; [by eapply no_new_gateways|]. destruct Hna as [-> _]. lia.
Qed.

Lemma apply_then_reconcile ck spec s :
  unix_ok (ck_unix ck) -> agent_inv s -> gateways_ok s -> (rc_next_epair_ordinal s + 1 < u32_max)%N ->
  gateway_ok (net_address (sp_network (js_spec spec))) ->
  exists r s', then_reconcile ck (apply spec) s = Val (r, s') /\ agent_inv s' /\ gateways_ok s' /\
    (rc_next_epair_ordinal s' <= rc_next_epair_ordinal s + 2)%N.
Proof.
  intros Hu Hs Hg Hn Hga. apply then_reconcile_total; [done..|].
  pose proof (apply_no_panic spec s ltac:(lia)) as Hp.
  destruct (apply spec s) as [[r s1]|] eqn:E; [|done]. exists r, s1. split; [done|].
  split; [by eapply apply_keeps|]. apply apply_records in E as [Hn1 Hr]. split; [|done].
  intros name record Hrec. destruct (Hr _ _ Hrec) as [Hold| ->]; [by eapply Hg|done].
Qed.

(** The command is answered and leaves such a state. *)
Definition stays_safe (a : Agent) (k : comp (AgentReply * list Spawned * Agent)) : Prop :=
  exists reply spawned a', k = Val (reply, spawned, a') /\ agent_safe a' /\
    (rc_next_epair_ordinal (ag_rc a') <= rc_next_epair_ordinal (ag_rc a) + 2)%N.

Lemma reply_result_safe (a : Agent) (x : comp (result ReconcileError unit * RC)) :
  (exists r s', x = Val (r, s') /\ agent_inv s' /\ gateways_ok s' /\
     (rc_next_epair_ordinal s' <= rc_next_epair_ordinal (ag_rc a) + 2)%N) ->
  stays_safe a (x ≫= (fun x => Val (reply_result a x))).
Proof. intros (r & s' & -> & Hs' & Hg' & Hn'). by eexists _, _, _. Qed.

Lemma quiet_safe (m : @op J Zf Nt M A D X unit) (a : Agent) :
  agent_safe a -> no_panic m -> preserves keeps_inv m -> preserves no_new_address m ->
  stays_safe a (m (ag_rc a) ≫= (fun x => Val (reply_result a x))).
Proof.
  intros [Hs Hg] Hp Hk Ha. apply reply_result_safe. specialize (Hp (ag_rc a)).
  destruct (m (ag_rc a)) as [[r s1]|] eqn:E; [|done]. exists r, s1. split; [done|].
  pose proof (Ha _ _ _ E) as Hna. split; [by eapply Hk|]. split; [by eapply no_new_gateways|].
  destruct Hna as [-> _]. lia.
Qed.

Lemma net_safe (f : Nt -> result NetError unit * Nt) (a : Agent) :
  agent_safe a -> stays_safe a (Val (reply_net a (net_call f (ag_rc a)))).
Proof.
  intros [Hs Hg]. eexists _, _, _. split; [done|]. unfold agent_safe, net_call, gateways_ok in *.
  destruct (f _) as [r n]. split; [|cbn; lia]. split; [by apply (same_desired_keeps (ag_rc a))|].
  exact Hg.
Qed.

Lemma unchanged_safe (a : Agent) reply spawned replicating :
  agent_safe a -> stays_safe a (Val (reply, spawned, mkAgent (ag_rc a) replicating)).
Proof. intros Ha. eexists _, _, _. split; [done|]. split; [done|]. cbn. lia. Qed.

Lemma query_safe (a : Agent) reply spawned : agent_safe a -> stays_safe a (Val (reply, spawned, a)).
Proof. intros Ha. eexists _, _, _. split; [done|]. split; [done|]. lia. Qed.

(** C19: the worker stays alive.  In a state whose jails all have an IPv4 gateway
    and with epair ordinals left, every command is answered, whatever fails on
    the host, and leads to such a state again; only an address without an IPv4
    gateway, a memory sum beyond 64 bits or 2^32 jails could panic it. *)
Theorem agent_command_total ck command (a : Agent) :
  agent_safe a -> command_safe ck command (ag_rc a) ->
  (rc_next_epair_ordinal (ag_rc a) + 1 < u32_max)%N ->
  stays_safe a (handle_command ck command a).
Proof.
  intros Ha [[Hu Hok] Hsafe] Hn. pose proof Ha as [Hs Hg].
  destruct command; cbn [handle_command];
    try (by apply net_safe); try (by apply query_safe);
    try (apply reply_result_safe, quiet_then_reconcile;
         eauto using delete_jail_no_panic, delete_jail_keeps, delete_jail_no_new,
           apply_ingress_no_panic, apply_ingress_keeps, apply_ingress_no_new,
           delete_ingress_no_panic, delete_ingress_keeps, delete_ingress_no_new; fail);
    try (apply quiet_safe;
         eauto using set_replicate_to_no_panic, set_replicate_to_keeps, set_replicate_to_no_new,
           get_volume_no_panic, delete_volume_no_panic, get_volume_same, delete_volume_same,
           preserves_same_keeps, preserves_same_no_new; fail).
  - destruct (apply_then_reconcile ck spec (ag_rc a) Hu Hs Hg Hn Hsafe) as (r & s' & -> & Hs' & Hg' & Hn').
    rewrite Val_bind. destruct (_ && _); [destruct (spawn_loop _ _)|]; by eexists _, _, _.
  - destruct (reconcile_total attach_total (ck_now ck) (ck_unix ck) (ck_mono ck) (ag_rc a))
      as (fs & s' & -> & Hs' & Hg' & Hn'); [done|done|done|lia|].
    eexists _, _, _. split; [done|]. split; [done|]. cbn. lia.
  - destruct (committed_resources_sum (ag_rc a) Hs Hsafe) as [cpu ->]. by apply query_safe.
  - destruct (resume_loops _ _) as [sp repl]. by apply unchanged_safe.
Qed.
End agent_worker.

(** ** Witnesses *)

Definition demo_handle := @handle_command list_order ipnet_model yaml_jail_record yaml_ingress_record
  _ _ _ _ _ _ _ fake_jail_runtime fake_zfs_manager (@fake_net_manager ipnet_model) fake_mount_manager
  (@fake_acme FakeDnsProvider fake_dns) fake_nginx.
Definition demo_loop := @agent_loop list_order ipnet_model yaml_jail_record yaml_ingress_record
  _ _ _ _ _ _ _ fake_jail_runtime fake_zfs_manager (@fake_net_manager ipnet_model) fake_mount_manager
  (@fake_acme FakeDnsProvider fake_dns) fake_nginx.
Definition demo_reach := @agent_reach list_order ipnet_model yaml_jail_record yaml_ingress_record
  _ _ _ _ _ _ _ fake_jail_runtime fake_zfs_manager (@fake_net_manager ipnet_model) fake_mount_manager
  (@fake_acme FakeDnsProvider fake_dns) fake_nginx.
Definition demo_clock : Clock := mkClock 0 0 (fun _ => 0%N).
Definition demo_agent := mkAgent demo_node ∅.
Definition web2_spec : JailSpec :=
  mkJailSpec "keel/v1" "Jail" (mkMetadata "web-2") (js_spec web_spec).

Lemma demo_start : demo_reach demo_agent.
Proof.
  eapply (reach_start fake_jail_new (mkFakeZfsManager {[ "zroot/keel/base/14.2-web" ]} ∅ ∅)
    (mkFakeNetManager ∅ ∅ ∅ ∅ ∅) (mkFakeMountManager ∅) "zroot" empty_disk empty_disk empty_disk
    (mkFakeAcme false) (mkFakeDns ∅ false) (mkFakeNginx ∅ false ∅) ∅ demo_node); try done;
    by intros op file _.
Qed.

Lemma demo_apply_ok spec : command_ok demo_clock (AgApply spec).
Proof. split; [|done]. split; by vm_compute. Qed.

(** After two applies. *)
Lemma demo_two_jails :
  exists a, demo_reach a /\ rc_records (ag_rc a) !! "web-1" = Some (mkJailRecord web_spec 1) /\
    rc_records (ag_rc a) !! "web-2" = Some (mkJailRecord web2_spec 2).
Proof.
  assert (match demo_handle demo_clock (AgApply web_spec) demo_agent with
          | Val (_, _, a1) =>
              match demo_handle demo_clock (AgApply web2_spec) a1 with
              | Val (_, _, a2) => (rc_records (ag_rc a2) !! "web-1", rc_records (ag_rc a2) !! "web-2")
              | Panic => (None, None)
              end
          | Panic => (None, None)
          end = (Some (mkJailRecord web_spec 1), Some (mkJailRecord web2_spec 2))) as H
    by (vm_compute; reflexivity).
  destruct (demo_handle demo_clock (AgApply web_spec) demo_agent) as [[[r1 sp1] a1]|] eqn:E1;
    [|discriminate H].
  destruct (demo_handle demo_clock (AgApply web2_spec) a1) as [[[r2 sp2] a2]|] eqn:E2;
    [|discriminate H].
  injection H as H1 H2. exists a2. split; [|exact (conj H1 H2)].
  eapply reach_command; [eapply reach_command; [apply demo_start| |exact E1]| |exact E2];
    apply demo_apply_ok.
Qed.

Lemma agent_restart_recovers_witness :
  exists a s, demo_reach a /\
    @reconciler_new list_order yaml_jail_record yaml_ingress_record _ _ _ _ _ _ _ fake_jail_new
      (mkFakeZfsManager ∅ ∅ ∅) (mkFakeNetManager ∅ ∅ ∅ ∅ ∅) (mkFakeMountManager ∅) "zroot"
      (with_files (dk_files (rc_disk (ag_rc a))) empty_disk)
      (with_files (dk_files (rc_ingress_disk (ag_rc a))) empty_disk) empty_disk (mkFakeAcme false)
      (mkFakeDns ∅ false) (mkFakeNginx ∅ false ∅) ∅ = Val (Ok s) /\
    rc_records s !! "web-2" = Some (mkJailRecord web2_spec 2).
Proof.
  destruct demo_two_jails as (a & Ha & _ & H2).
  destruct (@agent_restart_recovers list_order ipnet_model yaml_jail_record yaml_ingress_record
    _ _ _ _ _ _ _ fake_jail_runtime fake_zfs_manager (@fake_net_manager ipnet_model) fake_mount_manager
    (@fake_acme FakeDnsProvider fake_dns) fake_nginx a fake_jail_new
    (mkFakeZfsManager ∅ ∅ ∅) (mkFakeNetManager ∅ ∅ ∅ ∅ ∅) (mkFakeMountManager ∅) "zroot"
    (with_files (dk_files (rc_disk (ag_rc a))) empty_disk)
    (with_files (dk_files (rc_ingress_disk (ag_rc a))) empty_disk) empty_disk (mkFakeAcme false)
    (mkFakeDns ∅ false) (mkFakeNginx ∅ false ∅) ∅ Ha) as (s & E & Er & _);
    [done|done|by intros op file _|by intros op file _|].
  exists a, s. split; [done|]. split; [done|]. by rewrite Er.
Defined.

Lemma epairs_unique_witness :
  exists a, demo_reach a /\ epair_base_name 1 <> epair_base_name (rc_next_epair_ordinal (ag_rc a)).
Proof.
  destruct demo_two_jails as (a & Ha & H1 & H2). exists a. split; [done|].
  apply (@epairs_unique list_order ipnet_model yaml_jail_record yaml_ingress_record
    _ _ _ _ _ _ _ fake_jail_runtime fake_zfs_manager (@fake_net_manager ipnet_model) fake_mount_manager
    (@fake_acme FakeDnsProvider fake_dns) fake_nginx a "web-1" "web-2" _ _ Ha H1 H2).
Defined.

(** A jail with a volume and a standby, applied, deleted and applied again. *)
Definition db_spec : JailSpec :=
  mkJailSpec "keel/v1" "Jail" (mkMetadata "db-0")
    (mkSpec "base/14.2-web" ["/usr/local/bin/db"] (mkNetworkSpec true "keel0" "10.0.0.6/24")
       (mkResourcesSpec "1" "1G") Always [mkVolumeMount "db-0-data" "/data" "10G"]
       (Some "10.0.0.9:7000")).
Definition reapplied : list (Clock * AgentCommand) :=
  (fun c => (demo_clock, c)) <$> [AgApply db_spec; AgDelete "db-0"; AgApply db_spec].

Lemma replication_loop_once_witness :
  exists replies a, demo_loop reapplied demo_agent = Val (replies, [("db-0", "db-0-data")], a) /\
    rc_records (ag_rc a) !! "db-0" = Some (mkJailRecord db_spec 2) /\ NoDup ["db-0"].
Proof.
  assert (match demo_loop reapplied demo_agent with
          | Val (_, sp, a) => (sp, rc_records (ag_rc a) !! "db-0")
          | Panic => ([], None)
          end = ([("db-0", "db-0-data")], Some (mkJailRecord db_spec 2))) as H
    by (vm_compute; reflexivity).
  destruct (demo_loop reapplied demo_agent) as [[[replies sp] a]|] eqn:E; [|discriminate H].
  injection H as -> H2. exists replies, a. split; [exact eq_refl|]. split; [exact H2|].
  exact (proj1 (@replication_loop_once list_order ipnet_model yaml_jail_record yaml_ingress_record
    _ _ _ _ _ _ _ fake_jail_runtime fake_zfs_manager (@fake_net_manager ipnet_model) fake_mount_manager
    (@fake_acme FakeDnsProvider fake_dns) fake_nginx reapplied demo_agent a replies _ E)).
Defined.

Lemma agent_command_total_witness :
  exists reply spawned a, demo_handle demo_clock (AgApply web_spec) demo_agent = Val (reply, spawned, a).
Proof.
  destruct (@agent_command_total list_order ipnet_model yaml_jail_record yaml_ingress_record
    _ _ _ _ _ _ _ fake_jail_runtime fake_zfs_manager (@fake_net_manager ipnet_model) fake_mount_manager
    (@fake_acme FakeDnsProvider fake_dns) fake_nginx (@fake_attach_total ipnet_model) demo_clock
    (AgApply web_spec) demo_agent) as (reply & spawned & a & E & _).
  - split; [by apply empty_inv|]. intros name record Hr. cbn in Hr. by rewrite lookup_empty in Hr.
  - split; [apply demo_apply_ok|]. vm_compute. discriminate.
  - by vm_compute.
  - eauto.
Defined.
