(* ===== verification/AgentVolumes.v ===== *)
(** * The data of volumes under the node agent

    What no command of the agent's worker does: write, roll back or destroy the
    data of a volume.  On every host that keeps the contract of VolumeData, a
    volume keeps its data and its snapshots through applies, deletes, failed
    provisioning and its rollback, ingress and certificate work, whatever the
    host answers; only the explicit deletion of that very volume can end it, and
    not while replication keeps a snapshot of it.  The name in a deletion is not
    validated, so one that names a snapshot of the volume destroys that. *)

From S2P Require Import Prelude RustStr Text Float64 Ipnet Spec Codecs Registry Wire Backoff.
From S2P Require Import AgentHost VolumeData Store Ingress Reconciler ReconcilerInv AgentFakes AgentWorker.

Open Scope keel_scope.

Section agent_volumes.
Context {HO : HashOrder} {I : Ipnet} {YJR : SerdeYaml JailRecord} {YIR : SerdeYaml IngressRecord}.
Context {J Zf Nt M A D X : Type}.
Context {HJ : JailRuntime J} {HZ : ZfsManager Zf} {HN : NetManager Nt} {HM : MountManager M}
        {HA : AcmeClient A D} {HX : NginxController X}.
Context {Data Snap : Type} {HD : ZfsData Zf Data Snap}.

Notation RC := (@RC J Zf Nt M A D X).
Notation aop := (@op J Zf Nt M A D X).
Notation Agent := (@Agent J Zf Nt M A D X).
Implicit Types s : RC.

(** ** The frame *)

Context (P name : string).
Notation path := (volume_dataset_path P name).

(** A run on the pool [P] stays on it and keeps the volume. *)
Definition volume_frame s s' : Prop :=
  rc_pool s = P -> rc_pool s' = P /\ dataset_kept path (rc_zfs s) (rc_zfs s').

#[local] Instance volume_frame_preorder : PreOrder volume_frame.
Proof.
  split; [intros s Hp; done|]. intros s1 s2 s3 H1 H2 Hp.
  destruct (H1 Hp) as [P2 K2]. destruct (H2 P2) as [P3 K3]. split; [done|]. by etransitivity.
Qed.

Lemma volume_path_inj n : path = volume_dataset_path P n -> name = n.
Proof. intros E. by apply app_inv_l_str, app_inv_l_str in E. Qed.

(** States with the same ZFS and the same pool. *)
Definition same_zfs s s' : Prop := rc_pool s' = rc_pool s /\ rc_zfs s' = rc_zfs s.
Lemma same_zfs_frame s s' : same_zfs s s' -> volume_frame s s'.
Proof. intros [Ep Ez] Hp. split; [congruence|]. by rewrite Ez. Qed.

Lemma frame_modify (f : RC -> RC) : (forall s, same_zfs s (f s)) -> preserves volume_frame (st_modify f : aop unit).
Proof. intros Hf s r s' [= <- <-]. apply same_zfs_frame, Hf. Qed.
Lemma frame_get {T} (k : RC -> aop T) :
  (forall s, rc_pool s = P -> preserves volume_frame (k s)) -> preserves volume_frame (st_bind st_get k).
Proof. intros Hk s r s'. cbn. unfold st_bind, st_get. intros E Hp. by eapply Hk. Qed.
Lemma frame_jails {T} (f : J -> result JailError T * J) : preserves volume_frame (on_jails f).
Proof. intros s r s'. unfold on_jails. destruct (f _). intros [= <- <-]. by apply same_zfs_frame. Qed.
Lemma frame_net {T} (f : Nt -> result NetError T * Nt) : preserves volume_frame (on_net f).
Proof. intros s r s'. unfold on_net. destruct (f _). intros [= <- <-]. by apply same_zfs_frame. Qed.
Lemma frame_net_comp {T} (f : Nt -> comp (result NetError T * Nt)) : preserves volume_frame (on_net_comp f).
Proof.
  intros s r s'. unfold on_net_comp. destruct (f _) as [[]|]; [|done]. intros [= <- <-]. by apply same_zfs_frame.
Qed.
Lemma frame_mounts {T} (f : M -> result MountError T * M) : preserves volume_frame (on_mounts f).
Proof. intros s r s'. unfold on_mounts. destruct (f _). intros [= <- <-]. by apply same_zfs_frame. Qed.
Lemma frame_disk {T} (f : Disk -> result StoreError T * Disk) : preserves volume_frame (on_disk f).
Proof. intros s r s'. unfold on_disk. destruct (f _). intros [= <- <-]. by apply same_zfs_frame. Qed.
Lemma frame_ingress_disk {T} (f : Disk -> result StoreError T * Disk) :
  preserves volume_frame (on_ingress_disk f).
Proof. intros s r s'. unfold on_ingress_disk. destruct (f _). intros [= <- <-]. by apply same_zfs_frame. Qed.
Lemma frame_zfs {T} (f : Zf -> result ZfsError T * Zf) :
  (forall z, dataset_kept path z (f z).2) -> preserves volume_frame (on_zfs f).
Proof.
  intros Hf s r s'. unfold on_zfs. pose proof (Hf (rc_zfs s)) as H. destruct (f _) as [x z].
  intros [= <- <-] Hp. by split.
Qed.
Lemma frame_asks {T} (f : RC -> result ReconcileError T) : preserves volume_frame (asks f).
Proof. by intros s r s' [= <- <-]. Qed.
Lemma frame_spec_check {T} (x : result SpecError T) : preserves volume_frame (spec_check x : aop T).
Proof. by intros s r s' [= <- <-]. Qed.
Hint Resolve frame_jails frame_net frame_net_comp frame_mounts frame_disk frame_ingress_disk frame_asks
  frame_spec_check : keel.

(** ** The reconciler's operations *)

Lemma take_ordinal_frame : preserves volume_frame (take_ordinal : aop N).
Proof.
  intros s r s'. unfold take_ordinal. destruct (add_u32 _ _); cbn; [|done].
  intros [= <- <-]. by apply same_zfs_frame.
Qed.
Hint Resolve take_ordinal_frame : keel.

Lemma apply_frame spec : preserves volume_frame (apply spec : aop unit).
Proof. unfold apply. preserves_auto; by apply frame_modify. Qed.
Lemma apply_ingress_frame spec : preserves volume_frame (apply_ingress spec : aop unit).
Proof. unfold apply_ingress. preserves_auto; by apply frame_modify. Qed.
Lemma delete_ingress_frame n : preserves volume_frame (delete_ingress n : aop unit).
Proof. unfold delete_ingress. preserves_auto; by apply frame_modify. Qed.
Lemma set_replicate_to_frame n to : preserves volume_frame (set_replicate_to n to : aop unit).
Proof. unfold set_replicate_to. preserves_auto; by apply frame_modify. Qed.
Lemma get_volume_frame n : preserves volume_frame (get_volume n : aop unit).
Proof. unfold get_volume. preserves_auto. Qed.

Lemma jail_not_snapshot n : ~ snapshot_of (jail_dataset_path P n) path.
Proof.
  intros (s & E & _). unfold jail_dataset_path, volume_dataset_path in E. rewrite <- !app_assoc_str in E.
  apply app_inv_l_str in E. discriminate E.
Qed.

Lemma destroy_jail_frame n : preserves volume_frame (on_zfs (destroy_dataset (jail_dataset_path P n)) : aop unit).
Proof. apply frame_zfs. intros z. apply destroy_kept; [apply volume_not_jail|apply jail_not_snapshot]. Qed.
Hint Resolve destroy_jail_frame : keel.

Lemma delete_jail_frame n : preserves volume_frame (delete_jail n : aop unit).
Proof.
  unfold delete_jail. apply preserves_bind; [typeclasses eauto|auto with keel|intros record].
  apply frame_get. intros s0 ->. preserves_auto; by apply frame_modify.
Qed.

(** The target of a deletion is a snapshot of the volume when its name says so. *)
Lemma volume_path_snapshot n : snapshot_of (volume_dataset_path P n) path <-> snapshot_of n name.
Proof.
  unfold snapshot_of, volume_dataset_path.
  split; intros (s & E & Hs); exists s; (split; [|done]); [|by rewrite E, <- !app_assoc_str].
  rewrite <- !app_assoc_str in E. by do 2 apply app_inv_l_str in E.
Qed.

Lemma delete_volume_frame n : n <> name -> ~ snapshot_of n name ->
  preserves volume_frame (delete_volume n : aop unit).
Proof.
  intros Hne Hs. apply frame_get. intros s0 ->. apply frame_zfs. intros z. apply destroy_kept.
  - intros E%volume_path_inj. congruence.
  - by rewrite volume_path_snapshot.
Qed.

Lemma configure_frame n record : preserves volume_frame (configure_networking_and_limits n record : aop unit).
Proof. unfold configure_networking_and_limits. preserves_auto. Qed.
Lemma clone_frame b t : preserves volume_frame (on_zfs (clone_from_base b t) : aop unit).
Proof. apply frame_zfs. auto with keel. Qed.
Lemma create_frame t q : preserves volume_frame (on_zfs (create_volume t q) : aop unit).
Proof. apply frame_zfs. auto with keel. Qed.
Hint Resolve configure_frame clone_frame create_frame : keel.
Lemma provision_volume_frame rootfs v : preserves volume_frame (provision_volume rootfs v : aop unit).
Proof. unfold provision_volume. preserves_auto. Qed.
Hint Resolve provision_volume_frame : keel.
Lemma provision_frame n record : preserves volume_frame (provision n record : aop unit).
Proof. unfold provision. preserves_auto. Qed.
Lemma restart_frame n record : preserves volume_frame (restart n record : aop unit).
Proof. unfold restart. preserves_auto. Qed.
Lemma rollback_frame n record : preserves volume_frame (rollback_provision n record : aop unit).
Proof. apply frame_get. intros s0 ->. preserves_auto. Qed.
Lemma ensure_ingress_jail_frame : preserves volume_frame (ensure_ingress_jail : aop unit).
Proof. unfold ensure_ingress_jail. pose proof (apply_frame ingress_jail_spec). preserves_auto. Qed.

(** ** The pass *)

Lemma write_cert_same_zfs host cert s r s' :
  write_cert_to_ingress_jail host cert s = Val (r, s') -> same_zfs s s'.
Proof. unfold write_cert_to_ingress_jail. repeat case_match; by intros [= <- <-]. Qed.

Lemma reconcile_cert_same_zfs now_unix mono n s s' :
  reconcile_cert now_unix mono n s = Val s' -> same_zfs s s'.
Proof.
  unfold reconcile_cert. destruct (negb _); [by intros [= <-]|].
  destruct (rc_ingress_records _ !! n) as [record|]; [|done]. destruct (negb _); [by intros [= <-]|].
  destruct (request_certificate _ _ _ _) as [[cert|e] [acme dns]]; [|by intros [= <-]].
  destruct (write_cert_to_ingress_jail _ _ _) as [[w s1]|] eqn:E1; [|done]. rewrite Val_bind.
  apply write_cert_same_zfs in E1 as [Ep Ez]. destruct w; [|by intros [= <-]].
  unfold on_ingress_disk. destruct (save_ingress _ _) as [p d]. rewrite Val_bind.
  destruct p; by intros [= <-].
Qed.

Lemma reconcile_certs_same_zfs now_unix mono s s' :
  reconcile_certs now_unix mono s = Val s' -> same_zfs s s'.
Proof.
  unfold reconcile_certs. generalize (hash_iter (rc_ingress_records s)).*1. intros names.
  revert s. induction names as [|n names IH]; intros s; cbn; [by intros [= <-]|].
  destruct (reconcile_cert _ _ n s) as [s1|] eqn:E1; [|done]. rewrite Val_bind.
  intros E2. apply reconcile_cert_same_zfs in E1 as [P1 Z1]. apply IH in E2 as [P2 Z2].
  split; congruence.
Qed.

Lemma reconcile_ingress_config_same_zfs s : same_zfs s (reconcile_ingress_config s).
Proof.
  unfold reconcile_ingress_config. destruct (write_config _ _ _) as [[] x1]; [|done].
  destruct (test_config _ _) as [[] x2]; [|done]. by destruct (reload _ _).
Qed.

Lemma set_backoff_frame m s : volume_frame s (set_backoff m s).
Proof. by apply same_zfs_frame. Qed.

Lemma reconcile_existing_frame n record now : preserves volume_frame (reconcile_existing n record now : aop unit).
Proof.
  unfold reconcile_existing. preserves_auto. intros s r s'.
  destruct (restart n record s) as [[x s1]|] eqn:E1; [|done]. rewrite Val_bind. intros [= <- <-].
  apply restart_frame in E1. etransitivity; [exact E1|apply set_backoff_frame].
Qed.

Lemma reconcile_one_frame n now : preserves volume_frame (reconcile_one n now : aop unit).
Proof.
  intros s r s'. unfold reconcile_one. destruct (rc_records s !! n) as [record|]; [|done].
  set (s0 := set_backoff _ s). assert (volume_frame s s0) as H0 by apply set_backoff_frame.
  destruct (negb _); [by intros [= <- <-]|].
  destruct (jail_exists _ _) as [[|]|]; [| |by intros [= <- <-]].
  - intros E%reconcile_existing_frame. by etransitivity.
  - destruct (provision n record s0) as [[x s1]|] eqn:E1; [|done]. rewrite Val_bind.
    apply provision_frame in E1. set (s2 := set_backoff _ s1).
    assert (volume_frame s s2) as H2
      by (etransitivity; [exact H0|]; etransitivity; [exact E1|apply set_backoff_frame]).
    destruct x; [by intros [= <- <-]|].
    destruct (rollback_provision n record s2) as [[y s3]|] eqn:E3; [|done]. rewrite Val_bind.
    intros [= <- <-]. apply rollback_frame in E3. by etransitivity.
Qed.

Lemma reconcile_names_frame names now s fs s' :
  reconcile_names names now s = Val (fs, s') -> volume_frame s s'.
Proof.
  revert s fs s'. induction names as [|n names IH]; intros s fs s'; cbn; [by intros [= <- <-]|].
  destruct (reconcile_one n now s) as [[r s1]|] eqn:E1; [|done]. rewrite Val_bind.
  destruct (reconcile_names names now s1) as [[fs1 s2]|] eqn:E2; [|done]. rewrite Val_bind.
  intros [= <- <-]. apply reconcile_one_frame in E1. apply IH in E2. by etransitivity.
Qed.

Lemma reconcile_frame now now_unix mono s fs s' :
  reconcile now now_unix mono s = Val (fs, s') -> volume_frame s s'.
Proof.
  unfold reconcile. destruct (ensure_ingress_jail s) as [[r1 s1]|] eqn:E1; [|done]. rewrite Val_bind.
  destruct (reconcile_certs _ _ s1) as [s2|] eqn:E2; [|done]. rewrite Val_bind. intros E3.
  apply ensure_ingress_jail_frame in E1. apply reconcile_certs_same_zfs, same_zfs_frame in E2.
  apply reconcile_names_frame in E3.
  pose proof (same_zfs_frame _ _ (reconcile_ingress_config_same_zfs s2)).
  do 3 (etransitivity; [eassumption|]). done.
Qed.

(** ** The worker *)

Lemma then_reconcile_frame ck (m : aop unit) s x :
  preserves volume_frame m -> then_reconcile ck m s = Val x -> volume_frame s x.2.
Proof.
  intros Hm. unfold then_reconcile. destruct (m s) as [[r s1]|] eqn:E1; [|done]. rewrite Val_bind.
  destruct (reconcile _ _ _ s1) as [[fs s2]|] eqn:E2; [|done]. rewrite Val_bind. intros [= <-].
  apply Hm in E1. apply reconcile_frame in E2. by etransitivity.
Qed.

Lemma reply_frame (a a' : Agent) (k : comp (result ReconcileError unit * RC)) reply spawned :
  (k ≫= (fun x => Val (reply_result a x))) = Val (reply, spawned, a') ->
  (forall x, k = Val x -> volume_frame (ag_rc a) x.2) -> volume_frame (ag_rc a) (ag_rc a').
Proof. destruct k as [x|]; [|done]. rewrite Val_bind. intros [= _ _ <-] Hk. by apply Hk. Qed.

Lemma net_call_frame (f : Nt -> result NetError unit * Nt) s : volume_frame s (net_call f s).2.
Proof. unfold net_call. destruct (f _). by apply same_zfs_frame. Qed.

(** A command that deletes the volume, and one that deletes a snapshot of it. *)
Definition deletes (command : AgentCommand) : Prop := command = AgDeleteVolume name.
Definition deletes_snapshot (command : AgentCommand) : Prop :=
  exists n, command = AgDeleteVolume n /\ snapshot_of n name.

Lemma handle_command_frame ck command (a a' : Agent) reply spawned :
  ~ deletes command -> ~ deletes_snapshot command -> handle_command ck command a = Val (reply, spawned, a') ->
  volume_frame (ag_rc a) (ag_rc a').
Proof.
  intros Hne Hsn E. destruct command; cbn [handle_command] in E;
    try (by injection E as _ _ <-); try (injection E as _ _ <-; apply net_call_frame).
  - destruct (then_reconcile ck (apply spec) (ag_rc a)) as [[r s]|] eqn:E1; [|done].
    rewrite Val_bind in E. apply then_reconcile_frame in E1; [|apply apply_frame].
    destruct (if _ && _ then _ else _) as [sp re]. by injection E as _ _ <-.
  - eapply reply_frame; [exact E|]. intros x. apply then_reconcile_frame, delete_jail_frame.
  - destruct (reconcile _ _ _ _) as [[fs s]|] eqn:E1; [|done]. rewrite Val_bind in E.
    injection E as _ _ <-. by apply reconcile_frame in E1.
  - destruct (committed_resources _) as [[cpu mem]|]; [|done]. rewrite Val_bind in E. by injection E as _ _ <-.
  - eapply reply_frame; [exact E|]. intros [r s] E1. by apply get_volume_frame in E1.
  - eapply reply_frame; [exact E|]. intros [r s] E1. apply delete_volume_frame in E1; [done| |].
    + intros ->. by apply Hne.
    + intros Hs. apply Hsn. by eexists.
  - eapply reply_frame; [exact E|]. intros [r s] E1. by apply set_replicate_to_frame in E1.
  - destruct (resume_loops _ _) as [sp re]. by injection E as _ _ <-.
  - eapply reply_frame; [exact E|]. intros x. apply then_reconcile_frame, apply_ingress_frame.
  - eapply reply_frame; [exact E|]. intros x. apply then_reconcile_frame, delete_ingress_frame.
Qed.

(** A volume replication keeps a snapshot of cannot be deleted. *)
Lemma delete_volume_refused (a : Agent) ck v :
  rc_pool (ag_rc a) = P -> volume (rc_zfs (ag_rc a)) path = Some v -> vl_snapshots v <> [] ->
  exists e a', handle_command ck (AgDeleteVolume name) a = Val (ReplyResult (Err (EZfs e)), [], a') /\
    rc_pool (ag_rc a') = P /\ volume (rc_zfs (ag_rc a')) path = Some v.
Proof.
  intros Hp Hv Hs. destruct (zd_destroy_refused path (rc_zfs (ag_rc a)) v Hv Hs) as (e & z & E & Hz).
  exists e, (mkAgent (set_zfs z (ag_rc a)) (ag_replicating a)). split; [|done].
  cbn. unfold delete_volume, st_bind, st_get, on_zfs. by rewrite Hp, E.
Qed.

Lemma command_cases command :
  deletes command \/ deletes_snapshot command \/ ~ deletes command /\ ~ deletes_snapshot command.
Proof.
  unfold deletes, deletes_snapshot.
  destruct command as [| | | | | | | | | |n| | | | |]; try (right; right; split; [done|by intros (? & [=] & _)]).
  destruct (decide (n = name)) as [->|Hne]; [by left|]. destruct (decide (snapshot_of n name)) as [Hs|Hs].
  - right. left. by exists n.
  - right. right. split; [congruence|]. by intros (m & [= <-] & Hm).
Qed.

(** A deletion keeps the pool. *)
Lemma delete_volume_runs ck n (a a' : Agent) reply spawned :
  handle_command ck (AgDeleteVolume n) a = Val (reply, spawned, a') ->
  rc_pool (ag_rc a') = rc_pool (ag_rc a) /\
  rc_zfs (ag_rc a') = (destroy_dataset (volume_dataset_path (rc_pool (ag_rc a)) n) (rc_zfs (ag_rc a))).2.
Proof.
  cbn. unfold delete_volume, st_bind, st_get, on_zfs. destruct (destroy_dataset _ _) as [r z].
  by intros [= _ _ <-].
Qed.

(** A command that deletes no snapshot of the volume, nor the volume while it has none. *)
Lemma handle_command_volume ck command (a a' : Agent) reply spawned v :
  handle_command ck command a = Val (reply, spawned, a') ->
  rc_pool (ag_rc a) = P -> volume (rc_zfs (ag_rc a)) path = Some v ->
  ~ deletes_snapshot command -> vl_snapshots v <> [] \/ ~ deletes command ->
  rc_pool (ag_rc a') = P /\ exists v', volume (rc_zfs (ag_rc a')) path = Some v' /\ vl_kept sn_data v v'.
Proof.
  intros E Hp Hv Hsn Hc. destruct (command_cases command) as [Heq|[|[Hne _]]]; [|done|].
  - unfold deletes in *. subst command. destruct Hc as [Hs|]; [|done].
    destruct (delete_volume_refused a ck v Hp Hv Hs) as (e & a1 & E1 & Hp1 & Hv1).
    rewrite E in E1. injection E1 as _ _ <-. split; [done|]. by exists v.
  - destruct (handle_command_frame _ _ _ _ _ _ Hne Hsn E Hp) as [Hp' Hk]. split; [done|]. by apply Hk.
Qed.

(** The data outlives every command but the deletion of the volume. *)
Lemma handle_command_data ck command (a a' : Agent) reply spawned v :
  handle_command ck command a = Val (reply, spawned, a') ->
  rc_pool (ag_rc a) = P -> volume (rc_zfs (ag_rc a)) path = Some v -> ~ deletes command ->
  rc_pool (ag_rc a') = P /\ exists v', volume (rc_zfs (ag_rc a')) path = Some v' /\ vl_data v' = vl_data v.
Proof.
  intros E Hp Hv Hne. destruct (command_cases command) as [|[(n & -> & Hn)|[_ Hsn]]]; [done| |].
  - destruct (delete_volume_runs _ _ _ _ _ _ E) as [Hp' Hz]. split; [congruence|].
    pose proof (zd_destroy_snapshots (volume_dataset_path P n) (rc_zfs (ag_rc a)) path
      (proj2 (volume_path_snapshot n) Hn)) as Ht.
    rewrite Hp in Hz. rewrite <- Hz, Hv in Ht. inversion Ht as [v0 v' [Hd _] E0 Ev'|]. by exists v'.
  - destruct (handle_command_frame _ _ _ _ _ _ Hne Hsn E Hp) as [Hp' Hk]. split; [done|].
    destruct (Hk v Hv) as (v' & Ev' & Hd & _). by exists v'.
Qed.
End agent_volumes.

Section survive.
Context {HO : HashOrder} {I : Ipnet} {YJR : SerdeYaml JailRecord} {YIR : SerdeYaml IngressRecord}.
Context {J Zf Nt M A D X : Type}.
Context {HJ : JailRuntime J} {HZ : ZfsManager Zf} {HN : NetManager Nt} {HM : MountManager M}
        {HA : AcmeClient A D} {HX : NginxController X}.
Context {Data Snap : Type} {HD : ZfsData Zf Data Snap}.
Notation Agent := (@Agent J Zf Nt M A D X).

(** What a run of commands none of which satisfies [bad] keeps, if each of them does. *)
Lemma agent_loop_keeps (Q : Volume Data Snap -> Prop) (R : Volume Data Snap -> Volume Data Snap -> Prop)
    (bad : AgentCommand -> Prop) name commands (a a' : Agent) replies spawned v :
  PreOrder R -> (forall v v', R v v' -> Q v -> Q v') ->
  (forall ck command (a a' : Agent) reply spawned v, ~ bad command -> Q v ->
    handle_command ck command a = Val (reply, spawned, a') ->
    volume (rc_zfs (ag_rc a)) (volume_dataset_path (rc_pool (ag_rc a)) name) = Some v ->
    rc_pool (ag_rc a') = rc_pool (ag_rc a) /\
    exists v', volume (rc_zfs (ag_rc a')) (volume_dataset_path (rc_pool (ag_rc a)) name) = Some v' /\ R v v') ->
  agent_loop commands a = Val (replies, spawned, a') -> Forall (fun c => ~ bad c.2) commands -> Q v ->
  volume (rc_zfs (ag_rc a)) (volume_dataset_path (rc_pool (ag_rc a)) name) = Some v ->
  exists v', volume (rc_zfs (ag_rc a')) (volume_dataset_path (rc_pool (ag_rc a)) name) = Some v' /\ R v v'.
Proof.
  intros HR HQ Hstep. remember (rc_pool (ag_rc a)) as P eqn:Hp. symmetry in Hp. revert a Hp replies spawned v.
  induction commands as [|[ck command] commands IH]; intros a Hp replies spawned v; cbn.
  { intros [= _ _ <-] _ _ Hv. exists v. split; [done|]. reflexivity. }
  destruct (handle_command ck command a) as [[[reply sp] a1]|] eqn:E1; [|done]. rewrite Val_bind.
  destruct (agent_loop commands a1) as [[[replies1 sp1] a2]|] eqn:E2; [|done]. rewrite Val_bind.
  intros [= _ _ <-] [Hc Hcs]%Forall_cons Hv Ev. subst P.
  destruct (Hstep ck command a a1 reply sp v Hc Hv E1 Ev) as [Hp1 (v1 & Hv1 & K1)].
  destruct (IH a1 Hp1 _ _ v1 E2 Hcs) as (v2 & Hv2 & K2); [by eapply HQ|done|].
  exists v2. split; [done|]. by transitivity v1.
Qed.

(** C7: volumes survive.  On any host whose ZFS keeps its documented laws
    ([ZfsData]), whatever the host answers, no sequence of commands writes, rolls back or destroys the data of a volume, but the explicit
    deletion of that volume: applying, deleting and re-applying the jails that mount
    it, failed provisioning and its rollback, certificates and ingresses leave it
    alone.  As long as no command deletes one of its snapshots, which a deletion
    whose name is the volume's followed by an at sign and the snapshot's does, its
    snapshots stay too, and then a volume that replication keeps a snapshot of
    survives even its own deletion. *)
Theorem volumes_survive commands (a a' : Agent) replies spawned name v :
  let path := volume_dataset_path (rc_pool (ag_rc a)) name in
  agent_loop commands a = Val (replies, spawned, a') ->
  volume (rc_zfs (ag_rc a)) path = Some v ->
  (Forall (fun c => ~ deletes name c.2) commands ->
   exists v', volume (rc_zfs (ag_rc a')) path = Some v' /\ vl_data v' = vl_data v) /\
  (Forall (fun c => ~ deletes_snapshot name c.2) commands ->
   vl_snapshots v <> [] \/ Forall (fun c => ~ deletes name c.2) commands ->
   exists v', volume (rc_zfs (ag_rc a')) path = Some v' /\ vl_kept sn_data v v').
Proof.
  intros path E Ev. split.
  - intros Hc. apply (agent_loop_keeps (fun _ => True) (fun v v' => vl_data v' = vl_data v) (deletes name)
      name commands a a' replies spawned v); try done.
    + split; [by intros x|]. intros x y z E1 E2. congruence.
    + intros. by eapply handle_command_data.
  - intros Hsn Hc.
    destruct Hc as [Hs|Hc].
    + apply (agent_loop_keeps (fun v => vl_snapshots v <> []) (vl_kept sn_data) (deletes_snapshot name)
        name commands a a' replies spawned v); try done; [apply _| |].
      * intros x y (_ & l & -> & _) Hx. by destruct l.
      * intros. eapply handle_command_volume; eauto.
    + apply (agent_loop_keeps (fun _ => True) (vl_kept sn_data) (fun c => deletes name c \/ deletes_snapshot name c)
        name commands a a' replies spawned v); try done; [apply _| |].
      * intros ck c b b' reply sp u Hb _ E1 Eu. eapply handle_command_volume; eauto.
      * rewrite Forall_forall in *. intros c Hin [H|H]; [by apply (Hc c)|by apply (Hsn c)].
Qed.
End survive.

(** ** Evaluation *)

Definition db_volume_path : string := volume_dataset_path "zroot" "db-0-data".
Definition data_host : Pool :=
  mkPool (<["zroot/keel/base/14.2-web" := mkVolume "image" []]> {[db_volume_path := mkVolume "rows" [("keel-repl-1", (0%N, "rows"))]]}) 1.
Definition data_agent : @Agent FakeJailRuntime Pool FakeNetManager FakeMountManager FakeAcmeClient
    FakeDnsProvider FakeNginxController :=
  mkAgent (mkReconciler fake_jail_new data_host (mkFakeNetManager ∅ ∅ ∅ ∅ ∅) (mkFakeMountManager ∅) "zroot"
    empty_disk empty_disk empty_disk ∅ ∅ 1 ∅ ∅ (mkFakeAcme false) (mkFakeDns ∅ false) (mkFakeNginx ∅ false ∅) ∅) ∅.
Definition data_loop := @agent_loop list_order ipnet_model yaml_jail_record yaml_ingress_record
  _ _ _ _ _ _ _ fake_jail_runtime pool_zfs (@fake_net_manager ipnet_model) fake_mount_manager
  (@fake_acme FakeDnsProvider fake_dns) fake_nginx.
Definition clocked : list AgentCommand -> list (Clock * AgentCommand) := fmap (fun c => (demo_clock, c)).
Definition data_commands : list (Clock * AgentCommand) :=
  clocked [AgApply db_spec; AgDelete "db-0"; AgDeleteVolume "web-0-data"; AgDeleteVolume "db-0-data"; AgApply db_spec].

Lemma volumes_survive_witness :
  exists replies spawned a v, data_loop data_commands data_agent = Val (replies, spawned, a) /\
    pl_volumes (rc_zfs (ag_rc a)) !! db_volume_path = Some v /\ vl_data v = "rows".
Proof.
  assert (match data_loop data_commands data_agent with Val _ => True | Panic => False end) as H
    by (vm_compute; exact I).
  destruct (data_loop data_commands data_agent) as [[[replies spawned] a]|] eqn:E; [|destruct H].
  destruct (@volumes_survive list_order ipnet_model yaml_jail_record yaml_ingress_record
    _ _ _ _ _ _ _ fake_jail_runtime pool_zfs (@fake_net_manager ipnet_model) fake_mount_manager
    (@fake_acme FakeDnsProvider fake_dns) fake_nginx string (N * string)%type pool_data
    data_commands data_agent a replies spawned "db-0-data"
    (mkVolume "rows" [("keel-repl-1", (0%N, "rows"))]) E) as (_ & Hkept).
  - vm_compute. reflexivity.
  - destruct Hkept as (v & Hv & Hd & _).
    + repeat (constructor; [|]); [| | | | |constructor]; intros (n & Hn & s & Hs & _); try discriminate Hn;
        cbn in Hn; injection Hn as <-; discriminate Hs.
    + left. discriminate.
    + exists replies, spawned, a, v. split; [reflexivity|]. split; [exact Hv|exact Hd].
Defined.

(** The name of a deletion is not validated: one that names the snapshot replication
    keeps destroys it, and then the volume can be deleted. *)
Example snapshot_deleted_by_name :
  match data_loop (clocked [AgDeleteVolume "db-0-data"; AgDeleteVolume "db-0-data@keel-repl-1";
                            AgDeleteVolume "db-0-data"]) data_agent with
  | Val (replies, _, a) =>
      (match replies with
       | [ReplyResult (Err (EZfs _)); ReplyResult (Ok _); ReplyResult (Ok _)] => true
       | _ => false
       end, is_some (pl_volumes (rc_zfs (ag_rc a)) !! db_volume_path))
  | Panic => (false, true)
  end = (true, false).
Proof. vm_compute. reflexivity. Qed.
