(* ===== verification/Replication.v ===== *)
(** * Volume replication

    [keel-agentd/src/replication.rs], [replication_loop.rs], [replica_target.rs]
    and [replica_target_store.rs]: the sender of a stateful replica snapshots its
    volume on every tick and offers the snapshot to the standby, which accepts it
    only against the snapshot it received last.  Byte streams are strings; a
    connection may fail to open, lose the answer of the standby, or deliver
    something else than what was sent. *)

From S2P Require Import Prelude RustStr Text Spec Codecs AgentHost Store Reconciler.

(** ** The header *)

Definition ACK_PROCEED : N := 0.
Definition ACK_NEED_FULL : N := 1.

Record Header : Type := mkHeader {
  hd_replica_name : string;
  hd_snapshot_id : string;
  hd_base_snapshot_id : option string
}.

(** [ErrorKind::Other] carries the store's or the ZFS manager's error. *)
Inductive IoError : Type :=
  | UnexpectedEof
  | InvalidData
  | ConnectionRefused
  | BrokenPipe
  | OtherStore (e : StoreError)
  | OtherZfs (e : ZfsError).

(** [u32::to_be_bytes] and [from_be_bytes]. *)
Definition to_be_bytes (n : N) : string :=
  bytes [(n / 2 ^ 24) mod 256; (n / 2 ^ 16) mod 256; (n / 2 ^ 8) mod 256; n mod 256]%N.
Fixpoint be_value (acc : N) (s : string) : N :=
  match s with
  | EmptyString => acc
  | String c s => be_value (acc * 256 + code c) s
  end.
Definition from_be_bytes (s : string) : N := be_value 0 s.

(** [bytes.len() as u32] keeps the low 32 bits. *)
Definition write_len_prefixed (s : string) : string := to_be_bytes (wrap32 (str_len s)) +:+ s.

Fixpoint read_exact (n : nat) (stream : string) : result IoError (string * string) :=
  match n, stream with
  | O, _ => Ok (EmptyString, stream)
  | S _, EmptyString => Err UnexpectedEof
  | S n, String c stream =>
      '(buf, rest) ← read_exact n stream;
      Ok (String c buf, rest)
  end.

(** [String::from_utf8]: valid text is what the lossy conversion leaves alone. *)
Definition from_utf8 (s : string) : result IoError string :=
  if String.eqb (from_utf8_lossy s) s then Ok s else Err InvalidData.

Definition read_len_prefixed (stream : string) : result IoError (string * string) :=
  '(len_buf, stream) ← read_exact 4 stream;
  '(buf, stream) ← read_exact (N.to_nat (from_be_bytes len_buf)) stream;
  s ← from_utf8 buf;
  Ok (s, stream).

Definition write_header (replica_name snapshot_id : string) (base_snapshot_id : option string) : string :=
  write_len_prefixed replica_name +:+ write_len_prefixed snapshot_id +:+
  match base_snapshot_id with
  | None => bytes [0%N]
  | Some base => bytes [1%N] +:+ write_len_prefixed base
  end.

Definition read_header (stream : string) : result IoError (Header * string) :=
  '(replica_name, stream) ← read_len_prefixed stream;
  '(snapshot_id, stream) ← read_len_prefixed stream;
  '(has_base, stream) ← read_exact 1 stream;
  '(base_snapshot_id, stream) ←
    (if String.eqb has_base (bytes [0%N]) then Ok (None, stream)
     else '(base, stream) ← read_len_prefixed stream; Ok (Some base, stream));
  Ok (mkHeader replica_name snapshot_id base_snapshot_id, stream).

Lemma read_exact_app s rest : read_exact (String.length s) (s +:+ rest) = Ok (s, rest).
Proof. induction s as [|c s IH]; [done|]. autorewrite with keel_str. cbn. by rewrite IH. Qed.

Lemma code_ascii_of_N b : (b < 256)%N -> code (ascii_of_N b) = b.
Proof. intros Hb. unfold code. by apply N_ascii_embedding. Qed.

Lemma from_to_be_bytes n : (n <= u32_max)%N -> from_be_bytes (to_be_bytes n) = n.
Proof.
  intros Hn. unfold from_be_bytes, to_be_bytes. cbn [bytes foldr be_value].
  rewrite !code_ascii_of_N by (apply N.mod_lt; lia). unfold u32_max in Hn.
  change (2 ^ 24)%N with (256 * 256 * 256)%N. change (2 ^ 16)%N with (256 * 256)%N.
  change (2 ^ 8)%N with 256%N. rewrite <- !N.Div0.div_div.
  rewrite (N.mod_small (n / 256 / 256 / 256)).
  2:{ rewrite !N.Div0.div_div. apply N.Div0.div_lt_upper_bound. lia. }
  rewrite N.mul_0_l, N.add_0_l.
  pose proof (N.div_mod (n / 256 / 256) 256). pose proof (N.div_mod (n / 256) 256).
  pose proof (N.div_mod n 256). lia.
Qed.

(** The texts the protocol can carry: UTF-8, with a length of 32 bits. *)
Definition wire_ok (s : string) : Prop := from_utf8_lossy s = s /\ (str_len s <= u32_max)%N.

Lemma read_write_len_prefixed s rest :
  wire_ok s -> read_len_prefixed (write_len_prefixed s +:+ rest) = Ok (s, rest).
Proof.
  intros [Hu Hl]. unfold read_len_prefixed, write_len_prefixed.
  rewrite <-app_assoc_str. change 4%nat with (String.length (to_be_bytes (wrap32 (str_len s)))).
  rewrite read_exact_app, Ok_bind.
  assert (wrap32 (str_len s) = str_len s) as -> by (apply N.mod_small; unfold u32_max in Hl; lia).
  rewrite from_to_be_bytes by done. unfold str_len. rewrite Nat2N.id, read_exact_app, Ok_bind.
  unfold from_utf8. by rewrite Hu, String.eqb_refl.
Qed.

Lemma read_header_write replica_name snapshot_id base rest :
  wire_ok replica_name -> wire_ok snapshot_id -> (forall b, base = Some b -> wire_ok b) ->
  read_header (write_header replica_name snapshot_id base +:+ rest) =
    Ok (mkHeader replica_name snapshot_id base, rest).
Proof.
  intros Hr Hs Hb. unfold read_header, write_header. rewrite <- !app_assoc_str.
  rewrite read_write_len_prefixed, Ok_bind by done.
  rewrite read_write_len_prefixed, Ok_bind by done. destruct base as [b|].
  - rewrite <- app_assoc_str. change 1%nat with (String.length (bytes [1%N])).
    rewrite read_exact_app, Ok_bind. cbn [String.eqb bytes foldr].
    change (Ascii.eqb _ _) with false. cbn iota. by rewrite read_write_len_prefixed by auto.
  - change 1%nat with (String.length (bytes [0%N])). rewrite read_exact_app, Ok_bind.
    by rewrite String.eqb_refl.
Qed.

(** The replication header survives the wire.  Whatever follows it on the
    stream, the standby reads back exactly the replica, the snapshot and the
    base the sender wrote, and is left at the first byte of the payload. *)
Theorem header_roundtrip replica_name snapshot_id base rest :
  wire_ok replica_name -> wire_ok snapshot_id -> (forall b, base = Some b -> wire_ok b) ->
  read_header (write_header replica_name snapshot_id base +:+ rest) =
    Ok (mkHeader replica_name snapshot_id base, rest).
Proof. apply read_header_write. Qed.

(** ** [ReplicaTargetRegistry] *)

Record ReplicaTarget : Type := mkReplicaTarget {
  rt_replica_name : string;
  rt_volume_dataset : string;
  rt_source_node_addr : string;
  rt_last_snapshot : option string
}.

#[global] Instance ReplicaTarget_repr : Repr ReplicaTarget := fun _ => True.
#[global] Instance ReplicaTarget_eq_dec : EqDecision ReplicaTarget.
Proof. solve_decision. Defined.
#[global] Instance ReplicaTarget_countable : Countable ReplicaTarget.
Proof.
  refine (inj_countable' (fun x => (rt_replica_name x, rt_volume_dataset x, rt_source_node_addr x,
      rt_last_snapshot x)) (fun '(a0, a1, a2, a3) => mkReplicaTarget a0 a1 a2 a3) _).
  by intros [].
Defined.
#[global] Instance repr_dec_replica_target (x : ReplicaTarget) : Decision (repr x).
Proof. unfold repr, ReplicaTarget_repr. apply _. Defined.
Definition yaml_replica_target : SerdeYaml ReplicaTarget := serde_countable.

Definition TARGETS_DIR : string := "state/replica-targets".

(** The targets known in memory and the directory that mirrors them. *)
Record ReplicaTargetRegistry : Type := mkTargets {
  tg_by_name : gmap string ReplicaTarget;
  tg_disk : Disk
}.

Section replication.
Context {HO : HashOrder} {YT : SerdeYaml ReplicaTarget}.

Definition load_targets : Disk -> result StoreError (list ReplicaTarget) := load_all TARGETS_DIR.
Definition save_target : ReplicaTarget -> Disk -> result StoreError unit * Disk :=
  save rt_replica_name TARGETS_DIR.

Definition targets_load (disk : Disk) : result StoreError ReplicaTargetRegistry :=
  loaded ← load_targets disk;
  Ok (mkTargets (collect_records rt_replica_name loaded) disk).

Definition targets_get (t : ReplicaTargetRegistry) (replica_name : string) : option ReplicaTarget :=
  tg_by_name t !! replica_name.

(** Both updates change the table before they write the file. *)
Definition targets_ensure (replica_name volume_dataset source_node_addr : string)
    (t : ReplicaTargetRegistry) : result StoreError ReplicaTarget * ReplicaTargetRegistry :=
  let found := default (mkReplicaTarget replica_name volume_dataset source_node_addr None)
                 (tg_by_name t !! replica_name) in
  let target := mkReplicaTarget (rt_replica_name found) (rt_volume_dataset found) source_node_addr
                  (rt_last_snapshot found) in
  let '(r, d) := save_target target (tg_disk t) in
  (match r with Ok _ => Ok target | Err e => Err e end,
   mkTargets (<[replica_name := target]> (tg_by_name t)) d).

Definition record_snapshot (replica_name snapshot_id : string) (t : ReplicaTargetRegistry)
    : result StoreError unit * ReplicaTargetRegistry :=
  match tg_by_name t !! replica_name with
  | None => (Ok tt, t)
  | Some found =>
      let target := mkReplicaTarget (rt_replica_name found) (rt_volume_dataset found)
                      (rt_source_node_addr found) (Some snapshot_id) in
      let '(r, d) := save_target target (tg_disk t) in
      (r, mkTargets (<[replica_name := target]> (tg_by_name t)) d)
  end.

(** ** The standby *)

Context {Zf : Type} {HZ : ZfsManager Zf}.

Record Standby : Type := mkStandby {
  sb_zfs : Zf;
  sb_pool : string;
  sb_targets : ReplicaTargetRegistry
}.

Definition set_sb_targets (t : ReplicaTargetRegistry) (sb : Standby) : Standby :=
  mkStandby (sb_zfs sb) (sb_pool sb) t.
Definition set_sb_zfs (z : Zf) (sb : Standby) : Standby :=
  mkStandby z (sb_pool sb) (sb_targets sb).

(** One accepted connection.  [ack_sent] says whether the answer can be written,
    [payload] what follows it on the stream.  The result is the answer, if one
    was written, the outcome of the handler, and the standby afterwards. *)
Definition handle_replication (header_bytes peer_addr : string) (ack_sent : bool) (payload : string)
    (sb : Standby) : option N * result IoError unit * Standby :=
  match read_header header_bytes with
  | Err e => (None, Err e, sb)
  | Ok (header, _) =>
      let dataset := volume_dataset_path (sb_pool sb) (hd_replica_name header +:+ "-data") in
      let '(r, t) := targets_ensure (hd_replica_name header) dataset peer_addr (sb_targets sb) in
      let sb := set_sb_targets t sb in
      match r with
      | Err e => (None, Err (OtherStore e), sb)
      | Ok target =>
          if negb ack_sent then (None, Err (BrokenPipe), sb)
          else if negb (bool_decide (hd_base_snapshot_id header = rt_last_snapshot target))
          then (Some ACK_NEED_FULL, Ok tt, sb)
          else
            let '(r, z) := receive_snapshot dataset payload (sb_zfs sb) in
            let sb := set_sb_zfs z sb in
            match r with
            | Err e => (Some ACK_PROCEED, Err (OtherZfs e), sb)
            | Ok _ =>
                let '(r, t) := record_snapshot (hd_replica_name header) (hd_snapshot_id header)
                                 (sb_targets sb) in
                (Some ACK_PROCEED, map_err OtherStore r,
                 set_sb_targets t sb)
            end
      end
  end.

(** ** The sender *)

(** A connection to the standby that took the header: its address as the standby sees it,
    whether the answer gets through, the error that writing the payload meets, if it
    meets one, and what the standby gets of the payload. *)
Record Conn : Type := mkConn {
  cn_peer : string;
  cn_ack : bool;
  cn_write_error : option string;
  cn_payload : string -> string
}.

Inductive SendOnceError : Type :=
  | NeedFull
  | SendIo (e : IoError).

Definition send_once (conn : option Conn) (zfs : Zf) (replica_name dataset snapshot_id : string)
    (base : option string) (sb : Standby) : result SendOnceError unit * Standby :=
  match conn with
  | None => (Err (SendIo ConnectionRefused), sb)
  | Some c =>
      let '(sent, stream) := send_snapshot zfs dataset snapshot_id base (cn_write_error c) in
      let '(ack, _, sb) := handle_replication (write_header replica_name snapshot_id base)
                             (cn_peer c) (cn_ack c) (cn_payload c stream) sb in
      match ack with
      | None => (Err (SendIo UnexpectedEof), sb)
      | Some a =>
          if (a =? ACK_NEED_FULL)%N then (Err NeedFull, sb)
          else (map_err (fun e => SendIo (OtherZfs e)) sent, sb)
      end
  end.

(** The state of a replication loop, and the sender's own ZFS. *)
Record Loop : Type := mkLoop {
  lp_last_confirmed_sent : option string;
  lp_tick : N;
  lp_zfs : Zf
}.

Definition loop_start (zfs : Zf) : Loop := mkLoop None 0 zfs.

Definition snapshot_name (tick : N) : string := "keel-repl-" +:+ u_to_string tick.

(** The previous base goes once a new one is confirmed; a failure is logged. *)
Definition prune_previous (dataset : string) (last_confirmed_sent : option string) (zfs : Zf) : Zf :=
  match last_confirmed_sent with
  | Some previous => (destroy_snapshot dataset previous zfs).2
  | None => zfs
  end.

(** One iteration: [record] is what the worker answers to the loop's [Get];
    [None] is the end of the loop. *)
Definition loop_tick (replica_name dataset : string) (record : option JailRecord) (conn : option Conn)
    (lp : Loop) (sb : Standby) : comp (option Loop * Standby) :=
  tick ← add_u64 (lp_tick lp) 1;
  match record with
  | None => Val (None, sb)
  | Some record =>
      match sp_replicate_to (js_spec (jr_spec record)) with
      | None => Val (Some (mkLoop (lp_last_confirmed_sent lp) tick (lp_zfs lp)), sb)
      | Some _ =>
          let snapshot_id := snapshot_name tick in
          let '(r, zfs) := snapshot dataset snapshot_id (lp_zfs lp) in
          match r with
          | Err _ => Val (Some (mkLoop (lp_last_confirmed_sent lp) tick zfs), sb)
          | Ok _ =>
              let '(sent, sb) := send_once conn zfs replica_name dataset snapshot_id
                                   (lp_last_confirmed_sent lp) sb in
              match sent with
              | Ok _ =>
                  let zfs := prune_previous dataset (lp_last_confirmed_sent lp) zfs in
                  Val (Some (mkLoop (Some snapshot_id) tick zfs), sb)
              | Err NeedFull => Val (Some (mkLoop None tick zfs), sb)
              | Err (SendIo _) => Val (Some (mkLoop (lp_last_confirmed_sent lp) tick zfs), sb)
              end
          end
      end
  end.

(** The loop over what happens at each tick. *)
Fixpoint loop_run (replica_name dataset : string) (ticks : list (option JailRecord * option Conn))
    (lp : Loop) (sb : Standby) : comp (option Loop * Standby) :=
  match ticks with
  | [] => Val (Some lp, sb)
  | (record, conn) :: ticks =>
      '(lp, sb) ← loop_tick replica_name dataset record conn lp sb;
      match lp with
      | Some lp => loop_run replica_name dataset ticks lp sb
      | None => Val (None, sb)
      end
  end.

(** ** What a connection does *)

Lemma snapshot_name_wire_ok tick : (tick <= u64_max)%N -> wire_ok (snapshot_name tick).
Proof.
  intros Ht. split.
  - apply from_utf8_lossy_ascii. unfold snapshot_name. rewrite str_all_app.
    apply andb_true_iff. split; [done|]. pose proof (u_to_string_digits tick) as Hd. revert Hd.
    generalize (u_to_string tick). induction s as [|c s IH]; cbn; [done|].
    intros [Hc Hs]%andb_true_iff. rewrite IH by done. unfold is_ascii_digit in Hc.
    apply andb_true_iff in Hc as [_ Hc]. bool_to_prop.
    rewrite (proj2 (N.ltb_lt _ _)); [done|lia].
  - unfold str_len, snapshot_name, u32_max. rewrite length_app_str.
    pose proof (u64_to_string_length tick Ht) as Hl. clear Ht.
    change (String.length "keel-repl-") with 10%nat. lia.
Qed.

(** The last snapshot the standby has recorded for a replica it knows. *)
Definition standby_last (sb : Standby) (replica_name : string) : option (option string) :=
  rt_last_snapshot <$> targets_get (sb_targets sb) replica_name.

(** An offer against another base than the standby's is refused, whatever the
    connection does, and the standby only notes the address. *)
Lemma handle_replication_refused replica_name snapshot_id base peer ack payload sb last :
  wire_ok replica_name -> wire_ok snapshot_id -> (forall b, base = Some b -> wire_ok b) ->
  standby_last sb replica_name = Some last -> base <> last ->
  exists answer r sb',
    handle_replication (write_header replica_name snapshot_id base) peer ack payload sb =
      (answer, r, sb') /\
    (answer = None \/ answer = Some ACK_NEED_FULL) /\ sb_zfs sb' = sb_zfs sb /\
    sb_pool sb' = sb_pool sb /\ standby_last sb' replica_name = Some last.
Proof.
  intros Hr Hs Hb Hl Hne. unfold handle_replication.
  rewrite <-(app_nil_r_str (write_header _ _ _)), read_header_write by done.
  cbn [hd_replica_name hd_base_snapshot_id]. unfold standby_last, targets_get in *.
  destruct (tg_by_name (sb_targets sb) !! replica_name) as [found|] eqn:Ef; [|done].
  cbn in Hl. injection Hl as Hl. unfold targets_ensure. rewrite Ef. cbn [default].
  set (target := mkReplicaTarget _ _ _ _). destruct (save_target target _) as [[[]|e] d].
  2:{ eexists _, _, _. split; [done|]. split; [by left|]. split; [done|]. split; [done|].
      cbn. rewrite lookup_insert_eq. cbn. by rewrite Hl. }
  destruct ack; cbn [negb].
  2:{ eexists _, _, _. split; [done|]. split; [by left|]. split; [done|]. split; [done|].
      cbn. rewrite lookup_insert_eq. cbn. by rewrite Hl. }
  rewrite bool_decide_eq_false_2 by (cbn; congruence). cbn [negb].
  eexists _, _, _. split; [done|]. split; [by right|]. split; [done|]. split; [done|].
  cbn. rewrite lookup_insert_eq. cbn. by rewrite Hl.
Qed.

(** ** A lost base *)

(** A sender whose base is not the standby's last snapshot. *)
Lemma loop_tick_stuck replica_name dataset record conn lp sb last :
  wire_ok replica_name -> (forall b, lp_last_confirmed_sent lp = Some b -> wire_ok b) ->
  lp_last_confirmed_sent lp <> Some last ->
  standby_last sb replica_name = Some (Some last) -> (lp_tick lp < u64_max)%N ->
  exists lp' sb', loop_tick replica_name dataset record conn lp sb = Val (lp', sb') /\
    (forall l, lp' = Some l -> lp_tick l = (lp_tick lp + 1)%N /\
       (lp_last_confirmed_sent l = None \/ lp_last_confirmed_sent l = lp_last_confirmed_sent lp)) /\
    sb_zfs sb' = sb_zfs sb /\ sb_pool sb' = sb_pool sb /\ standby_last sb' replica_name = Some (Some last).
Proof.
  intros Hr Hb Hne Hsb Ht. unfold loop_tick, add_u64. rewrite (proj2 (N.leb_le _ _)) by lia.
  rewrite Val_bind.
  assert (forall z, exists lp' sb',
    @Val (option Loop * Standby) (Some (mkLoop (lp_last_confirmed_sent lp) (lp_tick lp + 1) z), sb) =
      Val (lp', sb') /\
    (forall l, lp' = Some l -> lp_tick l = (lp_tick lp + 1)%N /\
       (lp_last_confirmed_sent l = None \/ lp_last_confirmed_sent l = lp_last_confirmed_sent lp)) /\
    sb_zfs sb' = sb_zfs sb /\ sb_pool sb' = sb_pool sb /\ standby_last sb' replica_name = Some (Some last)) as Hsame.
  { intros z. eexists _, _. split; [done|]. split; [|done]. intros l [= <-]. split; [done|by right]. }
  destruct record as [record|]; [|by eexists _, _].
  destruct (sp_replicate_to _); [|apply Hsame].
  destruct (snapshot _ _ _) as [[[]|e] zfs]; [|apply Hsame].
  unfold send_once. destruct conn as [c|]; [|apply Hsame].
  destruct (send_snapshot _ _ _ _ _) as [sent stream]. set (payload := cn_payload c stream).
  destruct (handle_replication_refused replica_name (snapshot_name (lp_tick lp + 1))
    (lp_last_confirmed_sent lp) (cn_peer c) (cn_ack c) payload sb (Some last))
    as (answer & r & sb' & -> & Ha & Hz & Hp & Hl); [done|apply snapshot_name_wire_ok; lia|done|done|done|].
  destruct Ha as [->| ->]; cbn; eexists _, _; (split; [done|]); (split; [|done]);
    intros l [= <-]; (split; [done|]); [by right|by left].
Qed.

Lemma loop_run_stuck replica_name dataset ticks lp sb last :
  wire_ok replica_name -> (forall b, lp_last_confirmed_sent lp = Some b -> wire_ok b) ->
  lp_last_confirmed_sent lp <> Some last -> standby_last sb replica_name = Some (Some last) ->
  (lp_tick lp + N.of_nat (length ticks) <= u64_max)%N ->
  exists lp' sb', loop_run replica_name dataset ticks lp sb = Val (lp', sb') /\
    sb_zfs sb' = sb_zfs sb /\ sb_pool sb' = sb_pool sb /\ standby_last sb' replica_name = Some (Some last) /\
    (forall l, lp' = Some l -> lp_last_confirmed_sent l = None \/
       lp_last_confirmed_sent l = lp_last_confirmed_sent lp).
Proof.
  intros Hr. revert lp sb. induction ticks as [|[record conn] ticks IH]; intros lp sb Hw Hlp Hsb Ht;
    cbn [loop_run].
  { exists (Some lp), sb. repeat (split; [done|]). intros l [= <-]. by right. }
  cbn [length] in Ht.
  destruct (loop_tick_stuck replica_name dataset record conn lp sb last Hr Hw Hlp Hsb)
    as (lp1 & sb1 & -> & Hlp1 & Hz1 & Hp1 & Hl1); [lia|].
  rewrite Val_bind. destruct lp1 as [l|]; [|by exists None, sb1].
  destruct (Hlp1 l eq_refl) as [Htl Hl].
  destruct (IH l sb1) as (lp' & sb' & E & Hz & Hp & Hsb' & Hlp'); [|by destruct Hl as [->| ->]|done|lia|].
  { intros b Eb. destruct Hl as [El|El]; rewrite El in Eb; [done|by apply Hw]. }
  exists lp', sb'. split; [done|]. split; [congruence|]. split; [congruence|]. split; [done|].
  intros l' El'. destruct (Hlp' l' El') as [|E']; [by left|]. destruct Hl as [El|El]; [left|right]; congruence.
Qed.

(** C39: a lost base is never recovered.  Once the standby holds a snapshot and
    the sender has none confirmed (its agent restarted, or the standby refused
    an increment), every later offer is a full one, which the standby refuses
    because it names no base: for any number of ticks, over any connections,
    the standby's volume and its last snapshot never change again. *)
Theorem replication_never_resyncs replica_name dataset ticks lp sb last :
  wire_ok replica_name -> lp_last_confirmed_sent lp = None ->
  standby_last sb replica_name = Some (Some last) ->
  (lp_tick lp + N.of_nat (length ticks) <= u64_max)%N ->
  exists lp' sb', loop_run replica_name dataset ticks lp sb = Val (lp', sb') /\
    sb_zfs sb' = sb_zfs sb /\ standby_last sb' replica_name = Some (Some last) /\
    (forall l, lp' = Some l -> lp_last_confirmed_sent l = None).
Proof.
  intros Hr Hlp Hsb Ht.
  destruct (loop_run_stuck replica_name dataset ticks lp sb last Hr) as (lp' & sb' & E & Hz & _ & Hl & Hlp');
    rewrite ?Hlp in *; [by intros b [=]|by intros [=]|done|done|].
  exists lp', sb'. split; [done|]. split; [done|]. split; [done|]. intros l El. by destruct (Hlp' l El).
Qed.
End replication.

(** ** Two in-memory hosts in step *)

Lemma parse_fake_sent dataset snap base :
  contains_char "@"%char dataset = false -> contains_char ":"%char dataset = false ->
  contains_char ":"%char snap = false -> base <> Some "none" ->
  parse_fake_stream ("keel-zfs-fake-send:" +:+ dataset +:+ "@" +:+ snap +:+ ":base="
                     +:+ default "none" base +:+ newline) = Some (snap, base).
Proof.
  intros Hd1 Hd2 Hs Hb. unfold parse_fake_stream. rewrite strip_prefix_app. cbn [mbind option_bind].
  replace (dataset +:+ "@" +:+ snap +:+ ":base=" +:+ default "none" base +:+ newline)
    with ((dataset +:+ "@" +:+ snap +:+ ":base=" +:+ default "none" base) +:+ newline)
    by (by rewrite <- !app_assoc_str).
  unfold newline. rewrite strip_suffix_char_app. change (ascii_eqb _ _) with true. cbn [from_option id].
  replace (dataset +:+ "@" +:+ snap +:+ ":base=" +:+ default "none" base)
    with ((dataset +:+ String "@" snap) +:+ ":base=" +:+ default "none" base)
    by (by rewrite <- !app_assoc_str).
  rewrite split_once_str_app.
  - cbn [mbind option_bind]. rewrite (proj2 (split_once_Some "@"%char _ dataset snap)) by done.
    cbn. destruct base as [b|]; [|done]. cbn. destruct (String.eqb b "none") eqn:E; [|done].
    apply String.eqb_eq in E. congruence.
  - intros a [|c b] E Hne; [done|]. autorewrite with keel_str. cbn.
    assert (contains_char ":"%char (dataset +:+ String "@" snap) = false) as Hno.
    { rewrite contains_char_app, Hd2. cbn. exact Hs. }
    rewrite E, contains_char_app in Hno. apply orb_false_iff in Hno as [_ Hno].
    unfold contains_char in Hno. cbn in Hno. apply orb_false_iff in Hno as [Hno _].
    by rewrite Hno.
Qed.

Lemma snapshot_name_inj t1 t2 : snapshot_name t1 = snapshot_name t2 -> t1 = t2.
Proof.
  unfold snapshot_name. intros E. apply (f_equal (strip_prefix "keel-repl-")) in E.
  rewrite !strip_prefix_app in E. injection E as E. apply (f_equal parse_digits) in E.
  rewrite !parse_digits_u_to_string in E. by simplify_eq.
Qed.

Lemma snapshot_key_inj dataset s1 s2 : snapshot_key dataset s1 = snapshot_key dataset s2 -> s1 = s2.
Proof.
  unfold snapshot_key. intros E. apply (f_equal (strip_prefix dataset)) in E.
  rewrite !strip_prefix_app in E. by injection E.
Qed.

Section in_step.
Context {YT : SerdeYaml ReplicaTarget}.
Context (replica_name dataset : string).

Notation Sender := (@Loop FakeZfsManager).
Notation Standby := (@Standby FakeZfsManager).

Definition standby_dataset (sb : Standby) : string :=
  volume_dataset_path (sb_pool sb) (replica_name +:+ "-data").

(** The sender and the standby agree on the last snapshot and both have it. *)
Record in_step (lp : Sender) (sb : Standby) : Prop := {
  is_last : standby_last sb replica_name = Some (lp_last_confirmed_sent lp) \/
    standby_last sb replica_name = None /\ lp_last_confirmed_sent lp = None;
  is_base : forall b, lp_last_confirmed_sent lp = Some b ->
    (exists t, b = snapshot_name t /\ (t <= lp_tick lp)%N) /\
    snapshot_key dataset b ∈ fz_snapshots (lp_zfs lp) /\
    snapshot_key (standby_dataset sb) b ∈ fz_snapshots (sb_zfs sb);
  is_dataset : dataset ∈ fz_datasets (lp_zfs lp);
  is_disk : forall op file, dk_fault (tg_disk (sb_targets sb)) op file = None
}.

(** What the standby does with an offer against its own last snapshot. *)
Lemma handle_replication_accepted lp sb (snap peer payload : string) :
  in_step lp sb -> wire_ok replica_name -> wire_ok snap ->
  (forall b, lp_last_confirmed_sent lp = Some b -> wire_ok b) ->
  parse_fake_stream payload = Some (snap, lp_last_confirmed_sent lp) ->
  exists r sb',
    handle_replication (write_header replica_name snap (lp_last_confirmed_sent lp)) peer true payload sb
      = (Some ACK_PROCEED, r, sb') /\
    standby_last sb' replica_name = Some (Some snap) /\ sb_pool sb' = sb_pool sb /\
    fz_datasets (sb_zfs sb') = {[standby_dataset sb]} ∪ fz_datasets (sb_zfs sb) /\
    fz_snapshots (sb_zfs sb') =
      {[snapshot_key (standby_dataset sb) snap]} ∪ fz_snapshots (sb_zfs sb) /\
    (forall op file, dk_fault (tg_disk (sb_targets sb')) op file = None).
Proof.
  intros [Hl Hb _ Hd] Hr Hs Hw Hp. unfold handle_replication.
  rewrite <-(app_nil_r_str (write_header _ _ _)), read_header_write by done.
  cbn [hd_replica_name hd_base_snapshot_id hd_snapshot_id]. unfold targets_ensure.
  set (found := default _ _). set (target := mkReplicaTarget _ _ _ _).
  assert (rt_last_snapshot target = lp_last_confirmed_sent lp) as Hlast.
  { unfold target, found, standby_last, targets_get in *. cbn.
    destruct (tg_by_name (sb_targets sb) !! replica_name); cbn in *;
      destruct Hl as [[= ->]|[E1 E2]]; by rewrite ?E2. }
  destruct (save_ok rt_replica_name TARGETS_DIR (tg_disk (sb_targets sb)) target Hd) as [files1 E1].
  unfold save_target. rewrite E1. cbn [negb]. rewrite bool_decide_eq_true_2 by done. cbn [negb].
  cbn [receive_snapshot fake_zfs_manager sb_zfs set_sb_targets]. unfold fake_receive_snapshot. rewrite Hp.
  fold (standby_dataset sb).
  set (received := mkFakeZfsManager _ _ _).
  assert (match lp_last_confirmed_sent lp with
          | Some b => if bool_decide (snapshot_key (standby_dataset sb) b ∈ fz_snapshots (sb_zfs sb))
                      then (Ok tt, received)
                      else (Err (ZCommandFailed "zfs receive (fake)" 256
                       ("cannot receive incremental stream: base snapshot "
                        +:+ snapshot_key (standby_dataset sb) b +:+ " does not exist")), sb_zfs sb)
          | None => (Ok tt, received)
          end = (Ok tt, received)) as Hrecv.
  { destruct (lp_last_confirmed_sent lp) as [b|]; [|done].
    rewrite bool_decide_eq_true_2; [done|]. by apply Hb. }
  rewrite Hrecv. unfold record_snapshot. cbn [set_sb_zfs set_sb_targets sb_targets tg_by_name tg_disk].
  rewrite lookup_insert_eq. unfold save_target. set (target2 := mkReplicaTarget _ _ _ _).
  destruct (save_ok rt_replica_name TARGETS_DIR (with_files files1 (tg_disk (sb_targets sb))) target2 Hd)
    as [files2 E2].
  rewrite E2. eexists _, _. split; [done|]. unfold standby_last, targets_get. cbn.
  rewrite lookup_insert_eq. done.
Qed.

Lemma snapshot_name_plain t : contains_char ":"%char (snapshot_name t) = false.
Proof.
  unfold snapshot_name. rewrite contains_char_app. cbn [orb].
  apply digits_no_char; [reflexivity|apply u_to_string_digits].
Qed.

(** The base a sender in step offers against is an older snapshot it still has. *)
Lemma in_step_base (lp : Sender) (sb : Standby) b :
  in_step lp sb -> (lp_tick lp < u64_max)%N -> lp_last_confirmed_sent lp = Some b ->
  b <> snapshot_name (lp_tick lp + 1) /\ wire_ok b /\ b <> "none" /\
  snapshot_key dataset b ∈ fz_snapshots (lp_zfs lp).
Proof.
  intros [_ Hb _ _] Ht E. destruct (Hb b E) as ((t & -> & Htl) & Hk & _).
  split; [intros E2%snapshot_name_inj; lia|]. split; [apply snapshot_name_wire_ok; lia|]. done.
Qed.

Definition fake_stream (snap : string) (base : option string) : string :=
  "keel-zfs-fake-send:" +:+ dataset +:+ "@" +:+ snap +:+ ":base=" +:+ default "none" base +:+ newline.

Lemma fake_send_ok z snap base :
  snapshot_key dataset snap ∈ fz_snapshots z ->
  (forall b, base = Some b -> snapshot_key dataset b ∈ fz_snapshots z) ->
  fake_send_snapshot z dataset snap base None = (Ok tt, fake_stream snap base).
Proof.
  intros Hs Hb. unfold fake_send_snapshot. rewrite bool_decide_eq_true_2 by done.
  destruct base as [b|]; [|done]. by rewrite bool_decide_eq_true_2 by auto.
Qed.

(** What is left of the sender's snapshots. *)
Definition base_key (base : option string) : gset string :=
  match base with Some b => {[snapshot_key dataset b]} | None => ∅ end.

Lemma prune_previous_ok base (z : FakeZfsManager) :
  (forall b, base = Some b -> snapshot_key dataset b ∈ fz_snapshots z) ->
  fz_datasets (prune_previous dataset base z) = fz_datasets z /\
  fz_snapshots (prune_previous dataset base z) = fz_snapshots z ∖ base_key base.
Proof.
  intros Hb. unfold prune_previous, base_key. destruct base as [b|];
    [|split; [done|by rewrite difference_empty_L]].
  cbn. unfold fake_destroy_snapshot. by rewrite bool_decide_eq_true_2 by auto.
Qed.

(** Replication advances.  While sender and standby agree on the last
    snapshot and the connection holds, a tick sends the next snapshot, the
    standby's volume exists and has it, both sides agree on it, and the sender
    has dropped the previous one: a single snapshot is kept per replica. *)
Theorem replication_tick_advances record to c (lp : Sender) (sb : Standby) :
  in_step lp sb -> wire_ok replica_name ->
  contains_char "@"%char dataset = false -> contains_char ":"%char dataset = false ->
  sp_replicate_to (js_spec (jr_spec record)) = Some to ->
  cn_ack c = true -> cn_write_error c = None -> (forall stream, cn_payload c stream = stream) ->
  (lp_tick lp < u64_max)%N ->
  let snap := snapshot_name (lp_tick lp + 1) in
  exists lp' sb', loop_tick replica_name dataset (Some record) (Some c) lp sb = Val (Some lp', sb') /\
    in_step lp' sb' /\ lp_last_confirmed_sent lp' = Some snap /\ lp_tick lp' = (lp_tick lp + 1)%N /\
    standby_last sb' replica_name = Some (Some snap) /\
    standby_dataset sb' ∈ fz_datasets (sb_zfs sb') /\
    fz_snapshots (lp_zfs lp') =
      ({[snapshot_key dataset snap]} ∪ fz_snapshots (lp_zfs lp))
        ∖ base_key (lp_last_confirmed_sent lp).
Proof.
  intros Hin Hr Hd1 Hd2 Hto Hack Hwr Hpay Ht snap.
  pose proof (fun b => in_step_base lp sb b Hin Ht) as Hbase. pose proof (is_dataset _ _ Hin) as Hds.
  unfold loop_tick, add_u64. rewrite (proj2 (N.leb_le _ _)) by lia. rewrite Val_bind, Hto. fold snap.
  cbn [snapshot fake_zfs_manager]. unfold fake_snapshot. rewrite bool_decide_eq_true_2 by done.
  set (zfs := mkFakeZfsManager _ ({[snapshot_key dataset snap]} ∪ fz_snapshots (lp_zfs lp)) _).
  assert (forall b, lp_last_confirmed_sent lp = Some b -> snapshot_key dataset b ∈ fz_snapshots zfs)
    as Hkeys by (intros b E; destruct (Hbase b E); cbn; set_solver).
  unfold send_once. cbn [send_snapshot fake_zfs_manager].
  rewrite Hwr, fake_send_ok, Hpay, Hack by (done || (cbn; set_solver)).
  destruct (handle_replication_accepted lp sb snap (cn_peer c)
    (fake_stream snap (lp_last_confirmed_sent lp)) Hin Hr) as (r & sb' & -> & Hl' & Hp' & Hds' & Hsn' & Hdk').
  { apply snapshot_name_wire_ok. lia. }
  { intros b E. by apply Hbase. }
  { apply parse_fake_sent; [done|done|apply snapshot_name_plain|]. intros E.
    by destruct (Hbase _ E) as (_ & _ & [] & _). }
  destruct (prune_previous_ok (lp_last_confirmed_sent lp) zfs Hkeys) as [Hzd Hzs].
  eexists _, sb'. split; [done|]. cbn [lp_last_confirmed_sent lp_tick lp_zfs].
  assert (standby_dataset sb' = standby_dataset sb) as Hsd by (unfold standby_dataset; by rewrite Hp').
  split; [|split; [done|]; split; [done|]; split; [done|]; split; [rewrite Hsd; set_solver|done]].
  split; cbn [lp_last_confirmed_sent lp_tick lp_zfs]; [by left| |by rewrite Hzd|done].
  intros b [= <-]. split; [exists (lp_tick lp + 1)%N; split; [done|lia]|].
  split; [|rewrite Hsd, Hsn'; set_solver]. rewrite Hzs. apply elem_of_difference. split; [cbn; set_solver|].
  unfold base_key. destruct (lp_last_confirmed_sent lp) as [b|] eqn:El; [|set_solver].
  intros E%elem_of_singleton%snapshot_key_inj. by destruct (Hbase b eq_refl) as [[] _].
Qed.
End in_step.

(** ** Witnesses *)

Definition db_dataset : string := "zroot/keel/volumes/db-0-data".
Definition db_record : JailRecord :=
  mkJailRecord (mkJailSpec "keel/v1" "Jail" (mkMetadata "db-0")
    (mkSpec "base/14.2-web" ["/usr/local/bin/db"] (mkNetworkSpec true "keel0" "10.0.0.6/24")
       (mkResourcesSpec "1" "1G") Always [mkVolumeMount "db-0-data" "/data" "10G"]
       (Some "10.0.0.9:7000"))) 1.
Definition db_sender : FakeZfsManager := mkFakeZfsManager {[db_dataset]} ∅ ∅.
Definition db_standby : Standby :=
  mkStandby (mkFakeZfsManager ∅ ∅ ∅) "zroot" (mkTargets ∅ empty_disk).
Definition good_conn : Conn := mkConn "10.0.0.4:40000" true None (fun s => s).

Lemma db_wire_ok : wire_ok "db-0".
Proof. split; [reflexivity|vm_compute; discriminate]. Qed.

Lemma header_roundtrip_witness :
  read_header (write_header "db-0" "keel-repl-2" (Some "keel-repl-1") +:+ "stream") =
    Ok (mkHeader "db-0" "keel-repl-2" (Some "keel-repl-1"), "stream").
Proof.
  apply (header_roundtrip "db-0" "keel-repl-2" (Some "keel-repl-1") "stream").
  - split; [reflexivity|vm_compute; discriminate].
  - split; [reflexivity|vm_compute; discriminate].
  - intros b [= <-]. split; [reflexivity|vm_compute; discriminate].
Defined.

Lemma replication_tick_advances_witness :
  exists lp sb, @loop_tick yaml_replica_target _ fake_zfs_manager "db-0" db_dataset (Some db_record)
      (Some good_conn) (loop_start db_sender) db_standby = Val (Some lp, sb) /\
    lp_last_confirmed_sent lp = Some "keel-repl-1" /\ db_dataset ∈ fz_datasets (sb_zfs sb).
Proof.
  destruct (@replication_tick_advances yaml_replica_target "db-0" db_dataset db_record "10.0.0.9:7000"
    good_conn (loop_start db_sender) db_standby) as (lp & sb & E & _ & Hl & _ & _ & Hd & _).
  - split; [by right|done|vm_compute; reflexivity|done].
  - apply db_wire_ok.
  - reflexivity.
  - reflexivity.
  - reflexivity.
  - reflexivity.
  - reflexivity.
  - reflexivity.
  - reflexivity.
  - exists lp, sb. split; [exact E|]. split; [exact Hl|].
    unfold standby_dataset in Hd. vm_compute in E. injection E as _ <-. exact Hd.
Defined.

(** The sender's agent restarts after the first snapshot. *)
Lemma replication_never_resyncs_witness :
  exists lp sb lp' sb', @loop_tick yaml_replica_target _ fake_zfs_manager "db-0" db_dataset
      (Some db_record) (Some good_conn) (loop_start db_sender) db_standby = Val (Some lp, sb) /\
    @loop_run yaml_replica_target _ fake_zfs_manager "db-0" db_dataset
      (replicate 5 (Some db_record, Some good_conn)) (loop_start (lp_zfs lp)) sb = Val (lp', sb') /\
    sb_zfs sb' = sb_zfs sb /\ standby_last sb' "db-0" = Some (Some "keel-repl-1").
Proof.
  destruct (@loop_tick yaml_replica_target _ fake_zfs_manager "db-0" db_dataset
      (Some db_record) (Some good_conn) (loop_start db_sender) db_standby) as [[[lp|] sb]|] eqn:E;
    [|vm_compute in E; discriminate|vm_compute in E; discriminate].
  destruct (@replication_never_resyncs yaml_replica_target _ fake_zfs_manager "db-0" db_dataset
    (replicate 5 (Some db_record, Some good_conn)) (loop_start (lp_zfs lp)) sb "keel-repl-1")
    as (lp' & sb' & E' & Hz & Hl & _).
  - apply db_wire_ok.
  - reflexivity.
  - vm_compute in E. injection E as _ <-. vm_compute. reflexivity.
  - vm_compute. discriminate.
  - exists lp, sb, lp', sb'. split; [reflexivity|]. split; [exact E'|]. split; [exact Hz|exact Hl].
Defined.
