(* ===== verification/ReplicaData.v ===== *)
(** * The data a standby holds

    Replication.v follows names; here the same sender and standby are followed
    down to the data, on hosts that keep the contract of VolumeData: what one
    tick may do to the standby's volume, what a standby's volume holds over
    whole runs of writes, lost connections, restarts and agent commands, when
    it catches up, and what a stream that breaks on the way does. *)

From S2P Require Import Prelude RustStr Text Float64 Ipnet Spec Codecs Registry Wire Backoff.
From S2P Require Import AgentHost VolumeData Store Ingress Reconciler ReconcilerInv AgentFakes AgentWorker.
From S2P Require Import AgentVolumes Replication.

Open Scope keel_scope.

Section replica_data.
Context {YT : SerdeYaml ReplicaTarget}.
Context {Zf Data Snap : Type} {HZ : ZfsManager Zf} {HD : ZfsData Zf Data Snap}.
Context (replica_name dataset : string) (Hname : name_valid replica_name = true).

Notation Loop := (@Loop Zf).
Notation Standby := (@Standby Zf).
Implicit Types (lp : Loop) (sb : Standby).

(** The standby's volume, and the primary's. *)
Definition copy_path sb : string := volume_dataset_path (sb_pool sb) (replica_name +:+ "-data").
Definition copy sb : option (Volume Data Snap) := volume (sb_zfs sb) (copy_path sb).
Definition source lp : option (Volume Data Snap) := volume (lp_zfs lp) dataset.

(** The names of jails go over the wire, and with them no snapshot is named. *)
Lemma replica_wire_ok : wire_ok replica_name.
Proof.
  apply name_valid_spec in Hname as (_ & Hlen & Hc & _). split.
  - apply from_utf8_lossy_ascii. revert Hc. apply str_all_impl. intros c. apply name_char_ascii.
  - unfold str_len, u32_max. lia.
Qed.

Lemma copy_path_plain sb d : ~ snapshot_of (copy_path sb) d.
Proof.
  apply name_valid_spec in Hname as (_ & _ & Hc & _). unfold copy_path, volume_dataset_path.
  change ("/keel/volumes/" +:+ (replica_name +:+ "-data"))
    with ("/keel/volumes" +:+ String "/" (replica_name +:+ "-data")).
  rewrite app_assoc_str. apply not_snapshot_of. rewrite contains_char_app. apply orb_false_iff.
  split; [|done]. by apply (str_all_no_char name_char).
Qed.

(** The snapshot a sender offers against, as its own dataset has it. *)
Definition base_snap (z : Zf) (base : option string) : option Snap :=
  base ≫= fun b => volume z dataset ≫= vl_find b.

(** ** One connection *)

(** What a connection delivers is what was sent, or no complete stream: zfs(8)
    streams are checksummed. *)
Definition wire_safe (c : Conn) : Prop := forall stream b n x,
  carries (cn_payload c stream) b n x -> carries stream b n x.

(** The standby has recorded a snapshot of the replica: what it answers a probe. *)
Definition claims sb : Prop := exists snap, standby_last sb replica_name = Some (Some snap).

(** The standby's volume after a connection that delivered [payload]. *)
Definition copied sb sb' payload : Prop :=
  sb_pool sb' = sb_pool sb /\
  (claims sb' -> claims sb \/ exists b n x, carries payload b n x /\
     copy sb' = Some (vl_received sn_data n x (copy sb))) /\
  (forall d, d <> copy_path sb -> volume (sb_zfs sb') d = volume (sb_zfs sb) d) /\
  (copy sb' = copy sb \/
   exists b n x, carries payload b n x /\ receivable sn_data b (copy sb) /\
     copy sb' = Some (vl_received sn_data n x (copy sb))).

Lemma copied_same sb sb' payload :
  sb_pool sb' = sb_pool sb -> sb_zfs sb' = sb_zfs sb -> (claims sb' -> claims sb) -> copied sb sb' payload.
Proof.
  intros Ep Ez Hc. unfold copied, copy, copy_path. rewrite Ep, Ez. split; [done|].
  split; [intros H; left; by apply Hc|]. by split; [|left].
Qed.

(** Noting an address records no snapshot. *)
Lemma targets_ensure_claims d peer sb r t :
  targets_ensure replica_name d peer (sb_targets sb) = (r, t) -> claims (set_sb_targets t sb) -> claims sb.
Proof.
  unfold targets_ensure. destruct (save_target _ _) as [w dk]. intros [= _ <-].
  unfold claims, standby_last, targets_get. cbn. rewrite lookup_insert_eq. cbn.
  destruct (tg_by_name (sb_targets sb) !! replica_name) as [found|]; cbn; [done|]. by intros [s [=]].
Qed.

Lemma handle_replication_copied snap base peer ack payload sb answer r sb' :
  wire_ok snap -> (forall b, base = Some b -> wire_ok b) ->
  handle_replication (write_header replica_name snap base) peer ack payload sb = (answer, r, sb') ->
  copied sb sb' payload.
Proof.
  intros Hs Hb. unfold handle_replication.
  rewrite <-(app_nil_r_str (write_header _ _ _)), read_header_write by (done || apply replica_wire_ok).
  cbn [hd_replica_name hd_base_snapshot_id hd_snapshot_id].
  destruct (targets_ensure _ _ _ _) as [r0 t] eqn:Et. pose proof (targets_ensure_claims _ _ _ _ _ Et) as Hcl.
  destruct r0 as [target|e]; [|intros [= _ _ <-]; by apply copied_same].
  destruct ack; cbn [negb]; [|intros [= _ _ <-]; by apply copied_same].
  destruct (negb _); [intros [= _ _ <-]; by apply copied_same|].
  change (sb_zfs (set_sb_targets t sb)) with (sb_zfs sb).
  destruct (receive_snapshot _ payload (sb_zfs sb)) as [r1 z] eqn:Er.
  assert (forall t', (claims (set_sb_targets t' (set_sb_zfs z sb)) -> claims sb \/ r1 = Ok tt) ->
    copied sb (set_sb_targets t' (set_sb_zfs z sb)) payload) as Hc.
  { intros t' Ht'. pose proof (zd_receive _ _ _ _ _ (copy_path_plain sb) Er) as Hrecv. unfold copied. split; [done|].
    unfold copy, copy_path in *. cbn. split; [|split].
    - intros [H|H]%Ht'; [by left|right]. destruct Hrecv as [[_ Hr]|(b & n & x & Hx & _ & E)]; [done|].
      by exists b, n, x.
    - intros d Hd. pose proof (zd_receive_ne _ payload (sb_zfs sb) d Hd (copy_path_plain sb d)) as E.
      rewrite Er in E. exact E.
    - destruct Hrecv as [[E _]|H]; [by left|by right]. }
  destruct r1 as [[]|e]; [|intros [= _ _ <-]; apply (Hc t); left; by apply Hcl].
  destruct (record_snapshot _ _ _) as [r2 t2]. intros [= _ _ <-]. apply (Hc t2). by right.
Qed.

(** ** One tick *)

(** A sender only offers against snapshots its own loop named. *)
Definition sender_ok lp : Prop :=
  forall b, lp_last_confirmed_sent lp = Some b -> exists t, b = snapshot_name t /\ (t <= lp_tick lp)%N.

Lemma sender_ok_base lp b : sender_ok lp -> (lp_tick lp + 1 <= u64_max)%N ->
  lp_last_confirmed_sent lp = Some b -> wire_ok b /\ b <> snapshot_name (lp_tick lp + 1).
Proof.
  intros Hs Ht Hb. destruct (Hs b Hb) as (t & -> & Hle). split; [apply snapshot_name_wire_ok; lia|].
  intros E%snapshot_name_inj. lia.
Qed.

(** Taking and pruning snapshots leaves the primary's data alone. *)
Definition same_data (z z' : Zf) : Prop :=
  vl_data <$> volume z' dataset = vl_data <$> volume z dataset /\
  forall d, d <> dataset -> volume z' d = volume z d.
#[local] Instance same_data_preorder : PreOrder same_data.
Proof.
  split; [by split|]. intros z1 z2 z3 [E1 O1] [E2 O2]. split; [congruence|].
  intros d Hd. by rewrite O2, O1.
Qed.

Lemma snapshot_same_data snap z r z' : snapshot dataset snap z = (r, z') -> same_data z z'.
Proof.
  intros E. split.
  - apply zd_snapshot in E. destruct r; [|by rewrite E].
    destruct E as (v & x & Ev & _ & _ & Ev'). by rewrite Ev, Ev'.
  - intros d Hd. by rewrite <- (zd_snapshot_ne dataset snap z d Hd), E.
Qed.

Lemma snapshot_name_one t : one_snapshot (snapshot_name t).
Proof.
  unfold one_snapshot, snapshot_name. rewrite !contains_char_app. cbn [orb].
  split; [|split]; (apply digits_no_char; [reflexivity|apply u_to_string_digits]).
Qed.

Lemma prune_same_data base z : (forall b, base = Some b -> one_snapshot b) ->
  same_data z (prune_previous dataset base z).
Proof.
  intros Hb. destruct base as [b|]; [|done]. cbn. split; [|intros d Hd; by apply zd_destroy_snapshot_ne].
  destruct (zd_destroy_snapshot dataset b z (Hb b eq_refl)) as [E|E]; rewrite E; [done|].
  by destruct (volume z dataset).
Qed.

(** What a tick may do: the standby keeps its volume, or replaces it, if it is
    exactly the base of the offer, by the data the primary has now. *)
Record tick_effect lp sb sb' : Prop := {
  te_pool : sb_pool sb' = sb_pool sb;
  te_others : forall d, d <> copy_path sb -> volume (sb_zfs sb') d = volume (sb_zfs sb) d;
  te_claims : claims sb' -> claims sb \/
    exists v x, source lp = Some v /\ sn_data x = vl_data v /\
      copy sb' = Some (vl_received sn_data (snapshot_name (lp_tick lp + 1)) x (copy sb));
  te_copy : copy sb' = copy sb \/
    exists v x, source lp = Some v /\ sn_data x = vl_data v /\
      receivable sn_data (base_snap (lp_zfs lp) (lp_last_confirmed_sent lp)) (copy sb) /\
      copy sb' = Some (vl_received sn_data (snapshot_name (lp_tick lp + 1)) x (copy sb))
}.

Lemma tick_effect_same lp sb : tick_effect lp sb sb.
Proof. split; auto. Qed.

(** A base other than the new snapshot is the one the sender had before it. *)
Lemma base_snap_take z snap z' base v x :
  volume z dataset = Some v -> vl_find snap v = None -> volume z' dataset = Some (vl_take snap x v) ->
  base <> Some snap -> base_snap z' base = base_snap z base.
Proof.
  intros Ev Hn Ev' Hne. unfold base_snap. rewrite Ev, Ev'. destruct base as [b|]; [|done]. cbn.
  apply vl_find_take_ne. congruence.
Qed.

(** The payload the sender puts on the connection. *)
Lemma send_once_copied conn zfs snap base sb sent sb' :
  wire_ok snap -> (forall b, base = Some b -> wire_ok b) -> (forall c, conn = Some c -> wire_safe c) ->
  send_once conn zfs replica_name dataset snap base sb = (sent, sb') ->
  exists payload, copied sb sb' payload /\ forall b n x, carries payload b n x ->
    exists out r stream, send_snapshot zfs dataset snap base out = (r, stream) /\ carries stream b n x.
Proof.
  intros Hs Hb Hc. unfold send_once. destruct conn as [c|].
  2:{ intros [= _ <-]. exists EmptyString. split; [by apply copied_same|]. by intros b n x H%zd_carries_empty. }
  destruct (send_snapshot _ _ _ _ _) as [r1 stream] eqn:Es. set (payload := cn_payload c stream).
  destruct (handle_replication _ _ _ payload sb) as [[answer r] sb1] eqn:E.
  apply handle_replication_copied in E; [|done|done]. intros E2. exists payload. split.
  - destruct answer as [a|]; [destruct (a =? ACK_NEED_FULL)%N|]; by injection E2 as _ <-.
  - intros b n x H%(Hc c eq_refl). by exists (cn_write_error c), r1, stream.
Qed.

Lemma loop_tick_effect record conn lp sb (lp' : option Loop) sb' :
  sender_ok lp -> (forall c, conn = Some c -> wire_safe c) ->
  loop_tick replica_name dataset record conn lp sb = Val (lp', sb') ->
  tick_effect lp sb sb' /\
  forall l, lp' = Some l -> same_data (lp_zfs lp) (lp_zfs l) /\ sender_ok l /\ lp_tick l = (lp_tick lp + 1)%N.
Proof.
  intros Hok Hc. unfold loop_tick, add_u64. destruct (N.leb_spec (lp_tick lp + 1) u64_max) as [Ht|]; [|done].
  rewrite Val_bind. pose proof (fun b => sender_ok_base lp b Hok Ht) as Hbase.
  assert (forall z l, same_data (lp_zfs lp) z ->
    l = mkLoop (lp_last_confirmed_sent lp) (lp_tick lp + 1) z ->
    same_data (lp_zfs lp) (lp_zfs l) /\ sender_ok l /\ lp_tick l = (lp_tick lp + 1)%N) as Hkeep.
  { intros z l Hz ->. split; [done|]. split; [|done]. intros b Hb. destruct (Hok b Hb) as (t & -> & Hle).
    exists t. cbn. split; [done|lia]. }
  destruct record as [record|]; [|intros [= <- <-]; split; [apply tick_effect_same|done]].
  destruct (sp_replicate_to _);
    [|intros [= <- <-]; split; [apply tick_effect_same|intros l [= <-]; by eapply Hkeep]].
  set (snap := snapshot_name (lp_tick lp + 1)).
  destruct (snapshot dataset snap (lp_zfs lp)) as [r z] eqn:Es.
  pose proof (snapshot_same_data _ _ _ _ Es) as Hz. apply zd_snapshot in Es.
  destruct r as [[]|e]; [|intros [= <- <-]; split; [apply tick_effect_same|intros l [= <-]; by eapply Hkeep]].
  destruct Es as (v & x & Ev & Hfresh & Hx & Ev').
  destruct (send_once _ _ _ _ _ _ _) as [sent sb1] eqn:E.
  apply send_once_copied in E as (payload & (Hp & Hcl & Ho & Hcp) & Hpay);
    [|apply snapshot_name_wire_ok; lia|by intros b Hb; apply Hbase|done].
  assert (tick_effect lp sb sb1) as Heff.
  { assert (forall b n y, carries payload b n y -> n = snap /\ y = x /\
      b = lp_last_confirmed_sent lp ≫= fun b => vl_find b (vl_take snap x v)) as Hsent.
    { intros b n y Hy. destruct (Hpay b n y Hy) as (out & r & stream & Esend & Hst).
      destruct (zd_send _ _ _ _ _ _ _ _ _ _ Esend Hst) as (-> & v1 & Ev1 & Hf & -> & _).
      rewrite Ev' in Ev1. injection Ev1 as <-. rewrite vl_find_take in Hf. by injection Hf as <-. }
    split; [done|done| |].
    { intros [H|(b & n & y & Hy & Ec)]%Hcl; [by left|right]. destruct (Hsent b n y Hy) as (-> & -> & _).
      by exists v, x. }
    destruct Hcp as [Hcp|(b & n & y & Hy & Hr & Hcp)]; [by left|right].
    destruct (Hsent b n y Hy) as (-> & -> & ->). exists v, x. split; [done|]. split; [done|]. split; [|done].
    rewrite <- (base_snap_take (lp_zfs lp) snap z _ v x Ev Hfresh Ev'); [|intros Eb; by destruct (Hbase _ Eb)].
    unfold base_snap. rewrite Ev'. exact Hr. }
  destruct sent as [[]|[|e]]; intros [= <- <-]; (split; [done|]); intros l [= <-].
  - split; [|split; [|done]].
    + transitivity z; [done|]. apply prune_same_data. intros b Hb. destruct (Hok b Hb) as (t & -> & _).
      apply snapshot_name_one.
    + intros b [= <-]. exists (lp_tick lp + 1)%N. by split.
  - split; [done|]. split; [|done]. by intros b [=].
  - by eapply Hkeep.
Qed.

(** C12: a tick is a compare-and-swap on the standby's volume.  Whatever the
    connection does to the stream, a tick leaves every dataset of the standby
    as it was, but for the volume of the replica, which it may replace by the
    data the primary has at that moment, and only when the standby's volume is
    exactly the snapshot the offer is based on, unwritten since (or absent, for
    a full stream).  What the volume held before stays in its snapshots, and the
    primary's own data does not change.  So a stale primary never overwrites
    what a promoted replica wrote. *)
Theorem tick_compares_and_swaps record conn lp sb (lp' : option Loop) sb' :
  sender_ok lp -> (forall c, conn = Some c -> wire_safe c) ->
  loop_tick replica_name dataset record conn lp sb = Val (lp', sb') ->
  (forall d, d <> copy_path sb -> volume (sb_zfs sb') d = volume (sb_zfs sb) d) /\
  (forall l, lp' = Some l -> vl_data <$> source l = vl_data <$> source lp) /\
  (copy sb' = copy sb \/
   exists v v', source lp = Some v /\ copy sb' = Some v' /\ vl_data v' = vl_data v /\
     match copy sb with
     | None => lp_last_confirmed_sent lp ≫= (fun b => source lp ≫= vl_find b) = None
     | Some old => exists y, lp_last_confirmed_sent lp ≫= (fun b => source lp ≫= vl_find b) = Some y /\
         vl_head old = Some y /\ vl_data old = sn_data y /\
         exists new, vl_snapshots v' = new :: vl_snapshots old
     end).
Proof.
  intros Hok Hc E. destruct (loop_tick_effect _ _ _ _ _ _ Hok Hc E) as [[_ Ho _ Hcp] Hl].
  split; [done|]. split; [intros l El; by apply Hl|].
  destruct Hcp as [Hcp|(v & x & Ev & Hx & Hr & Hcp)]; [by left|right].
  exists v. eexists. split; [done|]. split; [exact Hcp|]. split; [done|].
  unfold receivable, base_snap in Hr. destruct (copy sb) as [old|]; cbn;
    destruct (lp_last_confirmed_sent lp ≫= _) as [y|] eqn:Eb; try done.
  exists y. destruct Hr. split; [done|]. split; [done|]. split; [done|]. by eexists.
Qed.

(** ** Catching up *)

(** The two ends agree on the last snapshot; the standby's volume is that
    snapshot, unwritten; the names of the ticks to come are free on both sides;
    the disk of the standby's table works. *)
Record in_sync lp sb : Prop := {
  sy_sender : sender_ok lp;
  sy_last : standby_last sb replica_name = Some (lp_last_confirmed_sent lp) \/
    standby_last sb replica_name = None /\ lp_last_confirmed_sent lp = None;
  sy_base : receivable sn_data (base_snap (lp_zfs lp) (lp_last_confirmed_sent lp)) (copy sb);
  sy_held : is_Some (lp_last_confirmed_sent lp) ->
    is_Some (base_snap (lp_zfs lp) (lp_last_confirmed_sent lp));
  sy_source : exists v, source lp = Some v /\
    forall t, (lp_tick lp < t)%N -> vl_find (snapshot_name t) v = None;
  sy_fresh : forall t, (lp_tick lp < t)%N ->
    from_option (vl_find (snapshot_name t)) None (copy sb) = None;
  sy_healthy : zd_healthy (lp_zfs lp) /\ zd_healthy (sb_zfs sb);
  sy_disk : forall op file, dk_fault (tg_disk (sb_targets sb)) op file = None
}.

(** A replica the standby never heard of, whose volume only the primary has. *)
Lemma first_contact z sb v :
  volume z dataset = Some v -> (forall t, vl_find (snapshot_name t) v = None) ->
  standby_last sb replica_name = None -> copy sb = None -> zd_healthy z -> zd_healthy (sb_zfs sb) ->
  (forall op file, dk_fault (tg_disk (sb_targets sb)) op file = None) ->
  in_sync (loop_start z) sb.
Proof.
  intros Ev Hf Hl Hc Hz Hzs Hd. split; try done.
  - by right.
  - cbn. by rewrite Hc.
  - by intros [].
  - exists v. split; [done|]. intros t _. apply Hf.
  - intros t _. by rewrite Hc.
Qed.

Lemma handle_replication_pool header peer ack payload sb answer r sb' :
  handle_replication header peer ack payload sb = (answer, r, sb') -> sb_pool sb' = sb_pool sb.
Proof.
  unfold handle_replication. destruct (read_header _) as [[h rest]|]; [|by intros [= _ _ <-]].
  destruct (targets_ensure _ _ _ _) as [[target|] t]; [|by intros [= _ _ <-]].
  destruct (negb ack); [by intros [= _ _ <-]|]. destruct (negb _); [by intros [= _ _ <-]|].
  destruct (receive_snapshot _ _ _) as [[[]|] z]; [|by intros [= _ _ <-]].
  destruct (record_snapshot _ _ _). by intros [= _ _ <-].
Qed.

(** The standby takes the stream of the snapshot it expects. *)
Lemma handle_replication_in_sync lp sb snap peer payload n x :
  in_sync lp sb -> wire_ok snap -> (forall b, lp_last_confirmed_sent lp = Some b -> wire_ok b) ->
  carries payload (base_snap (lp_zfs lp) (lp_last_confirmed_sent lp)) n x ->
  from_option (vl_find n) None (copy sb) = None ->
  exists sb', handle_replication (write_header replica_name snap (lp_last_confirmed_sent lp)) peer true payload sb
      = (Some ACK_PROCEED, Ok tt, sb') /\
    standby_last sb' replica_name = Some (Some snap) /\
    copy sb' = Some (vl_received sn_data n x (copy sb)) /\ zd_healthy (sb_zfs sb') /\
    (forall op file, dk_fault (tg_disk (sb_targets sb')) op file = None).
Proof.
  intros Hin Hs Hb Hc Hn. destruct Hin as [_ Hl Hbase _ _ _ [_ Hz] Hd]. unfold handle_replication.
  rewrite <-(app_nil_r_str (write_header _ _ _)), read_header_write by (done || apply replica_wire_ok).
  cbn [hd_replica_name hd_base_snapshot_id hd_snapshot_id]. unfold targets_ensure.
  set (found := default _ _). set (target := mkReplicaTarget _ _ _ _).
  assert (rt_last_snapshot target = lp_last_confirmed_sent lp) as Hlast.
  { unfold target, found, standby_last, targets_get in *. cbn.
    destruct (tg_by_name (sb_targets sb) !! replica_name); cbn in *;
      destruct Hl as [[= ->]|[E1 E2]]; by rewrite ?E2. }
  destruct (save_ok rt_replica_name TARGETS_DIR (tg_disk (sb_targets sb)) target Hd) as [files1 E1].
  unfold save_target. rewrite E1. cbn [negb]. rewrite bool_decide_eq_true_2 by done. cbn [negb].
  destruct (zd_receive_live (copy_path sb) payload (sb_zfs sb) _ n x (copy_path_plain sb) Hz Hc Hbase Hn) as (z & Er & Hz').
  cbn [sb_zfs set_sb_targets]. unfold copy_path in Er. rewrite Er.
  unfold record_snapshot. cbn [set_sb_zfs set_sb_targets sb_targets tg_by_name tg_disk].
  rewrite lookup_insert_eq. unfold save_target. set (target2 := mkReplicaTarget _ _ _ _).
  destruct (save_ok rt_replica_name TARGETS_DIR (with_files files1 (tg_disk (sb_targets sb))) target2 Hd)
    as [files2 E2].
  rewrite E2. eexists. split; [done|]. unfold standby_last, targets_get. cbn. rewrite lookup_insert_eq.
  split; [done|]. split; [|done]. unfold copy, copy_path. cbn.
  pose proof (zd_receive _ _ _ _ _ (copy_path_plain sb) Er) as Hrecv. unfold copy_path in Hrecv.
  destruct Hrecv as [[_ []]|(b' & n' & x' & Hc' & _ & ->)]; [done|].
  by destruct (zd_carries_inj _ _ _ _ _ _ _ Hc Hc') as (_ & <- & <-).
Qed.

(** The snapshot of a tick. *)
Lemma in_sync_snapshot lp sb :
  in_sync lp sb -> let snap := snapshot_name (lp_tick lp + 1) in
  exists z v x, snapshot dataset snap (lp_zfs lp) = (Ok tt, z) /\ zd_healthy z /\ source lp = Some v /\
    (forall t, (lp_tick lp < t)%N -> vl_find (snapshot_name t) v = None) /\
    sn_data x = vl_data v /\ volume z dataset = Some (vl_take snap x v).
Proof.
  intros [_ _ _ _ (v & Ev & Hf) _ [Hz _] _] snap.
  assert (vl_find snap v = None) as Hn by (apply (Hf (lp_tick lp + 1)%N); lia).
  destruct (zd_snapshot_live dataset snap (lp_zfs lp) v Hz Ev Hn) as (z & E & Hz').
  destruct (zd_snapshot _ _ _ _ _ E) as (v' & x & Ev' & _ & Hx & Ez).
  unfold source in Ev. rewrite Ev in Ev'. injection Ev' as <-. exists z, v, x. auto 10.
Qed.

(** A snapshot that was not sent, and more ticks. *)
Lemma in_sync_unsent lp sb z v x :
  in_sync lp sb -> (lp_tick lp + 1 <= u64_max)%N -> source lp = Some v ->
  (forall t, (lp_tick lp < t)%N -> vl_find (snapshot_name t) v = None) -> zd_healthy z ->
  volume z dataset = Some (vl_take (snapshot_name (lp_tick lp + 1)) x v) ->
  in_sync (mkLoop (lp_last_confirmed_sent lp) (lp_tick lp + 1) z) sb.
Proof.
  intros Hin Ht Ev Hf Hz Ez. pose proof (fun b => sender_ok_base lp b (sy_sender _ _ Hin) Ht) as Hbase.
  assert (base_snap z (lp_last_confirmed_sent lp) = base_snap (lp_zfs lp) (lp_last_confirmed_sent lp)) as Eb.
  { eapply (base_snap_take (lp_zfs lp) (snapshot_name (lp_tick lp + 1))); [exact Ev|apply Hf; lia|exact Ez|]. intros Eb. by destruct (Hbase _ Eb). }
  destruct Hin as [Hs Hl Hb Hh _ Hfr [_ Hzs] Hd]. split; cbn [lp_last_confirmed_sent lp_tick lp_zfs]; rewrite ?Eb; try done.
  - intros b Eb'. cbn in Eb'. destruct (Hs b Eb') as (t & Et & Hle). exists t. cbn. split; [done|lia].
  - exists (vl_take (snapshot_name (lp_tick lp + 1)) x v). split; [exact Ez|]. intros t Hlt.
    rewrite vl_find_take_ne; [apply Hf; lia|]. intros E%snapshot_name_inj. lia.
  - intros t Hlt. apply Hfr. lia.
Qed.

(** A tick whose connection is not established. *)
Lemma in_sync_lost record lp sb :
  in_sync lp sb -> (lp_tick lp + 1 <= u64_max)%N -> sp_replicate_to (js_spec (jr_spec record)) <> None ->
  exists lp', loop_tick replica_name dataset (Some record) None lp sb = Val (Some lp', sb) /\ in_sync lp' sb /\
    lp_tick lp' = (lp_tick lp + 1)%N.
Proof.
  intros Hin Ht Hto. destruct (in_sync_snapshot lp sb Hin) as (z & v & x & E & Hz & Ev & Hf & Hx & Ez).
  unfold loop_tick, add_u64. rewrite (proj2 (N.leb_le _ _)) by done. rewrite Val_bind.
  destruct (sp_replicate_to _); [|done]. rewrite E. eexists. split; [done|]. split; [|done].
  by eapply in_sync_unsent.
Qed.

(** What pruning leaves of the primary's snapshots. *)
Lemma prune_find z base v name :
  volume z dataset = Some v -> (forall b, base = Some b -> b <> name /\ one_snapshot b) ->
  exists v', volume (prune_previous dataset base z) dataset = Some v' /\ vl_data v' = vl_data v /\
    vl_find name v' = vl_find name v /\ forall n, vl_find n v = None -> vl_find n v' = None.
Proof.
  intros Ev Hne. destruct base as [b|]; cbn; [|by exists v].
  destruct (Hne b eq_refl) as [Hb Hone].
  destruct (zd_destroy_snapshot dataset b z Hone) as [E|E]; rewrite E, Ev; [by exists v|].
  exists (vl_drop b v). split; [done|]. split; [done|]. split; [by apply vl_find_drop_ne|].
  intros n. apply vl_find_drop_None.
Qed.

(** A connection that delivers what is sent. *)
Definition intact (c : Conn) : Prop :=
  cn_ack c = true /\ cn_write_error c = None /\ forall stream, cn_payload c stream = stream.

(** What a sender in step puts on it. *)
Lemma in_sync_sends lp sb z v x :
  in_sync lp sb -> (lp_tick lp + 1 <= u64_max)%N -> source lp = Some v -> zd_healthy z ->
  let snap := snapshot_name (lp_tick lp + 1) in
  volume z dataset = Some (vl_take snap x v) ->
  exists st, send_snapshot z dataset snap (lp_last_confirmed_sent lp) None = (Ok tt, st) /\
    carries st (lp_last_confirmed_sent lp ≫= fun b => vl_find b (vl_take snap x v)) snap x.
Proof.
  intros Hin Ht Ev Hz snap Ez.
  destruct (zd_send_live z dataset snap (lp_last_confirmed_sent lp) _ x (vl_snapshots v) Hz Ez eq_refl)
    as (st & Est).
  { intros b Eb. destruct (sy_held _ _ Hin ltac:(by rewrite Eb)) as [y Hy]. exists y.
    unfold base_snap in Hy. rewrite Eb in Hy. unfold source in Ev. cbn in Hy. by rewrite Ev in Hy. }
  exists st. split; [done|]. destruct (zd_send_complete _ _ _ _ _ _ Est) as (_ & b & n & y & Hc).
  destruct (zd_send _ _ _ _ _ _ _ _ _ _ Est Hc) as (-> & v1 & Ev1 & Hf & -> & _).
  rewrite Ez in Ev1. injection Ev1 as <-. rewrite vl_find_take in Hf. by injection Hf as <-.
Qed.

(** A tick over such a connection. *)
Lemma in_sync_linked record c lp sb :
  in_sync lp sb -> (lp_tick lp + 1 <= u64_max)%N -> sp_replicate_to (js_spec (jr_spec record)) <> None ->
  intact c ->
  exists lp' sb', loop_tick replica_name dataset (Some record) (Some c) lp sb = Val (Some lp', sb') /\
    in_sync lp' sb' /\ lp_tick lp' = (lp_tick lp + 1)%N /\
    exists v v' new, source lp = Some v /\ copy sb' = Some v' /\ vl_data v' = vl_data v /\
      vl_snapshots v' = new :: from_option vl_snapshots [] (copy sb) /\
      vl_data <$> source lp' = Some (vl_data v).
Proof.
  intros Hin Ht Hto (Hack & Hwr & Hpay). destruct (in_sync_snapshot lp sb Hin) as (z & v & x & E & Hz & Ev & Hf & Hx & Ez).
  pose proof (fun b => sender_ok_base lp b (sy_sender _ _ Hin) Ht) as Hbase.
  pose proof (in_sync_unsent lp sb z v x Hin Ht Ev Hf Hz Ez) as Hin2.
  unfold loop_tick, add_u64. rewrite (proj2 (N.leb_le _ _)) by done. rewrite Val_bind.
  destruct (sp_replicate_to _); [|done]. rewrite E. set (snap := snapshot_name (lp_tick lp + 1)) in *.
  destruct (in_sync_sends lp sb z v x Hin Ht Ev Hz Ez) as (st & Est & Hc). fold snap in Est, Hc.
  unfold send_once. rewrite Hwr, Est, Hpay, Hack.
  destruct (handle_replication_in_sync _ sb snap (cn_peer c) st snap x Hin2) as (sb' & Eh & Hl' & Hcp & Hzs & Hd).
  { apply snapshot_name_wire_ok. lia. }
  { intros b Eb. by apply Hbase. }
  { unfold base_snap. cbn [lp_zfs lp_last_confirmed_sent]. by rewrite Ez. }
  { apply (sy_fresh _ _ Hin). lia. }
  cbn [lp_last_confirmed_sent] in Eh. rewrite Eh. change (ACK_PROCEED =? ACK_NEED_FULL)%N with false. cbn iota.
  destruct (prune_find z (lp_last_confirmed_sent lp) _ snap Ez) as (v' & Ev' & Ed & Efind & Hnone).
  { intros b Eb. split; [by apply Hbase|]. destruct (sy_sender _ _ Hin b Eb) as (t & -> & _).
    apply snapshot_name_one. }
  rewrite vl_find_take in Efind. eexists _, sb'. split; [done|].
  assert (forall t, (lp_tick lp + 1 < t)%N -> snapshot_name t <> snap) as Hne
    by (intros t Hlt Et%snapshot_name_inj; lia).
  split; [|split; [done|]].
  - assert (base_snap (prune_previous dataset (lp_last_confirmed_sent lp) z) (Some snap) = Some x) as Eb
      by (unfold base_snap; cbn -[vl_find]; rewrite Ev'; exact Efind).
    split; cbn [lp_last_confirmed_sent lp_tick lp_zfs]; rewrite ?Eb; [| |by rewrite Hcp|done| | | |done].
    + intros b [= <-]. exists (lp_tick lp + 1)%N. by split.
    + by left.
    + exists v'. split; [exact Ev'|]. intros t Hlt. apply Hnone.
      rewrite vl_find_take_ne by (intros Et; by apply (Hne t)). apply Hf. lia.
    + intros t Hlt. rewrite Hcp. cbn -[vl_find String.eqb]. unfold vl_find. cbn -[String.eqb].
      rewrite (proj2 (String.eqb_neq _ _)) by (intros Et; by apply (Hne t)).
      pose proof (sy_fresh _ _ Hin t ltac:(lia)) as Hfr. destruct (copy sb); [exact Hfr|done].
    + split; [|done]. destruct (lp_last_confirmed_sent lp); cbn; [by apply zd_destroy_snapshot_healthy|done].
  - exists v. eexists _, _. split; [done|]. split; [exact Hcp|]. split; [exact Hx|]. split; [done|].
    unfold source. cbn [lp_zfs]. rewrite Ev'. cbn. by rewrite Ed.
Qed.

(** The primary's jail writes; a tick finds the standby, or does not. *)
Inductive steady_step (record : JailRecord) : Loop * Standby -> Loop * Standby -> Prop :=
  | steady_write z lp sb :
      vl_snapshots <$> volume z dataset = vl_snapshots <$> source lp -> zd_healthy z ->
      steady_step record (lp, sb) (mkLoop (lp_last_confirmed_sent lp) (lp_tick lp) z, sb)
  | steady_lost lp lp' sb sb' :
      loop_tick replica_name dataset (Some record) None lp sb = Val (Some lp', sb') ->
      steady_step record (lp, sb) (lp', sb')
  | steady_linked c lp lp' sb sb' :
      intact c -> loop_tick replica_name dataset (Some record) (Some c) lp sb = Val (Some lp', sb') ->
      steady_step record (lp, sb) (lp', sb').

Lemma loop_tick_bound record conn lp sb (lp' : option Loop) sb' :
  loop_tick replica_name dataset record conn lp sb = Val (lp', sb') -> (lp_tick lp + 1 <= u64_max)%N.
Proof. unfold loop_tick, add_u64. by destruct (N.leb_spec (lp_tick lp + 1) u64_max). Qed.

Lemma in_sync_written lp sb z :
  in_sync lp sb -> vl_snapshots <$> volume z dataset = vl_snapshots <$> source lp -> zd_healthy z ->
  in_sync (mkLoop (lp_last_confirmed_sent lp) (lp_tick lp) z) sb.
Proof.
  intros [Hs Hl Hb Hh (v & Ev & Hf) Hfr [_ Hzs] Hd] Ez Hz. rewrite Ev in Ez.
  destruct (volume z dataset) as [v'|] eqn:Ev'; [|done]. cbn in Ez. injection Ez as Ez.
  assert (forall n, vl_find n v' = vl_find n v) as Hfind by (intros n; unfold vl_find; by rewrite Ez).
  assert (base_snap z (lp_last_confirmed_sent lp) = base_snap (lp_zfs lp) (lp_last_confirmed_sent lp)) as Eb.
  { unfold base_snap. unfold source in Ev. rewrite Ev, Ev'. destruct (lp_last_confirmed_sent lp); [apply Hfind|done]. }
  split; cbn [lp_last_confirmed_sent lp_tick lp_zfs]; rewrite ?Eb; try done.
  exists v'. split; [done|]. intros t Ht. rewrite Hfind. by apply Hf.
Qed.

Lemma steady_in_sync record (x y : Loop * Standby) :
  sp_replicate_to (js_spec (jr_spec record)) <> None -> rtc (steady_step record) x y ->
  in_sync x.1 x.2 -> in_sync y.1 y.2.
Proof.
  intros Hto. induction 1 as [|x y z Hxy _ IH]; [done|]. intros Hx. apply IH.
  destruct Hxy as [w lp sb Ew Hw|lp lp' sb sb' E|c lp lp' sb sb' Hc E]; cbn in *.
  - by apply in_sync_written.
  - destruct (in_sync_lost record lp sb Hx (loop_tick_bound _ _ _ _ _ _ E) Hto) as (l & E' & Hl & _).
    rewrite E in E'. by injection E' as -> ->.
  - destruct (in_sync_linked record c lp sb Hx (loop_tick_bound _ _ _ _ _ _ E) Hto Hc) as (l & s1 & E' & Hl & _).
    rewrite E in E'. by injection E' as -> ->.
Qed.

(** C9: replication keeps up.  From a first contact on, through any number of
    writes of the jail and of ticks that did not reach the standby, a tick that
    reaches it succeeds: the standby's volume then holds exactly the data the
    primary has at that moment, whatever was written since the last one, and both
    ends agree on the next base.  The standby's snapshots grow by one on each
    such tick; nothing ever removes one there. *)
Theorem replication_keeps_up record c lp0 sb0 lp sb :
  in_sync lp0 sb0 -> sp_replicate_to (js_spec (jr_spec record)) <> None ->
  rtc (steady_step record) (lp0, sb0) (lp, sb) -> (lp_tick lp < u64_max)%N -> intact c ->
  exists lp' sb' v v', loop_tick replica_name dataset (Some record) (Some c) lp sb = Val (Some lp', sb') /\
    in_sync lp' sb' /\ source lp = Some v /\ vl_data <$> source lp' = Some (vl_data v) /\
    copy sb' = Some v' /\ vl_data v' = vl_data v /\
    length (vl_snapshots v') = S (length (from_option vl_snapshots [] (copy sb))).
Proof.
  intros H0 Hto Hrun Ht Hc. pose proof (steady_in_sync record _ _ Hto Hrun H0) as Hin. cbn in Hin.
  destruct (in_sync_linked record c lp sb Hin ltac:(lia) Hto Hc)
    as (lp' & sb' & E & Hin' & _ & v & v' & new & Ev & Ev' & Hd & Hs & Hl).
  exists lp', sb', v, v'. rewrite Hs. auto 10.
Qed.

(** ** A stream that breaks *)

(** The answer to the offer arrives; what follows it does not arrive whole. *)
Definition unfinished (c : Conn) : Prop :=
  cn_ack c = true /\ forall stream b n x, ~ carries (cn_payload c stream) b n x.
(** And the sender does not notice: it has written everything when the stream breaks. *)
Definition broken (c : Conn) : Prop := unfinished c /\ cn_write_error c = None.
(** Or it does. *)
Definition noticed (c : Conn) : Prop := unfinished c /\ cn_write_error c <> None.

Lemma handle_replication_broken lp sb snap peer payload last :
  in_sync lp sb -> wire_ok snap -> (forall b, lp_last_confirmed_sent lp = Some b -> wire_ok b) ->
  lp_last_confirmed_sent lp = Some last -> (forall b n x, ~ carries payload b n x) ->
  exists e sb', handle_replication (write_header replica_name snap (lp_last_confirmed_sent lp)) peer true payload sb
      = (Some ACK_PROCEED, Err e, sb') /\
    standby_last sb' replica_name = Some (Some last) /\ copy sb' = copy sb /\
    (forall op file, dk_fault (tg_disk (sb_targets sb')) op file = None).
Proof.
  intros Hin Hs Hb Elast Hc. destruct Hin as [_ Hl _ _ _ _ _ Hd]. unfold handle_replication.
  rewrite <-(app_nil_r_str (write_header _ _ _)), read_header_write by (done || apply replica_wire_ok).
  cbn [hd_replica_name hd_base_snapshot_id hd_snapshot_id]. unfold targets_ensure.
  destruct Hl as [Hl|[_ E]]; [|congruence]. unfold standby_last, targets_get in Hl.
  destruct (tg_by_name (sb_targets sb) !! replica_name) as [found|] eqn:Ef; [|done]. cbn in Hl.
  injection Hl as Hl. cbn [default]. set (target := mkReplicaTarget _ _ _ _).
  destruct (save_ok rt_replica_name TARGETS_DIR (tg_disk (sb_targets sb)) target Hd) as [files1 E1].
  unfold save_target. rewrite E1. cbn [negb]. rewrite bool_decide_eq_true_2 by done. cbn [negb].
  cbn [sb_zfs set_sb_targets]. destruct (receive_snapshot _ payload (sb_zfs sb)) as [r z] eqn:Er.
  destruct (zd_receive _ _ _ _ _ (copy_path_plain sb) Er) as [[Ez Hr]|(b & n & x & H & _)];
    [|by destruct (Hc _ _ _ H)].
  destruct r as [[]|e]; [done|]. eexists _, _. split; [done|]. unfold standby_last, targets_get. cbn.
  rewrite lookup_insert_eq. cbn. rewrite Hl, Elast. split; [done|]. split; [exact Ez|done].
Qed.

(** A tick over a connection that delivers no complete stream: the standby stays as
    it was, and the sender moves on or not. *)
Lemma tick_unfinished record c lp sb base :
  in_sync lp sb -> lp_last_confirmed_sent lp = Some base -> (lp_tick lp + 1 <= u64_max)%N ->
  sp_replicate_to (js_spec (jr_spec record)) <> None -> unfinished c ->
  exists z sb1, let snap := snapshot_name (lp_tick lp + 1) in
    loop_tick replica_name dataset (Some record) (Some c) lp sb =
      Val (Some (if cn_write_error c then mkLoop (Some base) (lp_tick lp + 1) z
                 else mkLoop (Some snap) (lp_tick lp + 1) (prune_previous dataset (Some base) z)), sb1) /\
    in_sync (mkLoop (Some base) (lp_tick lp + 1) z) sb /\ sb_pool sb1 = sb_pool sb /\
    standby_last sb1 replica_name = Some (Some base) /\ copy sb1 = copy sb /\
    (forall op file, dk_fault (tg_disk (sb_targets sb1)) op file = None).
Proof.
  intros Hin Elast Ht Hto [Hack Hc]. destruct (in_sync_snapshot lp sb Hin) as (z & v & x & E & Hz & Ev & Hf & Hx & Ez).
  pose proof (fun b => sender_ok_base lp b (sy_sender _ _ Hin) Ht) as Hbase.
  pose proof (in_sync_unsent lp sb z v x Hin Ht Ev Hf Hz Ez) as Hin2. rewrite Elast in Hin2.
  set (snap := snapshot_name (lp_tick lp + 1)) in *. exists z.
  destruct (send_snapshot z dataset snap (Some base) (cn_write_error c)) as [sent st] eqn:Es.
  destruct (handle_replication_broken lp sb snap (cn_peer c) (cn_payload c st) base Hin)
    as (e & sb1 & Eh & Hl1 & Hc1 & Hd1);
    [apply snapshot_name_wire_ok; lia|by intros b Eb; apply Hbase|done|apply Hc|].
  pose proof (handle_replication_pool _ _ _ _ _ _ _ _ Eh) as Hp1.
  exists sb1. split; [|done]. unfold loop_tick, add_u64. rewrite (proj2 (N.leb_le _ _)) by done. rewrite Val_bind.
  destruct (sp_replicate_to _); [|done]. fold snap. rewrite E. unfold send_once. rewrite Elast, Es, Hack.
  rewrite Elast in Eh. rewrite Eh. change (ACK_PROCEED =? ACK_NEED_FULL)%N with false. cbn iota.
  destruct (cn_write_error c) as [w|] eqn:Ew.
  - destruct sent as [[]|]; [|done]. by destruct (zd_send_complete _ _ _ _ _ _ Es).
  - destruct (in_sync_sends lp sb z v x Hin Ht Ev Hz Ez) as (st' & Est & _). fold snap in Est.
    rewrite Elast, Es in Est. by injection Est as -> ->.
Qed.

(** C38: one stream that breaks unnoticed ends the replication of a volume.  The
    sender takes an offer for delivered once its bytes are written: when the stream
    breaks after that (what is left fits the buffers of the connection, or the receive
    fails on the standby), the standby keeps its data, but the sender records the
    snapshot as confirmed and prunes the base both had in common.  From then on
    no offer matches the standby's last snapshot: whatever the later connections
    do, its volume never changes again.  A break that is noticed while writing does no
    such harm: the sender keeps its base, and, as soon as the standby's ZFS works, the
    two are in step as before. *)
Theorem broken_stream_ends_replication record c lp sb base ticks :
  in_sync lp sb -> lp_last_confirmed_sent lp = Some base ->
  sp_replicate_to (js_spec (jr_spec record)) <> None ->
  (lp_tick lp + 1 + N.of_nat (length ticks) <= u64_max)%N ->
  (broken c -> exists lp1 sb1 (lp2 : option Loop) sb2,
    loop_tick replica_name dataset (Some record) (Some c) lp sb = Val (Some lp1, sb1) /\
    lp_last_confirmed_sent lp1 = Some (snapshot_name (lp_tick lp + 1)) /\ copy sb1 = copy sb /\
    loop_run replica_name dataset ticks lp1 sb1 = Val (lp2, sb2) /\ copy sb2 = copy sb /\
    forall l, lp2 = Some l -> lp_last_confirmed_sent l <> Some base) /\
  (noticed c -> exists lp1 sb1,
    loop_tick replica_name dataset (Some record) (Some c) lp sb = Val (Some lp1, sb1) /\
    lp_last_confirmed_sent lp1 = Some base /\ copy sb1 = copy sb /\
    (zd_healthy (sb_zfs sb1) -> in_sync lp1 sb1)).
Proof.
  intros Hin Elast Hto Ht. assert (lp_tick lp + 1 <= u64_max)%N as Ht1 by lia.
  split; intros [Hc Hw]; destruct (tick_unfinished record c lp sb base Hin Elast Ht1 Hto Hc)
    as (z & sb1 & E & Hin2 & Hp1 & Hl1 & Hc1 & Hd1); destruct (cn_write_error c); try done.
  - destruct (sender_ok_base lp base (sy_sender _ _ Hin) Ht1 Elast) as [_ Hne].
    set (snap := snapshot_name (lp_tick lp + 1)) in *. set (lp1 := mkLoop (Some snap) _ _) in E.
    destruct (loop_run_stuck replica_name dataset ticks lp1 sb1 base replica_wire_ok)
      as (lp2 & sb2 & E2 & Hz2 & Hp2 & _ & Hl2); [|cbn; congruence|done|cbn; lia|].
    { intros b [= <-]. apply snapshot_name_wire_ok. lia. }
    exists lp1, sb1, lp2, sb2. do 3 (split; [done|]). split; [exact E2|]. split.
    + rewrite <- Hc1. unfold copy, copy_path. by rewrite Hz2, Hp2.
    + intros l El. destruct (Hl2 l El) as [->| ->]; [done|]. cbn. congruence.
  - eexists _, sb1. split; [exact E|]. split; [done|]. split; [done|]. intros Hzs.
    destruct Hin2 as [H1 _ H3 H4 H5 H6 [H7 _] _]. split; rewrite ?Hc1; try done. by left.
Qed.
End replica_data.

(** ** The lagging copy

    What replication promises over whole runs: a standby's volume is the
    primary's, some number of writes ago, and that number only grows by the
    writes that happen and drops to nothing when a copy is made.  A volume the
    standby's agent made itself, for a jail applied there, is no copy, and none
    is ever received over it unless it is the very base of the offer. *)

Section lagging.
Context {Data : Type}.

(** No volume, one that was made there, or the copy of so many writes ago. *)
Inductive Held : Type := Absent | Own | Copied (age : nat).

(** The data the source had, newest first ([None]: no dataset), and what the
    standby holds. *)
Record Lag : Type := mkLag { lg_history : list (option Data); lg_held : Held }.

Definition older (h : Held) : Held := match h with Copied k => Copied (S k) | h => h end.

Inductive lag_step : Lag -> Lag -> Prop :=
  | lag_write d h s : lag_step (mkLag h s) (mkLag (d :: h) (older s))
  | lag_copy d h s : lag_step (mkLag (Some d :: h) s) (mkLag (Some d :: h) (Copied 0))
  | lag_create h : lag_step (mkLag h Absent) (mkLag h Own)
  | lag_remove h : lag_step (mkLag h Own) (mkLag h Absent).

(** The data the standby's volume has, if there is one. *)
Definition lag_holds (l : Lag) (d : option Data) : Prop :=
  match lg_held l with
  | Absent => d = None
  | Own => is_Some d
  | Copied k => is_Some d /\ lg_history l !! k = Some d
  end.
End lagging.
Arguments Lag : clear implicits.

Section failover.
Context {HO : HashOrder} {I : Ipnet} {YJR : SerdeYaml JailRecord} {YIR : SerdeYaml IngressRecord}.
Context {YT : SerdeYaml ReplicaTarget} {J Zf Nt M A D X : Type}.
Context {HJ : JailRuntime J} {HZ : ZfsManager Zf} {HN : NetManager Nt} {HM : MountManager M}
        {HA : AcmeClient A D} {HX : NginxController X}.
Context {Data Snap : Type} {HD : ZfsData Zf Data Snap}.
Context (replica_name dataset : string) (Hname : name_valid replica_name = true).

Notation Agent := (@Agent J Zf Nt M A D X).
Notation source := (source dataset).
Notation copy := (copy replica_name).

(** The replication loop on the primary's node, and the standby's node: its
    agent, and the table of the snapshots it received. *)
Record Pair : Type := mkPair {
  pr_loop : @Loop Zf;
  pr_targets : ReplicaTargetRegistry;
  pr_agent : Agent
}.

Definition pr_standby (p : Pair) : @Standby Zf :=
  mkStandby (rc_zfs (ag_rc (pr_agent p))) (rc_pool (ag_rc (pr_agent p))) (pr_targets p).
Definition pr_received (lp : @Loop Zf) (sb : @Standby Zf) (p : Pair) : Pair :=
  mkPair lp (sb_targets sb)
    (mkAgent (set_zfs (sb_zfs sb) (ag_rc (pr_agent p))) (ag_replicating (pr_agent p))).

(** Everything that happens to the two nodes until the standby's jail writes or a
    deletion that names a snapshot of the standby's volume is sent there. *)
Inductive pair_step : Pair -> Pair -> Prop :=
  | pair_write z p :
      pair_step p (mkPair (mkLoop (lp_last_confirmed_sent (pr_loop p)) (lp_tick (pr_loop p)) z)
                     (pr_targets p) (pr_agent p))
  | pair_tick record conn lp sb p :
      (forall c, conn = Some c -> wire_safe c) ->
      loop_tick replica_name dataset record conn (pr_loop p) (pr_standby p) = Val (Some lp, sb) ->
      pair_step p (pr_received lp sb p)
  | pair_restart p : pair_step p (mkPair (loop_start (lp_zfs (pr_loop p))) (pr_targets p) (pr_agent p))
  | pair_targets t p :
      let p' := mkPair (pr_loop p) t (pr_agent p) in
      (claims replica_name (pr_standby p') -> claims replica_name (pr_standby p)) -> pair_step p p'
  | pair_agent a p :
      rc_zfs (ag_rc a) = rc_zfs (ag_rc (pr_agent p)) -> rc_pool (ag_rc a) = rc_pool (ag_rc (pr_agent p)) ->
      pair_step p (mkPair (pr_loop p) (pr_targets p) a)
  | pair_command ck command reply spawned a p :
      handle_command ck command (pr_agent p) = Val (reply, spawned, a) ->
      ~ deletes_snapshot (replica_name +:+ "-data") command ->
      pair_step p (mkPair (pr_loop p) (pr_targets p) a).

(** The data of the two volumes are the two ends of the lag. *)
Record lags (l : Lag Data) (p : Pair) : Prop := {
  la_sender : sender_ok (pr_loop p);
  la_source : head (lg_history l) = Some (vl_data <$> source (pr_loop p));
  la_copy : lag_holds l (vl_data <$> copy (pr_standby p));
  la_held k : lg_held l = Copied k ->
    exists v, copy (pr_standby p) = Some v /\ vl_snapshots v <> [];
  la_claims : claims replica_name (pr_standby p) -> exists k, lg_held l = Copied k
}.

(** A write of the primary. *)
Lemma lag_holds_write (d : option Data) h s x : lag_holds (mkLag h s) x -> lag_holds (mkLag (d :: h) (older s)) x.
Proof. by destruct s. Qed.

(** A step that keeps both volumes. *)
Lemma lags_same l p q :
  lags l p -> sender_ok (pr_loop q) -> vl_data <$> source (pr_loop q) = vl_data <$> source (pr_loop p) ->
  copy (pr_standby q) = copy (pr_standby p) ->
  (claims replica_name (pr_standby q) -> claims replica_name (pr_standby p)) ->
  exists l', rtc lag_step l l' /\ lags l' q.
Proof.
  intros [Hs Hh Hc Hheld Hcl] Hq Es Ec Hq2. exists l. split; [done|].
  split; [done|by rewrite Es|by rewrite Ec|by rewrite Ec|]. intros H%Hq2. by apply Hcl.
Qed.

Lemma lags_tick l p record conn lp sb :
  lags l p -> (forall c, conn = Some c -> wire_safe c) ->
  loop_tick replica_name dataset record conn (pr_loop p) (pr_standby p) = Val (Some lp, sb) ->
  exists l', rtc lag_step l l' /\ lags l' (pr_received lp sb p).
Proof.
  intros Hl Hw E.
  destruct (loop_tick_effect replica_name dataset Hname _ _ _ _ _ _ (la_sender _ _ Hl) Hw E)
    as [[Hp _ Hcl' Hcp] Hlp].
  destruct (Hlp lp eq_refl) as ([Hd _] & Hs' & _).
  assert (copy (pr_standby (pr_received lp sb p)) = copy sb) as Ec
    by (unfold copy, copy_path; cbn; by rewrite Hp).
  assert (forall v x, source (pr_loop p) = Some v -> sn_data x = vl_data v ->
    copy sb = Some (vl_received sn_data (snapshot_name (lp_tick (pr_loop p) + 1)) x (copy (pr_standby p))) ->
    exists l', rtc lag_step l l' /\ lags l' (pr_received lp sb p)) as Hgot.
  { intros v x Ev Hx Hcopy. destruct Hl as [_ Hh _ _ _]. destruct l as [[|d h] age]; [done|].
    cbn in Hh. injection Hh as Hh. rewrite Ev in Hh. cbn in Hh. subst d.
    exists (mkLag (Some (vl_data v) :: h) (Copied 0)). split; [apply rtc_once; constructor|].
    split; [done| |rewrite Ec, Hcopy; cbn; rewrite Hx; by split; [eexists|]| |by exists 0].
    - cbn. unfold source in *. by rewrite Hd, Ev.
    - intros k _. rewrite Ec, Hcopy. by eexists. }
  destruct Hcp as [Hcp|(v & x & Ev & Hx & _ & Hcp)]; [|by eapply Hgot].
  assert (claims replica_name sb -> claims replica_name (pr_standby p) \/
    exists l', rtc lag_step l l' /\ lags l' (pr_received lp sb p)) as Hcl.
  { intros [H|(v & x & Ev & Hx & Hcopy)]%Hcl'; [by left|right; by eapply Hgot]. }
  destruct (standby_last sb replica_name) as [[a|]|] eqn:Ea.
  { destruct (Hcl (ex_intro _ a Ea)) as [Hp'|]; [|done]. by apply (lags_same l p); [| | |rewrite Ec|]. }
  all: apply (lags_same l p); [done|done|done|by rewrite Ec|]; intros [a H]; cbn in H; unfold standby_last in *;
    cbn in H; congruence.
Qed.

Lemma lags_command l p ck command reply spawned a :
  lags l p -> handle_command ck command (pr_agent p) = Val (reply, spawned, a) ->
  ~ deletes_snapshot (replica_name +:+ "-data") command ->
  exists l', rtc lag_step l l' /\ lags l' (mkPair (pr_loop p) (pr_targets p) a).
Proof.
  intros Hl E Hsn. set (q := mkPair _ _ a). pose proof Hl as [Hs Hh Hc Hheld Hcl].
  assert (forall h', lg_held l <> h' -> (forall k, h' <> Copied k) -> (forall k, lg_held l <> Copied k) ->
    lag_step l (mkLag (lg_history l) h') -> lag_holds (mkLag (lg_history l) h') (vl_data <$> copy (pr_standby q)) ->
    exists l', rtc lag_step l l' /\ lags l' q) as Hmove.
  { intros h' _ Hh' Hk Hstep Hq. exists (mkLag (lg_history l) h'). split; [by apply rtc_once|].
    split; [done|done|done|intros k Ek; by destruct (Hh' k)|]. intros H. destruct (Hcl H) as [k Ek]. by destruct (Hk k). }
  destruct l as [h [| |k]]; cbn in Hc.
  - destruct (copy (pr_standby q)) as [v|] eqn:Ev.
    + apply (Hmove Own); try done; [constructor|]. by eexists.
    + apply (lags_same _ p); try done. rewrite Ev. by destruct (copy (pr_standby p)).
  - destruct (copy (pr_standby q)) as [v|] eqn:Ev.
    + exists (mkLag h Own). split; [done|]. split; [done|done|rewrite Ev; by eexists|done|done].
    + apply (Hmove Absent); try done. constructor.
  - destruct (Hheld k eq_refl) as (v & Ev & Hv).
    destruct (handle_command_volume (rc_pool (ag_rc (pr_agent p))) (replica_name +:+ "-data") _ _ _ _ _ _ v
      E eq_refl Ev Hsn (or_introl Hv)) as [Hp (v' & Ev' & Hd & l & Hk & _)].
    assert (copy (pr_standby q) = Some v') as Ec by (unfold copy, copy_path; cbn; by rewrite Hp).
    exists (mkLag h (Copied k)). split; [done|]. split; [done|done| | |by eexists].
    + rewrite Ec. cbn. rewrite Hd. by rewrite Ev in Hc.
    + intros _ _. exists v'. split; [done|]. rewrite Hk. by destruct l.
Qed.

Lemma pair_lags p p' l : pair_step p p' -> lags l p -> exists l', rtc lag_step l l' /\ lags l' p'.
Proof.
  intros Hstep Hl.
  destruct Hstep as [z p|record conn lp sb p Hw E|p|t p p' Ht|a p Ez Ep|ck command reply spawned a p E Hsn].
  - destruct l as [h held], Hl as [Hs Hh Hc Hheld Hcl].
    exists (mkLag ((vl_data <$> volume z dataset) :: h) (older held)).
    split; [apply rtc_once; constructor|]. split; [done|done|by apply lag_holds_write| |].
    + intros k Ek. destruct held as [| |k']; [done|done|]. by apply (Hheld k').
    + intros H. destruct (Hcl H) as [k Ek]. cbn in Ek. subst held. by eexists.
  - by eapply lags_tick.
  - by apply (lags_same l p).
  - apply (lags_same l p); try done; apply Hl.
  - apply (lags_same l p); try done; try apply Hl. unfold copy, copy_path. cbn. by rewrite Ez, Ep.
  - by eapply lags_command.
Qed.

End failover.

(** ** Evaluation *)

#[local] Existing Instance yaml_replica_target.

(** The primary's pool, and a standby that never heard of the replica. *)
Definition primary_pool (rows : string) : Pool := mkPool {[db_dataset := mkVolume rows []]} 1.
Definition data_standby : @Standby Pool := mkStandby (mkPool ∅ 1) "zroot" (mkTargets ∅ empty_disk).
Definition cut_conn : Conn := mkConn "10.0.0.4:40001" true None (fun _ => EmptyString).
Definition reset_conn : Conn := mkConn "10.0.0.4:40002" true (Some "Broken pipe") (fun _ => EmptyString).

Notation data_tick := (@loop_tick yaml_replica_target Pool pool_zfs "db-0" db_dataset).
Notation data_run := (@loop_run yaml_replica_target Pool pool_zfs "db-0" db_dataset).

Lemma data_first_contact : @in_sync Pool string (N * string) pool_zfs pool_data "db-0" db_dataset
  (loop_start (primary_pool "rows")) data_standby.
Proof. apply (first_contact "db-0" db_dataset (primary_pool "rows") data_standby (mkVolume "rows" [])); done. Qed.

Lemma good_conn_intact : intact good_conn.
Proof. by split. Qed.
Lemma good_conn_safe c : Some good_conn = Some c -> wire_safe (Zf := Pool) c.
Proof. intros [= <-]. by intros stream b n x. Qed.
Lemma cut_conn_broken : broken (Zf := Pool) cut_conn.
Proof. split; [split; [done|]|done]. intros stream b n x. apply zd_carries_empty. Qed.
Lemma reset_conn_noticed : noticed (Zf := Pool) reset_conn.
Proof. split; [split; [done|]|done]. intros stream b n x. apply zd_carries_empty. Qed.
Lemma db_name_valid : name_valid "db-0" = true.
Proof. reflexivity. Qed.

(** The first tick copies the volume; the standby's agent finds it there. *)
Lemma tick_compares_and_swaps_witness :
  exists lp sb, data_tick (Some db_record) (Some good_conn) (loop_start (primary_pool "rows")) data_standby
      = Val (Some lp, sb) /\
    (pl_volumes (sb_zfs sb) !! db_dataset = None \/
     exists v, pl_volumes (sb_zfs sb) !! db_dataset = Some v /\ vl_data v = "rows").
Proof.
  destruct (in_sync_linked "db-0" db_dataset db_name_valid db_record good_conn _ _ data_first_contact)
    as (lp & sb & E & _ & _); [vm_compute; discriminate|discriminate|apply good_conn_intact|].
  exists lp, sb. split; [exact E|].
  destruct (@tick_compares_and_swaps yaml_replica_target Pool string (N * string)%type pool_zfs pool_data "db-0"
    db_dataset db_name_valid (Some db_record) (Some good_conn) (loop_start (primary_pool "rows")) data_standby
    (Some lp) sb) as (_ & _ & [Hc|(v & v' & Ev & Ev' & Hd & _)]).
  - intros b [=].
  - apply good_conn_safe.
  - exact E.
  - left. vm_compute in E. injection E as _ <-. vm_compute in Hc. discriminate Hc.
  - right. exists v'. vm_compute in E. injection E as _ <-. split; [exact Ev'|].
    vm_compute in Ev. injection Ev as <-. exact Hd.
Defined.

(** The jail writes, a tick is lost, and the next one catches up. *)
Lemma replication_keeps_up_witness :
  exists lp sb lp' sb' v', rtc (@steady_step yaml_replica_target Pool string (N * string)%type pool_zfs pool_data
      "db-0" db_dataset db_record) (loop_start (primary_pool "rows"), data_standby) (lp, sb) /\
    data_tick (Some db_record) (Some good_conn) lp sb = Val (Some lp', sb') /\
    pl_volumes (sb_zfs sb') !! db_dataset = Some v' /\ vl_data v' = "more rows".
Proof.
  set (written := mkLoop None 0 (primary_pool "more rows")).
  destruct (in_sync_lost "db-0" db_dataset db_name_valid db_record written data_standby) as (lp & E & _ & Ht).
  - apply (in_sync_written "db-0" db_dataset (loop_start (primary_pool "rows")) data_standby
      (primary_pool "more rows") data_first_contact); reflexivity.
  - vm_compute. discriminate.
  - discriminate.
  - assert (rtc (@steady_step yaml_replica_target Pool string (N * string)%type pool_zfs pool_data
      "db-0" db_dataset db_record) (loop_start (primary_pool "rows"), data_standby) (lp, data_standby)) as Hrun.
    { eapply rtc_l; [apply (steady_write "db-0" db_dataset db_record (primary_pool "more rows")); reflexivity|].
      apply rtc_once. apply (steady_lost "db-0" db_dataset db_record written). exact E. }
    destruct (@replication_keeps_up yaml_replica_target Pool string (N * string)%type pool_zfs pool_data "db-0"
      db_dataset db_name_valid db_record good_conn (loop_start (primary_pool "rows")) data_standby lp data_standby)
      as (lp' & sb' & v & v' & E' & _ & Ev & _ & Ev' & Hd & _).
    + exact data_first_contact.
    + discriminate.
    + exact Hrun.
    + rewrite Ht. vm_compute. reflexivity.
    + exact good_conn_intact.
    + exists lp, data_standby, lp', sb', v'. split; [exact Hrun|]. split; [exact E'|].
      vm_compute in E. injection E as <-. vm_compute in Ev. injection Ev as <-.
      split; [|exact Hd]. rewrite <- Ev'. vm_compute in E'. injection E' as _ <-. reflexivity.
Defined.

(** After one good tick, the stream of the second breaks, and three more ticks follow;
    had the break been noticed, the fourth would have copied the volume again. *)
Lemma broken_stream_ends_replication_witness :
  exists lp sb lp1 sb1 lp2 sb2 lp3 sb3,
    data_tick (Some db_record) (Some good_conn) (loop_start (primary_pool "rows")) data_standby = Val (Some lp, sb) /\
    data_tick (Some db_record) (Some cut_conn) lp sb = Val (Some lp1, sb1) /\
    lp_last_confirmed_sent lp1 = Some "keel-repl-2" /\
    data_run (replicate 3 (Some db_record, Some good_conn)) lp1 sb1 = Val (lp2, sb2) /\
    copy (Zf := Pool) "db-0" sb2 = copy "db-0" sb /\
    data_tick (Some db_record) (Some reset_conn) lp sb = Val (Some lp3, sb3) /\
    lp_last_confirmed_sent lp3 = Some "keel-repl-1".
Proof.
  destruct (in_sync_linked "db-0" db_dataset db_name_valid db_record good_conn _ _ data_first_contact)
    as (lp & sb & E & Hin & Ht & _); [vm_compute; discriminate|discriminate|apply good_conn_intact|].
  assert (lp_last_confirmed_sent lp = Some "keel-repl-1") as El
    by (vm_compute in E; injection E as <- _; reflexivity).
  assert (lp_tick lp + 1 + 3 <= u64_max)%N as Hle by (rewrite Ht; vm_compute; discriminate).
  destruct (@broken_stream_ends_replication yaml_replica_target Pool string (N * string)%type pool_zfs pool_data
    "db-0" db_dataset db_name_valid db_record cut_conn lp sb "keel-repl-1"
    (replicate 3 (Some db_record, Some good_conn)) Hin El ltac:(discriminate) Hle) as [Hb _].
  destruct (Hb cut_conn_broken) as (lp1 & sb1 & lp2 & sb2 & E1 & Hl1 & _ & E2 & Hc2 & _).
  destruct (@broken_stream_ends_replication yaml_replica_target Pool string (N * string)%type pool_zfs pool_data
    "db-0" db_dataset db_name_valid db_record reset_conn lp sb "keel-repl-1"
    (replicate 3 (Some db_record, Some good_conn)) Hin El ltac:(discriminate) Hle) as [_ Hn].
  destruct (Hn reset_conn_noticed) as (lp3 & sb3 & E3 & Hl3 & _).
  exists lp, sb, lp1, sb1, lp2, sb2, lp3, sb3. split; [exact E|]. split; [exact E1|].
  split; [rewrite Hl1, Ht; reflexivity|]. split; [exact E2|]. split; [exact Hc2|]. split; [exact E3|exact Hl3].
Defined.

(** The standby receives the volume, the primary writes on, and the replica is
    promoted: its jail is applied on the standby. *)
Definition standby_agent : @Agent FakeJailRuntime Pool FakeNetManager FakeMountManager FakeAcmeClient
    FakeDnsProvider FakeNginxController :=
  mkAgent (mkReconciler fake_jail_new (mkPool {["zroot/keel/base/14.2-web" := mkVolume "image" []]} 1)
    (mkFakeNetManager ∅ ∅ ∅ ∅ ∅) (mkFakeMountManager ∅) "zroot" empty_disk empty_disk empty_disk ∅ ∅ 1 ∅ ∅
    (mkFakeAcme false) (mkFakeDns ∅ false) (mkFakeNginx ∅ false ∅) ∅) ∅.
Definition fresh_pair := mkPair (loop_start (primary_pool "rows")) (mkTargets ∅ empty_disk) standby_agent.
Notation data_step := (@pair_step list_order ipnet_model yaml_jail_record yaml_ingress_record yaml_replica_target
  _ _ _ _ _ _ _ fake_jail_runtime pool_zfs (@fake_net_manager ipnet_model) fake_mount_manager
  (@fake_acme FakeDnsProvider fake_dns) fake_nginx string (N * string)%type pool_data "db-0" db_dataset).
Notation data_command := (@handle_command list_order ipnet_model yaml_jail_record yaml_ingress_record
  _ _ _ _ _ _ _ fake_jail_runtime pool_zfs (@fake_net_manager ipnet_model) fake_mount_manager
  (@fake_acme FakeDnsProvider fake_dns) fake_nginx).

Definition received_pair :=
  match data_tick (Some db_record) (Some good_conn) (loop_start (primary_pool "rows")) (pr_standby fresh_pair) with
  | Val (Some lp, sb) =>
      pr_received (mkLoop (lp_last_confirmed_sent lp) (lp_tick lp) (primary_pool "more rows")) sb fresh_pair
  | _ => fresh_pair
  end.
Definition promoted_pair :=
  match data_command demo_clock (AgApply db_spec) (pr_agent received_pair) with
  | Val (_, _, a) => mkPair (pr_loop received_pair) (pr_targets received_pair) a
  | Panic => received_pair
  end.

Lemma received_steps : rtc data_step fresh_pair received_pair.
Proof.
  assert (match data_tick (Some db_record) (Some good_conn) (loop_start (primary_pool "rows"))
            (pr_standby fresh_pair) with Val (Some _, _) => True | _ => False end) as H by (vm_compute; exact I).
  unfold received_pair. destruct (data_tick _ _ _ _) as [[[lp|] sb]|] eqn:E; [|destruct H|destruct H].
  eapply rtc_l; [eapply (pair_tick "db-0" db_dataset _ _ lp sb fresh_pair); [apply good_conn_safe|exact E]|].
  apply rtc_once. exact (pair_write "db-0" db_dataset (primary_pool "more rows") (pr_received lp sb fresh_pair)).
Qed.

Lemma promoted_steps : rtc data_step fresh_pair promoted_pair.
Proof.
  etransitivity; [apply received_steps|].
  assert (match data_command demo_clock (AgApply db_spec) (pr_agent received_pair) with
          | Val _ => True | Panic => False end) as H by (vm_compute; exact I).
  unfold promoted_pair. destruct (data_command _ _ _) as [[[reply spawned] a]|] eqn:E; [|destruct H].
  apply rtc_once. eapply pair_command; [exact E|]. intros (n & Hn & _). discriminate Hn.
Qed.


(** The promoted jail runs, its volume mounted. *)
Example promoted_runs :
  (default false (fj_running <$> fjr_jails (rc_jails (ag_rc (pr_agent promoted_pair))) !! "keel-db-0"),
   elements (fm_mounted (rc_mounts (ag_rc (pr_agent promoted_pair))))) =
  (true, ["/zroot/keel/jails/db-0/data"]).
Proof. vm_compute. reflexivity. Qed.
