(* ===== verification/AgentHttp.v ===== *)
(** * The node agent's HTTP handlers

    [keel-agentd/src/http.rs]: each connection, over the Unix socket or over
    TLS, is handled by a thread of its own that sends at most one command to the
    worker and waits for the reply.  A handler is a value of type [aprog]; [serve]
    runs it against the worker of [AgentWorker].  Also the slot the assigned pod
    network is kept in ([podcidr.rs]) and the bodies of [wire.rs]. *)

From S2P Require Import Prelude RustStr Text HttpMsg Float64 Ipnet Spec Wire Codecs Registry Backoff.
From S2P Require Import CpHttp AgentHost Store Ingress Reconciler ReconcilerInv AgentWorker Replication.

(** ** Messages of the error types *)

(** [Display] of an [ExitStatus], from the status word of [wait]. *)
Definition signal_names : list string :=
  ["SIGHUP"; "SIGINT"; "SIGQUIT"; "SIGILL"; "SIGTRAP"; "SIGABRT"; "SIGEMT"; "SIGFPE"; "SIGKILL";
   "SIGBUS"; "SIGSEGV"; "SIGSYS"; "SIGPIPE"; "SIGALRM"; "SIGTERM"; "SIGURG"; "SIGSTOP"; "SIGTSTP";
   "SIGCONT"; "SIGCHLD"; "SIGTTIN"; "SIGTTOU"; "SIGIO"; "SIGXCPU"; "SIGXFSZ"; "SIGVTALRM"; "SIGPROF";
   "SIGWINCH"; "SIGINFO"; "SIGUSR1"; "SIGUSR2"].

Definition exit_status_to_string (status : N) : string :=
  let signal := (status mod 128)%N in
  if (signal =? 0)%N then "exit status: " +:+ u_to_string (status / 256)
  else "signal: " +:+ u_to_string signal
       +:+ match signal_names !! (N.to_nat signal - 1)%nat with
           | Some name => " (" +:+ name +:+ ")"
           | None => EmptyString
           end
       +:+ (if (128 <=? status mod 256)%N then " (core dumped)" else EmptyString).

Definition spawn_message (cmd e : string) : string := "failed to spawn `" +:+ cmd +:+ "`: " +:+ e.
Definition failed_message (cmd : string) (status : N) (stderr : string) : string :=
  "`" +:+ cmd +:+ "` failed with exit status " +:+ exit_status_to_string status +:+ ": " +:+ stderr.

Definition jail_error_to_string (e : JailError) : string :=
  match e with
  | JSpawn cmd e => spawn_message cmd e
  | JCommandFailed cmd status stderr => failed_message cmd status stderr
  | JNotFound name => "jail '" +:+ name +:+ "' not found"
  end.
Definition mount_error_to_string (e : MountError) : string :=
  match e with
  | MSpawn cmd e => spawn_message cmd e
  | MCommandFailed cmd status stderr => failed_message cmd status stderr
  | NotMounted target => "'" +:+ target +:+ "' is not currently mounted"
  | MIo e => "io error: " +:+ e
  end.
Definition zfs_error_to_string (e : ZfsError) : string :=
  match e with
  | ZSpawn cmd e => spawn_message cmd e
  | ZCommandFailed cmd status stderr => failed_message cmd status stderr
  | ZNotFound dataset => "dataset '" +:+ dataset +:+ "' not found"
  | Busy dataset => "dataset '" +:+ dataset +:+ "' is busy"
  end.
Definition net_error_to_string (e : NetError) : string :=
  match e with
  | NSpawn cmd e => spawn_message cmd e
  | NCommandFailed cmd status stderr => failed_message cmd status stderr
  | NNotFound bridge => "bridge '" +:+ bridge +:+ "' not found"
  end.
Definition store_error_to_string (e : StoreError) : string :=
  match e with
  | Io path e => "I/O error at " +:+ path +:+ ": " +:+ e
  | Parse path e => "failed to parse state file " +:+ path +:+ ": " +:+ e
  end.
Definition reconcile_error_to_string (e : ReconcileError) : string :=
  match e with
  | InvalidSpec e => "spec validation failed: " +:+ spec_error_to_string e
  | EStore e => "state store error: " +:+ store_error_to_string e
  | EJail e => "jail runtime error: " +:+ jail_error_to_string e
  | EZfs e => "zfs error: " +:+ zfs_error_to_string e
  | ENet e => "network error: " +:+ net_error_to_string e
  | EMount e => "mount error: " +:+ mount_error_to_string e
  | NotFound name => "jail '" +:+ name +:+ "' not found in desired state"
  | BaseImageNotFound dataset => "base image dataset '" +:+ dataset +:+ "' does not exist"
  end.

Definition status_for_error (e : ReconcileError) : N :=
  match e with
  | InvalidSpec (ImmutableField _) => 409
  | InvalidSpec _ => 400
  | NotFound _ => 404
  | EZfs (ZNotFound _) => 404
  | EZfs (Busy _) => 409
  | _ => 500
  end.

(** ** Bodies and slots *)

Record IngressStatus : Type := mkIngressStatus { ist_record : IngressRecord }.
Record VolumeStatus : Type := mkVolumeStatus { vs_name : string }.
Record ReplicaTargetStatus : Type := mkReplicaTargetStatus {
  rts_replica_name : string;
  rts_ready : bool
}.
Record ReplicateToBody : Type := mkReplicateToBody { rb_replicate_to : string }.

#[global] Instance JailStatus_repr : Repr JailStatus := fun s => repr (jst_record s).
#[global] Instance JailStatuses_repr : Repr (list JailStatus) := Forall repr.
#[global] Instance IngressStatus_repr : Repr IngressStatus := fun s => repr (ist_record s).
#[global] Instance IngressStatuses_repr : Repr (list IngressStatus) := Forall repr.
#[global] Instance VolumeStatus_repr : Repr VolumeStatus := fun _ => True.
#[global] Instance ReplicaTargetStatus_repr : Repr ReplicaTargetStatus := fun _ => True.
#[global] Instance ReplicateToBody_repr : Repr ReplicateToBody := fun _ => True.

(** [PodCidrSlot]: the cell shared by the registration loop and the handlers. *)
Definition PodCidrSlot : Type := option Ipv4Net.
Definition pod_cidr_slot_new : PodCidrSlot := None.
Definition pod_cidr_slot_set (pod_cidr : Ipv4Net) (_ : PodCidrSlot) : PodCidrSlot := Some pod_cidr.
Definition pod_cidr_slot_get (slot : PodCidrSlot) : option Ipv4Net := slot.

(** What a handler reads of the process: the shared cells. *)
Record Shared : Type := mkShared {
  sh_pod_cidr_slot : PodCidrSlot;
  sh_service_vips : ServiceVipSlot;
  sh_replica_targets : ReplicaTargetRegistry
}.

(** ** Handlers *)

Inductive aprog : Type :=
  | ARet (r : response)
  | ASend (c : AgentCommand) (k : sent AgentReply -> aprog).

Section agent_handlers.
Context {I : Ipnet}.
Context {YE : SerdeYaml ErrorBody} {YJ : SerdeYaml JailSpec} {YIS : SerdeYaml IngressSpec}
        {YRB : SerdeYaml ReplicateToBody} {YJS : SerdeYaml JailStatus}
        {YJL : SerdeYaml (list JailStatus)} {YIG : SerdeYaml IngressStatus}
        {YIL : SerdeYaml (list IngressStatus)} {YVS : SerdeYaml VolumeStatus}
        {YRS : SerdeYaml ReplicaTargetStatus}.

Definition agent_not_running : response := error_response 500 "reconciler worker is not running".
Definition agent_no_reply : response := error_response 500 "reconciler worker did not respond".

(** Sending a command answered with a [Result<(), ReconcileError>].  The reply
    channel of a command carries one type only, so the last case cannot arise. *)
Definition send_result (c : AgentCommand) (ok : response) : aprog :=
  ASend c (fun reply => ARet
    match reply with
    | SendErr => agent_not_running
    | RecvErr => agent_no_reply
    | Reply (ReplyResult (Ok _)) => ok
    | Reply (ReplyResult (Err e)) => error_response (status_for_error e) (reconcile_error_to_string e)
    | Reply _ => agent_no_reply
    end).

Definition empty_ok : response := (200%N, EmptyString).

Definition name_mismatch (path_name name : string) : response :=
  error_response 400 ("path name '" +:+ path_name +:+ "' does not match spec.metadata.name '"
                      +:+ name +:+ "'").

(** The test of [handle_apply] on the address, when the node has a subnet. *)
Definition outside_subnet (slot : PodCidrSlot) (address : string) : option Ipv4Net :=
  match pod_cidr_slot_get slot with
  | None => None
  | Some pod_cidr =>
      match ipnet_parse address with
      | Err _ => None
      | Ok (inl net) => if net_contains pod_cidr (net_addr net) then None else Some pod_cidr
      | Ok (inr _) => Some pod_cidr
      end
  end.

Definition handle_apply (path_name body : string) (sh : Shared) : aprog :=
  match (from_yaml body : result string JailSpec) with
  | Err e => ARet (error_response 400 ("invalid YAML: " +:+ e))
  | Ok spec =>
      let name := meta_name (js_metadata spec) in
      let address := net_address (sp_network (js_spec spec)) in
      if negb (String.eqb name path_name) then ARet (name_mismatch path_name name)
      else match outside_subnet (sh_pod_cidr_slot sh) address with
      | Some pod_cidr =>
          ARet (error_response 400 ("network.address '" +:+ address
                  +:+ "' is outside this node's assigned subnet " +:+ net_to_string pod_cidr))
      | None => send_result (AgApply spec) empty_ok
      end
  end.

Definition handle_apply_ingress (path_name body : string) (sh : Shared) : aprog :=
  match (from_yaml body : result string IngressSpec) with
  | Err e => ARet (error_response 400 ("invalid YAML: " +:+ e))
  | Ok spec =>
      let name := meta_name (is_metadata spec) in
      let service := ib_service (isb_backend (is_spec spec)) in
      if negb (String.eqb name path_name) then ARet (name_mismatch path_name name)
      else if negb (bool_decide (service ∈ vips_names (sh_service_vips sh))) then
        ARet (error_response 400 ("backend.service '" +:+ service
                                  +:+ "' does not name a currently-known Service"))
      else send_result (AgApplyIngress spec) empty_ok
  end.

Definition handle_get_ingress (name : option string) : aprog :=
  ASend (AgGetIngress name) (fun reply => ARet
    match reply with
    | SendErr => agent_not_running
    | Reply (ReplyIngresses records) =>
        let statuses := mkIngressStatus <$> records in
        match name with
        | Some n => match statuses with
                    | status :: _ => yaml_response 200 status
                    | [] => error_response 404 ("ingress '" +:+ n +:+ "' not found")
                    end
        | None => yaml_response 200 statuses
        end
    | _ => agent_no_reply
    end).

Definition handle_delete_ingress (name : string) : aprog := send_result (AgDeleteIngress name) empty_ok.

Definition handle_set_replicate_to (name body : string) : aprog :=
  if str_is_empty body then send_result (AgSetReplicateTo name None) empty_ok
  else match (from_yaml body : result string ReplicateToBody) with
  | Err e => ARet (error_response 400 ("invalid YAML: " +:+ e))
  | Ok b => send_result (AgSetReplicateTo name (Some (rb_replicate_to b))) empty_ok
  end.

Definition handle_get (name : option string) : aprog :=
  ASend (AgGet name) (fun reply => ARet
    match reply with
    | SendErr => agent_not_running
    | Reply (ReplyStatuses statuses) =>
        match name with
        | Some n => match statuses with
                    | status :: _ => yaml_response 200 status
                    | [] => error_response 404 ("jail '" +:+ n +:+ "' not found")
                    end
        | None => yaml_response 200 statuses
        end
    | _ => agent_no_reply
    end).

Definition handle_delete (name : string) : aprog := send_result (AgDelete name) empty_ok.
Definition handle_get_volume (name : string) : aprog :=
  send_result (AgGetVolume name) (yaml_response 200 (mkVolumeStatus name)).
Definition handle_delete_volume (name : string) : aprog := send_result (AgDeleteVolume name) empty_ok.

Definition handle_get_replica_target (name : string) (sh : Shared) : aprog :=
  ARet match targets_get (sh_replica_targets sh) name with
       | None => error_response 404 ("no replica target '" +:+ name +:+ "'")
       | Some target =>
           match rt_last_snapshot target with
           | None => error_response 409 ("replica target '" +:+ name
                       +:+ "' has not completed a first full replication yet")
           | Some _ => yaml_response 200 (mkReplicaTargetStatus name true)
           end
       end.

(** The arms of [route], grouped by the number of path segments. *)
Definition agent_route (request : ParsedRequest) (sh : Shared) : aprog :=
  let m := String.eqb (pr_method request) in
  let not_found := ARet (error_response 404 ("no route for " +:+ pr_method request +:+ " "
                                             +:+ pr_path request)) in
  match segments (pr_path request) with
  | [a] =>
      if m "GET" && String.eqb a "jails" then handle_get None
      else if m "GET" && String.eqb a "ingress" then handle_get_ingress None
      else not_found
  | [a; name] =>
      if m "PUT" && String.eqb a "jails" then handle_apply name (pr_body request) sh
      else if m "GET" && String.eqb a "jails" then handle_get (Some name)
      else if m "DELETE" && String.eqb a "jails" then handle_delete name
      else if m "GET" && String.eqb a "volumes" then handle_get_volume name
      else if m "DELETE" && String.eqb a "volumes" then handle_delete_volume name
      else if m "GET" && String.eqb a "replica-targets" then handle_get_replica_target name sh
      else if m "PUT" && String.eqb a "ingress" then handle_apply_ingress name (pr_body request) sh
      else if m "GET" && String.eqb a "ingress" then handle_get_ingress (Some name)
      else if m "DELETE" && String.eqb a "ingress" then handle_delete_ingress name
      else not_found
  | [a; name; c] =>
      if m "PUT" && String.eqb a "jails" && String.eqb c "replicate-to"
      then handle_set_replicate_to name (pr_body request)
      else not_found
  | _ => not_found
  end.
End agent_handlers.

(** ** Serving a request *)

Section serving.
Context {HO : HashOrder} {I : Ipnet} {YJR : SerdeYaml JailRecord} {YIR : SerdeYaml IngressRecord}.
Context {YE : SerdeYaml ErrorBody} {YJ : SerdeYaml JailSpec} {YIS : SerdeYaml IngressSpec}
        {YRB : SerdeYaml ReplicateToBody} {YJS : SerdeYaml JailStatus}
        {YJL : SerdeYaml (list JailStatus)} {YIG : SerdeYaml IngressStatus}
        {YIL : SerdeYaml (list IngressStatus)} {YVS : SerdeYaml VolumeStatus}
        {YRS : SerdeYaml ReplicaTargetStatus}.
Context {J Zf Nt M A D X : Type}.
Context {HJ : JailRuntime J} {HZ : ZfsManager Zf} {HN : NetManager Nt} {HM : MountManager M}
        {HA : AcmeClient A D} {HX : NginxController X}.

Notation Agent := (@Agent J Zf Nt M A D X).

(** The worker thread, [None] once it has panicked: then the command channel is
    closed, and the handler whose command it was gets no reply. *)
Definition send_agent (ck : Clock) (c : AgentCommand) (w : option Agent)
    : sent AgentReply * option Agent :=
  match w with
  | None => (SendErr, None)
  | Some a =>
      match AgentWorker.handle_command ck c a with
      | Val (reply, _, a') => (Reply reply, Some a')
      | Panic => (RecvErr, None)
      end
  end.

Fixpoint serve (ck : Clock) (p : aprog) (w : option Agent) : response * option Agent :=
  match p with
  | ARet r => (r, w)
  | ASend c k => let '(reply, w) := send_agent ck c w in serve ck (k reply) w
  end.

(** [handle_connection]: the bytes written back, if a request was read. *)
Definition handle_connection {HP : Httparse} (ck : Clock) (reads : Stream) (sh : Shared)
    (w : option Agent) : comp (result HttpMsg.IoError (option string) * option Agent) :=
  r ← read_request reads;
  Val match r with
      | Err e => (Err e, w)
      | Ok None => (Ok None, w)
      | Ok (Some request) =>
          let '((status, body), w) := serve ck (agent_route request sh) w in
          (Ok (Some (agent_write_response status body)), w)
      end.

(** ** Reading changes nothing *)

Definition read_only (p : aprog) : Prop :=
  forall ck a, (serve ck p (Some a)).2 = Some a.

Lemma ret_read_only r : read_only (ARet r).
Proof. done. Qed.
Lemma get_read_only name : read_only (handle_get name).
Proof. done. Qed.
Lemma get_ingress_read_only name : read_only (handle_get_ingress name).
Proof. done. Qed.
Lemma get_volume_read_only name : read_only (handle_get_volume name).
Proof.
  intros ck a. cbn. unfold get_volume, st_bind, st_get, asks.
  destruct (map_err _ _) as [[]|]; cbn; by destruct a.
Qed.

(** Reading is safe.  No [GET] request, whatever its path, changes the
    agent's desired state, its host or its disk, or stops its worker. *)
Theorem agent_get_read_only request sh :
  pr_method request = "GET" -> read_only (agent_route request sh).
Proof.
  intros Hm. unfold agent_route. rewrite Hm. cbn [String.eqb Ascii.eqb Bool.eqb andb].
  repeat case_match; auto using ret_read_only, get_read_only, get_ingress_read_only,
    get_volume_read_only; unfold handle_get_replica_target; apply ret_read_only.
Qed.

(** ** Applying a jail *)

Lemma status_for_error_not_ok e : is_2xx (status_for_error e) = false.
Proof. destruct e as [[]| | |[]| | | |]; reflexivity. Qed.

Lemma apply_served ck spec a reply spawned a' :
  agent_inv (ag_rc a) -> unix_ok (ck_unix ck) ->
  AgentWorker.handle_command ck (AgApply spec) a = Val (reply, spawned, a') ->
  agent_inv (ag_rc a') /\
  (forall n, n <> meta_name (js_metadata spec) -> n <> "ingress" ->
     rc_records (ag_rc a') !! n = rc_records (ag_rc a) !! n) /\
  exists r, reply = ReplyResult r /\
    match r with
    | Ok _ => exists record, rc_records (ag_rc a') !! meta_name (js_metadata spec) = Some record /\
                jr_spec record = spec
    | Err _ => meta_name (js_metadata spec) <> "ingress" ->
        rc_records (ag_rc a') !! meta_name (js_metadata spec)
          = rc_records (ag_rc a) !! meta_name (js_metadata spec)
    end.
Proof.
  intros Ha Hu E. split; [by eapply handle_command_keeps; [split; [exact Hu|]|exact E|]|].
  cbn [AgentWorker.handle_command] in E. unfold then_reconcile in E.
  destruct (apply spec (ag_rc a)) as [[r s1]|] eqn:E1; [|done]. rewrite Val_bind in E.
  destruct (reconcile _ _ _ s1) as [[fs s2]|] eqn:E2; [|done]. rewrite !Val_bind in E.
  assert (ag_rc a' = s2 /\ reply = ReplyResult r) as [-> ->].
  { destruct (is_ok r && replicated spec); [destruct (spawn_loop _ _)|]; by injection E as <- _ <-. }
  pose proof (apply_keeps spec _ _ _ E1 Ha) as Hs1. apply apply_lookup in E1.
  assert (forall n, n <> "ingress" \/ is_Some (rc_records s1 !! n) ->
            rc_records s2 !! n = rc_records s1 !! n) as Hrec
    by (intros n Hn; by eapply reconcile_lookup).
  split.
  - intros n Hn Hni. rewrite Hrec by auto. destruct r; [|by rewrite E1].
    destruct E1 as (record & -> & _). by apply lookup_insert_ne.
  - exists r. split; [done|]. destruct r.
    + destruct E1 as (record & E1 & Hspec). exists record. split; [|done].
      rewrite Hrec; rewrite E1, lookup_insert_eq; eauto.
    + intros Hni. rewrite Hrec by auto. by rewrite E1.
Qed.

(** Applying a jail over HTTP is all or nothing.  A [PUT] answered with a 2xx
    has recorded exactly the spec of its body, under the name of its path, inside
    the node's subnet, and a later [GET] returns it; one answered with anything
    else leaves what was recorded under that name as it was.  Other jails are
    never touched, and the agent's invariant holds, so the record is on disk
    exactly when it was accepted. *)
Lemma agent_put_jail_correct ck name body sh a :
  agent_inv (ag_rc a) -> unix_ok (ck_unix ck) ->
  let '(resp, w) := serve ck (handle_apply name body sh) (Some a) in
  match w with
  | None => resp.1 = 500%N
  | Some a' =>
      agent_inv (ag_rc a') /\
      (forall n, n <> name -> n <> "ingress" ->
         rc_records (ag_rc a') !! n = rc_records (ag_rc a) !! n) /\
      if is_2xx resp.1 then
        exists spec record, from_yaml body = Ok spec /\ meta_name (js_metadata spec) = name /\
          outside_subnet (sh_pod_cidr_slot sh) (net_address (sp_network (js_spec spec))) = None /\
          rc_records (ag_rc a') !! name = Some record /\ jr_spec record = spec /\
          forall ck', exists running backoff,
            serve ck' (handle_get (Some name)) (Some a')
              = (yaml_response 200 (mkJailStatus record running backoff), Some a')
      else name <> "ingress" -> rc_records (ag_rc a') !! name = rc_records (ag_rc a) !! name
  end.
Proof.
  intros Ha Hu. unfold handle_apply. destruct (from_yaml body) as [spec|e] eqn:Ey; [|done]. cbn zeta.
  destruct (negb _) eqn:En; [done|]. apply negb_false_iff, String.eqb_eq in En.
  destruct (outside_subnet _ _) as [pc|] eqn:Eo; [done|].
  unfold send_result. cbn [serve send_agent].
  destruct (AgentWorker.handle_command _ _ a) as [[[reply spawned] a']|] eqn:E; [|done]. cbn [serve].
  destruct (apply_served ck spec a reply spawned a' Ha Hu E) as (Ha' & Hother & r & -> & Hr).
  rewrite En in *. split; [done|]. split; [done|]. destruct r as [[]|e].
  - cbn. destruct Hr as (record & Hrec & Hspec). exists spec, record. do 5 (split; [done|]).
    intros ck'. cbn. unfold get_jail. rewrite Hrec. cbn. by eexists _, _.
  - cbn. rewrite status_for_error_not_ok. done.
Qed.
End serving.

(** ** Witnesses *)

(** Executable codecs of the agent's documents, as in [Codecs]. *)
#[global] Instance BackoffStatus_eq_dec : EqDecision BackoffStatus.
Proof. solve_decision. Defined.
#[global] Instance BackoffStatus_countable : Countable BackoffStatus.
Proof.
  refine (inj_countable' (fun x => (bs_retry_in_secs x, bs_current_delay_secs x))
    (fun '(a0, a1) => mkBackoffStatus a0 a1) _).
  by intros [].
Defined.
#[global] Instance JailStatus_eq_dec : EqDecision JailStatus.
Proof. solve_decision. Defined.
#[global] Instance JailStatus_countable : Countable JailStatus.
Proof.
  refine (inj_countable' (fun x => (jst_record x, jst_running x, jst_backoff x))
    (fun '(a0, a1, a2) => mkJailStatus a0 a1 a2) _).
  by intros [].
Defined.
#[global] Instance IngressStatus_eq_dec : EqDecision IngressStatus.
Proof. solve_decision. Defined.
#[global] Instance IngressStatus_countable : Countable IngressStatus.
Proof. refine (inj_countable' ist_record mkIngressStatus _). by intros []. Defined.
#[global] Instance VolumeStatus_eq_dec : EqDecision VolumeStatus.
Proof. solve_decision. Defined.
#[global] Instance VolumeStatus_countable : Countable VolumeStatus.
Proof. refine (inj_countable' vs_name mkVolumeStatus _). by intros []. Defined.
#[global] Instance ReplicaTargetStatus_eq_dec : EqDecision ReplicaTargetStatus.
Proof. solve_decision. Defined.
#[global] Instance ReplicaTargetStatus_countable : Countable ReplicaTargetStatus.
Proof.
  refine (inj_countable' (fun x => (rts_replica_name x, rts_ready x))
    (fun '(a0, a1) => mkReplicaTargetStatus a0 a1) _).
  by intros [].
Defined.
#[global] Instance ReplicateToBody_eq_dec : EqDecision ReplicateToBody.
Proof. solve_decision. Defined.
#[global] Instance ReplicateToBody_countable : Countable ReplicateToBody.
Proof. refine (inj_countable' rb_replicate_to mkReplicateToBody _). by intros []. Defined.
#[global] Instance repr_dec_ingress (x : IngressSpec) : Decision (repr x).
Proof. unfold repr, IngressSpec_repr. apply _. Defined.
#[global] Instance repr_dec_jail_status (x : JailStatus) : Decision (repr x).
Proof. unfold repr, JailStatus_repr. apply _. Defined.
#[global] Instance repr_dec_jail_statuses (x : list JailStatus) : Decision (repr x).
Proof. unfold repr, JailStatuses_repr. apply _. Defined.
#[global] Instance repr_dec_ingress_status (x : IngressStatus) : Decision (repr x).
Proof. unfold repr, IngressStatus_repr. apply _. Defined.
#[global] Instance repr_dec_ingress_statuses (x : list IngressStatus) : Decision (repr x).
Proof. unfold repr, IngressStatuses_repr. apply _. Defined.
#[global] Instance repr_dec_volume_status (x : VolumeStatus) : Decision (repr x).
Proof. unfold repr, VolumeStatus_repr. apply _. Defined.
#[global] Instance repr_dec_target_status (x : ReplicaTargetStatus) : Decision (repr x).
Proof. unfold repr, ReplicaTargetStatus_repr. apply _. Defined.
#[global] Instance repr_dec_replicate_to (x : ReplicateToBody) : Decision (repr x).
Proof. unfold repr, ReplicateToBody_repr. apply _. Defined.

Definition yaml_ingress : SerdeYaml IngressSpec := serde_countable.
Definition yaml_jail_status : SerdeYaml JailStatus := serde_countable.
Definition yaml_jail_statuses : SerdeYaml (list JailStatus) := serde_countable.
Definition yaml_ingress_status : SerdeYaml IngressStatus := serde_countable.
Definition yaml_ingress_statuses : SerdeYaml (list IngressStatus) := serde_countable.
Definition yaml_volume_status : SerdeYaml VolumeStatus := serde_countable.
Definition yaml_target_status : SerdeYaml ReplicaTargetStatus := serde_countable.
Definition yaml_replicate_to : SerdeYaml ReplicateToBody := serde_countable.

Definition demo_agent_route := @agent_route ipnet_model yaml_error yaml_jail yaml_ingress
  yaml_replicate_to yaml_jail_status yaml_jail_statuses yaml_ingress_status yaml_ingress_statuses
  yaml_volume_status yaml_target_status.
Notation demo_serve := (@serve list_order ipnet_model yaml_jail_record yaml_ingress_record
  _ _ _ _ _ _ _ fake_jail_runtime fake_zfs_manager (@fake_net_manager ipnet_model) fake_mount_manager
  (@fake_acme FakeDnsProvider fake_dns) fake_nginx).
Definition demo_shared : Shared := mkShared None ∅ (mkTargets ∅ empty_disk).

Lemma agent_get_read_only_witness :
  (demo_serve demo_clock (demo_agent_route (mkParsedRequest "GET" "/jails/web-1" EmptyString)
     demo_shared) (Some demo_agent)).2 = Some demo_agent.
Proof.
  apply (@agent_get_read_only list_order ipnet_model yaml_jail_record yaml_ingress_record
    yaml_error yaml_jail yaml_ingress yaml_replicate_to yaml_jail_status yaml_jail_statuses
    yaml_ingress_status yaml_ingress_statuses yaml_volume_status yaml_target_status
    _ _ _ _ _ _ _ fake_jail_runtime fake_zfs_manager (@fake_net_manager ipnet_model)
    fake_mount_manager (@fake_acme FakeDnsProvider fake_dns) fake_nginx
    (mkParsedRequest "GET" "/jails/web-1" EmptyString) demo_shared eq_refl).
Defined.

Notation demo_handle_apply := (@handle_apply ipnet_model yaml_error yaml_jail).
Definition web_slot : Shared :=
  mkShared (pod_cidr_slot_set (mkNet 167772160 24) pod_cidr_slot_new) ∅ (mkTargets ∅ empty_disk).
