(* ===== verification/Deploy.v ===== *)
(** * A scheduled replica on its node

    Where the two programs meet: the [PUT /jails/name] the control plane sends
    for a [Schedule] action ([action_request], [execute_replica_action] of
    [keel-controlplane/src/http.rs]) and what the agent of that node does with it
    ([AgentHttp.agent_route], [AgentWorker.handle_command]). *)

From S2P Require Import Prelude RustStr Text HttpMsg Float64 Ipnet Spec Wire Codecs Tables Registry Backoff.
From S2P Require Import Addresses Services CpWorker CpReconcile CpHttp CpSystem.
From S2P Require Import AgentHost Store Ingress Reconciler ReconcilerInv AgentFakes AgentIsolation AgentWorker.
From S2P Require Import Replication AgentHttp.

(** ** Names *)

Lemma digits_name_char s : str_all is_ascii_digit s = true -> str_all name_char s = true.
Proof.
  induction s as [|c s IH]; cbn; [done|]. intros [Hc Hs]%andb_true_iff. rewrite IH by done.
  unfold name_char. by rewrite Hc, orb_true_r.
Qed.

Lemma digits_last s : s <> EmptyString -> str_all is_ascii_digit s = true ->
  opt_is is_ascii_alphanumeric (str_last s) = true.
Proof.
  induction s as [|c s IH]; [done|]. intros _ H. cbn in H. apply andb_true_iff in H as [Hc Hs].
  destruct s as [|d s]; [|by apply IH]. cbn. unfold is_ascii_alphanumeric. by rewrite Hc, orb_true_r.
Qed.

Lemma replica_name_chars svc idx :
  name_valid svc = true -> str_all name_char (replica_name svc idx) = true.
Proof.
  unfold name_valid. rewrite !andb_true_iff. intros [[[_ Hc] _] _].
  rewrite replica_name_app, str_all_app, Hc. cbn.
  by rewrite digits_name_char by apply u_to_string_digits.
Qed.

Lemma replica_name_plain svc idx :
  name_valid svc = true -> plain_segment "/"%char (replica_name svc idx).
Proof.
  intros Hv. split; [|by apply name_char_no_slash, replica_name_chars].
  rewrite replica_name_app. by destruct svc.
Qed.

Lemma replica_name_valid svc idx :
  name_valid svc = true ->
  name_valid (replica_name svc idx) = (String.length (replica_name svc idx) <=? 63)%nat.
Proof.
  intros Hv. pose proof (replica_name_chars svc idx Hv) as Hc.
  pose proof (replica_name_plain svc idx Hv) as [Hne _].
  unfold name_valid in *. rewrite Hc. rewrite !andb_true_iff in Hv. destruct Hv as [[[[Hs _] _] Hf] _].
  rewrite replica_name_app in *.
  assert (opt_is is_ascii_alphanumeric (str_last (svc +:+ String "-" (u_to_string idx))) = true) as ->.
  { rewrite str_last_app. pose proof (u_to_string_nonempty idx) as Hn.
    pose proof (digits_last _ Hn (u_to_string_digits idx)) as Hl. by destruct (u_to_string idx). }
  assert (opt_is is_ascii_alphanumeric (str_first (svc +:+ String "-" (u_to_string idx))) = true) as ->
    by (by destruct svc).
  assert (str_is_empty (svc +:+ String "-" (u_to_string idx)) = false) as -> by (by destruct svc).
  cbn. by rewrite !andb_true_r.
Qed.

Lemma replica_name_long svc idx :
  (62 <= String.length svc)%nat -> (64 <= String.length (replica_name svc idx))%nat.
Proof.
  intros H. rewrite replica_name_app, length_app_str. cbn. pose proof (u_to_string_nonempty idx).
  destruct (u_to_string idx); [done|]. cbn. lia.
Qed.

Section deploy.
Context {HO : HashOrder} {I : Ipnet} {YJR : SerdeYaml JailRecord} {YIR : SerdeYaml IngressRecord}.
Context {YE : SerdeYaml ErrorBody} {YJ : SerdeYaml JailSpec} {YIS : SerdeYaml IngressSpec}
        {YRB : SerdeYaml ReplicateToBody} {YJS : SerdeYaml JailStatus}
        {YJL : SerdeYaml (list JailStatus)} {YIG : SerdeYaml IngressStatus}
        {YIL : SerdeYaml (list IngressStatus)} {YVS : SerdeYaml VolumeStatus}
        {YRS : SerdeYaml ReplicaTargetStatus}.
Context {J Zf Nt M A D X : Type}.
Context {HJ : JailRuntime J} {HZ : ZfsManager Zf} {HN : NetManager Nt} {HM : MountManager M}
        {HA : AcmeClient A D} {HX : NginxController X}.
Context (attach_total : forall jname bridge epair address (n : Nt),
  gateway_ok address -> attach_jail jname bridge epair address n <> Panic).

Notation Agent := (@Agent J Zf Nt M A D X).
Notation RC := (@RC J Zf Nt M A D X).
Implicit Types (s : CP) (ag : Agent).

(** What [parse_and_validate_service] has checked of every stored service. *)
Definition services_valid s : Prop := forall svc rec,
  services_get (cp_services s) svc = Some rec ->
  name_valid svc = true /\
  is_ok (parse_cpu_cores (res_cpu (t_resources (sv_template rec)))) = true /\
  is_ok (parse_memory_bytes (res_memory (t_resources (sv_template rec)))) = true.

(** The request of an action as the agent reads it. *)
Definition delivered (act : ReplicaAction) : ParsedRequest :=
  let rq := action_request act in mkParsedRequest (rq_method rq) (rq_path rq) (rq_body rq).

Lemma cidr_text_parses a plen :
  (a <= u32_max)%N -> (plen <= 32)%N -> ipnet_parse (cidr_text a plen) = Ok (inl (mkNet a plen)).
Proof.
  intros Ha Hp. apply ipnet_parse_v4.
  assert (cidr_text a plen = net_to_string (mkNet a plen)) as -> by (by rewrite net_to_string_spec).
  by apply net_parse_to_string.
Qed.

Lemma sched_address s now t node naddr net a sid saddr :
  cp_wf s -> sched_sound s now t node naddr net a sid saddr ->
  prefix_len net = 24%N /\ (a <= u32_max)%N /\ net_contains net a = true /\
  network (mkNet a (prefix_len net)) = network net.
Proof.
  intros Hwf [Hres Hc Ha _ _ _].
  assert (node_alive (cp_registry s) now node) as Hal by (apply node_alive_resolve; eauto).
  destruct (alive_pod_cidr s now node Hwf Hal) as (net' & Hc' & Hw & Hp). simplify_eq.
  pose proof (network_bound net Hw) as Hb. rewrite (block_size_24 net Hp) in Hb.
  split; [done|]. assert (a <= u32_max)%N as Hau by (unfold u32_max; lia). split; [done|].
  assert (net_contains net a = true) as Hin.
  { replace a with (network net + (a - network net))%N by lia.
    apply net_contains_offset; [done|]. rewrite (block_size_24 net Hp). lia. }
  split; [done|]. rewrite net_contains_spec in Hin by done. apply N.eqb_eq in Hin.
  rewrite network_spec; [exact Hin|]. rewrite Hp. by split.
Qed.

(** The route the request takes: not refused, the worker gets that spec. *)
Lemma scheduled_route s now svc idx rec node naddr net a sid saddr sh :
  cp_wf s -> name_valid svc = true ->
  sched_sound s now (sv_template rec) node naddr net a sid saddr ->
  sh_pod_cidr_slot sh = None \/ sh_pod_cidr_slot sh = pod_cidr (cp_registry s) node ->
  let name := replica_name svc idx in
  agent_route (delivered (Schedule name node naddr (sv_template rec) a (prefix_len net) sid saddr)) sh
    = send_result (AgApply (replica_spec (sv_template rec) name (cidr_text a (prefix_len net)) saddr))
        empty_ok.
Proof.
  intros Hwf Hv Hso Hslot name.
  destruct (sched_address _ _ _ _ _ _ _ _ _ Hwf Hso) as (Hp & Hau & Hin & _).
  unfold agent_route, delivered. cbn [action_request pr_path pr_method pr_body rq_path rq_method rq_body].
  change (jail_path name) with (String "/" (join "/" ["jails"; name])).
  rewrite segments_join by (repeat constructor; try done; by apply replica_name_plain).
  cbn [String.eqb Ascii.eqb Bool.eqb andb]. unfold handle_apply.
  rewrite from_to_yaml by done. cbn [replica_spec to_jail_spec js_metadata meta_name js_spec sp_network net_address].
  rewrite String.eqb_refl. cbn [negb].
  assert (outside_subnet (sh_pod_cidr_slot sh) (cidr_text a (prefix_len net)) = None) as ->; [|done].
  unfold outside_subnet, pod_cidr_slot_get. destruct Hslot as [->| ->]; [done|].
  rewrite (sch_cidr _ _ _ _ _ _ _ _ _ Hso), cidr_text_parses by (done || lia). cbn. by rewrite Hin.
Qed.

Lemma scheduled_gateway s now t node naddr net a sid saddr :
  cp_wf s -> sched_sound s now t node naddr net a sid saddr ->
  gateway_ok (cidr_text a (prefix_len net)).
Proof.
  intros Hwf Hso. destruct (sched_address _ _ _ _ _ _ _ _ _ Hwf Hso) as (Hp & Hau & _ & Hn).
  unfold gateway_ok, bridge_gateway.
  rewrite (proj1 (ipnet_parse_v4 _ _) (cidr_text_parses a (prefix_len net) Hau ltac:(lia))), Hn.
  destruct Hso as [_ _ Ha _ _ _]. unfold add_u32.
  rewrite (proj2 (N.leb_le _ _)) by lia. done.
Qed.

(** Applying a valid spec under a new name, on a disk that works. *)
Lemma apply_new spec (s : RC) :
  jail_valid spec -> rc_records s !! meta_name (js_metadata spec) = None ->
  (rc_next_epair_ordinal s < u32_max)%N -> (forall op file, dk_fault (rc_disk s) op file = None) ->
  exists s' : RC, apply spec s = Val (Ok tt, s').
Proof.
  intros (Hn & Ha & Hc & Hm) Hr Ho Hd. unfold apply. rewrite !bind_ok_unit, Hn, Ha.
  destruct (parse_cpu_cores _); [|done]. destruct (parse_memory_bytes _); [|done].
  rewrite (st_bind_Ok _ _ s _ _ eq_refl), Hr.
  assert (take_ordinal s = Val (Ok (rc_next_epair_ordinal s),
            set_next_epair_ordinal (rc_next_epair_ordinal s + 1) s)) as Eo.
  { unfold take_ordinal, add_u32. by rewrite (proj2 (N.leb_le _ _)) by lia. }
  rewrite (st_bind_Ok _ _ s _ _ Eo). unfold st_bind, on_disk, save_jail.
  destruct (@save_ok _ _ YJR jr_name STATE_DIR (rc_disk s)
              (mkJailRecord spec (rc_next_epair_ordinal s)) Hd) as [files Es].
  change (rc_disk (set_next_epair_ordinal _ s)) with (rc_disk s). rewrite Es. by eexists.
Qed.

Lemma replica_spec_valid svc idx t cidr saddr n :
  name_valid svc = true -> (String.length (replica_name svc idx) <= 63)%nat ->
  ipnet_parse cidr = Ok n ->
  is_ok (parse_cpu_cores (res_cpu (t_resources t))) = true ->
  is_ok (parse_memory_bytes (res_memory (t_resources t))) = true ->
  jail_valid (replica_spec t (replica_name svc idx) cidr saddr).
Proof.
  intros Hv Hl Hc Hcpu Hmem. unfold jail_valid. cbn. split; [|split; [|done]].
  - apply validate_name_Ok. rewrite replica_name_valid by done. by apply Nat.leb_le.
  - unfold validate_address. by rewrite Hc.
Qed.

(** The request of a [Schedule] action, sent to an agent that holds the pod block
    the control plane has registered for it (or none yet), works on its disk and
    does not know the replica: the worker records it, passes over its jails and
    answers 200. *)
Lemma scheduled_served ck s now name node naddr t a plen sid saddr sh ag :
  cp_wf s -> services_valid s ->
  Schedule name node naddr t a plen sid saddr ∈ reconcile_services s now ->
  (String.length name <= 63)%nat ->
  sh_pod_cidr_slot sh = None \/ sh_pod_cidr_slot sh = pod_cidr (cp_registry s) node ->
  agent_safe ag -> unix_ok (ck_unix ck) -> (rc_next_epair_ordinal (ag_rc ag) + 1 < u32_max)%N ->
  (forall op file, dk_fault (rc_disk (ag_rc ag)) op file = None) ->
  rc_records (ag_rc ag) !! name = None ->
  let spec := replica_spec t name (cidr_text a plen) saddr in
  exists (s1 : RC) fs (ag' : Agent) record,
    apply spec (ag_rc ag) = Val (Ok tt, s1) /\
    reconcile (ck_now ck) (ck_unix ck) (ck_mono ck) s1 = Val (fs, ag_rc ag') /\
    serve ck (agent_route (delivered (Schedule name node naddr t a plen sid saddr)) sh) (Some ag)
      = (empty_ok, Some ag') /\
    rc_records (ag_rc ag') !! name = Some record /\ jr_spec record = spec /\ agent_safe ag'.
Proof.
  intros Hwf Hsv Hin Hlen Hslot [Ha Hg] Hu Ho Hd Hnew spec.
  destruct (reconcile_log s now Hwf) as [W Hlog].
  destruct (log_elem_schedule _ _ _ _ _ _ _ _ _ _ _ _ Hlog Hin)
    as (svc & rec & idx & net & Hs & -> & _ & -> & -> & Hso).
  destruct (Hsv svc rec Hs) as (Hv & Hcpu & Hmem).
  rewrite (scheduled_route s now svc idx rec node naddr net a sid saddr sh Hwf Hv Hso Hslot). fold spec.
  destruct (sched_address _ _ _ _ _ _ _ _ _ Hwf Hso) as (Hp & Hau & _ & _).
  assert (jail_valid spec) as Hval.
  { eapply replica_spec_valid; try done. apply cidr_text_parses; [done|lia]. }
  destruct (apply_new spec (ag_rc ag) Hval Hnew ltac:(lia) Hd) as [s1 E1].
  destruct (apply_then_reconcile attach_total ck spec (ag_rc ag) Hu Ha Hg Ho
    (scheduled_gateway _ _ _ _ _ _ _ _ _ Hwf Hso)) as (r & s' & E & Ha' & Hg' & _).
  pose proof E as Er. unfold then_reconcile in Er. rewrite E1, Val_bind in Er.
  destruct (reconcile _ _ _ s1) as [[fs s2]|] eqn:Ep; [|done]. rewrite Val_bind in Er. injection Er as <- ->.
  assert (exists sp repl, AgentWorker.handle_command ck (AgApply spec) ag
            = Val (ReplyResult (Ok tt), sp, mkAgent s' repl)) as (sp & repl & Ec).
  { cbn [AgentWorker.handle_command]. rewrite E, Val_bind.
    destruct (_ && _); [destruct (spawn_loop _ _)|]; by eexists _, _. }
  destruct (apply_served ck spec ag _ _ _ Ha Hu Ec) as (_ & _ & r & [= <-] & record & Hrec & Hspec).
  exists s1, fs, (mkAgent s' repl), record. unfold send_result. cbn [serve send_agent]. by rewrite Ec.
Qed.

(** A [PUT] of a jail that was answered with a 2xx: the worker has applied the
    specification, and then passed over all its jails. *)
Lemma put_jail_applied ck name body sh ag resp ag' :
  serve ck (handle_apply name body sh) (Some ag) = (resp, Some ag') -> is_2xx resp.1 = true ->
  exists spec (s1 : RC) fs, from_yaml body = Ok spec /\ apply spec (ag_rc ag) = Val (Ok tt, s1) /\
    reconcile (ck_now ck) (ck_unix ck) (ck_mono ck) s1 = Val (fs, ag_rc ag').
Proof.
  unfold handle_apply. destruct (from_yaml body) as [spec|e]; [|by intros [= <- _]]. cbn zeta.
  destruct (negb _); [by intros [= <- _]|]. destruct (outside_subnet _ _); [by intros [= <- _]|].
  unfold send_result. cbn [serve]. unfold send_agent. cbn [AgentWorker.handle_command]. unfold then_reconcile.
  destruct (apply spec (ag_rc ag)) as [[r s1]|] eqn:E1; [|by intros [= <- ?]]. rewrite Val_bind.
  destruct (reconcile _ _ _ s1) as [[fs s2]|] eqn:E2; [|by intros [= <- ?]]. rewrite !Val_bind.
  destruct (if is_ok r && replicated spec then _ else _) as [sp repl]. cbn [serve].
  destruct r as [[]|e]; intros [= <- <-]; [by exists spec, s1, fs|].
  cbn [error_response fst]. by rewrite status_for_error_not_ok.
Qed.

(** What the control plane schedules, the node runs.  The request of a
    [Schedule] action, sent to an agent that holds the pod block the control plane
    has registered for it (or none yet), works on its disk and does not know the
    replica, is answered 200: it is not refused for its address, the worker does
    not panic, and the replica is recorded with exactly the specification the
    control plane derived; the agent stays in a safe state. *)
Theorem scheduled_replica_deployed ck s now name node naddr t a plen sid saddr sh ag :
  cp_wf s -> services_valid s ->
  Schedule name node naddr t a plen sid saddr ∈ reconcile_services s now ->
  (String.length name <= 63)%nat ->
  sh_pod_cidr_slot sh = None \/ sh_pod_cidr_slot sh = pod_cidr (cp_registry s) node ->
  agent_safe ag -> unix_ok (ck_unix ck) -> (rc_next_epair_ordinal (ag_rc ag) + 1 < u32_max)%N ->
  (forall op file, dk_fault (rc_disk (ag_rc ag)) op file = None) ->
  rc_records (ag_rc ag) !! name = None ->
  exists (ag' : Agent) record,
    serve ck (agent_route (delivered (Schedule name node naddr t a plen sid saddr)) sh) (Some ag)
      = (empty_ok, Some ag') /\
    rc_records (ag_rc ag') !! name = Some record /\
    jr_spec record = replica_spec t name (cidr_text a plen) saddr /\ agent_safe ag'.
Proof.
  intros Hwf Hsv Hin Hlen Hslot Ha Hu Ho Hd Hnew.
  destruct (scheduled_served ck s now name node naddr t a plen sid saddr sh ag Hwf Hsv Hin Hlen Hslot Ha Hu Ho Hd Hnew)
    as (s1 & fs & ag' & record & _ & _ & E & Hrec & Hspec & Hsafe). by exists ag', record.
Qed.

(** A service whose name has 62 or 63 characters is accepted and never runs.
    Its name passes validation, but every replica's name is longer than the 63
    characters a jail's may have: no agent ever answers the request of such a
    [Schedule] with a 2xx, so the replica is never placed. *)
Theorem long_service_never_runs ck svc idx node naddr t a plen sid saddr sh (w : option Agent) :
  name_valid svc = true -> (62 <= String.length svc)%nat ->
  is_2xx (serve ck (agent_route (delivered
    (Schedule (replica_name svc idx) node naddr t a plen sid saddr)) sh) w).1.1 = false.
Proof.
  intros Hv Hlen. unfold agent_route, delivered.
  cbn [action_request pr_path pr_method pr_body rq_path rq_method rq_body].
  set (name := replica_name svc idx). change (jail_path name) with (String "/" (join "/" ["jails"; name])).
  rewrite segments_join by (repeat constructor; try done; by apply replica_name_plain).
  cbn [String.eqb Ascii.eqb Bool.eqb andb]. unfold handle_apply. rewrite from_to_yaml by done. cbn zeta.
  destruct (negb _); [done|]. destruct (outside_subnet _ _); [done|].
  set (spec := replica_spec _ _ _ _). unfold send_result. cbn [serve send_agent].
  destruct w as [ag|]; [|done].
  assert (apply spec (ag_rc ag) = Val (Err (InvalidSpec (InvalidName name)), ag_rc ag)) as E.
  { unfold apply. rewrite bind_ok_unit.
    change (meta_name (js_metadata spec)) with (replica_name svc idx). unfold validate_name.
    rewrite (replica_name_valid svc idx Hv), (proj2 (Nat.leb_gt _ _)); [done|].
    pose proof (replica_name_long svc idx Hlen). lia. }
  unfold send_agent. cbn [AgentWorker.handle_command]. unfold then_reconcile. rewrite E, Val_bind.
  by destruct (reconcile _ _ _ _) as [[fs s2]|].
Qed.
End deploy.

(** ** The replica runs *)

Section runs.
Context {HO : HashOrder} {I : Ipnet} {YJR : SerdeYaml JailRecord} {YIR : SerdeYaml IngressRecord}.
Context {YE : SerdeYaml ErrorBody} {YJ : SerdeYaml JailSpec} {YIS : SerdeYaml IngressSpec}
        {YRB : SerdeYaml ReplicateToBody} {YJS : SerdeYaml JailStatus}
        {YJL : SerdeYaml (list JailStatus)} {YIG : SerdeYaml IngressStatus}
        {YIL : SerdeYaml (list IngressStatus)} {YVS : SerdeYaml VolumeStatus}
        {YRS : SerdeYaml ReplicaTargetStatus}.
Context {A D X : Type} {HA : AcmeClient A D} {HX : NginxController X}.
Notation Agent := (@Agent FakeJailRuntime FakeZfsManager FakeNetManager FakeMountManager A D X).
Notation RC := (@RC FakeJailRuntime FakeZfsManager FakeNetManager FakeMountManager A D X).

(** A node that can run an image as a jail: it has the image, which is no jail's own
    dataset, and no jail of that name is left over on the host. *)
Definition can_run_image (image name : string) (s : RC) : Prop :=
  base_dataset_path (rc_pool s) image ∈ fz_datasets (rc_zfs s) /\
  (forall n, image <> "jails/" +:+ n) /\ fjr_jails (rc_jails s) !! jail_name name = None.
Definition can_run (t : JailTemplate) : string -> RC -> Prop := can_run_image (t_image t).

(** The jail of a replica: running under its limits, on its bridge at its address,
    with its dataset and volumes. *)
Definition replica_up (s : RC) (name : string) (record : JailRecord) : Prop :=
  jail_up s name record /\ attached s name record /\ storage_up s name record.

(** A new jail that was applied is up after the pass. *)
Lemma applied_jail_runs ck spec (s s1 s2 : RC) fs :
  let name := meta_name (js_metadata spec) in
  agent_inv s -> unix_ok (ck_unix ck) -> rc_records s !! name = None ->
  can_run_image (sp_image (js_spec spec)) name s -> gateway_ok (net_address (sp_network (js_spec spec))) ->
  apply spec s = Val (Ok tt, s1) ->
  reconcile (ck_now ck) (ck_unix ck) (ck_mono ck) s1 = Val (fs, s2) ->
  exists record, rc_records s2 !! name = Some record /\ jr_spec record = spec /\ replica_up s2 name record.
Proof.
  intros name Hinv Hu Hnew (Hbase & Himg & Hjail) Hgw E1 Ep.
  pose proof (apply_host _ _ _ _ E1) as Hh. unfold host in Hh. injection Hh as Ej Ez En Em Epool Eb.
  pose proof (apply_lookup _ _ _ _ E1) as (record & Er1 & Hspec). fold name in Er1.
  assert (rc_records s1 !! name = Some record) as Hr1 by (rewrite Er1; apply lookup_insert_eq).
  pose proof (apply_keeps _ _ _ _ E1 Hinv) as Hinv1.
  assert (name <> "ingress" \/ is_Some (rc_records s1 !! name)) as Hni by (right; by rewrite Hr1).
  pose proof (reconcile_lookup _ _ _ _ _ _ name Hu Ep Hinv1 Hni) as Hkept.
  exists record. split; [by rewrite Hkept|]. split; [done|].
  destruct (reconcile_settles (ck_now ck) (ck_unix ck) (ck_mono ck) s1 name record fs s2 Hinv1 Hu Hr1) as [_ Hse].
  - split.
    + assert (rc_backoff s1 !! name = None) as ->; [|done]. rewrite <- Eb.
      destruct (rc_backoff s !! name) as [b|] eqn:Hb; [|done].
      destruct (ai_backoff _ Hinv _ _ Hb) as [_ [x Hx]]. congruence.
    + rewrite Hspec, <- Epool, <- Ez. exact Hbase.
    + by rewrite Hspec.
    + intros j. rewrite <- Ej, Hjail. done.
  - intros n. rewrite Hspec. apply Himg.
  - exact Ep.
  - unfold settled in Hse. by rewrite <- Ej, Hjail in Hse.
Qed.

Lemma scheduled_replica_runs ck (s : CP) now name node naddr t a plen sid saddr sh (ag : Agent) :
  cp_wf s -> services_valid s ->
  Schedule name node naddr t a plen sid saddr ∈ reconcile_services s now ->
  (String.length name <= 63)%nat ->
  sh_pod_cidr_slot sh = None \/ sh_pod_cidr_slot sh = pod_cidr (cp_registry s) node ->
  agent_safe ag -> unix_ok (ck_unix ck) -> (rc_next_epair_ordinal (ag_rc ag) + 1 < u32_max)%N ->
  (forall op file, dk_fault (rc_disk (ag_rc ag)) op file = None) ->
  rc_records (ag_rc ag) !! name = None -> can_run t name (ag_rc ag) ->
  exists (ag' : Agent) record,
    serve ck (agent_route (delivered (Schedule name node naddr t a plen sid saddr)) sh) (Some ag)
      = (empty_ok, Some ag') /\
    rc_records (ag_rc ag') !! name = Some record /\
    jr_spec record = replica_spec t name (cidr_text a plen) saddr /\ replica_up (ag_rc ag') name record.
Proof.
  intros Hwf Hsv Hin Hlen Hslot Ha Hu Ho Hd Hnew Hrun.
  destruct (scheduled_served fake_attach_total ck s now name node naddr t a plen sid saddr sh ag Hwf Hsv Hin Hlen
    Hslot Ha Hu Ho Hd Hnew) as (s1 & fs & ag' & record & E1 & Ep & E & _).
  assert (gateway_ok (cidr_text a plen)) as Hgw.
  { destruct (reconcile_log s now Hwf) as [W Hlog].
    destruct (log_elem_schedule _ _ _ _ _ _ _ _ _ _ _ _ Hlog Hin) as (svc & rec & idx & net & _ & _ & _ & _ & -> & Hso).
    by eapply scheduled_gateway. }
  destruct (applied_jail_runs ck (replica_spec t name (cidr_text a plen) saddr) (ag_rc ag) s1 (ag_rc ag') fs (proj1 Ha) Hu Hnew Hrun Hgw E1 Ep)
    as (record' & Hr & Hs & Hup). by exists ag', record'.
Qed.
End runs.

(** ** Witnesses *)

Lemma surplus_valid : services_valid cp_surplus.
Proof.
  intros svc rec H. unfold services_get in H. apply elem_of_map_to_list in H.
  revert svc rec H.
  assert (Forall (fun p : string * ServiceRecord => name_valid p.1 = true /\
    is_ok (parse_cpu_cores (res_cpu (t_resources (sv_template p.2)))) = true /\
    is_ok (parse_memory_bytes (res_memory (t_resources (sv_template p.2)))) = true)
    (map_to_list (svs_by_name (cp_services cp_surplus)))) as H.
  { apply (bool_decide_unpack _). vm_compute. exact I. }
  intros svc rec Hin. rewrite Forall_forall in H. exact (H _ Hin).
Qed.

Definition db_action : ReplicaAction :=
  Schedule "db-0" "node-1" "10.1.0.1:7620" template_db 167805699 24 (Some "node-2")
    (Some "10.1.0.2:7621").
Definition node_1_shared : Shared :=
  mkShared (pod_cidr (cp_registry cp_surplus) "node-1") ∅ (mkTargets ∅ empty_disk).

Lemma scheduled_replica_deployed_witness :
  exists ag record,
    demo_serve demo_clock (demo_agent_route (@delivered yaml_jail db_action) node_1_shared)
      (Some demo_agent) = (empty_ok, Some ag) /\
    rc_records (ag_rc ag) !! "db-0" = Some record.
Proof.
  destruct (@scheduled_replica_deployed list_order ipnet_model yaml_jail_record yaml_ingress_record
    yaml_error yaml_jail yaml_ingress yaml_replicate_to yaml_jail_status yaml_jail_statuses
    yaml_ingress_status yaml_ingress_statuses yaml_volume_status yaml_target_status
    _ _ _ _ _ _ _ fake_jail_runtime fake_zfs_manager (@fake_net_manager ipnet_model)
    fake_mount_manager (@fake_acme FakeDnsProvider fake_dns) fake_nginx
    (@fake_attach_total ipnet_model) demo_clock cp_surplus 0 "db-0" "node-1" "10.1.0.1:7620"
    template_db 167805699 24 (Some "node-2") (Some "10.1.0.2:7621") node_1_shared demo_agent
    cp_surplus_wf surplus_valid) as (ag & record & E & Hr & _ & _).
  - rewrite reconcile_surplus. apply elem_of_cons. left. reflexivity.
  - cbn. lia.
  - right. reflexivity.
  - split; [by apply empty_inv|]. intros name record Hr. cbn in Hr. by rewrite lookup_empty in Hr.
  - exact (proj1 (demo_apply_ok web_spec)).
  - by vm_compute.
  - by intros op file.
  - by apply lookup_empty.
  - exists ag, record. split; [exact E|exact Hr].
Defined.

Definition long_name : string := String.concat EmptyString (repeat "a" 62).

Lemma long_service_never_runs_witness :
  name_valid long_name = true /\
  is_2xx (demo_serve demo_clock (demo_agent_route (@delivered yaml_jail
    (Schedule (replica_name long_name 0) "node-1" "10.1.0.1:7620" template_db 167805699 24 None None))
    demo_shared) (Some demo_agent)).1.1 = false.
Proof.
  split; [reflexivity|].
  apply (@long_service_never_runs list_order ipnet_model yaml_jail_record yaml_ingress_record
    yaml_error yaml_jail yaml_ingress yaml_replicate_to yaml_jail_status yaml_jail_statuses
    yaml_ingress_status yaml_ingress_statuses yaml_volume_status yaml_target_status
    _ _ _ _ _ _ _ fake_jail_runtime fake_zfs_manager (@fake_net_manager ipnet_model)
    fake_mount_manager (@fake_acme FakeDnsProvider fake_dns) fake_nginx).
  - reflexivity.
  - vm_compute. lia.
Defined.
