(* ===== verification/Channel.v ===== *)
(** * The worker as the background loops see it

    The registration loop and the service proxy reach the host's routes and
    aliases only over the worker's command channel ([Sender<Command>]).
    [NetWorker] states what they rely on; the agent's worker on the in-memory
    network manager is an instance. *)

From S2P Require Import Prelude RustStr Float64 Ipnet Spec Wire Codecs Registry Backoff CpHttp AgentHost.
From S2P Require Import Store Ingress Reconciler ReconcilerInv AgentFakes AgentWorker Replication AgentHttp.

(** The reply says that the network manager carried the command out. *)
Definition net_done (reply : sent AgentReply) : bool :=
  match reply with
  | Reply (ReplyNet (Ok _)) => true
  | _ => false
  end.

(** A worker that answers commands: a command for a route or an alias that is not
    answered with success changes nothing, one that is changes that route or alias
    only.  Adding a route to a subnet that has one may succeed and leave it as it
    is: [route add] says [File exists], which [keel-net/src/process.rs] takes for a
    success, whatever the gateway. *)
Class NetWorker (W : Type) : Type := {
  send : AgentCommand -> W -> sent AgentReply * W;
  routes : W -> gmap string string;
  aliases : W -> string -> gset string;
  add_route_effect : forall subnet gateway w,
    let '(reply, w') := send (AgAddRoute subnet gateway) w in
    (routes w' = routes w /\ (net_done reply = true -> is_Some (routes w !! subnet)) \/
     routes w' = <[subnet := gateway]> (routes w) /\ net_done reply = true) /\
    forall b, aliases w' b = aliases w b;
  remove_route_effect : forall subnet w,
    let '(reply, w') := send (AgRemoveRoute subnet) w in
    routes w' = (if net_done reply then delete subnet (routes w) else routes w) /\
    forall b, aliases w' b = aliases w b;
  add_alias_effect : forall bridge address w,
    let '(reply, w') := send (AgAddServiceAlias bridge address) w in
    routes w' = routes w /\
    forall b, aliases w' b = if net_done reply && String.eqb b bridge
                             then {[address]} ∪ aliases w b else aliases w b;
  remove_alias_effect : forall bridge address w,
    let '(reply, w') := send (AgRemoveServiceAlias bridge address) w in
    routes w' = routes w /\
    forall b, aliases w' b = if net_done reply && String.eqb b bridge
                             then aliases w b ∖ {[address]} else aliases w b
}.

Definition net_command (c : AgentCommand) : bool :=
  match c with
  | AgAddRoute _ _ | AgRemoveRoute _ | AgAddServiceAlias _ _ | AgRemoveServiceAlias _ _ => true
  | _ => false
  end.

(** In the states [P] the worker carries out every command for the network, and
    stays in them. *)
Definition reliable {W} {NW : NetWorker W} (P : W -> Prop) : Prop := forall c w,
  net_command c = true -> P w -> net_done (send c w).1 = true /\ P (send c w).2.

(** ** The agent's worker *)

Section agent_channel.
Context {HO : HashOrder} {I : Ipnet} {YJR : SerdeYaml JailRecord} {YIR : SerdeYaml IngressRecord}.
Context {J Zf M A D X : Type}.
Context {HJ : JailRuntime J} {HZ : ZfsManager Zf} {HM : MountManager M}
        {HA : AcmeClient A D} {HX : NginxController X}.

Notation Agent := (@Agent J Zf FakeNetManager M A D X).

Definition net_view (w : option Agent) : FakeNetManager :=
  match w with
  | Some a => rc_net (ag_rc a)
  | None => mkFakeNetManager ∅ ∅ ∅ ∅ ∅
  end.

(** Reached at a given clock reading. *)
Program Definition agent_channel (ck : Clock) : NetWorker (option Agent) := {|
  send := send_agent (HN := fake_net_manager) ck;
  routes w := fn_routes (net_view w);
  aliases w b := default ∅ (fn_aliases (net_view w) !! b)
|}.
Next Obligation. intros ck subnet gateway [a|]; (split; [|done]); [by right|by left]. Qed.
Next Obligation. by intros ck subnet [a|]. Qed.
Next Obligation.
  intros ck bridge address [a|]; [|done]. split; [done|]. intros b. cbn.
  destruct (String.eqb_spec b bridge) as [->|Hb]; [by rewrite lookup_insert_eq|].
  by rewrite lookup_insert_ne.
Qed.
Next Obligation.
  intros ck bridge address [a|]; [|done]. cbn. unfold fake_remove_alias.
  destruct (fn_aliases _ !! bridge) as [set|] eqn:E; cbn; (split; [done|]); intros b.
  - destruct (String.eqb_spec b bridge) as [->|Hb]; [by rewrite lookup_insert_eq, E|].
    by rewrite lookup_insert_ne.
  - destruct (String.eqb_spec b bridge) as [->|Hb]; [|done]. rewrite E. set_solver.
Qed.

(** A running worker on the in-memory network is such a one. *)
Lemma agent_channel_reliable ck : reliable (NW := agent_channel ck) (fun w => is_Some w).
Proof.
  intros c [a|] Hc Hw; [|by destruct Hw]. by destruct c; try done; (split; [|by eexists]).
Qed.
End agent_channel.
