(* ===== verification/Proxy.v ===== *)
(** * The service proxy

    [keel-agentd/src/proxy.rs]: every node aliases the virtual address of every
    service, listens on it and relays each connection to a replica, in turn, with
    one retry.  [reconcile_services] diffs the services of a heartbeat against the
    proxied ones; [handle_connection] is what a listener does with a connection.
    Whether a bind or a connect succeeds is a parameter. *)

From S2P Require Import Prelude RustStr Text Float64 Ipnet SockAddr Spec Wire Codecs Tables Registry Addresses Services.
From S2P Require Import CpWorker CpReconcile CpCommands CpHttp Backoff AgentHost Store Ingress Reconciler ReconcilerInv.
From S2P Require Import AgentFakes AgentWorker Replication AgentHttp Channel.

(** ** The proxied services *)

Definition PROXY_BRIDGE : string := "keel0".

(** The listener thread runs, with the replicas it shares, for as long as the
    service is in the table. *)
Record ProxiedService : Type := mkProxied {
  ps_replicas : list SocketAddr;
  ps_bridge : string;
  ps_vip : string
}.

Definition replica_socket_addrs (entry : ServiceProxyEntry) : list SocketAddr :=
  omap (fun r => parse_socket_addr (sr_address r +:+ ":" +:+ u_to_string (pe_port entry)))
    (pe_replicas entry).

Definition with_replicas (addrs : list SocketAddr) (s : ProxiedService) : ProxiedService :=
  mkProxied addrs (ps_bridge s) (ps_vip s).

Section reconcile_services.
Context {HO : HashOrder} {W : Type} {NW : NetWorker W}.
(** The outcome of [TcpListener::bind] on [vip:port], in this pass. *)
Context (bind : string -> result string unit).

Fixpoint remove_services (gone : list string) (proxied : gmap string ProxiedService) (w : W)
    : gmap string ProxiedService * W :=
  match gone with
  | [] => (proxied, w)
  | name :: rest =>
      match proxied !! name with
      | Some service =>
          remove_services rest (delete name proxied)
            (send (AgRemoveServiceAlias (ps_bridge service) (ps_vip service)) w).2
      | None => remove_services rest proxied w
      end
  end.

(** The body of the second loop. *)
Definition apply_entry (entry : ServiceProxyEntry) (proxied : gmap string ProxiedService) (w : W)
    : gmap string ProxiedService * W :=
  let addrs := replica_socket_addrs entry in
  match proxied !! pe_name entry with
  | Some service => (<[pe_name entry := with_replicas addrs service]> proxied, w)
  | None =>
      let '(reply, w) := send (AgAddServiceAlias PROXY_BRIDGE (pe_vip entry)) w in
      match reply with
      | Reply (ReplyNet (Err _)) => (proxied, w)
      | _ =>
          match bind (pe_vip entry +:+ ":" +:+ u_to_string (pe_port entry)) with
          | Err _ => (proxied, w)
          | Ok _ => (<[pe_name entry := mkProxied addrs PROXY_BRIDGE (pe_vip entry)]> proxied, w)
          end
      end
  end.

Fixpoint apply_entries (desired : list ServiceProxyEntry) (proxied : gmap string ProxiedService) (w : W)
    : gmap string ProxiedService * W :=
  match desired with
  | [] => (proxied, w)
  | entry :: rest =>
      let '(proxied, w) := apply_entry entry proxied w in
      apply_entries rest proxied w
  end.

Definition reconcile_services (desired : list ServiceProxyEntry)
    (proxied : gmap string ProxiedService) (w : W) : gmap string ProxiedService * W :=
  let desired_names : gset string := list_to_set (pe_name <$> desired) in
  let gone := filter (fun name => name ∉ desired_names) (hash_iter proxied).*1 in
  let '(proxied, w) := remove_services gone proxied w in
  apply_entries desired proxied w.
End reconcile_services.

(** ** A connection *)

Inductive Relay : Type := Closed | Relayed (target : SocketAddr).

(** One attempt after another: [connect] and [cloned] say what happens at which
    attempt. *)
Fixpoint attempt_from (connect : nat -> SocketAddr -> bool) (cloned : nat -> bool)
    (snapshot : list SocketAddr) (start : N) (attempt remaining : nat) : comp Relay :=
  match remaining with
  | O => Val Closed
  | S remaining =>
      i ← add_u64 start (N.of_nat attempt);
      match snapshot !! N.to_nat (i mod N.of_nat (length snapshot)) with
      | None => Panic
      | Some target =>
          if connect attempt target
          then Val (if cloned attempt then Relayed target else Closed)
          else attempt_from connect cloned snapshot start (S attempt) remaining
      end
  end.

(** The relay, and the shared counter after [fetch_add]. *)
Definition handle_connection (connect : nat -> SocketAddr -> bool) (cloned : nat -> bool)
    (replicas : list SocketAddr) (counter : N) : comp Relay * N :=
  match replicas with
  | [] => (Val Closed, counter)
  | _ => (attempt_from connect cloned replicas counter 0 (Nat.min 2 (length replicas)),
          (counter + 1) mod 2 ^ 64)%N
  end.

(** The connections accepted one after the other. *)
Fixpoint serve_connections (n : nat) (replicas : list SocketAddr) (counter : N) : list (comp Relay) :=
  match n with
  | O => []
  | S n =>
      let '(r, counter) := handle_connection (fun _ _ => true) (fun _ => true) replicas counter in
      r :: serve_connections n replicas counter
  end.

(** ** Balance and failover *)

(** The replica of turn [i]. *)
Definition turn (replicas : list SocketAddr) (i : N) : SocketAddr :=
  replicas !!! N.to_nat (i mod N.of_nat (length replicas)).

Lemma lookup_turn replicas i :
  replicas <> [] -> replicas !! N.to_nat (i mod N.of_nat (length replicas)) = Some (turn replicas i).
Proof.
  intros Hl. apply list_lookup_lookup_total_lt. destruct replicas as [|x l]; [done|].
  pose proof (N.mod_upper_bound i (N.of_nat (length (x :: l))) ltac:(cbn; lia)). lia.
Qed.

Lemma attempt_from_step connect cloned replicas start attempt remaining :
  replicas <> [] -> (start + N.of_nat attempt <= u64_max)%N ->
  attempt_from connect cloned replicas start attempt (S remaining) =
    let target := turn replicas (start + N.of_nat attempt) in
    if connect attempt target then Val (if cloned attempt then Relayed target else Closed)
    else attempt_from connect cloned replicas start (S attempt) remaining.
Proof.
  intros Hl Hs. cbn. unfold add_u64. rewrite (proj2 (N.leb_le _ _)) by done. cbn.
  by rewrite lookup_turn.
Qed.

Lemma serve_connections_turns m replicas counter :
  replicas <> [] -> (counter + N.of_nat m <= u64_max)%N ->
  serve_connections m replicas counter =
    (fun k => Val (Relayed (turn replicas (counter + N.of_nat k)))) <$> seq 0 m.
Proof.
  intros Hl. revert counter. induction m as [|m IH]; intros counter Hm; [done|].
  cbn [serve_connections]. unfold handle_connection.
  destruct replicas as [|x l]; [done|].
  change (Nat.min 2 (length (x :: l))) with (S (Nat.min 1 (length l))).
  rewrite attempt_from_step by (done || lia). cbn zeta.
  rewrite N.mod_small by (unfold u64_max in Hm; lia). rewrite IH by lia.
  cbn [seq fmap list_fmap]. f_equal. rewrite <- fmap_S_seq, <- list_fmap_compose.
  apply list_fmap_ext. intros i k _. cbn. do 3 f_equal. lia.
Qed.

(** Consecutive turns visit every position once. *)
Lemma turns_permutation (c : N) (n : nat) :
  n <> 0%nat -> (fun k => N.to_nat ((c + N.of_nat k) mod N.of_nat n)) <$> seq 0 n ≡ₚ seq 0 n.
Proof.
  intros Hn. apply submseteq_length_Permutation; [|by rewrite length_fmap].
  apply NoDup_submseteq.
  - apply NoDup_fmap_2_strong; [|apply NoDup_seq]. intros i j Hi%elem_of_seq Hj%elem_of_seq E%N2Nat.inj.
    pose proof (N.Div0.div_mod (c + N.of_nat i) (N.of_nat n)) as Ei.
    pose proof (N.Div0.div_mod (c + N.of_nat j) (N.of_nat n)) as Ej. rewrite E in Ei.
    revert Ei Ej. generalize ((c + N.of_nat j) mod N.of_nat n)%N.
    generalize ((c + N.of_nat i) / N.of_nat n)%N. generalize ((c + N.of_nat j) / N.of_nat n)%N.
    intros qj qi r Ei Ej. destruct (N.lt_trichotomy qi qj) as [Hq|[->|Hq]]; [|lia|]; exfalso.
    + pose proof (N.mul_le_mono_l (qi + 1) qj (N.of_nat n) ltac:(lia)). lia.
    + pose proof (N.mul_le_mono_l (qj + 1) qi (N.of_nat n) ltac:(lia)). lia.
  - intros x (i & -> & _)%list_elem_of_fmap. apply elem_of_seq.
    pose proof (N.mod_upper_bound (c + N.of_nat i) (N.of_nat n) ltac:(lia)). lia.
Qed.

Lemma lookup_total_seq {A} `{Inhabited A} (l : list A) : (fun i => l !!! i) <$> seq 0 (length l) = l.
Proof.
  induction l as [|x l IH]; [done|]. cbn [length seq fmap list_fmap]. f_equal.
  rewrite <- IH at 2. by rewrite <- fmap_S_seq, <- list_fmap_compose.
Qed.

(** Connections are spread evenly.  While every replica can be reached, any
    as many consecutive connections as there are replicas go to each replica
    exactly once, from whatever value the counter has. *)
Theorem round_robin_fair replicas counter :
  replicas <> [] -> (counter + N.of_nat (length replicas) <= u64_max)%N ->
  exists targets, serve_connections (length replicas) replicas counter = (Val ∘ Relayed) <$> targets /\
    targets ≡ₚ replicas.
Proof.
  intros Hl Hc. exists ((fun k => turn replicas (counter + N.of_nat k)) <$> seq 0 (length replicas)).
  split; [by rewrite serve_connections_turns, <- list_fmap_compose|].
  assert (length replicas <> 0%nat) as Hn by (by destruct replicas).
  pose proof (fmap_Permutation (fun i => replicas !!! i) _ _ (turns_permutation counter _ Hn)) as HP.
  by rewrite <- list_fmap_compose, lookup_total_seq in HP.
Qed.

(** C28: a dead replica does not take its service down.  While the counter has not
    run through its 64 bits, a connection is tried at the replica whose turn it is
    and, if that cannot be reached and there is another, at the next one, and at no
    third; it is relayed to the first of the two that can be reached, and closed when
    neither can (or when the streams cannot be cloned, which is not retried), or
    when there is no replica; the counter moves on by one, unless there is no
    replica.  So when no two neighbours in the list are both unreachable, and
    streams can be cloned, every connection is relayed, and to a replica that can be
    reached. *)
Theorem proxy_fails_over connect cloned replicas counter :
  (counter < u64_max)%N ->
  let '(r, counter') := handle_connection connect cloned replicas counter in
  let relay attempt target := if cloned attempt then Relayed target else Closed in
  let first := turn replicas counter in
  let second := turn replicas (counter + 1) in
  match length replicas with
  | O => r = Val Closed /\ counter' = counter
  | S others => counter' = (counter + 1)%N /\
      r = Val (if connect 0%nat first then relay 0%nat first
               else match others with
                    | O => Closed
                    | S _ => if connect 1%nat second then relay 1%nat second else Closed
                    end) /\
      ((forall attempt, cloned attempt = true) ->
       forall up, connect = (fun _ => up) -> (forall i, up (turn replicas i) || up (turn replicas (i + 1)) = true) ->
       exists target, r = Val (Relayed target) /\ target ∈ replicas /\ up target = true)
  end.
Proof.
  intros Hc. unfold handle_connection. destruct replicas as [|x l] eqn:El; [done|]. rewrite <- El in *.
  assert (replicas <> []) as Hl by (by rewrite El).
  assert (forall i, turn replicas i ∈ replicas) as Hin
    by (intros i; eapply list_elem_of_lookup_2, lookup_turn; done).
  assert (attempt_from connect cloned replicas counter 0 (Nat.min 2 (length replicas)) =
    Val (if connect 0%nat (turn replicas counter) then if cloned 0%nat then Relayed (turn replicas counter) else Closed
         else match length l with
              | O => Closed
              | S _ => if connect 1%nat (turn replicas (counter + 1))
                       then if cloned 1%nat then Relayed (turn replicas (counter + 1)) else Closed else Closed
              end)) as E.
  { replace (Nat.min 2 (length replicas)) with (S (Nat.min 1 (length l))) by (by rewrite El).
    rewrite attempt_from_step by (done || lia). cbn zeta. rewrite N.add_0_r.
    destruct (connect 0%nat _); [done|]. destruct (length l) as [|n]; [done|].
    cbn [Nat.min]. rewrite attempt_from_step by (done || lia). cbn zeta.
    change (N.of_nat 1) with 1%N. by destruct (connect 1%nat _). }
  rewrite E. replace (length replicas) with (S (length l)) by (by rewrite El).
  split; [apply N.mod_small; unfold u64_max in Hc; lia|]. split; [done|].
  intros Hclone up -> Hone. rewrite !Hclone. specialize (Hone counter).
  destruct (up (turn replicas counter)) eqn:E0; [by eexists|]. cbn in Hone. rewrite Hone.
  destruct l as [|y l]; [|by eexists].
  exfalso. revert E0 Hone. rewrite El. unfold turn. cbn [length]. rewrite !N.mod_1_r. congruence.
Qed.

(** ** The table follows the services *)

Section tracking.
Context {HO : HashOrder} {W : Type} {NW : NetWorker W} (bind : string -> result string unit).
Implicit Types (proxied : gmap string ProxiedService) (desired : list ServiceProxyEntry) (w : W).

Lemma remove_services_lookup gone proxied w name :
  (remove_services gone proxied w).1 !! name = if bool_decide (name ∈ gone) then None else proxied !! name.
Proof.
  revert proxied w. induction gone as [|g gone IH]; intros proxied w; cbn [remove_services]; [done|].
  destruct (proxied !! g) as [s|] eqn:Eg; rewrite IH;
    destruct (decide (name = g)) as [->|Hn]; repeat case_bool_decide; try set_solver;
    by rewrite ?lookup_delete_eq, ?lookup_delete_ne.
Qed.

Lemma remove_services_reliable gone proxied w P : reliable P -> P w -> P (remove_services gone proxied w).2.
Proof.
  intros HP. revert proxied w. induction gone as [|g gone IH]; intros proxied w Hw; cbn [remove_services]; [done|].
  destruct (proxied !! g) as [s|]; [|by apply IH]. apply IH. by apply HP.
Qed.

(** Removing services takes no alias away but those of their addresses. *)
Lemma remove_services_keeps_alias gone proxied w v b :
  (forall name s, name ∈ gone -> proxied !! name = Some s -> ps_bridge s = b -> ps_vip s <> v) ->
  v ∈ aliases w b -> v ∈ aliases (remove_services gone proxied w).2 b.
Proof.
  revert proxied w. induction gone as [|g gone IH]; intros proxied w Hv Hin; cbn [remove_services]; [done|].
  destruct (proxied !! g) as [s|] eqn:Eg; [|apply IH; [set_solver|done]]. apply IH.
  - intros name s' Hn [_ Hs']%lookup_delete_Some. apply (Hv name); [by right|done].
  - pose proof (remove_alias_effect (ps_bridge s) (ps_vip s) w) as Heff.
    destruct (send _ w) as [reply w1]. destruct Heff as [_ Heff]. cbn. rewrite Heff.
    destruct (String.eqb_spec b (ps_bridge s)) as [->|Hb]; [|by rewrite andb_false_r].
    pose proof (Hv g s ltac:(left) Eg eq_refl). case_match; set_solver.
Qed.

(** What becomes of an entry that was not proxied. *)
Definition proxied_new (e : ServiceProxyEntry) : ProxiedService :=
  mkProxied (replica_socket_addrs e) PROXY_BRIDGE (pe_vip e).
Definition bound (e : ServiceProxyEntry) : bool :=
  is_ok (bind (pe_vip e +:+ ":" +:+ u_to_string (pe_port e))).

Lemma apply_entry_other e proxied w name :
  name <> pe_name e -> (apply_entry bind e proxied w).1 !! name = proxied !! name.
Proof.
  intros Hn. unfold apply_entry. destruct (proxied !! pe_name e); [by apply lookup_insert_ne|].
  destruct (send _ w) as [reply w1].
  repeat case_match; cbn; try done; by apply lookup_insert_ne.
Qed.

(** The entry itself: updated, taken up, or left out. *)
Definition entry_done e (old new : option ProxiedService) : Prop :=
  match old with
  | Some s => new = Some (with_replicas (replica_socket_addrs e) s)
  | None => new = None \/ bound e = true /\ new = Some (proxied_new e)
  end.

Lemma apply_entry_self e proxied w :
  entry_done e (proxied !! pe_name e) ((apply_entry bind e proxied w).1 !! pe_name e).
Proof.
  unfold apply_entry, entry_done. destruct (proxied !! pe_name e) as [s|] eqn:Es;
    [apply lookup_insert_eq|].
  destruct (send _ w) as [reply w1]. unfold bound.
  repeat case_match; cbn; auto; right; by rewrite lookup_insert_eq.
Qed.

(** A worker that carries out the commands: a new entry's address is aliased, and the
    entry taken up if it can be bound. *)
Lemma apply_entry_reliable e proxied w P :
  reliable P -> P w ->
  P (apply_entry bind e proxied w).2 /\
  (proxied !! pe_name e = None ->
   (apply_entry bind e proxied w).1 !! pe_name e = (if bound e then Some (proxied_new e) else None) /\
   pe_vip e ∈ aliases (apply_entry bind e proxied w).2 PROXY_BRIDGE).
Proof.
  intros HP Hw. unfold apply_entry. destruct (proxied !! pe_name e) as [s|] eqn:Hn; [done|].
  destruct (HP (AgAddServiceAlias PROXY_BRIDGE (pe_vip e)) w eq_refl Hw) as [Hd Hw1].
  pose proof (add_alias_effect PROXY_BRIDGE (pe_vip e) w) as Heff.
  destruct (send _ w) as [reply w1]. cbn in Hd, Hw1. destruct Heff as [_ Heff]. specialize (Heff PROXY_BRIDGE).
  rewrite Hd in Heff. cbn in Heff. destruct reply as [| |[|[|]| | | |]]; try done.
  unfold bound. case_match; (split; [done|]); intros _; (split; [|cbn; set_solver]); cbn; rewrite ?lookup_insert_eq; done.
Qed.

Lemma apply_entry_keeps_alias e proxied w v b :
  v ∈ aliases w b -> v ∈ aliases (apply_entry bind e proxied w).2 b.
Proof.
  intros Hin. unfold apply_entry. destruct (proxied !! pe_name e) as [s|]; [done|].
  pose proof (add_alias_effect PROXY_BRIDGE (pe_vip e) w) as Heff.
  destruct (send _ w) as [reply w1]. destruct Heff as [_ Heff].
  assert (v ∈ aliases w1 b) by (rewrite Heff; case_match; set_solver). repeat case_match; done.
Qed.

Lemma apply_entries_keeps_alias desired proxied w v b :
  v ∈ aliases w b -> v ∈ aliases (apply_entries bind desired proxied w).2 b.
Proof.
  revert proxied w. induction desired as [|e desired IH]; intros proxied w Hin; [done|]. cbn [apply_entries].
  pose proof (apply_entry_keeps_alias e proxied w v b Hin). destruct (apply_entry bind e proxied w). by apply IH.
Qed.

Lemma apply_entries_other desired proxied w name :
  name ∉ pe_name <$> desired -> (apply_entries bind desired proxied w).1 !! name = proxied !! name.
Proof.
  revert proxied w. induction desired as [|e desired IH]; intros proxied w Hn; cbn [apply_entries]; [done|].
  cbn in Hn. apply not_elem_of_cons in Hn as [Hne Hn].
  rewrite <- (apply_entry_other e proxied w name Hne).
  destruct (apply_entry bind e proxied w) as [p1 w1]. by apply IH.
Qed.

Lemma apply_entries_lookup desired proxied w e :
  NoDup (pe_name <$> desired) -> e ∈ desired ->
  entry_done e (proxied !! pe_name e) ((apply_entries bind desired proxied w).1 !! pe_name e) /\
  (forall P, reliable P -> P w -> proxied !! pe_name e = None ->
     (apply_entries bind desired proxied w).1 !! pe_name e = (if bound e then Some (proxied_new e) else None) /\
     pe_vip e ∈ aliases (apply_entries bind desired proxied w).2 PROXY_BRIDGE).
Proof.
  revert proxied w. induction desired as [|d desired IH]; intros proxied w Hnd He; [set_solver|].
  cbn in Hnd. apply NoDup_cons in Hnd as [Hd Hnd]. cbn [apply_entries].
  pose proof (apply_entry_self d proxied w) as Hs. pose proof (apply_entry_other d proxied w) as Ho.
  pose proof (apply_entry_reliable d proxied w) as Hr.
  destruct (apply_entry bind d proxied w) as [p1 w1]. cbn in Hs, Ho, Hr.
  apply elem_of_cons in He as [->|He].
  - rewrite apply_entries_other by done. split; [done|]. intros P HP Hw Hn.
    destruct (Hr P HP Hw) as [_ Hr']. destruct (Hr' Hn). split; [done|]. by apply apply_entries_keeps_alias.
  - assert (pe_name e <> pe_name d) as Hne.
    { intros E. apply Hd. rewrite <- E. by apply list_elem_of_fmap_2. }
    rewrite <- (Ho _ Hne). destruct (IH p1 w1 Hnd He) as [IH1 IH2]. split; [done|].
    intros P HP Hw. destruct (Hr P HP Hw). by apply (IH2 P).
Qed.

Lemma elem_of_gone desired proxied name :
  name ∈ filter (fun name => name ∉ (list_to_set (pe_name <$> desired) : gset string))
           (hash_iter proxied).*1 <-> is_Some (proxied !! name) /\ name ∉ pe_name <$> desired.
Proof.
  rewrite list_elem_of_filter, elem_of_list_to_set, hash_iter_perm. split.
  - intros [Hn ([n s] & -> & Hin)%list_elem_of_fmap]. apply elem_of_map_to_list in Hin. eauto.
  - intros [[s Hs] Hn]. split; [done|]. apply list_elem_of_fmap. exists (name, s).
    by rewrite elem_of_map_to_list.
Qed.

(** C29: the proxy serves the services of the last heartbeat.  After a pass no
    service outside the list is left, every known one has the replicas of its
    entry, and a new one is taken up unless its alias is refused or its address
    cannot be bound; whatever fails, nothing else enters the table.  When the worker
    carries out the commands for the network, a new service is served exactly when
    its address could be bound, and its address is an alias of the bridge either
    way; and a service that stays keeps the alias of the address it is served on,
    unless a service that this pass removes was served on the same address (which a
    service that is created again with another address can bring about, as a known
    service keeps its old one: see the findings).  The names in a list are distinct. *)
Theorem proxy_tracks_services desired proxied w :
  NoDup (pe_name <$> desired) ->
  let '(proxied', w') := reconcile_services bind desired proxied w in
  (forall name, name ∉ pe_name <$> desired -> proxied' !! name = None) /\
  (forall e, e ∈ desired -> entry_done e (proxied !! pe_name e) (proxied' !! pe_name e)) /\
  (forall P, reliable P -> P w -> forall e, e ∈ desired -> proxied !! pe_name e = None ->
     proxied' !! pe_name e = (if bound e then Some (proxied_new e) else None) /\
     pe_vip e ∈ aliases w' PROXY_BRIDGE) /\
  (forall name s, proxied !! name = Some s -> ps_vip s ∈ aliases w (ps_bridge s) ->
     (forall gone s', proxied !! gone = Some s' -> gone ∉ pe_name <$> desired ->
        ps_bridge s' = ps_bridge s -> ps_vip s' <> ps_vip s) ->
     ps_vip s ∈ aliases w' (ps_bridge s)).
Proof.
  intros Hnd. unfold reconcile_services. set (gone := filter _ _).
  pose proof (elem_of_gone desired proxied) as Hgone. fold gone in Hgone. clearbody gone.
  pose proof (remove_services_lookup gone proxied w) as Hl.
  pose proof (remove_services_reliable gone proxied w) as Hrel.
  pose proof (remove_services_keeps_alias gone proxied w) as Hkeep.
  destruct (remove_services gone proxied w) as [p1 w1]. cbn in Hl, Hrel, Hkeep.
  pose proof (apply_entries_lookup desired p1 w1) as He.
  pose proof (apply_entries_other desired p1 w1) as Ho.
  pose proof (apply_entries_keeps_alias desired p1 w1) as Hal.
  destruct (apply_entries bind desired p1 w1) as [p2 w2]. cbn in He, Ho, Hal.
  assert (forall e, e ∈ desired -> p1 !! pe_name e = proxied !! pe_name e) as Hsame.
  { intros e Hin. rewrite Hl, bool_decide_eq_false_2; [done|]. rewrite Hgone.
    intros [_ Hn]. by apply Hn, list_elem_of_fmap_2. }
  split; [|split; [|split]].
  - intros name Hn. rewrite Ho, Hl by done. case_bool_decide as Hg; [done|].
    destruct (proxied !! name) eqn:E; [|done]. destruct Hg. rewrite Hgone, E. eauto.
  - intros e Hin. rewrite <- Hsame by done. by apply He.
  - intros P HP Hw e Hin Hn. apply (proj2 (He e Hnd Hin) P HP); [by apply Hrel|]. by rewrite Hsame.
  - intros name s _ Hin Hd. apply Hal, Hkeep; [|done]. intros g s' Hg Hs' Hb.
    apply Hgone in Hg as [_ Hg]. by apply (Hd g).
Qed.

(** An alias can outlive its service.  If the address of a new service cannot
    be bound, its alias has been set and the service is not in the table; when the
    service is deleted before a later bind succeeds, nothing removes the alias: the
    node keeps claiming an address the control plane may give to another service. *)
Theorem unbound_alias_leaks e w P :
  reliable P -> P w -> bound e = false ->
  let '(proxied1, w1) := reconcile_services bind [e] ∅ w in
  let '(proxied2, w2) := reconcile_services bind [] proxied1 w1 in
  proxied2 = ∅ /\ pe_vip e ∈ aliases w2 PROXY_BRIDGE.
Proof.
  intros HP Hw Hb. unfold reconcile_services at 1.
  assert ((hash_iter (∅ : gmap string ProxiedService)).*1 = []) as ->.
  { pose proof (hash_iter_perm (∅ : gmap string ProxiedService)) as H. rewrite map_to_list_empty in H.
    by apply Permutation_nil_r in H as ->. }
  cbn [filter list_filter remove_services apply_entries]. unfold apply_entry. rewrite lookup_empty.
  destruct (HP (AgAddServiceAlias PROXY_BRIDGE (pe_vip e)) w eq_refl Hw) as [Hd _].
  pose proof (add_alias_effect PROXY_BRIDGE (pe_vip e) w) as Heff.
  destruct (send _ w) as [reply w1]. cbn in Hd. destruct Heff as [_ Heff]. rewrite Hd in Heff.
  destruct reply as [| |[|[|]| | | |]]; try done. unfold bound in Hb.
  destruct (bind _); [done|]. unfold reconcile_services. cbn [apply_entries].
  match goal with |- context [remove_services ?g ∅ w1] => set (gone := g) end.
  pose proof (remove_services_keeps_alias gone ∅ w1 (pe_vip e) PROXY_BRIDGE) as Hk.
  pose proof (remove_services_lookup gone ∅ w1) as Hl.
  destruct (remove_services gone ∅ w1) as [p2 w2]. cbn in Hk, Hl. split.
  - apply map_empty. intros name. rewrite Hl. by case_bool_decide.
  - apply Hk; [by intros ?? _ ?|]. rewrite Heff. cbn. set_solver.
Qed.
End tracking.

(** ** End to end *)

Section targets.
Context {HO : HashOrder} {I : Ipnet}.

(** A proxied service relays to its healthy replicas and to nothing else.  From
    the entries the control plane sends with a heartbeat, the proxy derives exactly
    one target per replica that is placed on a live node, reported running and has
    an address: that address, at the service's port. *)
Theorem proxy_targets_healthy s now e target :
  (forall jail a, address_of (cp_used_addresses s) jail = Some a -> (a <= u32_max)%N) ->
  e ∈ list_service_proxy_entries s now -> (pe_port e <= u16_max)%N ->
  target ∈ replica_socket_addrs e <->
  exists idx node a, (idx <= u32_max)%N /\
    placements_get (cp_placements s) (replica_name (pe_name e) idx) = Some node /\
    node_alive (cp_registry s) now node /\
    is_jail_running (cp_registry s) node (replica_name (pe_name e) idx) = true /\
    address_of (cp_used_addresses s) (replica_name (pe_name e) idx) = Some a /\
    target = SockV4 a (pe_port e).
Proof.
  intros Ha He Hp. unfold list_service_proxy_entries in He.
  apply list_elem_of_fmap in He as ([name record] & -> & _). cbn in *.
  unfold replica_socket_addrs. rewrite list_elem_of_omap. cbn. split.
  - intros (r & (idx & node & a & Hi & Hpl & Hal & Hrun & Hau & ->)%healthy_replicas_elem & Ht).
    cbn in Ht. rewrite parse_socket_printed in Ht by eauto. simplify_eq. by exists idx, node, a.
  - intros (idx & node & a & Hi & Hpl & Hal & Hrun & Hau & ->).
    exists (mkServiceReplica (replica_name name idx) node (ipv4_to_string a)). split.
    + apply healthy_replicas_elem. by exists idx, node, a.
    + cbn. by apply parse_socket_printed; [eapply Ha|].
Qed.
End targets.

(** ** Witnesses *)

Definition three_replicas : list SocketAddr := [SockV4 1 80; SockV4 2 80; SockV4 3 80].

Lemma round_robin_fair_witness :
  exists targets, serve_connections 3 three_replicas 7 = (Val ∘ Relayed) <$> targets /\
    targets ≡ₚ three_replicas.
Proof. apply (round_robin_fair three_replicas 7); [done|by vm_compute]. Defined.

(** The second replica is down. *)
Lemma proxy_fails_over_witness :
  exists target, (handle_connection
      (fun _ a => match a with SockV4 2 _ => false | _ => true end) (fun _ => true) three_replicas 1).1
    = Val (Relayed target) /\ target ∈ three_replicas.
Proof.
  pose proof (proxy_fails_over (fun _ a => match a with SockV4 2 _ => false | _ => true end) (fun _ => true)
    three_replicas 1 ltac:(by vm_compute)) as H.
  destruct (handle_connection _ _ three_replicas 1) as [r counter']. destruct H as (_ & _ & H).
  destruct (H (fun _ => eq_refl) _ eq_refl) as (target & E & Hin & _); [|by exists target].
  intros i. unfold turn. change (N.of_nat (length three_replicas)) with 3%N.
  assert ((i + 1) mod 3 = (i mod 3 + 1) mod 3)%N as -> by (by rewrite N.Div0.add_mod_idemp_l).
  pose proof (N.mod_upper_bound i 3 ltac:(done)).
  assert (i mod 3 = 0 \/ i mod 3 = 1 \/ i mod 3 = 2)%N as [-> |[-> | ->]] by lia; reflexivity.
Defined.

Definition demo_channel := @agent_channel list_order ipnet_model yaml_jail_record yaml_ingress_record
  _ _ _ _ _ _ fake_jail_runtime fake_zfs_manager fake_mount_manager
  (@fake_acme FakeDnsProvider fake_dns) fake_nginx demo_clock.
Definition web_entry : ServiceProxyEntry :=
  mkServiceProxyEntry "web" "10.0.250.7" 8080 [mkServiceReplica "web-0" "node-1" "10.0.1.2"].
Definition bind_ok : string -> result string unit := fun _ => Ok tt.
Definition bind_refused : string -> result string unit := fun _ => Err "address in use".

Lemma demo_reliable : @reliable _ demo_channel (fun w => is_Some w).
Proof. apply agent_channel_reliable. Qed.

Lemma proxy_tracks_services_witness :
  exists w, @reconcile_services list_order _ demo_channel bind_ok [web_entry] ∅ (Some demo_agent)
    = ({["web" := mkProxied [SockV4 167772418 8080] "keel0" "10.0.250.7"]}, w) /\
    "10.0.250.7" ∈ @aliases _ demo_channel w "keel0".
Proof.
  pose proof (@proxy_tracks_services list_order _ demo_channel bind_ok [web_entry] ∅ (Some demo_agent))
    as H.
  assert ((@reconcile_services list_order _ demo_channel bind_ok [web_entry] ∅ (Some demo_agent)).1
    = {["web" := mkProxied [SockV4 167772418 8080] "keel0" "10.0.250.7"]}) as E
    by (vm_compute; reflexivity).
  destruct (@reconcile_services list_order _ demo_channel bind_ok [web_entry] ∅ (Some demo_agent))
    as [p w]. cbn in E. subst p. exists w. split; [reflexivity|].
  destruct H as (_ & _ & H & _); [by repeat constructor; apply not_elem_of_nil|].
  apply (H _ demo_reliable ltac:(by eexists) web_entry ltac:(left) eq_refl).
Defined.

Lemma unbound_alias_leaks_witness :
  exists w, @reconcile_services list_order _ demo_channel bind_refused []
      (@reconcile_services list_order _ demo_channel bind_refused [web_entry] ∅ (Some demo_agent)).1
      (@reconcile_services list_order _ demo_channel bind_refused [web_entry] ∅ (Some demo_agent)).2
    = (∅, w) /\ "10.0.250.7" ∈ @aliases _ demo_channel w "keel0".
Proof.
  pose proof (@unbound_alias_leaks list_order _ demo_channel bind_refused web_entry (Some demo_agent) _
    demo_reliable ltac:(by eexists) eq_refl) as H.
  destruct (@reconcile_services list_order _ demo_channel bind_refused [web_entry] ∅ (Some demo_agent))
    as [p1 w1]. cbn.
  destruct (@reconcile_services list_order _ demo_channel bind_refused [] p1 w1) as [p2 w2].
  destruct H as [-> H]. exists w2. split; [reflexivity|exact H].
Defined.

(** The control plane of [cp_demo] after node-1 has reported its replica running. *)
Definition cp_reported : CP :=
  with_registry (heartbeat (cp_registry cp_demo) "node-1" f64_zero 0 [mkJailHealth "web-0" true] 0).2
    cp_demo.
Definition reported_entry : ServiceProxyEntry :=
  mkServiceProxyEntry "web" "10.0.250.185" 8080
    [mkServiceReplica "web-0" "node-1" "10.0.131.2"].

Lemma proxy_targets_healthy_witness :
  exists idx node a,
    address_of (cp_used_addresses cp_reported) (replica_name "web" idx) = Some a /\
    placements_get (cp_placements cp_reported) (replica_name "web" idx) = Some node /\
    node_alive (cp_registry cp_reported) 0 node /\
    SockV4 167805698 (pe_port reported_entry) = SockV4 a (pe_port reported_entry).
Proof.
  assert (forall jail a, address_of (cp_used_addresses cp_reported) jail = Some a -> (a <= u32_max)%N) as Ha.
  { change (cp_used_addresses cp_reported) with used_demo.
    intros jail a H. unfold address_of in H. change (ua_by_jail used_demo) with
      (<["web-0" := ("node-1", 167805698%N)]> (∅ : gmap string (string * N))) in H.
    destruct (decide (jail = "web-0")) as [->|Hn]; [vm_compute in H; injection H as <-; done|].
    by rewrite lookup_insert_ne, lookup_empty in H. }
  assert (reported_entry ∈ @list_service_proxy_entries list_order cp_reported 0) as He
    by (vm_compute; right; left).
  destruct (proj1 (@proxy_targets_healthy list_order cp_reported 0 reported_entry
    (SockV4 167805698 (pe_port reported_entry)) Ha He ltac:(by vm_compute)))
    as (idx & node & a & _ & Hp & Hal & _ & Hau & E); [vm_compute; left|].
  exists idx, node, a. done.
Defined.
