(* ===== verification/Registration.v ===== *)
(** * Registration, heartbeats and routes

    [keel-agentd/src/registration.rs]: the loop that registers the node with the
    control plane, then sends heartbeats, and keeps one route per live peer.
    Connections are a parameter: what a request to the control plane brings back
    is a stream of reads or an error.  The routes and aliases are set by the
    agent's worker, which the loop reaches over its command channel ([Channel]). *)

From S2P Require Import Prelude RustStr Text HttpMsg HttpFraming Float64 Ipnet SockAddr Spec Wire Codecs Tables.
From S2P Require Import Subnet Registry Backoff Addresses Services CpWorker CpHttp CpSystem AgentHost Store Ingress.
From S2P Require Import Reconciler ReconcilerInv AgentFakes AgentWorker Replication AgentHttp Channel Proxy CpReconcile.

(** ** Routes *)

(** The host of a [host:port] address. *)
Definition gateway_of (addr : string) : string :=
  match rsplit_once ":"%char addr with
  | Some (host, _port) => host
  | None => addr
  end.

Definition live_peer (self_id : string) (p : NodeStatus) : Prop :=
  ns_status p = Alive /\ ns_id p <> self_id.

Definition diff_routes {HO : HashOrder} (self_id : string) (peers : list NodeStatus)
    (installed : gmap string string) : list (string * string) * list string :=
  let to_add :=
    (fun peer => (ns_pod_cidr peer, ns_addr peer)) <$>
    filter (fun peer => ~ (ns_id peer = self_id \/ ns_status peer <> Alive) /\
                        installed !! ns_id peer <> Some (ns_pod_cidr peer)) peers in
  let alive_ids : gset string :=
    list_to_set (ns_id <$> filter (live_peer self_id) peers) in
  let to_remove := (filter (fun entry => entry.1 ∉ alive_ids) (hash_iter installed)).*2 in
  (to_add, to_remove).

Section routes.
Context {HO : HashOrder} {W : Type} {NW : NetWorker W}.

(** The first loop of [reconcile_routes]; the boolean says that it did not
    return early. *)
Fixpoint remove_routes (to_remove : list string) (installed : gmap string string) (w : W)
    : bool * gmap string string * W :=
  match to_remove with
  | [] => (true, installed, w)
  | pod_cidr :: rest =>
      let '(reply, w) := send (AgRemoveRoute pod_cidr) w in
      match reply with
      | SendErr => (false, installed, w)
      | Reply (ReplyNet (Ok _)) =>
          remove_routes rest (filter (fun entry => entry.2 <> pod_cidr) installed) w
      | _ => remove_routes rest installed w
      end
  end.

(** [peers.iter().find(|p| p.pod_cidr == pod_cidr)]. *)
Definition peer_with (pod_cidr : string) (peers : list NodeStatus) : option NodeStatus :=
  snd <$> list_find (fun p => ns_pod_cidr p = pod_cidr) peers.

(** The second loop. *)
Fixpoint add_routes (peers : list NodeStatus) (to_add : list (string * string))
    (installed : gmap string string) (w : W) : gmap string string * W :=
  match to_add with
  | [] => (installed, w)
  | (pod_cidr, gateway_addr) :: rest =>
      let '(reply, w) := send (AgAddRoute pod_cidr (gateway_of gateway_addr)) w in
      match reply with
      | SendErr => (installed, w)
      | Reply (ReplyNet (Ok _)) =>
          add_routes peers rest
            match peer_with pod_cidr peers with
            | Some peer => <[ns_id peer := pod_cidr]> installed
            | None => installed
            end w
      | _ => add_routes peers rest installed w
      end
  end.

Definition reconcile_routes (self_id : string) (peers : list NodeStatus)
    (installed : gmap string string) (w : W) : gmap string string * W :=
  let '(to_add, to_remove) := diff_routes self_id peers installed in
  let '(continued, installed, w) := remove_routes to_remove installed w in
  if continued then add_routes peers to_add installed w else (installed, w).
End routes.

(** ** Requests *)

(** What a connection to the control plane brings back for the bytes sent. *)
Definition Link : Type := string -> result string Stream.

Section requests.
Context {HP : Httparse} {I : Ipnet}.
Context {YRR : SerdeYaml RegisterResponse} {YHB : SerdeYaml Heartbeat}
        {YNS : SerdeYaml (list NodeStatus)} {YPE : SerdeYaml (list ServiceProxyEntry)}.
(** [Display] of an f64. *)
Context (f64_to_string : f64 -> string).

(** [addr] must name an IP address; the TLS handshake is part of [link]. *)
Definition send_request (link : Link) (addr method path body : string) : result string string :=
  _ ← server_name_from_addr addr;
  reads ← link (request_text method path body);
  agent_response reads.

Record NodeConfig : Type := mkNodeConfig {
  nc_control_plane_addr : string;
  nc_node_id : string;
  nc_advertise_addr : string;
  nc_replicate_addr : string;
  nc_capacity_cpu : f64;
  nc_capacity_memory : N
}.

Definition LF_str : string := String LF EmptyString.
Definition registration_text (c : NodeConfig) : string :=
  "id: " +:+ nc_node_id c +:+ LF_str +:+ "addr: " +:+ nc_advertise_addr c +:+ LF_str
  +:+ "replicate_addr: " +:+ nc_replicate_addr c +:+ LF_str
  +:+ "capacity_cpu: " +:+ f64_to_string (nc_capacity_cpu c) +:+ LF_str
  +:+ "capacity_memory: " +:+ u_to_string (nc_capacity_memory c) +:+ LF_str.

(** The text of a failed parse of the block, which is only logged, is left out. *)
Definition register_once (link : Link) (c : NodeConfig) : result string Ipv4Net :=
  response_body ← send_request link (nc_control_plane_addr c) "POST" "/nodes/register" (registration_text c);
  response ← map_err (fun e => "malformed registration response: " +:+ e)
               (from_yaml response_body : result string RegisterResponse);
  ok_or (net_parse (rr_pod_cidr response))
    ("control plane returned invalid pod_cidr '" +:+ rr_pod_cidr response +:+ "'").

Definition fetch_nodes (link : Link) (control_plane_addr : string) : result string (list NodeStatus) :=
  body ← send_request link control_plane_addr "GET" "/nodes" EmptyString;
  map_err (fun e => "malformed /nodes response: " +:+ e) (from_yaml body).

(** [heartbeat_once]: two commands to the worker, then the request. *)
Definition heartbeat_once {W} {NW : NetWorker W} (link : Link) (control_plane_addr node_id : string) (w : W)
    : result string (list ServiceProxyEntry) * W :=
  let '(reply, w) := send AgCommittedResources w in
  match reply with
  | SendErr => (Err "worker is not running", w)
  | Reply (ReplyResources cpu memory) =>
      let '(reply, w) := send (AgGet None) w in
      match reply with
      | SendErr => (Err "worker is not running", w)
      | Reply (ReplyStatuses statuses) =>
          let jails := (fun s => mkJailHealth (jr_name (jst_record s)) (jst_running s)) <$> statuses in
          (response_body ← send_request link control_plane_addr "POST" ("/nodes/" +:+ node_id +:+ "/heartbeat")
                             (to_yaml (mkHeartbeat cpu memory jails));
           map_err (fun e => "malformed heartbeat response: " +:+ e) (from_yaml response_body), w)
      | _ => (Err "worker did not respond", w)
      end
  | _ => (Err "worker did not respond", w)
  end.
End requests.

(** ** Routes follow the live peers *)

Section route_laws.
Context {HO : HashOrder} {W : Type} {NW : NetWorker W}.
Implicit Types (installed : gmap string string) (w : W) (peers ps : list NodeStatus).

(** The routes are exactly those of the table [installed], each through the
    gateway [gw] of its node; no two nodes share a block. *)
Record routes_match (gw : string -> string) installed w : Prop := {
  rm_routes : forall c g, routes w !! c = Some g <-> exists id, installed !! id = Some c /\ gw id = g;
  rm_inj : forall i j c, installed !! i = Some c -> installed !! j = Some c -> i = j
}.

(** What the control plane's list and the table agree on: distinct nodes with
    distinct blocks, a node keeps its block and its address. *)
Record peers_ok (gw : string -> string) peers installed : Prop := {
  po_ids : NoDup (ns_id <$> peers);
  po_cidrs : NoDup (ns_pod_cidr <$> peers);
  po_gateway : forall p, p ∈ peers -> gateway_of (ns_addr p) = gw (ns_id p);
  po_block : forall p id c, p ∈ peers -> installed !! id = Some c ->
    (ns_id p = id <-> ns_pod_cidr p = c)
}.

Lemma routes_match_remove gw installed w w' c :
  routes_match gw installed w -> routes w' = delete c (routes w) ->
  routes_match gw (filter (fun entry => entry.2 <> c) installed) w'.
Proof.
  intros [Hr Hi] E. split.
  - intros c' g. rewrite E, lookup_delete_Some, Hr. setoid_rewrite map_lookup_filter_Some. naive_solver.
  - intros i j c' [H1 _]%map_lookup_filter_Some [H2 _]%map_lookup_filter_Some. eauto.
Qed.

Lemma routes_match_same gw installed w w' :
  routes_match gw installed w -> routes w' = routes w -> routes_match gw installed w'.
Proof. intros [Hr Hi] E. split; [|done]. intros c g. by rewrite E. Qed.

Lemma routes_match_add gw installed w w' id c :
  routes_match gw installed w -> installed !! id = None ->
  (forall j, installed !! j <> Some c) -> routes w' = <[c := gw id]> (routes w) ->
  routes_match gw (<[id := c]> installed) w'.
Proof.
  intros [Hr Hi] Hid Hc E. split.
  - intros c' g. rewrite E, lookup_insert_Some, Hr. setoid_rewrite lookup_insert_Some. split.
    + intros [[<- <-]|(Hne & j & Hj & <-)]; [by exists id; auto|]. exists j. split; [|done].
      right. split; [|done]. intros <-. congruence.
    + intros (j & [[<- <-]|[Hne Hj]] & <-); [by left|]. right. split; [|by eauto].
      intros <-. by apply (Hc j).
  - intros i j c' [[<- <-]|[Hi1 H1]]%lookup_insert_Some [[<- E2]|[Hj1 H2]]%lookup_insert_Some;
      try done; try (by subst; exfalso; eapply Hc); eauto.
Qed.

(** A block that is not in the table has no route. *)
Lemma routes_match_fresh gw installed w c :
  routes_match gw installed w -> (forall j, installed !! j <> Some c) -> routes w !! c = None.
Proof.
  intros [Hr _] Hc. destruct (routes w !! c) as [g|] eqn:E; [|done].
  apply Hr in E as (id & Hid & _). by destruct (Hc id).
Qed.

Lemma remove_routes_spec gw to_remove installed w :
  routes_match gw installed w ->
  let '(continued, installed', w') := remove_routes to_remove installed w in
  routes_match gw installed' w' /\
  (forall id c, installed' !! id = Some c -> installed !! id = Some c) /\
  (forall id c, installed !! id = Some c -> c ∉ to_remove -> installed' !! id = Some c) /\
  (forall P, reliable P -> P w ->
     continued = true /\ P w' /\ forall id c, installed' !! id = Some c -> c ∉ to_remove).
Proof.
  revert installed w. induction to_remove as [|c rest IH]; intros installed w Hm; cbn.
  { do 3 (split; [done|]). intros P _ Hw. do 2 (split; [done|]). set_solver. }
  pose proof (remove_route_effect c w) as Heff.
  assert (forall P, reliable P -> P w -> net_done (send (AgRemoveRoute c) w).1 = true /\
            P (send (AgRemoveRoute c) w).2) as Hrel by (intros P HP; by apply HP).
  destruct (send (AgRemoveRoute c) w) as [reply w1]. destruct Heff as [Hw1 _]. cbn in Hrel.
  destruct (net_done reply) eqn:Ed.
  - destruct reply as [| |[|[[]|]| | | |]]; try done.
    specialize (IH _ w1 (routes_match_remove _ _ _ _ c Hm Hw1)).
    destruct (remove_routes rest _ w1) as [[cont installed'] w'].
    destruct IH as (IH1 & IH2 & IH3 & IH4). split; [done|]. split; [|split].
    + intros id c' H%IH2. by apply map_lookup_filter_Some in H as [? _].
    + intros id c' Hid Hc'. apply IH3; [|set_solver]. apply map_lookup_filter_Some.
      split; [done|]. cbn. set_solver.
    + intros P HP Hw. destruct (IH4 P HP) as (-> & Hw' & IH5); [by apply Hrel|]. split; [done|].
      split; [done|]. intros id c' Hid. specialize (IH5 _ _ Hid).
      apply IH2, map_lookup_filter_Some in Hid as [_ Hid]. cbn in Hid. set_solver.
  - pose proof (routes_match_same _ _ _ _ Hm Hw1) as Hm1. specialize (IH installed w1 Hm1).
    assert (forall P, reliable P -> P w -> False) as Hno by (intros P HP Hw; by destruct (Hrel P HP Hw)).
    destruct reply as [| |[|[[]|]| | | |]]; try done;
      try (split; [done|]; split; [done|]; split; [done|]; intros P HP Hw; by destruct (Hno P));
      destruct (remove_routes rest installed w1) as [[cont installed'] w'];
      destruct IH as (IH1 & IH2 & IH3 & _); (split; [done|]); (split; [done|]);
      (split; [|intros P HP Hw; by destruct (Hno P)]); intros id c' Hid Hc'; apply IH3; set_solver.
Qed.

Lemma peer_with_unique peers p :
  NoDup (ns_pod_cidr <$> peers) -> p ∈ peers -> peer_with (ns_pod_cidr p) peers = Some p.
Proof.
  intros Hnd Hp. unfold peer_with.
  destruct (list_find _ peers) as [[i q]|] eqn:E; cbn.
  - apply list_find_Some in E as (Hi & Hq & _). f_equal.
    eapply (NoDup_fmap_inj_elem ns_pod_cidr); eauto using list_elem_of_lookup_2.
  - apply list_find_None in E. rewrite Forall_forall in E. by destruct (E p Hp).
Qed.

(** What adding the routes of [ps] leads to. *)
Definition routes_added gw ps installed w (x : gmap string string * W) : Prop :=
  routes_match gw x.1 x.2 /\
  (forall id c, installed !! id = Some c -> x.1 !! id = Some c) /\
  (forall id c, x.1 !! id = Some c ->
     installed !! id = Some c \/ exists p, p ∈ ps /\ ns_id p = id /\ ns_pod_cidr p = c) /\
  (forall P, reliable P -> P w -> forall p, p ∈ ps -> x.1 !! ns_id p = Some (ns_pod_cidr p)).

Lemma add_routes_spec gw peers ps installed w :
  routes_match gw installed w -> NoDup (ns_pod_cidr <$> peers) -> ps ⊆ peers -> NoDup (ns_id <$> ps) ->
  NoDup (ns_pod_cidr <$> ps) ->
  (forall p, p ∈ ps -> gateway_of (ns_addr p) = gw (ns_id p) /\ installed !! ns_id p = None /\
     forall j, installed !! j <> Some (ns_pod_cidr p)) ->
  routes_added gw ps installed w
    (add_routes peers ((fun p => (ns_pod_cidr p, ns_addr p)) <$> ps) installed w).
Proof.
  intros Hm Hpc Hsub. revert installed w Hm.
  induction ps as [|p ps IH]; intros installed w Hm Hni Hnc Hps; cbn.
  { split; [done|]. split; [done|]. split; [by left|]. set_solver. }
  destruct (Hps p) as (Hg & Hnone & Hfresh); [set_solver|]. rewrite Hg.
  pose proof (add_route_effect (ns_pod_cidr p) (gw (ns_id p)) w) as Heff.
  assert (forall P, reliable P -> P w ->
    net_done (send (AgAddRoute (ns_pod_cidr p) (gw (ns_id p))) w).1 = true /\
    P (send (AgAddRoute (ns_pod_cidr p) (gw (ns_id p))) w).2) as Hrel by (intros P HP; by apply HP).
  destruct (send _ w) as [reply w1]. destruct Heff as [Heff _]. cbn in Hrel.
  assert (routes w1 = if net_done reply then <[ns_pod_cidr p := gw (ns_id p)]> (routes w) else routes w) as Hw1.
  { pose proof (routes_match_fresh _ _ _ _ Hm Hfresh) as Hn.
    destruct Heff as [[-> Hd]|[-> ->]]; [|done]. destruct (net_done reply); [|done].
    rewrite Hn in Hd. by destruct (Hd eq_refl). }
  cbn [fmap list_fmap] in Hni, Hnc. apply NoDup_cons in Hni as [Hpi Hni], Hnc as [Hpn Hnc].
  destruct (net_done reply) eqn:Ed.
  - destruct reply as [| |[|[[]|]| | | |]]; try done.
    rewrite (peer_with_unique peers p Hpc) by set_solver.
    specialize (IH ltac:(set_solver) (<[ns_id p := ns_pod_cidr p]> installed) w1
      (routes_match_add _ _ _ _ _ _ Hm Hnone Hfresh Hw1) Hni Hnc).
    destruct (add_routes peers _ _ w1) as [installed' w'].
    destruct IH as (IH1 & IH2 & IH3 & IH4).
    { intros q Hq. destruct (Hps q) as (Hg' & Hn' & Hf'); [set_solver|]. split; [done|].
      assert (ns_id p <> ns_id q /\ ns_pod_cidr p <> ns_pod_cidr q) as [].
      { split; intros Eq; [apply Hpi|apply Hpn]; rewrite Eq; by apply list_elem_of_fmap_2. }
      split; [by rewrite lookup_insert_ne|]. intros j [[_ Hj]|[_ Hj]]%lookup_insert_Some; [done|].
      by apply (Hf' j). }
    split; [done|]. split; [|split].
    + intros id c Hid. apply IH2. rewrite lookup_insert_ne; [done|]. congruence.
    + intros id c Hid. destruct (IH3 id c Hid) as [Hi|(q & Hq & Hqi)]; [|right; set_solver].
      apply lookup_insert_Some in Hi as [[<- <-]|[_ Hi]]; [|by left]. right. set_solver.
    + intros P HP Hw q [->|Hq]%elem_of_cons; [|eapply IH4; [done|by apply Hrel|done]].
      apply IH2, lookup_insert_eq.
  - pose proof (routes_match_same _ _ _ _ Hm Hw1) as Hm1.
    assert (forall P, reliable P -> P w -> False) as Hno by (intros P HP Hw; by destruct (Hrel P HP Hw)).
    specialize (IH ltac:(set_solver) installed w1 Hm1 Hni Hnc ltac:(intros; apply Hps; set_solver)).
    assert (routes_added gw (p :: ps) installed w
      (add_routes peers ((fun p => (ns_pod_cidr p, ns_addr p)) <$> ps) installed w1)) as Hgo.
    { destruct (add_routes peers _ installed w1) as [installed' w'].
      destruct IH as (IH1 & IH2 & IH3 & _). split; [done|]. split; [done|]. split.
      - intros id c Hid. destruct (IH3 id c Hid) as [?|(q & ? & ?)]; [by left|right; set_solver].
      - intros P HP Hw. by destruct (Hno P). }
    destruct reply as [| |[|[[]|]| | | |]]; try done.
    split; [done|]. split; [done|]. split; [by left|]. intros P HP Hw. by destruct (Hno P).
Qed.

(** What [diff_routes] computes. *)
Definition live_id self_id peers id : Prop :=
  Exists (fun p => live_peer self_id p /\ ns_id p = id) peers.

Lemma diff_routes_removed self_id peers installed c :
  c ∈ (diff_routes self_id peers installed).2 <->
  exists id, installed !! id = Some c /\ ~ live_id self_id peers id.
Proof.
  assert (forall id, id ∈ (list_to_set (ns_id <$> filter (live_peer self_id) peers) : gset string)
            <-> live_id self_id peers id) as Halive.
  { intros id. rewrite elem_of_list_to_set, list_elem_of_fmap. split.
    - intros (p & -> & Hp). apply list_elem_of_filter in Hp as [Hl Hp]. apply Exists_exists. eauto.
    - intros (p & Hp & Hl & <-)%Exists_exists. exists p. split; [done|]. by apply list_elem_of_filter. }
  unfold diff_routes. cbn [snd]. rewrite list_elem_of_fmap. split.
  - intros ([id c'] & -> & Hin). apply list_elem_of_filter in Hin as [Hna Hin].
    rewrite hash_iter_perm in Hin. apply elem_of_map_to_list in Hin. exists id.
    split; [done|]. by rewrite <- Halive.
  - intros (id & Hid & Hna). exists (id, c). split; [done|]. apply list_elem_of_filter.
    split; [by rewrite Halive|]. rewrite hash_iter_perm. by apply elem_of_map_to_list.
Qed.

Lemma diff_routes_added gw self_id peers installed :
  peers_ok gw peers installed ->
  exists ps, (diff_routes self_id peers installed).1 = (fun p => (ns_pod_cidr p, ns_addr p)) <$> ps /\
    ps `sublist_of` peers /\
    forall p, p ∈ ps <-> p ∈ peers /\ live_peer self_id p /\ installed !! ns_id p = None.
Proof.
  intros [_ _ _ Hblock]. eexists. split; [reflexivity|]. split; [apply sublist_filter|].
  intros p. rewrite list_elem_of_filter. unfold live_peer. split.
  - intros [[[Hl1 Hl2%dec_stable]%Decidable.not_or Hn] Hp]. split; [done|].
    split; [done|]. destruct (installed !! ns_id p) as [c|] eqn:Ec; [|done].
    destruct Hn. f_equal. symmetry. by eapply Hblock.
  - intros (Hp & [Ha Hs] & Hn). rewrite Hn. split; [|done]. split; [|done]. tauto.
Qed.

(** C15: routes follow the live peers.  While nodes keep their block and their
    address, a pass keeps the agent's table and the host's routes equal, whatever
    route commands fail and also when the worker has stopped; nothing is ever
    recorded that is not routed.  When every command succeeds, one pass leaves
    exactly the blocks of the other live nodes, each through its node. *)
Theorem routes_follow_peers gw self_id peers installed w :
  routes_match gw installed w -> peers_ok gw peers installed ->
  let '(installed', w') := reconcile_routes self_id peers installed w in
  routes_match gw installed' w' /\
  (forall P, reliable P -> P w -> forall id c, installed' !! id = Some c <->
     exists p, p ∈ peers /\ live_peer self_id p /\ ns_id p = id /\ ns_pod_cidr p = c).
Proof.
  intros Hm Hok. pose proof Hok as [Hids Hcids Hgw Hblock]. unfold reconcile_routes.
  pose proof (diff_routes_removed self_id peers installed) as Hrem.
  destruct (diff_routes_added gw self_id peers installed Hok) as (ps & Hadd & Hsub & Hps).
  destruct (diff_routes self_id peers installed) as [to_add to_remove]. cbn in Hadd, Hrem. subst to_add.
  pose proof (remove_routes_spec gw to_remove installed w Hm) as Hr.
  destruct (remove_routes to_remove installed w) as [[cont inst1] w1].
  destruct Hr as (Hm1 & Hold1 & Hkeep1 & Hrel1).
  destruct cont; [|by split; [done|]; intros P HP Hw; destruct (Hrel1 P HP Hw)].
  pose proof (add_routes_spec gw peers ps inst1 w1 Hm1 Hcids) as Ha.
  destruct (add_routes peers _ inst1 w1) as [inst2 w2].
  destruct Ha as (Hm2 & Hkeep2 & Hold2 & Hrel2).
  { intros p Hp. by apply Hps. }
  { eapply sublist_NoDup; [exact Hids|]. by apply fmap_sublist. }
  { eapply sublist_NoDup; [exact Hcids|]. by apply fmap_sublist. }
  { intros p Hp. apply Hps in Hp as (Hp1 & Hp2 & Hp3). split; [by apply Hgw|]. split.
    - destruct (inst1 !! ns_id p) as [c|] eqn:Ec; [|done]. apply Hold1 in Ec. congruence.
    - intros j Hj%Hold1. pose proof (proj2 (Hblock p j _ Hp1 Hj) eq_refl) as <-. congruence. }
  split; [done|]. intros P HP Hw id c. destruct (Hrel1 P HP Hw) as (_ & Hw1 & Hgone).
  specialize (Hrel2 P HP Hw1). split.
  - intros [Hi|(p & Hp & Hpi)]%Hold2; [|exists p; apply Hps in Hp; naive_solver].
    assert (live_id self_id peers id) as (p & Hp & Hlp & Hpi)%Exists_exists.
    { apply dec_stable. intros Hna. apply (Hgone _ _ Hi), Hrem. eauto. }
    exists p. do 3 (split; [done|]). by apply (Hblock p id c Hp (Hold1 _ _ Hi)).
  - intros (p & Hp & Hlp & <- & <-). destruct (installed !! ns_id p) as [c|] eqn:Ei.
    + rewrite (proj1 (Hblock p _ _ Hp Ei) eq_refl). apply Hkeep2, Hkeep1; [done|].
      intros (j & Hj & Hna)%Hrem. apply Hna, Exists_exists. exists p. split; [done|]. split; [done|].
      by eapply (rm_inj _ _ _ Hm).
    + apply Hrel2, Hps. done.
Qed.

(** A peer that moves keeps its old route.  The difference looks at the blocks
    only: once every live peer has its route, a pass sends no command, so the route
    to a node that has registered again under another address still goes through
    the old one, for as long as the node is alive. *)
Theorem moved_peer_keeps_old_gateway self_id peers installed w p old :
  (forall id c, installed !! id = Some c <->
     exists p, p ∈ peers /\ live_peer self_id p /\ ns_id p = id /\ ns_pod_cidr p = c) ->
  p ∈ peers -> live_peer self_id p -> routes w !! ns_pod_cidr p = Some old ->
  reconcile_routes self_id peers installed w = (installed, w) /\
  (gateway_of (ns_addr p) <> old -> routes w !! ns_pod_cidr p <> Some (gateway_of (ns_addr p))).
Proof.
  intros Hin Hp Hlp Hold. split; [|congruence]. unfold reconcile_routes.
  pose proof (diff_routes_removed self_id peers installed) as Hrem.
  assert ((diff_routes self_id peers installed).1 = []) as Hadd.
  { unfold diff_routes. cbn [fst]. destruct (filter _ peers) as [|q l] eqn:Ef; [done|]. exfalso.
    assert (q ∈ q :: l) as Hq by set_solver. rewrite <- Ef in Hq.
    apply list_elem_of_filter in Hq as [[Hl Hn] Hq]. apply Hn, Hin. exists q. split; [done|]. split; [|done]. apply Decidable.not_or in Hl as [? ?%dec_stable]. done. }
  destruct (diff_routes self_id peers installed) as [to_add to_remove]. cbn in Hadd, Hrem. subst to_add.
  assert (to_remove = []) as ->; [|done].
  destruct to_remove as [|c rest]; [done|]. exfalso. destruct (proj1 (Hrem c)) as (id & Hid & Hnl); [set_solver|].
  apply Hin in Hid as (q & Hq & Hlq & <- & _). apply Hnl, Exists_exists. eauto.
Qed.
End route_laws.

(** ** The loop *)

Section registration_loop.
Context {HO : HashOrder} {HP : Httparse} {I : Ipnet}.
Context {YRR : SerdeYaml RegisterResponse} {YHB : SerdeYaml Heartbeat}
        {YNS : SerdeYaml (list NodeStatus)} {YPE : SerdeYaml (list ServiceProxyEntry)}.
Context (f64_to_string : f64 -> string).
Context {W : Type} {NW : NetWorker W}.
(** The cell of the services' addresses is shared with the reconciler. *)
Context (share_vips : ServiceVipSlot -> W -> W).

Record LoopState : Type := mkLoop {
  ls_registered : bool;
  ls_installed_routes : gmap string string;
  ls_proxied_services : gmap string ProxiedService;
  ls_pod_cidr_slot : PodCidrSlot;
  ls_service_vips : ServiceVipSlot;
  ls_worker : W
}.

Definition loop_start (slot : PodCidrSlot) (vips : ServiceVipSlot) (w : W) : LoopState :=
  mkLoop false ∅ ∅ slot vips w.

(** The first half of an iteration: register, or send a heartbeat. *)
Definition contact (c : NodeConfig) (link : Link) (bind : string -> result string unit)
    (st : LoopState) : LoopState :=
  if negb (ls_registered st) then
    match register_once f64_to_string link c with
    | Ok pod_cidr =>
        mkLoop true (ls_installed_routes st) (ls_proxied_services st)
          (pod_cidr_slot_set pod_cidr (ls_pod_cidr_slot st)) (ls_service_vips st) (ls_worker st)
    | Err _ => st
    end
  else
    let '(r, w) := heartbeat_once link (nc_control_plane_addr c) (nc_node_id c) (ls_worker st) in
    match r with
    | Ok entries =>
        let vips := vips_set_all entries in
        let '(proxied, w) :=
          reconcile_services bind entries (ls_proxied_services st) (share_vips vips w) in
        mkLoop true (ls_installed_routes st) proxied (ls_pod_cidr_slot st) vips w
    | Err _ =>
        mkLoop false (ls_installed_routes st) (ls_proxied_services st) (ls_pod_cidr_slot st)
          (ls_service_vips st) w
    end.

(** The second half: the routes. *)
Definition refresh_routes (c : NodeConfig) (link : Link) (st : LoopState) : LoopState :=
  match fetch_nodes link (nc_control_plane_addr c) with
  | Ok peers =>
      let '(installed, w) :=
        reconcile_routes (nc_node_id c) peers (ls_installed_routes st) (ls_worker st) in
      mkLoop (ls_registered st) installed (ls_proxied_services st) (ls_pod_cidr_slot st)
        (ls_service_vips st) w
  | Err _ => st
  end.

(** One iteration; [link] and [nodes_link] are its two connections. *)
Definition iteration (c : NodeConfig) (link nodes_link : Link) (bind : string -> result string unit)
    (st : LoopState) : LoopState :=
  refresh_routes c nodes_link (contact c link bind st).
End registration_loop.

(** ** Registering with the control plane *)

Section agreement.
Context {HO : HashOrder} {HP : Httparse} {I : Ipnet}.
Context {YE : SerdeYaml ErrorBody} {YRR : SerdeYaml RegisterResponse}
        {YNS : SerdeYaml (list NodeStatus)} {YSR : SerdeYaml (list ServiceReplica)}
        {YSS : SerdeYaml (list ServiceSummary)} {YPE : SerdeYaml (list ServiceProxyEntry)}
        {YNR : SerdeYaml NodeRegistration} {YHB : SerdeYaml Heartbeat}
        {YJ : SerdeYaml JailSpec} {YS : SerdeYaml ServiceSpec}.
Context (f64_to_string : f64 -> string) (str_debug : string -> string).

(** The connection delivers that answer of the control plane, whole. *)
Definition delivers_whole (reads : Stream) (resp : response) : Prop :=
  exists chunks t, reads = delivers chunks t /\ chunked chunks /\ closes t /\
    text_of chunks = cp_write_response resp.1 resp.2.
(** It breaks off before the end. *)
Definition delivers_cut (reads : Stream) (resp : response) : Prop :=
  exists chunks t lost, reads = delivers chunks t /\ chunked chunks /\ closes t /\
    str_is_empty lost = false /\ text_of chunks +:+ lost = cp_write_response resp.1 resp.2.
Definition link_answers (link : Link) (resp : response) : Prop :=
  forall sent, exists reads, link sent = Ok reads /\ delivers_whole reads resp.

Lemma send_request_delivered link reads resp addr method path body :
  is_ok (server_name_from_addr addr) = true -> link (request_text method path body) = Ok reads ->
  delivers_whole reads resp -> (100 <= resp.1 <= 999)%N -> (str_len resp.2 <= u64_max)%N ->
  send_request link addr method path body
    = if is_2xx resp.1 then Ok resp.2 else Err ("control plane returned status " +:+ u_to_string resp.1).
Proof.
  intros Hn El (chunks & t & -> & Hch & Ht & Et) Hs Hb.
  unfold send_request. destruct (server_name_from_addr addr); [|done]. rewrite Ok_bind, El, Ok_bind.
  pose proof (response_received cp_reason_phrase resp.1 resp.2 chunks EmptyString t
    (proj2 (reason_phrases resp.1)) Hs Hb Hch Ht) as H.
  rewrite app_nil_r_str in H. by apply H in Et as (_ & -> & _).
Qed.

Lemma send_request_cut link reads resp addr method path body :
  link (request_text method path body) = Ok reads -> delivers_cut reads resp ->
  (100 <= resp.1 <= 999)%N -> (str_len resp.2 <= u64_max)%N ->
  is_ok (send_request link addr method path body) = false.
Proof.
  intros El (chunks & t & lost & -> & Hch & Ht & Hlost & Et) Hs Hb.
  unfold send_request. destruct (server_name_from_addr addr); [|done]. rewrite Ok_bind, El, Ok_bind.
  pose proof (response_received cp_reason_phrase resp.1 resp.2 chunks lost t
    (proj2 (reason_phrases resp.1)) Hs Hb Hch Ht Et) as H. rewrite Hlost in H. apply H.
Qed.

Lemma send_request_answered link resp addr method path body :
  is_ok (server_name_from_addr addr) = true -> link_answers link resp -> (100 <= resp.1 <= 999)%N -> (str_len resp.2 <= u64_max)%N ->
  send_request link addr method path body
    = if is_2xx resp.1 then Ok resp.2 else Err ("control plane returned status " +:+ u_to_string resp.1).
Proof.
  intros Hn Hl. destruct (Hl (request_text method path body)) as (reads & El & Hd).
  by apply (send_request_delivered _ reads).
Qed.

(** The registration a node's text stands for. *)
Definition registration_of (c : NodeConfig) : NodeRegistration :=
  mkNodeRegistration (nc_node_id c) (nc_advertise_addr c) (Some (nc_replicate_addr c))
    (nc_capacity_cpu c) (nc_capacity_memory c).

Lemma register_route body : route str_debug (mkParsedRequest "POST" "/nodes/register" body) = handle_register body.
Proof. reflexivity. Qed.

(** The agent and the control plane agree on the node's block.  If the text the
    agent writes decodes to its registration, then after the control plane has
    handled it the agent, which got the answer whole, holds exactly the block the
    registry has stored for it; if the control plane refused, the agent registers
    nothing and no table of the control plane has changed. *)
Theorem registration_agrees c s :
  cp_wf s -> is_ok (server_name_from_addr (nc_control_plane_addr c)) = true ->
  from_yaml (registration_text f64_to_string c) = Ok (registration_of c) ->
  wp (route str_debug (mkParsedRequest "POST" "/nodes/register" (registration_text f64_to_string c)))
    (fun resp s' evs => evs = [] /\
       forall link, link_answers link resp -> (str_len resp.2 <= u64_max)%N ->
         match register_once f64_to_string link c with
         | Ok net => is_2xx resp.1 = true /\ pod_cidr (cp_registry s') (nc_node_id c) = Some net
         | Err _ => is_2xx resp.1 = false /\ s' = s
         end) s [].
Proof.
  intros Hwf Hn Hy. rewrite register_route. unfold handle_register. rewrite Hy. cbn [wp].
  intros now. cbn [CpWorker.handle_command].
  pose proof (cwf_registry s Hwf) as Hr.
  pose proof (derive_pod_cidr_value (nc_node_id c) _ (rwf_cluster _ Hr) (rwf_prefix _ Hr)) as Hd.
  cbn [reg_id reg_addr reg_replicate_addr reg_capacity_cpu reg_capacity_memory registration_of].
  destruct (register_cases (cp_registry s) (nc_node_id c) (nc_advertise_addr c)
    (Some (nc_replicate_addr c)) (nc_capacity_cpu c) (nc_capacity_memory c) now _ Hd)
    as [(o & Hc & E)|[Hno E]]; rewrite E, Val_bind; cbn [wp]; (split; [done|]);
    intros link Hl Hb; unfold register_once; rewrite (send_request_answered link _ _ _ _ _ Hn Hl) by (done || lia).
  - cbn. split; [done|]. by destruct s.
  - cbn [yaml_response fst snd]. change (is_2xx 200) with true. cbn [negb]. rewrite Ok_bind.
    rewrite from_to_yaml by done. cbn [map_err]. rewrite Ok_bind. cbn [rr_pod_cidr].
    destruct (derive_pod_cidr_shape _ _ _ (rwf_cluster _ Hr) (rwf_prefix _ Hr) Hd) as [Hw _].
    rewrite net_parse_to_string by done. cbn. unfold pod_cidr. cbn. by rewrite lookup_insert_eq.
Qed.
End agreement.

(** ** Witnesses *)

Definition peer (id addr pod_cidr : string) (state : NodeState) : NodeStatus :=
  mkNodeStatus id addr pod_cidr state 0 f64_zero 0 f64_zero 0.
Definition three_peers : list NodeStatus :=
  [peer "node-1" "10.1.0.1:7620" "10.0.1.0/24" Alive; peer "node-2" "10.1.0.2:7620" "10.0.2.0/24" Alive;
   peer "node-3" "10.1.0.3:7620" "10.0.3.0/24" Dead].
Definition demo_gateway (id : string) : string :=
  if String.eqb id "node-1" then "10.1.0.1" else if String.eqb id "node-2" then "10.1.0.2" else "10.1.0.3".

Lemma routes_follow_peers_witness :
  exists w, @reconcile_routes list_order _ demo_channel "node-1" three_peers ∅ (Some demo_agent)
      = ({["node-2" := "10.0.2.0/24"]}, w) /\
    @routes _ demo_channel w !! "10.0.2.0/24" = Some "10.1.0.2".
Proof.
  pose proof (@routes_follow_peers list_order _ demo_channel demo_gateway "node-1" three_peers ∅
    (Some demo_agent)) as H.
  assert ((@reconcile_routes list_order _ demo_channel "node-1" three_peers ∅ (Some demo_agent)).1
    = {["node-2" := "10.0.2.0/24"]}) as E by (vm_compute; reflexivity).
  destruct (@reconcile_routes list_order _ demo_channel "node-1" three_peers ∅ (Some demo_agent))
    as [installed w]. cbn in E. subst installed. exists w. split; [reflexivity|].
  destruct H as [[Hr _] _].
  - split; [|intros; by simplify_map_eq]. intros c g. split; [|by intros (id & ? & _); simplify_map_eq].
    change (routes (Some demo_agent)) with (∅ : gmap string string). intros; by simplify_map_eq.
  - split.
    + apply (bool_decide_unpack _). vm_compute. exact I.
    + apply (bool_decide_unpack _). vm_compute. exact I.
    + intros p Hp. repeat (apply elem_of_cons in Hp as [->|Hp]; [reflexivity|]). by apply not_elem_of_nil in Hp.
    + intros; by simplify_map_eq.
  - apply Hr. exists "node-2". split; [by simplify_map_eq|reflexivity].
Defined.

(** node-2 has moved to another address. *)
Definition moved_peers : list NodeStatus := [peer "node-2" "10.9.0.2:7620" "10.0.2.0/24" Alive].

Lemma moved_peer_keeps_old_gateway_witness :
  exists w, @routes _ demo_channel w !! "10.0.2.0/24" = Some "10.1.0.2" /\
    @reconcile_routes list_order _ demo_channel "node-1" moved_peers {["node-2" := "10.0.2.0/24"]} w
      = ({["node-2" := "10.0.2.0/24"]}, w) /\
    @routes _ demo_channel w !! "10.0.2.0/24" <> Some "10.9.0.2".
Proof.
  exists (@send _ demo_channel (AgAddRoute "10.0.2.0/24" "10.1.0.2") (Some demo_agent)).2.
  assert (@routes _ demo_channel (@send _ demo_channel (AgAddRoute "10.0.2.0/24" "10.1.0.2")
    (Some demo_agent)).2 !! "10.0.2.0/24" = Some "10.1.0.2") as Hr by (vm_compute; reflexivity).
  split; [exact Hr|].
  destruct (@moved_peer_keeps_old_gateway list_order _ demo_channel "node-1" moved_peers
    {["node-2" := "10.0.2.0/24"]}
    (@send _ demo_channel (AgAddRoute "10.0.2.0/24" "10.1.0.2") (Some demo_agent)).2
    (peer "node-2" "10.9.0.2:7620" "10.0.2.0/24" Alive) "10.1.0.2")
    as [E Hne]; [| | |exact Hr|split; [exact E|apply Hne; discriminate]].
  - intros id c. rewrite lookup_singleton_Some. split.
    + intros [<- <-]. exists (peer "node-2" "10.9.0.2:7620" "10.0.2.0/24" Alive). split; [by left|done].
    + intros (p & Hp & _ & <- & <-). apply list_elem_of_singleton in Hp as ->. done.
  - by left.
  - done.
Defined.

Definition demo_config : NodeConfig :=
  mkNodeConfig "10.1.0.9:7620" "node-2" "10.1.0.2:7620" "10.1.0.2:7621" (f64_of_N 4) 8589934592.
Definition demo_f64_to_string (x : f64) : string := u_to_string (f64_round_as_u32 x).

(** A codec that reads the agent's text. *)
Definition registration_from_yaml (s : string) : result string NodeRegistration :=
  if String.eqb s (registration_text demo_f64_to_string demo_config) then Ok (registration_of demo_config)
  else countable_from_yaml s.
Program Definition yaml_registration_text : SerdeYaml NodeRegistration := {|
  to_yaml x := bits_to_string (encode x);
  from_yaml := registration_from_yaml
|}.
Next Obligation.
  intros x Hx. unfold registration_from_yaml. destruct (String.eqb_spec (bits_to_string (encode x))
    (registration_text demo_f64_to_string demo_config)) as [E|_]; [|by apply countable_from_to_yaml].
  exfalso. by destruct (encode x).
Qed.
Next Obligation.
  intros s x. unfold registration_from_yaml. destruct (String.eqb _ _); [|apply countable_from_yaml_repr].
  intros [= <-]. by vm_compute.
Qed.

Lemma registration_agrees_witness :
  @wp list_order ipnet_model _ (@route yaml_error yaml_register yaml_statuses yaml_replicas
      yaml_summaries yaml_entries yaml_registration_text yaml_heartbeat yaml_jail yaml_service ipnet_model
      id (mkParsedRequest "POST" "/nodes/register" (registration_text demo_f64_to_string demo_config)))
    (fun resp s' _ => forall link, link_answers link resp -> (str_len resp.2 <= u64_max)%N ->
       match @register_once httparse_model ipnet_model yaml_register demo_f64_to_string link demo_config with
       | Ok net => pod_cidr (cp_registry s') "node-2" = Some net
       | Err _ => s' = cp_demo
       end) cp_demo [].
Proof.
  eapply wp_mono; [|apply (@registration_agrees list_order httparse_model ipnet_model yaml_error
    yaml_register yaml_statuses yaml_replicas yaml_summaries yaml_entries yaml_registration_text
    yaml_heartbeat yaml_jail yaml_service demo_f64_to_string id demo_config cp_demo cp_demo_wf eq_refl)].
  - intros resp s' evs [_ H] link Hl Hb. specialize (H link Hl Hb).
    destruct (register_once _ _ _); apply H.
  - cbn. unfold registration_from_yaml. by rewrite String.eqb_refl.
Defined.
