(* ===== verification/Keelctl.v ===== *)
(** * The command line client

    [keelctl/src/main.rs]: flags, the choice of the target, the commands and the
    requests they make, over the agent's Unix socket or to the control plane.
    Connections, files and TLS configuration are parameters. *)

From S2P Require Import Prelude RustStr Text HttpMsg HttpFraming Float64 Ipnet SockAddr Spec Wire Codecs.
From S2P Require Import Tables Registry Backoff Services CpWorker CpHttp AgentHost Store Ingress Reconciler.
From S2P Require Import ReconcilerInv AgentFakes AgentWorker Replication AgentHttp Deploy.

(** ** Flags *)

(** [Vec::remove], which panics out of range. *)
Definition vec_remove {A} (i : nat) (l : list A) : comp (A * list A) :=
  match l !! i with
  | Some x => Val (x, take i l ++ drop (S i) l)
  | None => Panic
  end.

Definition position (name : string) (args : list string) : option nat :=
  fst <$> list_find (fun a => a = name) args.

Definition extract_flag (args : list string) (name : string) : comp (option string * list string) :=
  match position name args with
  | None => Val (None, args)
  | Some index =>
      '(_, args) ← vec_remove index args;
      '(value, args) ← vec_remove index args;
      Val (Some value, args)
  end.

Definition extract_socket_flag (args : list string) : comp (option string * list string) :=
  extract_flag args "--socket".

Inductive Target : Type :=
  | Socket (path : string)
  | ControlPlane (addr : string) (node : option string)
      (tls_ca_file tls_cert_file tls_key_file tls_crl_file : string).

Definition DEFAULT_SOCKET : string := "/var/run/keel-agentd.sock".

Definition resolve_target (socket : string) (control_plane_addr node tls_ca_file tls_cert_file
    tls_key_file tls_crl_file : option string) : result string Target :=
  match control_plane_addr, tls_ca_file, tls_cert_file, tls_key_file, tls_crl_file with
  | Some addr, Some ca, Some cert, Some key, Some crl => Ok (ControlPlane addr node ca cert key crl)
  | Some _, _, _, _, _ =>
      Err "--tls-ca-file, --tls-cert-file, --tls-key-file, and --tls-crl-file are all required with --control-plane-addr"
  | None, _, _, _, _ =>
      match node with
      | Some _ => Err "--node requires --control-plane-addr"
      | None => Ok (Socket socket)
      end
  end.

Definition jails_path (target : Target) (suffix : string) : string :=
  match target with
  | ControlPlane _ (Some node) _ _ _ _ => "/nodes/" +:+ node +:+ suffix
  | _ => suffix
  end.

(** ** Requests *)

(** [read_to_end]: every error is one. *)
Fixpoint read_to_end (response : string) (reads : Stream) : result string string :=
  match reads with
  | [] | Ok EmptyString :: _ => Ok response
  | Ok chunk :: reads => read_to_end (response +:+ chunk) reads
  | Err HttpMsg.UnexpectedEof :: _ => Err "unexpected end of file"
  | Err (HttpMsg.OtherIo e) :: _ => Err e
  end.

Record Client : Type := mkClient {
  (** Connecting to a target and sending the bytes. *)
  cl_connect : Target -> string -> result string Stream;
  (** Loading the TLS client configuration. *)
  cl_tls : Target -> result string unit;
  cl_read_file : string -> result string string
}.

Section client.
Context {HP : Httparse} {I : Ipnet}.
Context {YJ : SerdeYaml JailSpec} {YS : SerdeYaml ServiceSpec} {YI : SerdeYaml IngressSpec}
        {YK : SerdeYaml KindOnly} {YE : SerdeYaml ErrorBody}.
Context (cl : Client).

(** [send_request]: over the agent's socket. *)
Definition send_request_socket (target : Target) (method path body : string) : result string (N * string) :=
  reads ← cl_connect cl target (request_text method path body);
  response ← map_err (fun e => "failed to read response: " +:+ e) (read_to_end EmptyString reads);
  parse_response response.

(** Over TLS, until the peer closes. *)
Definition send_request_tcp (target : Target) (addr method path body : string) : result string (N * string) :=
  _ ← map_err (fun e => "failed to load TLS client config: " +:+ e) (cl_tls cl target);
  _ ← server_name_from_addr addr;
  reads ← cl_connect cl target (request_text method path body);
  response ← map_err (fun e => "failed to read response: " +:+ e) (read_to_close EmptyString reads);
  parse_response response.

Definition dispatch (target : Target) (method path body : string) : result string (N * string) :=
  match target with
  | Socket _ => send_request_socket target method path body
  | ControlPlane addr _ _ _ _ _ => send_request_tcp target addr method path body
  end.

Definition success_body (r : result string (N * string)) : result string string :=
  '(status, body) ← r;
  if (200 <=? status)%N && (status <? 300)%N then Ok body
  else match (from_yaml body : result string ErrorBody) with
       | Ok e => Err (eb_error e)
       | Err _ => Err body
       end.

Definition silent (r : result string string) : result string string :=
  match r with Ok _ => Ok EmptyString | Err e => Err e end.

Definition invalid_spec (e : SpecError) : string := "invalid spec: " +:+ spec_error_to_string e.

Definition run_apply (target : Target) (args : list string) : result string string :=
  index ← ok_or (position "-f" args) "apply requires -f FILE";
  file ← ok_or (args !! S index) "apply requires -f FILE";
  yaml ← map_err (fun e => "failed to read " +:+ file +:+ ": " +:+ e) (cl_read_file cl file);
  kind ← map_err invalid_spec (sniff_kind yaml);
  if String.eqb kind "Service" then
    spec ← map_err invalid_spec (parse_and_validate_service yaml);
    silent (success_body (dispatch target "PUT"
      (jails_path target ("/services/" +:+ meta_name (ss_metadata spec))) yaml))
  else if String.eqb kind "Ingress" then
    spec ← map_err invalid_spec (parse_and_validate_ingress yaml);
    silent (success_body (dispatch target "PUT" ("/ingress/" +:+ meta_name (is_metadata spec)) yaml))
  else
    spec ← map_err invalid_spec (parse_and_validate yaml);
    silent (success_body (dispatch target "PUT"
      (jails_path target ("/jails/" +:+ meta_name (js_metadata spec))) yaml)).

Definition get_or_delete_with_service_fallback (target : Target) (method name : string)
    : result string string :=
  '(status, body) ← dispatch target method (jails_path target ("/jails/" +:+ name)) EmptyString;
  if negb (status =? 404)%N then success_body (Ok (status, body))
  else
    '(service_status, service_body) ←
      dispatch target method (jails_path target ("/services/" +:+ name)) EmptyString;
    if negb (service_status =? 404)%N then success_body (Ok (service_status, service_body))
    else
      '(ingress_status, ingress_body) ← dispatch target method ("/ingress/" +:+ name) EmptyString;
      if (ingress_status =? 404)%N then success_body (Ok (status, body))
      else success_body (Ok (ingress_status, ingress_body)).

Definition run_get (target : Target) (args : list string) : result string string :=
  match args with
  | name :: _ => get_or_delete_with_service_fallback target "GET" name
  | [] => success_body (dispatch target "GET" (jails_path target "/jails") EmptyString)
  end.

Definition run_delete (target : Target) (args : list string) : result string string :=
  name ← ok_or (head args) "delete requires a jail name";
  silent (get_or_delete_with_service_fallback target "DELETE" name).

Definition run_delete_volume (target : Target) (args : list string) : result string string :=
  name ← ok_or (head args) "delete-volume requires a volume name";
  silent (success_body (dispatch target "DELETE" (jails_path target ("/volumes/" +:+ name)) EmptyString)).

Definition run_force_repin (target : Target) (args : list string) : result string string :=
  name ← ok_or (head args) "force-repin requires a replica name";
  silent (success_body (dispatch target "POST"
    (jails_path target ("/replicas/" +:+ name +:+ "/force-repin")) EmptyString)).

(** What the process prints, or the message it fails with. *)
Definition usage : string :=
  "usage: keelctl <apply -f FILE|get [name]|delete NAME|delete-volume NAME|force-repin NAME> [--socket PATH|--control-plane-addr ADDR --node ID]".

Definition run_command (target : Target) (args : list string) : result string string :=
  match args with
  | cmd :: rest =>
      if String.eqb cmd "apply" then run_apply target rest
      else if String.eqb cmd "get" then run_get target rest
      else if String.eqb cmd "delete" then run_delete target rest
      else if String.eqb cmd "delete-volume" then run_delete_volume target rest
      else if String.eqb cmd "force-repin" then run_force_repin target rest
      else Err usage
  | [] => Err usage
  end.

Definition main (args : list string) : comp (result string string) :=
  '(socket, args) ← extract_socket_flag args;
  '(control_plane_addr, args) ← extract_flag args "--control-plane-addr";
  '(node, args) ← extract_flag args "--node";
  '(tls_ca_file, args) ← extract_flag args "--tls-ca-file";
  '(tls_cert_file, args) ← extract_flag args "--tls-cert-file";
  '(tls_key_file, args) ← extract_flag args "--tls-key-file";
  '(tls_crl_file, args) ← extract_flag args "--tls-crl-file";
  Val (target ← resolve_target (default DEFAULT_SOCKET socket) control_plane_addr node
                  tls_ca_file tls_cert_file tls_key_file tls_crl_file;
       run_command target args).
End client.

(** ** Flags are taken out exactly *)

Lemma position_app name l r : name ∉ l -> position name (l ++ name :: r) = Some (length l).
Proof.
  intros Hn. unfold position. rewrite (proj2 (list_find_Some _ _ (length l) name)); [done|].
  split; [by rewrite list_lookup_middle|]. split; [done|]. intros j y Hj Hlt ->.
  apply Hn. rewrite lookup_app_l in Hj by done. by eapply list_elem_of_lookup_2.
Qed.

Lemma vec_remove_app {A} (l : list A) x r : vec_remove (length l) (l ++ x :: r) = Val (x, l ++ r).
Proof.
  unfold vec_remove. rewrite list_lookup_middle by done. rewrite take_app_length.
  by rewrite (drop_app_ge _ _ (S (length l))), Nat.sub_succ_l, Nat.sub_diag by lia.
Qed.

(** A flag and its value are taken out of the arguments, the first time the flag
    occurs, and every other argument stays, in order; a flag that is not there
    changes nothing.  A flag given last, without a value, panics the process instead
    of printing its usage. *)
Theorem extract_flag_correct args name :
  match position name args with
  | None => name ∉ args /\ extract_flag args name = Val (None, args)
  | Some i =>
      exists l r, args = l ++ name :: r /\ length l = i /\ name ∉ l /\
        extract_flag args name = match r with
                                 | value :: rest => Val (Some value, l ++ rest)
                                 | [] => Panic
                                 end
  end.
Proof.
  unfold extract_flag. destruct (position name args) as [i|] eqn:E.
  - unfold position in E. apply fmap_Some in E as ([j y] & E & ->).
    apply list_find_Some in E as (Hj & -> & Hbefore). cbn [fst].
    exists (take j args), (drop (S j) args). pose proof (take_drop_middle args j name Hj) as Eargs.
    assert (length (take j args) = j) as Hlen by (apply length_take_le; apply lookup_lt_Some in Hj; lia).
    split; [done|]. split; [done|]. split.
    { intros Hin. apply list_elem_of_lookup in Hin as [k Hk]. pose proof (lookup_lt_Some _ _ _ Hk).
      rewrite lookup_take_lt in Hk by lia. by apply (Hbefore k name Hk); [lia|]. }
    rewrite <- Eargs at 1. rewrite <- Hlen at 1. rewrite vec_remove_app, Val_bind.
    destruct (drop (S j) args) as [|v r].
    + rewrite app_nil_r. unfold vec_remove. by rewrite lookup_ge_None_2 by lia.
    + rewrite <- Hlen at 1. by rewrite vec_remove_app.
  - unfold position in E. apply fmap_None, list_find_None in E. split; [|done].
    intros Hin. rewrite Forall_forall in E. by apply (E name Hin).
Qed.

(** ** Which request reaches which handler *)

Section routes.
Context {I : Ipnet}.
Context {YE : SerdeYaml ErrorBody} {YRR : SerdeYaml RegisterResponse}
        {YNS : SerdeYaml (list NodeStatus)} {YSR : SerdeYaml (list ServiceReplica)}
        {YSS : SerdeYaml (list ServiceSummary)} {YPE : SerdeYaml (list ServiceProxyEntry)}
        {YNR : SerdeYaml NodeRegistration} {YHB : SerdeYaml Heartbeat}
        {YJ : SerdeYaml JailSpec} {YS : SerdeYaml ServiceSpec}.
Context (str_debug : string -> string).

Definition no_route (method path : string) : prog response :=
  Ret (error_response 404 ("no route for " +:+ method +:+ " " +:+ path)).

(** The segments of a path that is prefixed for a node or not. *)
Lemma target_segments target s l :
  match target with ControlPlane _ (Some n) _ _ _ _ => plain_segment "/"%char n | _ => True end ->
  Forall (plain_segment "/"%char) (s :: l) ->
  segments (jails_path target (String "/" (join "/" (s :: l)))) =
    match target with
    | ControlPlane _ (Some n) _ _ _ _ => "nodes" :: n :: s :: l
    | _ => s :: l
    end.
Proof.
  intros Hn Hl. unfold jails_path.
  destruct target as [p|addr [n|] ca cert key crl]; try by apply segments_join.
  change ("/nodes/" +:+ n +:+ String "/" (join "/" (s :: l)))
    with (String "/" (join "/" ("nodes" :: n :: s :: l))).
  apply segments_join. apply Forall_cons. split; [done|]. by apply Forall_cons.
Qed.

End routes.

(** ** Applying a jail, end to end *)

Section end_to_end.
Context {HO : HashOrder} {HP : Httparse} {I : Ipnet} {YJR : SerdeYaml JailRecord}
        {YIR : SerdeYaml IngressRecord}.
Context {YE : SerdeYaml ErrorBody} {YJ : SerdeYaml JailSpec} {YIS : SerdeYaml IngressSpec}
        {YRB : SerdeYaml ReplicateToBody} {YJS : SerdeYaml JailStatus}
        {YJL : SerdeYaml (list JailStatus)} {YIG : SerdeYaml IngressStatus}
        {YIL : SerdeYaml (list IngressStatus)} {YVS : SerdeYaml VolumeStatus}
        {YRS : SerdeYaml ReplicaTargetStatus} {YS : SerdeYaml ServiceSpec} {YK : SerdeYaml KindOnly}.
Context {J Zf Nt M A D X : Type}.
Context {HJ : JailRuntime J} {HZ : ZfsManager Zf} {HN : NetManager Nt} {HM : MountManager M}
        {HA : AcmeClient A D} {HX : NginxController X}.

Notation Agent := (@Agent J Zf Nt M A D X).

(** What a connection to the agent's socket gives: the agent's answer, or an error
    when its thread ends without one. *)
Definition agent_link (ck : Clock) (sh : Shared) (a : Agent) (bytes : string) : result string Stream :=
  match AgentHttp.handle_connection ck [Ok bytes] sh (Some a) with
  | Val (Ok (Some answer), _) => Ok [Ok answer]
  | _ => Err "connection closed"
  end.

Lemma name_path name : name_valid name = true ->
  plain_segment "/"%char name /\ some_all path_char ("/jails/" +:+ name) = true.
Proof.
  unfold name_valid. rewrite !andb_true_iff. intros [[[[Hne _] Hc] _] _]. split.
  - split; [by destruct name|]. by apply name_char_no_slash.
  - unfold some_all. rewrite str_all_app.
    assert (str_all path_char name = true) as ->; [|reflexivity].
    eapply str_all_impl; [|exact Hc]. intros c. unfold Spec.name_char, path_char, is_ascii_alphanumeric.
    destruct (is_ascii_lowercase c), (is_ascii_digit c), (ascii_eqb c "-"); by rewrite ?orb_true_r.
Qed.

Lemma put_jail_route name body sh :
  name_valid name = true ->
  agent_route (mkParsedRequest "PUT" ("/jails/" +:+ name) body) sh = handle_apply name body sh.
Proof.
  intros Hn. unfold agent_route. cbn [pr_path pr_method pr_body].
  change ("/jails/" +:+ name) with (String "/" (join "/" ["jails"; name])).
  rewrite segments_join; [done|]. repeat constructor; try done; by apply name_path.
Qed.

Lemma handle_apply_status ck name body sh (a : Agent) :
  (100 <= (serve ck (handle_apply name body sh) (Some a)).1.1 <= 999)%N.
Proof.
  assert (forall e, (100 <= status_for_error e <= 999)%N) as He
    by (intros [[]| | |[]| | | |]; cbn; lia).
  unfold handle_apply. destruct (from_yaml body); [|cbn; lia]. cbn zeta.
  destruct (negb _); [cbn; lia|]. destruct (outside_subnet _ _); [cbn; lia|].
  unfold send_result. cbn [serve]. destruct (send_agent _ _ _) as [reply w].
  destruct reply as [| |[[|]| | | | |]]; cbn; try lia. apply He.
Qed.

Lemma agent_connection_served ck sh (a : Agent) method path body :
  some_all is_letter method = true -> some_all path_char path = true ->
  (str_len (request_text method path body) <= MAX_MESSAGE_BYTES)%N ->
  AgentHttp.handle_connection ck [Ok (request_text method path body)] sh (Some a) =
    let '((status, answer), w) := serve ck (agent_route (mkParsedRequest method path body) sh) (Some a) in
    Val (Ok (Some (agent_write_response status answer)), w).
Proof.
  intros Hm Hp Hl. unfold AgentHttp.handle_connection.
  assert (request_text method path body <> EmptyString) as Hne.
  { unfold request_text. unfold some_all in Hm. by destruct method. }
  pose proof (read_request_delivered method path body [request_text method path body] [] Hm Hp Hl
    ltac:(by repeat constructor)) as Hr.
  change (delivers [request_text method path body] []) with
    ([Ok (request_text method path body)] : Stream) in Hr.
  rewrite Hr by (cbn; apply app_nil_r_str). rewrite Val_bind.
  by destruct (serve _ _ _) as [[status answer] w].
Qed.

Lemma agent_link_served ck sh (a : Agent) method path body :
  some_all is_letter method = true -> some_all path_char path = true ->
  (str_len (request_text method path body) <= MAX_MESSAGE_BYTES)%N ->
  agent_link ck sh a (request_text method path body) =
    let '((status, answer), _) := serve ck (agent_route (mkParsedRequest method path body) sh) (Some a) in
    Ok [Ok (agent_write_response status answer)].
Proof.
  intros Hm Hp Hl. unfold agent_link. rewrite agent_connection_served by done.
  by destruct (serve _ _ _) as [[status answer] w].
Qed.

Lemma read_to_end_response status answer :
  map_err (fun e => "failed to read response: " +:+ e)
    (read_to_end EmptyString [Ok (agent_write_response status answer)])
    = Ok (agent_write_response status answer).
Proof. reflexivity. Qed.

Lemma parse_written status answer :
  (100 <= status <= 999)%N -> (str_len answer <= u64_max)%N ->
  parse_response (agent_write_response status answer) = Ok (status, from_utf8_lossy answer).
Proof.
  intros Hs Hl. pose proof (response_received agent_reason_phrase status answer
    [agent_write_response status answer] EmptyString [] (proj1 (reason_phrases status)) Hs Hl
    ltac:(by repeat constructor) ltac:(by left)) as H.
  cbn [text_of foldr] in H. rewrite !app_nil_r_str in H. by apply H.
Qed.

(** What applying a jail's file does, over any host: success means the agent has
    recorded the file's specification and has passed over its jails; an error leaves
    what it had under that name. *)
Lemma keelctl_apply_recorded ck sh (a : Agent) cl file yaml kind spec path :
  agent_inv (ag_rc a) -> unix_ok (ck_unix ck) ->
  cl_connect cl (Socket path) = agent_link ck sh a -> cl_read_file cl file = Ok yaml ->
  sniff_kind yaml = Ok kind -> kind <> "Service" -> kind <> "Ingress" ->
  parse_and_validate yaml = Ok spec ->
  let name := meta_name (js_metadata spec) in
  (str_len (request_text "PUT" ("/jails/" +:+ name) yaml) <= MAX_MESSAGE_BYTES)%N ->
  let '((status, answer), w) := serve ck (handle_apply name yaml sh) (Some a) in
  (str_len answer <= u64_max)%N ->
  match run_apply cl (Socket path) ["-f"; file] with
  | Ok out => out = EmptyString /\ exists a' record s1 fs, w = Some a' /\
      rc_records (ag_rc a') !! name = Some record /\ jr_spec record = spec /\
      outside_subnet (sh_pod_cidr_slot sh) (net_address (sp_network (js_spec spec))) = None /\
      apply spec (ag_rc a) = Val (Ok tt, s1) /\
      reconcile (ck_now ck) (ck_unix ck) (ck_mono ck) s1 = Val (fs, ag_rc a')
  | Err _ => forall a', w = Some a' -> name <> "ingress" ->
      rc_records (ag_rc a') !! name = rc_records (ag_rc a) !! name
  end.
Proof.
  intros Ha Hu Hconn Hfile Hkind Hk1 Hk2 Hpv name Hlen.
  pose proof Hpv as Hpv'. unfold parse_and_validate in Hpv'.
  apply bind_Ok in Hpv' as (spec' & Hy & Hpv').
  assert (from_yaml yaml = Ok spec') as Hy' by (by destruct (from_yaml yaml); simplify_eq/=).
  apply bind_Ok in Hpv' as ([] & Hn%validate_name_Ok & Hpv').
  assert (spec' = spec) as ->.
  { do 4 apply bind_Ok in Hpv' as (? & _ & Hpv'). by simplify_eq. }
  fold name in Hn. pose proof (proj2 (name_path name Hn)) as Hpath.
  pose proof (agent_put_jail_correct ck name yaml sh a Ha Hu) as Hput.
  pose proof (fun resp a' => put_jail_applied ck name yaml sh a resp a') as Happ.
  pose proof (handle_apply_status ck name yaml sh a) as Hst.
  pose proof (agent_link_served ck sh a "PUT" ("/jails/" +:+ name) yaml eq_refl Hpath Hlen) as Hlink.
  rewrite put_jail_route in Hlink by done.
  destruct (serve ck (handle_apply name yaml sh) (Some a)) as [[status answer] w]. cbn in Hst, Hput.
  intros Hal.
  assert (run_apply cl (Socket path) ["-f"; file] =
    silent (success_body (Ok (status, from_utf8_lossy answer)))) as ->.
  { unfold run_apply. change (position "-f" ["-f"; file]) with (Some 0%nat). cbn [ok_or]. rewrite Ok_bind.
    change (["-f"; file] !! 1%nat) with (Some file). cbn [ok_or].
    rewrite Ok_bind, Hfile. cbn [map_err]. rewrite Ok_bind, Hkind. cbn [map_err]. rewrite Ok_bind.
    rewrite (proj2 (String.eqb_neq _ _) Hk1), (proj2 (String.eqb_neq _ _) Hk2), Hpv. cbn [map_err].
    rewrite Ok_bind. do 2 f_equal. unfold dispatch, send_request_socket. cbn [jails_path]. rewrite Hconn. fold name.
    rewrite Hlink, Ok_bind. by rewrite read_to_end_response, Ok_bind, parse_written. }
  unfold success_body, silent. rewrite Ok_bind. destruct w as [a'|].
  - destruct Hput as (_ & _ & Hput). specialize (Happ _ _ eq_refl). unfold is_2xx in Hput, Happ. cbn in Happ.
    destruct (_ && _).
    + destruct Hput as (spec' & record & Hs' & _ & Ho & Hr & Hj & _).
      destruct (Happ eq_refl) as (spec2 & s1 & fs & Hs2 & E1 & E2). split; [done|].
      exists a', record, s1, fs. rewrite Hy' in Hs', Hs2. by simplify_eq.
    + destruct (from_yaml (from_utf8_lossy answer) : result string ErrorBody); intros ? [= <-]; exact Hput.
  - rewrite Hput. by destruct (from_yaml (from_utf8_lossy answer) : result string ErrorBody).
Qed.
End end_to_end.

(** ** A jail applied runs *)

Section in_memory.
Context {HO : HashOrder} {HP : Httparse} {I : Ipnet} {YJR : SerdeYaml JailRecord}
        {YIR : SerdeYaml IngressRecord}.
Context {YE : SerdeYaml ErrorBody} {YJ : SerdeYaml JailSpec} {YIS : SerdeYaml IngressSpec}
        {YRB : SerdeYaml ReplicateToBody} {YJS : SerdeYaml JailStatus}
        {YJL : SerdeYaml (list JailStatus)} {YIG : SerdeYaml IngressStatus}
        {YIL : SerdeYaml (list IngressStatus)} {YVS : SerdeYaml VolumeStatus}
        {YRS : SerdeYaml ReplicaTargetStatus} {YS : SerdeYaml ServiceSpec} {YK : SerdeYaml KindOnly}.
Context {A D X : Type} {HA : AcmeClient A D} {HX : NginxController X}.
Notation Agent := (@Agent FakeJailRuntime FakeZfsManager FakeNetManager FakeMountManager A D X).

(** C16: a jail applied with [keelctl] over the agent's socket runs, and runs as
    the file says.  The file is a valid jail specification, the request at most
    [MAX_MESSAGE_BYTES] (64 KiB) and the answer shorter than 2^64 bytes; the agent
    satisfies its invariant, its clock is within range, and it runs on the in-memory
    host of the repository's tests.  If the command succeeds
    it prints nothing, and the agent has recorded exactly the specification of the
    file, inside its subnet; and if the name was new to the agent, its image is on
    the node (and is no jail's own dataset), no jail of the name is left over on the
    host and the address has a bridge gateway (an IPv6 one has none), then the jail
    is up: running under the limits of the file, attached to its bridge at its
    address, its dataset cloned and its volumes mounted.  If the command prints an
    error, the agent's worker has not stopped, and the name is not [ingress] (the
    built-in ingress jail's), then what the agent had recorded under that name is
    unchanged.  The command always ends with one of the two. *)
Theorem keelctl_apply_end_to_end ck sh (a : Agent) cl file yaml kind spec path :
  agent_inv (ag_rc a) -> unix_ok (ck_unix ck) ->
  cl_connect cl (Socket path) = agent_link ck sh a -> cl_read_file cl file = Ok yaml ->
  sniff_kind yaml = Ok kind -> kind <> "Service" -> kind <> "Ingress" ->
  parse_and_validate yaml = Ok spec ->
  let name := meta_name (js_metadata spec) in
  (str_len (request_text "PUT" ("/jails/" +:+ name) yaml) <= MAX_MESSAGE_BYTES)%N ->
  let '((status, answer), w) := serve ck (handle_apply name yaml sh) (Some a) in
  (str_len answer <= u64_max)%N ->
  match run_apply cl (Socket path) ["-f"; file] with
  | Ok out => out = EmptyString /\ exists (a' : Agent) record, w = Some a' /\
      rc_records (ag_rc a') !! name = Some record /\ jr_spec record = spec /\
      outside_subnet (sh_pod_cidr_slot sh) (net_address (sp_network (js_spec spec))) = None /\
      (rc_records (ag_rc a) !! name = None -> can_run_image (sp_image (js_spec spec)) name (ag_rc a) ->
       gateway_ok (net_address (sp_network (js_spec spec))) -> replica_up (ag_rc a') name record)
  | Err _ => forall a', w = Some a' -> name <> "ingress" ->
      rc_records (ag_rc a') !! name = rc_records (ag_rc a) !! name
  end.
Proof.
  intros Ha Hu Hconn Hfile Hkind Hk1 Hk2 Hpv name Hlen.
  pose proof (keelctl_apply_recorded ck sh a cl file yaml kind spec path Ha Hu Hconn Hfile Hkind Hk1 Hk2
    Hpv Hlen) as H.
  fold name in H. destruct (serve ck (handle_apply name yaml sh) (Some a)) as [[status answer] w].
  intros Hal. specialize (H Hal). destruct (run_apply _ _ _) as [out|e]; [|done].
  destruct H as (-> & a' & record & s1 & fs & -> & Hr & Hs & Ho & E1 & E2). split; [done|].
  exists a', record. do 4 (split; [done|]). intros Hnew Hrun Hgw.
  destruct (applied_jail_runs ck spec (ag_rc a) s1 (ag_rc a') fs Ha Hu Hnew Hrun Hgw E1 E2)
    as (record' & Hr' & _ & Hup).
  assert (record' = record) as -> by (unfold name in Hr; congruence). exact Hup.
Qed.
End in_memory.

(** ** Witnesses *)

(** The kind of a document, read off a jail's specification. *)
#[global] Instance KindOnly_eq_dec : EqDecision KindOnly.
Proof. solve_decision. Defined.
#[global] Instance KindOnly_countable : Countable KindOnly.
Proof. refine (inj_countable' ko_kind mkKindOnly _). by intros []. Defined.
Definition kind_from_yaml (s : string) : result string KindOnly :=
  match s with
  | String "k"%char s => @countable_from_yaml _ _ _ _ (fun _ => True_dec) s
  | _ => spec ← @from_yaml _ _ yaml_jail s; Ok (mkKindOnly (js_kind spec))
  end.
Program Definition yaml_kind : SerdeYaml KindOnly := {|
  to_yaml x := String "k"%char (bits_to_string (encode x));
  from_yaml := kind_from_yaml
|}.
Next Obligation. intros x Hx. cbn. by apply (countable_from_to_yaml (A := KindOnly)). Qed.
Next Obligation. done. Qed.

Definition web_yaml : string := @to_yaml _ _ yaml_jail web_spec.
Notation demo_link := (@agent_link list_order httparse_model ipnet_model yaml_jail_record
  yaml_ingress_record yaml_error yaml_jail yaml_ingress yaml_replicate_to yaml_jail_status
  yaml_jail_statuses yaml_ingress_status yaml_ingress_statuses yaml_volume_status yaml_target_status
  _ _ _ _ _ _ _ fake_jail_runtime fake_zfs_manager (@fake_net_manager ipnet_model) fake_mount_manager
  (@fake_acme FakeDnsProvider fake_dns) fake_nginx demo_clock web_slot demo_agent).
Definition demo_client : Client :=
  mkClient (fun _ => demo_link) (fun _ => Ok tt) (fun _ => Ok web_yaml).
Notation demo_run_apply := (@run_apply httparse_model ipnet_model yaml_jail yaml_service yaml_ingress
  yaml_kind yaml_error demo_client).

Lemma keelctl_apply_end_to_end_witness :
  exists a record, demo_run_apply (Socket "keel.sock") ["-f"; "web.yaml"] = Ok EmptyString /\
    rc_records (@ag_rc FakeJailRuntime FakeZfsManager FakeNetManager FakeMountManager FakeAcmeClient
      FakeDnsProvider FakeNginxController a) !! "web-1" = Some record /\ jr_spec record = web_spec /\
    replica_up (ag_rc a) "web-1" record.
Proof.
  assert (demo_run_apply (Socket "keel.sock") ["-f"; "web.yaml"] = Ok EmptyString) as Erun
    by (vm_compute; reflexivity).
  assert (match demo_serve demo_clock (demo_handle_apply "web-1" web_yaml web_slot) (Some demo_agent)
          with ((status, answer), w) => (status, answer, is_some w) end = (200%N, EmptyString, true)) as H
    by (vm_compute; reflexivity).
  pose proof (@keelctl_apply_end_to_end list_order httparse_model ipnet_model yaml_jail_record
    yaml_ingress_record yaml_error yaml_jail yaml_ingress yaml_replicate_to yaml_jail_status
    yaml_jail_statuses yaml_ingress_status yaml_ingress_statuses yaml_volume_status yaml_target_status
    yaml_service yaml_kind _ _ _ (@fake_acme FakeDnsProvider fake_dns) fake_nginx
    demo_clock web_slot demo_agent demo_client "web.yaml" web_yaml "Jail" web_spec "keel.sock"
    ltac:(by apply empty_inv) (proj1 (demo_apply_ok web_spec)) eq_refl eq_refl
    ltac:(vm_compute; reflexivity) ltac:(discriminate) ltac:(discriminate)
    ltac:(vm_compute; reflexivity) ltac:(vm_compute; discriminate)) as HT.
  rewrite Erun in HT. change (meta_name (js_metadata web_spec)) with "web-1" in HT.
  destruct (demo_serve _ _ _) as [[status answer] w]. injection H as -> -> Hw.
  destruct HT as (_ & a & record & _ & Hr & Hs & _ & Hup); [vm_compute; discriminate|].
  exists a, record. split; [exact Erun|]. split; [exact Hr|]. split; [exact Hs|]. apply Hup.
  - by vm_compute.
  - split; [vm_compute; tauto|]. split; [intros n; cbn; discriminate|by vm_compute].
  - vm_compute; discriminate.
Defined.
