(* ===== verification/CpServe.v ===== *)
(** * Connections of the control plane

    [handle_connection] and [forward] of [keel-controlplane/src/http.rs]: the
    handlers of [CpHttp] between the bytes of a client's connection and the bytes
    of the connections to the agents, and what the commands of [keelctl] come to
    over such a connection.  Name resolution, TCP and the TLS handshake are a
    parameter. *)

From S2P Require Import Prelude RustStr Text HttpMsg HttpFraming Ipnet SockAddr Spec Wire Codecs CpWorker CpReconcile CpCommands CpHttp.
From S2P Require Import Backoff AgentHost Store Ingress Reconciler AgentFakes AgentWorker Replication AgentHttp Keelctl.

(** [to_socket_addrs], [connect_timeout] and the TLS session over it: what the
    peer sends back for the bytes written. *)
Definition Dial : Type := string -> result string (string -> result string Stream).

Section connections.
Context {HO : HashOrder} {HP : Httparse} {I : Ipnet}.
Context {YE : SerdeYaml ErrorBody} {YRR : SerdeYaml RegisterResponse}
        {YNS : SerdeYaml (list NodeStatus)} {YSR : SerdeYaml (list ServiceReplica)}
        {YSS : SerdeYaml (list ServiceSummary)} {YPE : SerdeYaml (list ServiceProxyEntry)}
        {YNR : SerdeYaml NodeRegistration} {YHB : SerdeYaml Heartbeat}
        {YJ : SerdeYaml JailSpec} {YS : SerdeYaml ServiceSpec}.
Context (str_debug : string -> string).

Definition forward (dial : Dial) (rq : request) : result string response :=
  connection ← dial (rq_addr rq);
  _ ← server_name_from_addr (rq_addr rq);
  reads ← connection (request_text (rq_method rq) (rq_path rq) (rq_body rq));
  forward_response reads.

(** The program that answers the request read, if one was read; its result is
    what is written back. *)
Definition handle_connection (reads : Stream) : comp (result HttpMsg.IoError (option (prog string))) :=
  r ← read_request reads;
  Val match r with
      | Err e => Err e
      | Ok None => Ok None
      | Ok (Some request) =>
          Ok (Some ('(status, body) ← route str_debug request; Ret (cp_write_response status body)))
      end.
End connections.

Section forwarded.
Context {HO : HashOrder} {HP : Httparse} {I : Ipnet} {YJR : SerdeYaml JailRecord}
        {YIR : SerdeYaml IngressRecord}.
Context {YE : SerdeYaml ErrorBody} {YJ : SerdeYaml JailSpec} {YIS : SerdeYaml IngressSpec}
        {YRB : SerdeYaml ReplicateToBody} {YJS : SerdeYaml JailStatus}
        {YJL : SerdeYaml (list JailStatus)} {YIG : SerdeYaml IngressStatus}
        {YIL : SerdeYaml (list IngressStatus)} {YVS : SerdeYaml VolumeStatus}
        {YRS : SerdeYaml ReplicaTargetStatus}.
Context {J Zf Nt M A D X : Type}.
Context {HJ : JailRuntime J} {HZ : ZfsManager Zf} {HN : NetManager Nt} {HM : MountManager M}
        {HA : AcmeClient A D} {HX : NginxController X}.

Notation Agent := (@Agent J Zf Nt M A D X).

Definition status_ok (p : aprog) : Prop :=
  forall ck w, (100 <= (serve (J := J) (Zf := Zf) (Nt := Nt) (M := M) (A := A) (D := D) (X := X) ck p w).1.1 <= 999)%N.

Lemma ret_status status body : (100 <= status <= 999)%N -> status_ok (ARet (status, body)).
Proof. by intros H ck w. Qed.

Lemma status_for_error_ok e : (100 <= status_for_error e <= 999)%N.
Proof. destruct e as [[]| | |[]| | | |]; cbn; lia. Qed.

Lemma send_result_status c ok : (100 <= ok.1 <= 999)%N -> status_ok (send_result c ok).
Proof.
  intros Hok ck w. unfold send_result. cbn [serve]. destruct (send_agent ck c w) as [reply w'].
  destruct reply as [| |[[|]| | | | |]]; cbn; try lia. apply status_for_error_ok.
Qed.

Lemma agent_route_status request sh : status_ok (agent_route request sh).
Proof.
  unfold agent_route. cbn zeta.
  assert (forall n, status_ok (handle_get n)) as Hg.
  { intros n ck w. unfold handle_get. cbn [serve]. destruct (send_agent ck _ w) as [reply w'].
    destruct reply as [| |[| |l| | |]]; cbn; try lia. destruct n, l; cbn; lia. }
  assert (forall n, status_ok (handle_get_ingress n)) as Hi.
  { intros n ck w. unfold handle_get_ingress. cbn [serve]. destruct (send_agent ck _ w) as [reply w'].
    destruct reply as [| |[| | |l| |]]; cbn; try lia. destruct n, l; cbn; lia. }
  assert (forall m, status_ok (ARet (error_response 404 m))) as Hn by (intros m; by apply ret_status).
  assert (forall m, status_ok (ARet (error_response 400 m))) as Hb by (intros m; by apply ret_status).
  assert (forall name body, status_ok (handle_apply name body sh)) as Ha.
  { intros name body. unfold handle_apply. cbn zeta. repeat case_match; try apply Hb.
    by apply send_result_status. }
  assert (forall name body, status_ok (handle_apply_ingress name body sh)) as Hai.
  { intros name body. unfold handle_apply_ingress. cbn zeta. repeat case_match; try apply Hb.
    by apply send_result_status. }
  assert (forall name body, status_ok (handle_set_replicate_to name body)) as Hs.
  { intros name body. unfold handle_set_replicate_to. repeat case_match; try apply Hb;
      by apply send_result_status. }
  assert (forall name, status_ok (handle_get_replica_target name sh)) as Hr.
  { intros name. unfold handle_get_replica_target. repeat case_match; by apply ret_status. }
  repeat case_match; auto; by apply send_result_status.
Qed.

(** C27: forwarding is transparent.  When the control plane forwards a request (a
    method of letters, a path of URL characters, at most 64 KiB in all) to a
    node whose agent answers on that connection, the handler gets exactly the
    status and body the agent's own handler produced, and the agent goes through
    exactly the state changes of that handler; bytes, framing and TLS add
    nothing. *)
Theorem forward_reaches_agent ck sh (a : Agent) dial rq sn :
  some_all is_letter (rq_method rq) = true -> some_all path_char (rq_path rq) = true ->
  (str_len (request_text (rq_method rq) (rq_path rq) (rq_body rq)) <= MAX_MESSAGE_BYTES)%N ->
  dial (rq_addr rq) = Ok (agent_link ck sh a) -> server_name_from_addr (rq_addr rq) = Ok sn ->
  let served := serve ck (agent_route (mkParsedRequest (rq_method rq) (rq_path rq) (rq_body rq)) sh) (Some a) in
  (str_len served.1.2 <= u64_max)%N ->
  forward dial rq = Ok served.1 /\
  AgentHttp.handle_connection ck [Ok (request_text (rq_method rq) (rq_path rq) (rq_body rq))] sh (Some a)
    = Val (Ok (Some (agent_write_response served.1.1 served.1.2)), served.2).
Proof.
  intros Hm Hp Hl Hdial Hsn served Hans.
  pose proof (agent_route_status (mkParsedRequest (rq_method rq) (rq_path rq) (rq_body rq)) sh ck (Some a)) as Hst.
  fold served in Hst. pose proof (agent_link_served ck sh a _ _ (rq_body rq) Hm Hp Hl) as Hlink.
  fold served in Hlink. split.
  - unfold forward. rewrite Hdial, Ok_bind, Hsn, Ok_bind, Hlink. clear Hlink.
    destruct served as [[status answer] w]. rewrite Ok_bind.
    pose proof (response_received agent_reason_phrase status answer
      [agent_write_response status answer] EmptyString [] (proj1 (reason_phrases status)) Hst Hans
      ltac:(by repeat constructor) ltac:(by left)) as H.
    cbn [text_of foldr] in H. rewrite !app_nil_r_str in H. by apply H.
  - rewrite agent_connection_served by done. fold served. by destruct served as [[status answer] w].
Qed.
End forwarded.

(** ** What the commands of the client do there *)

(** Names of resources are segments of a path. *)
Ltac url_names :=
  repeat (apply Forall_cons; split); try apply Forall_nil; first [done | split; [by split|reflexivity]].

Section client_commands.
Context {HO : HashOrder} {HP : Httparse} {I : Ipnet}.
Context {YE : SerdeYaml ErrorBody} {YRR : SerdeYaml RegisterResponse}
        {YNS : SerdeYaml (list NodeStatus)} {YSR : SerdeYaml (list ServiceReplica)}
        {YSS : SerdeYaml (list ServiceSummary)} {YPE : SerdeYaml (list ServiceProxyEntry)}
        {YNR : SerdeYaml NodeRegistration} {YHB : SerdeYaml Heartbeat}
        {YJ : SerdeYaml JailSpec} {YS : SerdeYaml ServiceSpec} {YI : SerdeYaml IngressSpec}
        {YK : SerdeYaml KindOnly}.
Context (str_debug : string -> string).

(** Running a handler to its end, against the worker and the nodes as they are during
    the command. *)
Context (exec : forall A, prog A -> A).
Arguments exec {A}.
Context (exec_ret : forall A B (p : prog A) (k : A -> prog B) (f : A -> B),
  (forall a, k a = Ret (f a)) -> exec (p ≫= k) = f (exec p)).

Notation route := (route str_debug).
Notation handle_force_repin := (handle_force_repin str_debug).

(** The bytes [keelctl] gets for the bytes it sends to the control plane. *)
Definition cp_link (bytes : string) : result string Stream :=
  match handle_connection str_debug [Ok bytes] with
  | Val (Ok (Some p)) => Ok [Ok (exec p)]
  | _ => Ok []
  end.

(** What [keelctl] makes of what a handler answers: its status and body. *)
Definition answer (p : prog response) : result string (N * string) :=
  let r := exec p in parse_response (cp_write_response r.1 r.2).

Lemma answer_fits p :
  (100 <= (exec p).1 <= 999)%N -> (str_len (exec p).2 <= u64_max)%N ->
  answer p = Ok ((exec p).1, from_utf8_lossy (exec p).2).
Proof.
  intros Hs Hb. pose proof (response_received cp_reason_phrase (exec p).1 (exec p).2
    [cp_write_response (exec p).1 (exec p).2] EmptyString [] (proj2 (reason_phrases _)) Hs Hb
    ltac:(by repeat constructor) ltac:(by left)) as H.
  cbn [text_of foldr] in H. rewrite !app_nil_r_str in H. by apply H.
Qed.

(** A client of a control plane that can be reached. *)
Definition talks (cl : Client) (target : Target) : Prop :=
  match target with
  | ControlPlane addr _ _ _ _ _ =>
      cl_tls cl target = Ok tt /\ is_ok (server_name_from_addr addr) = true /\ cl_connect cl target = cp_link
  | Socket _ => False
  end.

Lemma dispatch_answer cl target method path body :
  talks cl target -> some_all is_letter method = true -> some_all path_char path = true ->
  (str_len (request_text method path body) <= MAX_MESSAGE_BYTES)%N ->
  dispatch cl target method path body = answer (route (mkParsedRequest method path body)).
Proof.
  intros Ht Hm Hp Hl. destruct target as [|addr node ca cert key crl]; [done|].
  destruct Ht as (Htls & Hn & Hc). unfold dispatch, send_request_tcp. rewrite Htls. cbn [map_err].
  rewrite Ok_bind. destruct (server_name_from_addr addr); [|done]. rewrite Ok_bind, Hc.
  unfold cp_link, handle_connection.
  pose proof (read_request_delivered method path body [request_text method path body] [] Hm Hp Hl
    ltac:(repeat constructor; by destruct method)) as Hr.
  change (delivers [request_text method path body] []) with ([Ok (request_text method path body)] : Stream) in Hr.
  rewrite Hr by (cbn; apply app_nil_r_str). rewrite Val_bind, Ok_bind.
  by rewrite (exec_ret _ _ _ _ (fun r => cp_write_response r.1 r.2)) by (by intros []).
Qed.

(** A name that is one segment of a path. *)
Definition url_name (x : string) : Prop := plain_segment "/"%char x /\ some_all path_char x = true.

Lemma name_url x : name_valid x = true -> url_name x.
Proof.
  intros Hx. destruct (name_path x Hx) as [Hp Hc]. split; [done|]. unfold some_all in *.
  rewrite str_all_app in Hc. destruct Hp as [Hne _]. apply andb_true_iff in Hc as [_ Hc].
  apply andb_true_iff in Hc as [_ Hc]. apply andb_true_iff. split; [by destruct x|done].
Qed.

(** The first answer that is not 404; the first of all if there is none. *)
Definition first_known (jail service ingress : result string (N * string)) : result string string :=
  '(status, body) ← jail;
  if negb (status =? 404)%N then success_body (Ok (status, body))
  else '(service_status, service_body) ← service;
  if negb (service_status =? 404)%N then success_body (Ok (service_status, service_body))
  else '(ingress_status, ingress_body) ← ingress;
  success_body (Ok (if (ingress_status =? 404)%N then (status, body) else (ingress_status, ingress_body))).

Section routed.
Context (cl : Client) (addr : string) (node : option string) (ca cert key crl : string).
Notation target := (ControlPlane addr node ca cert key crl).
Context (Hcl : talks cl target) (Hnode : forall n, node = Some n -> url_name n).

(** A request for a resource, with the node's prefix if there is one. *)
Lemma routed_segments s l : Forall url_name (s :: l) ->
  segments (jails_path target (String "/" (join "/" (s :: l)))) =
    match node with Some n => "nodes" :: n :: s :: l | None => s :: l end.
Proof.
  intros Hl. rewrite target_segments; [by destruct node| |].
  - destruct node; [by apply Hnode|done].
  - eapply Forall_impl; [exact Hl|]. by intros t [].
Qed.

Lemma join_path_char s l : Forall url_name (s :: l) -> str_all path_char (join "/" (s :: l)) = true.
Proof.
  revert s. induction l as [|t l IH]; intros s [Hs Hl]%Forall_cons.
  - destruct Hs as [_ Hs]. unfold some_all in Hs. by apply andb_true_iff in Hs as [_ Hs].
  - change (join "/" (s :: t :: l)) with (s +:+ "/" +:+ join "/" (t :: l)). rewrite !str_all_app.
    rewrite IH by done. destruct Hs as [_ Hs]. unfold some_all in Hs. apply andb_true_iff in Hs as [_ ->]. done.
Qed.

Lemma routed_path_char s l : Forall url_name (s :: l) ->
  some_all path_char (jails_path target (String "/" (join "/" (s :: l)))) = true.
Proof.
  intros Hl. pose proof (join_path_char s l Hl) as Hj. unfold jails_path, some_all. destruct node as [n|].
  - rewrite !str_all_app. destruct (Hnode n eq_refl) as [_ Hn]. unfold some_all in Hn.
    apply andb_true_iff in Hn as [_ ->]. cbn. exact Hj.
  - cbn. exact Hj.
Qed.

(** Requests without a body that are short enough to be read. *)
Context (x : string) (Hx : url_name x)
  (Hlen : (str_len x + str_len (default EmptyString node) <= 65000)%N).

Lemma request_short method path :
  (str_len method <= 8)%N -> (str_len path <= 65400)%N ->
  (str_len (request_text method path EmptyString) <= MAX_MESSAGE_BYTES)%N.
Proof.
  intros Hm Hp. unfold request_text, MAX_MESSAGE_BYTES. rewrite !str_len_app.
  change (str_len EmptyString) with 0%N. change (u_to_string 0) with "0".
  change (str_len " HTTP/1.1") with 9%N. change (str_len " ") with 1%N. change (str_len CRLF) with 2%N.
  change (str_len "Host: localhost") with 15%N. change (str_len "Content-Length: ") with 16%N.
  change (str_len "0") with 1%N. change (str_len EmptyString) with 0%N. lia.
Qed.

Lemma path_short prefix suffix : (str_len prefix + str_len suffix <= 100)%N ->
  (str_len (jails_path target (prefix +:+ x +:+ suffix)) <= 65400)%N.
Proof.
  intros Hp. revert Hlen. unfold jails_path. destruct node as [n|]; cbn [default from_option]; unfold id;
    rewrite ?str_len_app; [change (str_len "/nodes/") with 7%N|]; lia.
Qed.

(** A request without a body, with and without the prefix of the node. *)
Lemma asks_routed method s l path :
  some_all is_letter method = true -> (str_len method <= 8)%N -> Forall url_name (s :: l) ->
  path = String "/" (join "/" (s :: l)) -> (str_len (jails_path target path) <= 65400)%N ->
  dispatch cl target method (jails_path target path) EmptyString =
    answer (route (mkParsedRequest method (jails_path target path) EmptyString)) /\
  segments (jails_path target path) =
    match node with Some n => "nodes" :: n :: s :: l | None => s :: l end.
Proof.
  intros Hm Hml Hl -> Hp. split; [|by apply routed_segments].
  apply dispatch_answer; [done|done|by apply routed_path_char|by apply request_short].
Qed.

(** The resource [s] of the name, with what comes after it. *)
Lemma asks_named method s rest :
  some_all is_letter method = true -> (str_len method <= 8)%N -> Forall url_name (s :: rest) ->
  (str_len s + str_len (join "/" (EmptyString :: rest)) <= 90)%N ->
  let path := jails_path target (String "/" (join "/" (s :: x :: rest))) in
  dispatch cl target method path EmptyString = answer (route (mkParsedRequest method path EmptyString)) /\
  segments path = match node with Some n => "nodes" :: n :: s :: x :: rest | None => s :: x :: rest end.
Proof.
  intros Hm Hml [Hs Hl]%Forall_cons Hlen'. apply asks_routed; [done|done| |done|].
  - by repeat (apply Forall_cons; split).
  - destruct rest as [|r rest].
    + change (String "/" (join "/" [s; x])) with ("/" +:+ s +:+ "/" +:+ x).
      rewrite <- (app_nil_r_str x), !(app_assoc_str _ _ (x +:+ _)). apply path_short.
      rewrite !str_len_app. change (str_len "/") with 1%N. cbn in Hlen'. change (str_len EmptyString) with 0%N in *. lia.
    + change (String "/" (join "/" (s :: x :: r :: rest)))
        with ("/" +:+ s +:+ "/" +:+ x +:+ join "/" (EmptyString :: r :: rest)).
      rewrite !(app_assoc_str _ _ (x +:+ _)). apply path_short.
      rewrite !str_len_app. change (str_len "/") with 1%N. lia.
Qed.

Lemma asks_ingress method :
  some_all is_letter method = true -> (str_len method <= 8)%N ->
  dispatch cl target method ("/ingress/" +:+ x) EmptyString =
    answer (route (mkParsedRequest method ("/ingress/" +:+ x) EmptyString)) /\
  segments ("/ingress/" +:+ x) = ["ingress"; x].
Proof.
  intros Hm Hml. assert (Forall url_name ["ingress"; x]) as Hu by url_names.
  change ("/ingress/" +:+ x) with (String "/" (join "/" ["ingress"; x])). split.
  - apply dispatch_answer; [done|done| |].
    + pose proof (join_path_char _ _ Hu) as Hj. unfold some_all. cbn -[join]. exact Hj.
    + apply request_short; [done|]. change (String "/" (join "/" ["ingress"; x])) with ("/ingress/" +:+ x).
      rewrite str_len_app. change (str_len "/ingress/") with 9%N. lia.
  - apply segments_join. eapply Forall_impl; [exact Hu|]. by intros t [].
Qed.
End routed.

(** No route of the control plane is for an ingress. *)
Lemma unrouted_ingress method path x body : segments path = ["ingress"; x] ->
  route (mkParsedRequest method path body) = no_route method path.
Proof.
  intros E. unfold CpHttp.route. cbn [pr_path pr_method pr_body]. rewrite E. cbn zeta.
  change (String.eqb "ingress" "nodes") with false. change (String.eqb "ingress" "jails") with false.
  change (String.eqb "ingress" "services") with false. by rewrite !andb_false_r.
Qed.

Lemma fallback_first_known cl target method name :
  get_or_delete_with_service_fallback cl target method name =
    first_known (dispatch cl target method (jails_path target ("/jails/" +:+ name)) EmptyString)
      (dispatch cl target method (jails_path target ("/services/" +:+ name)) EmptyString)
      (dispatch cl target method ("/ingress/" +:+ name) EmptyString).
Proof.
  unfold get_or_delete_with_service_fallback, first_known.
  generalize (dispatch cl target method ("/ingress/" +:+ name) EmptyString).
  generalize (dispatch cl target method (jails_path target ("/services/" +:+ name)) EmptyString).
  generalize (dispatch cl target method (jails_path target ("/jails/" +:+ name)) EmptyString).
  intros [[s1 b1]|] [[s2 b2]|] [[s3 b3]|]; rewrite ?Ok_bind; try done; destruct (negb (s1 =? 404)%N); try done;
    rewrite ?Ok_bind; destruct (negb (s2 =? 404)%N); try done; rewrite ?Ok_bind; by destruct (s3 =? 404)%N.
Qed.

(** A handler found from the segments of a path. *)
Ltac by_route E S node :=
  rewrite E; unfold CpHttp.route; cbn [pr_path pr_method pr_body]; rewrite S; by destruct node.

(** The commands that name a resource. *)
Lemma keelctl_asks cl addr node ca cert key crl x :
  let target := ControlPlane addr node ca cert key crl in
  talks cl target -> url_name x -> (forall n, node = Some n -> url_name n) ->
  (str_len x + str_len (default EmptyString node) <= 65000)%N ->
  let refused method path := answer (no_route method path) in
  let ingress method := refused method ("/ingress/" +:+ x) in
  match node with
  | None =>
      run_get cl target [] = success_body (refused "GET" "/jails") /\
      run_get cl target [x] =
        first_known (answer (handle_scheduled_read x)) (answer (handle_get_service x)) (ingress "GET") /\
      run_delete cl target [x] = silent
        (first_known (answer (handle_scheduled_delete x)) (answer (handle_delete_service x)) (ingress "DELETE")) /\
      run_delete_volume cl target [x] = silent (success_body (refused "DELETE" ("/volumes/" +:+ x))) /\
      run_force_repin cl target [x] = silent (success_body (answer (handle_force_repin x)))
  | Some n =>
      run_get cl target [] = success_body (answer (handle_forward n "GET" "/jails" EmptyString)) /\
      run_get cl target [x] =
        first_known (answer (handle_forward n "GET" (jail_path x) EmptyString))
          (refused "GET" ("/nodes/" +:+ n +:+ "/services/" +:+ x)) (ingress "GET") /\
      run_delete cl target [x] = silent
        (first_known (answer (delete_node_jail n x))
          (refused "DELETE" ("/nodes/" +:+ n +:+ "/services/" +:+ x)) (ingress "DELETE")) /\
      run_delete_volume cl target [x] = silent
        (success_body (answer (handle_forward n "DELETE" ("/volumes/" +:+ x) EmptyString))) /\
      run_force_repin cl target [x] = silent
        (success_body (refused "POST" ("/nodes/" +:+ n +:+ "/replicas/" +:+ x +:+ "/force-repin")))
  end.
Proof.
  intros target Hcl Hx Hn Hlen refused ingress.
    assert (forall m, some_all is_letter m = true -> (str_len m <= 8)%N ->
    dispatch cl target m ("/ingress/" +:+ x) EmptyString = ingress m) as Hing.
  { intros m Hm Hl. destruct (asks_ingress cl addr node ca cert key crl Hcl x Hx Hlen m Hm Hl) as [E1 E2].
    unfold target. rewrite E1. unfold ingress, refused. f_equal. by eapply unrouted_ingress. }
  pose proof (fun m s r H1 H2 H3 H4 => asks_named cl addr node ca cert key crl Hcl Hn x Hx Hlen m s r H1 H2 H3 H4) as Hask.
  pose proof (fun m H1 H2 => Hask m "jails" [] H1 H2 ltac:(url_names) ltac:(done)) as Hjails.
  pose proof (fun m H1 H2 => Hask m "services" [] H1 H2 ltac:(url_names) ltac:(done)) as Hservices.
  pose proof (fun m H1 H2 => Hask m "volumes" [] H1 H2 ltac:(url_names) ltac:(done)) as Hvolumes.
  pose proof (fun m H1 H2 => Hask m "replicas" ["force-repin"] H1 H2 ltac:(url_names) ltac:(done)) as Hrepin.
  destruct (asks_routed cl addr node ca cert key crl Hcl Hn x Hlen "GET" "jails" [] "/jails") as [Ea Sa];
    [done|done|url_names|done| |].
  { clear - Hlen. unfold jails_path. destruct node as [n|]; cbn [default from_option] in Hlen; unfold id in Hlen;
      rewrite ?str_len_app; [change (str_len "/nodes/") with 7%N|]; change (str_len "/jails") with 6%N; lia. }
  cbn zeta in *. fold target in Hjails, Hservices, Hvolumes, Hrepin, Ea, Sa.
  change (String "/" (join "/" ["jails"; x])) with ("/jails/" +:+ x) in Hjails.
  change (String "/" (join "/" ["services"; x])) with ("/services/" +:+ x) in Hservices.
  change (String "/" (join "/" ["volumes"; x])) with ("/volumes/" +:+ x) in Hvolumes.
  change (String "/" (join "/" ["replicas"; x; "force-repin"]))
    with ("/replicas/" +:+ x +:+ "/force-repin") in Hrepin.
  unfold run_get, run_delete, run_delete_volume, run_force_repin. cbn [head ok_or].
  rewrite !Ok_bind, !fallback_first_known.
  assert (dispatch cl target "GET" (jails_path target "/jails") EmptyString = answer
    match node with Some n => handle_forward n "GET" "/jails" EmptyString | None => no_route "GET" "/jails" end)
    as -> by (by_route Ea Sa node).
  assert (dispatch cl target "GET" (jails_path target ("/jails/" +:+ x)) EmptyString = answer
    match node with Some n => handle_forward n "GET" (jail_path x) EmptyString | None => handle_scheduled_read x end)
    as -> by (destruct (Hjails "GET" eq_refl ltac:(done)) as [E S]; by_route E S node).
  assert (dispatch cl target "DELETE" (jails_path target ("/jails/" +:+ x)) EmptyString = answer
    match node with Some n => delete_node_jail n x | None => handle_scheduled_delete x end)
    as -> by (destruct (Hjails "DELETE" eq_refl ltac:(done)) as [E S]; by_route E S node).
  assert (dispatch cl target "GET" (jails_path target ("/services/" +:+ x)) EmptyString = answer
    match node with Some n => no_route "GET" ("/nodes/" +:+ n +:+ "/services/" +:+ x) | None => handle_get_service x end)
    as -> by (destruct (Hservices "GET" eq_refl ltac:(done)) as [E S]; by_route E S node).
  assert (dispatch cl target "DELETE" (jails_path target ("/services/" +:+ x)) EmptyString = answer
    match node with Some n => no_route "DELETE" ("/nodes/" +:+ n +:+ "/services/" +:+ x)
                  | None => handle_delete_service x end)
    as -> by (destruct (Hservices "DELETE" eq_refl ltac:(done)) as [E S]; by_route E S node).
  assert (dispatch cl target "DELETE" (jails_path target ("/volumes/" +:+ x)) EmptyString = answer
    match node with Some n => handle_forward n "DELETE" ("/volumes/" +:+ x) EmptyString
                  | None => no_route "DELETE" ("/volumes/" +:+ x) end)
    as -> by (destruct (Hvolumes "DELETE" eq_refl ltac:(done)) as [E S]; by_route E S node).
  assert (dispatch cl target "POST" (jails_path target ("/replicas/" +:+ x +:+ "/force-repin")) EmptyString = answer
    match node with Some n => no_route "POST" ("/nodes/" +:+ n +:+ "/replicas/" +:+ x +:+ "/force-repin")
                  | None => handle_force_repin x end)
    as -> by (destruct (Hrepin "POST" eq_refl ltac:(done)) as [E S]; by_route E S node).
  rewrite !Hing by done. by destruct node.
Qed.

(** The names of documents that were checked. *)
Lemma service_name_valid yaml spec : parse_and_validate_service yaml = Ok spec ->
  name_valid (meta_name (ss_metadata spec)) = true.
Proof.
  unfold parse_and_validate_service. intros H. apply bind_Ok in H as (spec' & _ & H). cbn zeta in H.
  apply bind_Ok in H as ([] & Hn%validate_name_Ok & H). do 3 apply bind_Ok in H as (? & _ & H).
  destruct (_ =? 0)%N; [done|]. by injection H as <-.
Qed.
Lemma ingress_name_valid yaml spec : parse_and_validate_ingress yaml = Ok spec ->
  name_valid (meta_name (is_metadata spec)) = true.
Proof.
  unfold parse_and_validate_ingress. intros H. apply bind_Ok in H as (spec' & _ & H).
  apply bind_Ok in H as ([] & Hn%validate_name_Ok & H). do 2 apply bind_Ok in H as (? & _ & H).
  destruct (_ =? 0)%N; [done|]. by injection H as <-.
Qed.
Lemma jail_name_valid yaml spec : parse_and_validate yaml = Ok spec ->
  name_valid (meta_name (js_metadata spec)) = true.
Proof.
  unfold parse_and_validate. intros H. apply bind_Ok in H as (spec' & _ & H).
  apply bind_Ok in H as ([] & Hn%validate_name_Ok & H). do 4 apply bind_Ok in H as (? & _ & H).
  by injection H as <-.
Qed.

(** A document sent for a name that was checked. *)
Lemma puts_named cl addr node ca cert key crl s name yaml :
  let target := ControlPlane addr node ca cert key crl in
  let path := jails_path target ("/" +:+ s +:+ "/" +:+ name) in
  talks cl target -> (forall n, node = Some n -> url_name n) -> name_valid name = true -> url_name s ->
  (str_len (request_text "PUT" path yaml) <= MAX_MESSAGE_BYTES)%N ->
  dispatch cl target "PUT" path yaml = answer (route (mkParsedRequest "PUT" path yaml)) /\
  segments path = match node with Some n => ["nodes"; n; s; name] | None => [s; name] end.
Proof.
  intros target path Hcl Hn Hv Hs Hl. pose proof (name_url name Hv) as Hu.
  assert (Forall url_name [s; name]) as Hall by (by repeat (apply Forall_cons; split)).
  unfold path, target in *. change ("/" +:+ s +:+ "/" +:+ name) with (String "/" (join "/" [s; name])) in *.
  split; [|by eapply routed_segments]. apply dispatch_answer; [done|done|by eapply routed_path_char|done].
Qed.

Lemma run_apply_reads cl target file yaml kind :
  cl_read_file cl file = Ok yaml -> sniff_kind yaml = Ok kind ->
  run_apply cl target ["-f"; file] =
    if String.eqb kind "Service" then
      spec ← map_err invalid_spec (parse_and_validate_service yaml);
      silent (success_body (dispatch cl target "PUT"
        (jails_path target ("/services/" +:+ meta_name (ss_metadata spec))) yaml))
    else if String.eqb kind "Ingress" then
      spec ← map_err invalid_spec (parse_and_validate_ingress yaml);
      silent (success_body (dispatch cl target "PUT" ("/ingress/" +:+ meta_name (is_metadata spec)) yaml))
    else
      spec ← map_err invalid_spec (parse_and_validate yaml);
      silent (success_body (dispatch cl target "PUT"
        (jails_path target ("/jails/" +:+ meta_name (js_metadata spec))) yaml)).
Proof.
  intros Hfile Hkind. unfold run_apply. change (position "-f" ["-f"; file]) with (Some 0%nat). cbn [ok_or].
  rewrite Ok_bind. change (["-f"; file] !! 1%nat) with (Some file). cbn [ok_or].
  rewrite Ok_bind, Hfile. cbn [map_err]. by rewrite Ok_bind, Hkind.
Qed.

(** C34: the client and the control plane speak of the same resources.  Take a client
    whose TLS files load and that reaches a control plane, and names of letters,
    digits and [- . _ ~] of 65,000 bytes in all; applied files give requests of at
    most 64 KiB.  Then every command ends as the answers of the handlers it means to
    ask for say, through the bytes of the request and of the response (a handler's
    answer is that of its program, run by any [exec]): on a named node the jails and volumes
    of that node, without one the scheduled jails, the services and a forced re-pin.
    The other combinations have no route and end in that 404: a service or a forced
    re-pin with a node, listing the jails or deleting a volume without one, and an
    ingress in both cases; [get] and [delete] of a name try the jail, the service and
    the ingress of that name, in this order, until one is known. *)
Theorem keelctl_route_table cl addr node ca cert key crl x :
  let target := ControlPlane addr node ca cert key crl in
  talks cl target -> url_name x -> (forall n, node = Some n -> url_name n) ->
  (str_len x + str_len (default EmptyString node) <= 65000)%N ->
  let refused method path := answer (no_route method path) in
  let ingress method := refused method ("/ingress/" +:+ x) in
  match node with
  | None =>
      run_get cl target [] = success_body (refused "GET" "/jails") /\
      run_get cl target [x] =
        first_known (answer (handle_scheduled_read x)) (answer (handle_get_service x)) (ingress "GET") /\
      run_delete cl target [x] = silent
        (first_known (answer (handle_scheduled_delete x)) (answer (handle_delete_service x)) (ingress "DELETE")) /\
      run_delete_volume cl target [x] = silent (success_body (refused "DELETE" ("/volumes/" +:+ x))) /\
      run_force_repin cl target [x] = silent (success_body (answer (handle_force_repin x)))
  | Some n =>
      run_get cl target [] = success_body (answer (handle_forward n "GET" "/jails" EmptyString)) /\
      run_get cl target [x] =
        first_known (answer (handle_forward n "GET" (jail_path x) EmptyString))
          (refused "GET" ("/nodes/" +:+ n +:+ "/services/" +:+ x)) (ingress "GET") /\
      run_delete cl target [x] = silent
        (first_known (answer (delete_node_jail n x))
          (refused "DELETE" ("/nodes/" +:+ n +:+ "/services/" +:+ x)) (ingress "DELETE")) /\
      run_delete_volume cl target [x] = silent
        (success_body (answer (handle_forward n "DELETE" ("/volumes/" +:+ x) EmptyString))) /\
      run_force_repin cl target [x] = silent
        (success_body (refused "POST" ("/nodes/" +:+ n +:+ "/replicas/" +:+ x +:+ "/force-repin")))
  end /\
  forall file yaml kind, cl_read_file cl file = Ok yaml -> sniff_kind yaml = Ok kind ->
    let sent path := (str_len (request_text "PUT" path yaml) <= MAX_MESSAGE_BYTES)%N in
    let apply := run_apply cl target ["-f"; file] in
    (kind = "Service" -> forall spec, parse_and_validate_service yaml = Ok spec ->
      let name := meta_name (ss_metadata spec) in sent (jails_path target ("/services/" +:+ name)) ->
      apply = silent (success_body match node with
        | None => answer (handle_apply_service name yaml)
        | Some n => refused "PUT" ("/nodes/" +:+ n +:+ "/services/" +:+ name)
        end)) /\
    (kind = "Ingress" -> forall spec, parse_and_validate_ingress yaml = Ok spec ->
      let name := meta_name (is_metadata spec) in sent ("/ingress/" +:+ name) ->
      apply = silent (success_body (refused "PUT" ("/ingress/" +:+ name)))) /\
    (kind <> "Service" -> kind <> "Ingress" -> forall spec, parse_and_validate yaml = Ok spec ->
      let name := meta_name (js_metadata spec) in sent (jails_path target ("/jails/" +:+ name)) ->
      apply = silent (success_body match node with
        | None => answer (put_jail name yaml)
        | Some n => answer (put_node_jail n name yaml)
        end)).
Proof.
  intros target Hcl Hx Hn Hlen refused ingress. split; [by apply keelctl_asks|].
  intros file yaml kind Hfile Hkind sent apply.
  pose proof (run_apply_reads cl target file yaml kind Hfile Hkind) as Happ. fold apply in Happ.
  split; [|split].
  - intros -> spec Hp name Hl. rewrite Happ, String.eqb_refl, Hp. cbn [map_err]. rewrite Ok_bind. fold name.
    destruct (puts_named cl addr node ca cert key crl "services" name yaml Hcl Hn) as [E S];
      [by eapply service_name_valid|url_names|exact Hl|].
    change ("/" +:+ "services" +:+ "/" +:+ name) with ("/services/" +:+ name) in E, S.
    do 2 f_equal. fold target in E, S. by_route E S node.
  - intros -> spec Hp name Hl. rewrite Happ, (proj2 (String.eqb_neq "Ingress" "Service")), String.eqb_refl, Hp by done.
    cbn [map_err]. rewrite Ok_bind. fold name.
    assert (url_name name) as Hu by (by eapply name_url, ingress_name_valid).
    assert (Forall url_name ["ingress"; name]) as Hall by url_names. do 2 f_equal.
    change ("/ingress/" +:+ name) with (String "/" (join "/" ["ingress"; name])) in *.
    unfold refused. rewrite dispatch_answer; [|done|done| |done].
    + f_equal. eapply unrouted_ingress, segments_join. eapply Forall_impl; [exact Hall|]. by intros t [].
    + exact (join_path_char _ _ Hall).
  - intros Hk1 Hk2 spec Hp name Hl. rewrite Happ.
    rewrite (proj2 (String.eqb_neq _ _) Hk1), (proj2 (String.eqb_neq _ _) Hk2), Hp. cbn [map_err]. rewrite Ok_bind. fold name.
    destruct (puts_named cl addr node ca cert key crl "jails" name yaml Hcl Hn) as [E S];
      [by eapply jail_name_valid|url_names|exact Hl|].
    change ("/" +:+ "jails" +:+ "/" +:+ name) with ("/jails/" +:+ name) in E, S.
    do 2 f_equal. fold target in E, S. rewrite E. unfold CpHttp.route. cbn [pr_path pr_method pr_body].
    rewrite S. by destruct node.
Qed.
End client_commands.

(** ** Evaluation *)

(** A request for a volume the demo agent does not have. *)
Notation demo_node_link := (@agent_link list_order httparse_model ipnet_model
  yaml_jail_record yaml_ingress_record yaml_error yaml_jail yaml_ingress yaml_replicate_to
  yaml_jail_status yaml_jail_statuses yaml_ingress_status yaml_ingress_statuses yaml_volume_status
  yaml_target_status _ _ _ _ _ _ _ fake_jail_runtime fake_zfs_manager
  (@fake_net_manager ipnet_model) fake_mount_manager (@fake_acme FakeDnsProvider fake_dns) fake_nginx
  demo_clock demo_shared demo_agent).
Definition volume_request : request := mkRequest "10.0.0.5:7621" "GET" "/volumes/x" EmptyString.

Lemma forward_reaches_agent_witness :
  exists answer, @forward httparse_model (fun _ => Ok demo_node_link) volume_request = Ok (404%N, answer).
Proof.
  assert (server_name_from_addr "10.0.0.5:7621" = Ok (IpV4 167772165)) as Hsn by reflexivity.
  assert (str_len (request_text "GET" "/volumes/x" EmptyString) <= MAX_MESSAGE_BYTES)%N as Hl
    by (vm_compute; discriminate).
  assert (match demo_serve demo_clock (demo_agent_route (mkParsedRequest "GET" "/volumes/x" EmptyString)
            demo_shared) (Some demo_agent) with
          | ((status, answer), _) => status = 404%N /\ (str_len answer <= u64_max)%N
          end) as Hs by (vm_compute; split; [reflexivity|discriminate]).
  destruct (@forward_reaches_agent list_order httparse_model ipnet_model
    yaml_jail_record yaml_ingress_record yaml_error yaml_jail yaml_ingress yaml_replicate_to
    yaml_jail_status yaml_jail_statuses yaml_ingress_status yaml_ingress_statuses yaml_volume_status
    yaml_target_status _ _ _ _ _ _ _ fake_jail_runtime fake_zfs_manager
    (@fake_net_manager ipnet_model) fake_mount_manager (@fake_acme FakeDnsProvider fake_dns) fake_nginx
    demo_clock demo_shared demo_agent (fun _ => Ok demo_node_link) volume_request _
    eq_refl eq_refl Hl eq_refl Hsn) as [H _].
  - cbn [volume_request rq_method rq_path rq_body].
    destruct (demo_serve _ _ _) as [[status answer] w]. apply Hs.
  - cbn [volume_request rq_method rq_path rq_body] in H.
    destruct (demo_serve _ _ _) as [[status answer] w]. destruct Hs as [-> _]. exists answer. exact H.
Defined.

(** Running a handler on the tables of the demo, with nodes that accept everything. *)
Fixpoint demo_exec (A : Type) (p : prog A) : A :=
  match p with
  | Ret a => a
  | Send c k =>
      match @CpWorker.handle_command list_order ipnet_model _ 0 c cp_demo with
      | Val (r, _) => demo_exec A (k (Reply r))
      | Panic => demo_exec A (k RecvErr)
      end
  | Forward _ k => demo_exec A (k (Ok (200%N, "done")))
  end.

Lemma demo_exec_ret A B (p : prog A) (k : A -> prog B) (f : A -> B) :
  (forall a, k a = Ret (f a)) -> demo_exec B (p ≫= k) = f (demo_exec A p).
Proof.
  intros Hk. change (p ≫= k) with (prog_bind p k). induction p as [a|R c g IH|r g IH]; cbn.
  - by rewrite Hk.
  - destruct (@CpWorker.handle_command list_order ipnet_model _ 0 c cp_demo) as [[r s]|]; apply IH.
  - apply IH.
Qed.

Notation demo_cp_link := (@cp_link httparse_model ipnet_model yaml_error yaml_register
  yaml_statuses yaml_replicas yaml_summaries yaml_entries yaml_registration yaml_heartbeat yaml_jail
  yaml_service id demo_exec).
Definition cp_target : Target := ControlPlane "10.1.0.9:7620" None "ca" "cert" "key" "crl".
Definition cp_client : Client := mkClient (fun _ => demo_cp_link) (fun _ => Ok tt) (fun _ => Ok web_yaml).

(** A jail that runs nowhere, and is no service: what the client prints of it, and
    what it does when it is applied. *)
Lemma keelctl_route_table_witness :
  @run_delete httparse_model yaml_error cp_client cp_target ["web-7"] =
    Err "no known placement for jail 'web-7'" /\
  @run_apply httparse_model ipnet_model yaml_jail yaml_service yaml_ingress yaml_kind yaml_error cp_client
    cp_target ["-f"; "web.yaml"] = Ok EmptyString.
Proof.
  assert (@talks httparse_model ipnet_model yaml_error yaml_register yaml_statuses yaml_replicas
    yaml_summaries yaml_entries yaml_registration yaml_heartbeat yaml_jail yaml_service id demo_exec
    cp_client cp_target) as Ht by (split; [reflexivity|split; reflexivity]).
  destruct (@keelctl_route_table httparse_model ipnet_model yaml_error yaml_register yaml_statuses
    yaml_replicas yaml_summaries yaml_entries yaml_registration yaml_heartbeat yaml_jail yaml_service yaml_ingress
    yaml_kind id demo_exec demo_exec_ret cp_client "10.1.0.9:7620" None "ca" "cert" "key" "crl" "web-7" Ht)
    as [(_ & _ & Hdel & _) Happly].
  - split; [split; [discriminate|reflexivity]|reflexivity].
  - discriminate.
  - vm_compute. discriminate.
  - split.
    + etransitivity; [exact Hdel|]. vm_compute. reflexivity.
    + destruct (Happly "web.yaml" web_yaml "Jail" eq_refl ltac:(vm_compute; reflexivity)) as (_ & _ & H).
      etransitivity; [exact (H ltac:(discriminate) ltac:(discriminate) web_spec ltac:(vm_compute; reflexivity)
        ltac:(vm_compute; discriminate))|].
      vm_compute. reflexivity.
Defined.
