(* ===== verification/HostCli.v ===== *)
(** * The host reached through its command line tools

    The implementations a deployed agent uses: [CliZfsManager] ([keel-zfs/src/cli.rs]),
    [ProcessJailRuntime] and [CliMountManager] ([keel-jail/src/process.rs],
    [mount_cli.rs]), [ProcessNetManager] ([keel-net/src/process.rs]),
    [JexecNginxController] ([keel-agentd/src/nginx.rs]), [PfctlController] ([pf.rs])
    and the capacity probe ([capacity.rs]).  The tools and the file system are a
    parameter, the class [Host]; the managers are instances of the classes of
    [AgentHost] and [Ingress], so every theorem about the reconciler that is proved
    for all hosts holds of them. *)

From S2P Require Import Prelude RustStr Text HttpMsg Float64 Ipnet Spec AgentHost Store Ingress AgentHttp.

(** ** Processes *)

(** The status is the word [wait] gives. *)
Record Output : Type := mkOutput { out_status : N; out_stdout : string; out_stderr : string }.

Definition success (o : Output) : bool := (out_status o =? 0)%N.
(** [ExitStatus::code]: none when a signal ended the process. *)
Definition exit_code (o : Output) : option N :=
  if (out_status o mod 128 =? 0)%N then Some (out_status o / 256)%N else None.
Definition stderr_text (o : Output) : string := from_utf8_lossy (out_stderr o).
Definition stderr_contains (o : Output) (needle : string) : bool := contains_str needle (stderr_text o).

Class Host (H : Type) : Type := {
  (** Runs a program to its end, with the given standard input. *)
  exec : string -> list string -> string -> H -> result string Output * H;
  (** The same, with the standard output copied into a stream, which meets the given
      error before all is written, if there is one: the program then loses its reader. *)
  exec_piped : string -> list string -> option string -> H -> result string Output * H;
  (** Starts a program and leaves it running: its process id. *)
  spawn : string -> list string -> H -> result string N * H;
  (** [Child::try_wait] says that the process has ended. *)
  finished : H -> N -> bool;
  (** [Child::wait]. *)
  wait : N -> H -> H;
  create_dir_all : string -> H -> result string unit * H;
  write_file : string -> string -> H -> result string unit * H;
  rename : string -> string -> H -> result string unit * H
}.

(** [format!("{program} {}", args.join(" "))]. *)
Definition command_line (program : string) (args : list string) : string :=
  program +:+ " " +:+ join " " args.

(** [Path::join] with a relative name. *)
Definition path_push (dir file : string) : string :=
  if str_is_empty dir then file
  else if bool_decide (str_last dir = Some "/"%char) then dir +:+ file
  else dir +:+ "/" +:+ file.

Section managers.
Context {H : Type} {HH : Host H}.

Definition run (program : string) (args : list string) (h : H) : result string Output * H :=
  exec program args EmptyString h.

(** [run_checked] of the four managers; [spawn_error] and [failed] are the
    constructors of the manager's error type. *)
Definition run_checked {E} (spawn_error : string -> string -> E) (failed : string -> N -> string -> E)
    (program : string) (args : list string) (h : H) : result E unit * H :=
  match run program args h with
  | (Err e, h) => (Err (spawn_error program e), h)
  | (Ok o, h) =>
      (if success o then Ok tt
       else Err (failed (command_line program args) (out_status o) (stderr_text o)), h)
  end.

(** A command whose failure is tolerated when [tolerated] says so. *)
Definition run_tolerating {E} (spawn_error : string -> string -> E) (failed : string -> N -> string -> E)
    (tolerated : Output -> bool) (program : string) (args : list string) (h : H) : result E unit * H :=
  match run program args h with
  | (Err e, h) => (Err (spawn_error program e), h)
  | (Ok o, h) =>
      (if success o || tolerated o then Ok tt
       else Err (failed (command_line program args) (out_status o) (stderr_text o)), h)
  end.

(** Sequencing of operations that can fail and change the host. *)
Definition hbind {E A B} (x : result E A * H) (k : A -> H -> result E B * H) : result E B * H :=
  match x with
  | (Ok a, h) => k a h
  | (Err e, h) => (Err e, h)
  end.

(** ** [CliZfsManager] *)

Definition zfs_checked : list string -> H -> result ZfsError unit * H := run_checked ZSpawn ZCommandFailed "zfs".

Definition zfs_exists (dataset : string) (h : H) : result ZfsError bool * H :=
  match run "zfs" ["list"; "-H"; "-o"; "name"; dataset] h with
  | (Err e, h) => (Err (ZSpawn "zfs" e), h)
  | (Ok o, h) =>
      (if success o then Ok true
       else if bool_decide (exit_code o = Some 1%N) then Ok false
       else Err (ZCommandFailed ("zfs list -H -o name " +:+ dataset) (out_status o) (stderr_text o)), h)
  end.

Definition zfs_create_volume (dataset quota : string) (h : H) : result ZfsError unit * H :=
  hbind (zfs_exists dataset h) (fun existing h =>
    if existing then (Ok tt, h)
    else zfs_checked ["create"; "-o"; "quota=" +:+ quota; dataset] h).

Definition zfs_stderr (e : ZfsError) (needle : string) : bool :=
  match e with
  | ZCommandFailed _ _ stderr => contains_str needle stderr
  | _ => false
  end.

(** The loop of [destroy_dataset]: it goes on only while the dataset is busy. *)
Fixpoint destroy_attempts (dataset : string) (attempts : nat) (h : H) : result ZfsError unit * H :=
  match attempts with
  | O => (Err (Busy dataset), h)
  | S attempts =>
      match zfs_checked ["destroy"; dataset] h with
      | (Ok _, h) => (Ok tt, h)
      | (Err e, h) =>
          if zfs_stderr e "dataset does not exist" then (Err (ZNotFound dataset), h)
          else if zfs_stderr e "dataset is busy" then destroy_attempts dataset attempts h
          else (Err e, h)
      end
  end.

Definition zfs_destroy_dataset (dataset : string) : H -> result ZfsError unit * H :=
  destroy_attempts dataset 10.

Definition zfs_snapshot (dataset snap : string) : H -> result ZfsError unit * H :=
  zfs_checked ["snapshot"; dataset +:+ "@" +:+ snap].

Definition zfs_destroy_snapshot (dataset snap : string) : H -> result ZfsError unit * H :=
  zfs_checked ["destroy"; dataset +:+ "@" +:+ snap].

(** [read_to_string] of the error output, ignoring its failure. *)
Definition stderr_string (o : Output) : string := default EmptyString (from_utf8 (out_stderr o)).

Definition zfs_send_snapshot (h : H) (dataset snap : string) (base out_error : option string)
    : result ZfsError unit * string :=
  let args := "send" :: match base with
                        | Some b => ["-i"; dataset +:+ "@" +:+ b]
                        | None => []
                        end ++ [dataset +:+ "@" +:+ snap] in
  match (exec_piped "zfs" args out_error h).1 with
  | Err e => (Err (ZSpawn "zfs" e), EmptyString)
  | Ok o =>
      (if success o then match out_error with
                         | Some e => Err (ZSpawn "zfs send" e)
                         | None => Ok tt
                         end
       else Err (ZCommandFailed (command_line "zfs" args) (out_status o) (stderr_string o)), out_stdout o)
  end.

(** The input is what could be read of the connection, and copying it to the tool
    is taken to succeed when the tool does. *)
Definition zfs_receive_snapshot (dataset input : string) (h : H) : result ZfsError unit * H :=
  match exec "zfs" ["receive"; dataset] input h with
  | (Err e, h) => (Err (ZSpawn "zfs" e), h)
  | (Ok o, h) => (if success o then Ok tt
                  else Err (ZCommandFailed ("zfs receive " +:+ dataset) (out_status o)
                               (stderr_string o)), h)
  end.

Definition zfs_clone_from_base (base_dataset target_dataset : string) (h : H)
    : result ZfsError unit * H :=
  let snap := base_dataset +:+ "@keel" in
  hbind (zfs_exists snap h) (fun existing h =>
    hbind (if existing then (Ok tt, h)
           else match zfs_checked ["snapshot"; snap] h with
                | (Ok _, h) => (Ok tt, h)
                | (Err e, h) =>
                    hbind (zfs_exists snap h) (fun existing h =>
                      (if existing then Ok tt else Err e, h))
                end) (fun _ h =>
      zfs_checked ["clone"; snap; target_dataset] h)).

Definition cli_zfs_manager : ZfsManager H := {|
  dataset_exists h dataset := (zfs_exists dataset h).1;
  clone_from_base := zfs_clone_from_base;
  create_volume := zfs_create_volume;
  destroy_dataset := zfs_destroy_dataset;
  snapshot := zfs_snapshot;
  destroy_snapshot := zfs_destroy_snapshot;
  send_snapshot := zfs_send_snapshot;
  receive_snapshot := zfs_receive_snapshot
|}.

(** ** [ProcessJailRuntime] *)

(** The host and the processes started in jails that were not reaped yet. *)
Record ProcessJails : Type := mkProcessJails { pj_host : H; pj_children : list (string * N) }.

Definition on_host {T} (x : result JailError T * H) (j : ProcessJails) : result JailError T * ProcessJails :=
  (x.1, mkProcessJails x.2 (pj_children j)).

Definition jail_checked : string -> list string -> H -> result JailError unit * H :=
  run_checked JSpawn JCommandFailed.

Definition reap_finished_children (j : ProcessJails) : ProcessJails :=
  mkProcessJails (pj_host j) (filter (fun c => finished (pj_host j) c.2 = false) (pj_children j)).

Definition jid_of (name : string) (h : H) : result JailError (option string) * H :=
  match run "jls" ["-j"; name; "jid"] h with
  | (Err e, h) => (Err (JSpawn "jls" e), h)
  | (Ok o, h) =>
      (if negb (success o) then Ok None
       else let jid := trim (from_utf8_lossy (out_stdout o)) in
            if str_is_empty jid then Ok None else Ok (Some jid), h)
  end.

Definition process_create (name rootfs : string) (vnet : bool) (j : ProcessJails)
    : result JailError unit * ProcessJails :=
  on_host (match create_dir_all (path_push rootfs "dev") (pj_host j) with
           | (Err e, h) => (Err (JSpawn "mkdir devfs mountpoint" e), h)
           | (Ok _, h) =>
               jail_checked "jail" (["-c"; "name=" +:+ name; "path=" +:+ rootfs]
                 ++ (if vnet then ["vnet"] else [])
                 ++ ["mount.devfs"; "devfs_ruleset=4"; "persist"]) h
           end) j.

(** The [dev] directory of the jail's root, asked for before it is removed. *)
Definition devfs_path (name : string) (h : H) : option string * H :=
  match run "jls" ["-j"; name; "path"] h with
  | (Err _, h) => (None, h)
  | (Ok o, h) =>
      let p := trim (from_utf8_lossy (out_stdout o)) in
      (if success o && negb (str_is_empty p) then Some (path_push p "dev") else None, h)
  end.

Definition process_destroy (name : string) (j : ProcessJails) : result JailError unit * ProcessJails :=
  let '(devfs, h) := devfs_path name (pj_host j) in
  match run "jail" ["-r"; name] h with
  | (Err e, h) => (Err (JSpawn "jail" e), mkProcessJails h (pj_children j))
  | (Ok o, h) =>
      if negb (success o) then
        (Err (if stderr_contains o "not found" then JNotFound name
              else JCommandFailed ("jail -r " +:+ name) (out_status o) (stderr_text o)),
         mkProcessJails h (pj_children j))
      else
        let h := match devfs with
                 | Some p => (run "umount" [p] h).2
                 | None => h
                 end in
        let mine := filter (fun c => c.1 = name) (pj_children j) in
        let others := filter (fun c => c.1 <> name) (pj_children j) in
        (Ok tt, mkProcessJails (foldl (fun h c => wait c.2 h) h mine) others)
  end.

Definition process_exists (j : ProcessJails) (name : string) : result JailError bool :=
  jid ← (jid_of name (pj_host j)).1;
  Ok (is_some jid).

(** A line of [ps -o state=] that stands for a live process. *)
Definition live_state (line : string) : bool :=
  let state := trim line in
  negb (str_is_empty state) && negb (starts_with "Z" state).

Definition process_is_running (j : ProcessJails) (name : string) : result JailError bool :=
  match jid_of name (pj_host j) with
  | (Err e, _) => Err e
  | (Ok None, _) => Ok false
  | (Ok (Some jid), h) =>
      match (run "ps" ["-J"; jid; "-o"; "state="] h).1 with
      | Err e => Err (JSpawn "ps" e)
      | Ok o => Ok (existsb live_state (Text.lines (from_utf8_lossy (out_stdout o))))
      end
  end.

Definition process_start_command (name : string) (command : list string) (j : ProcessJails)
    : result JailError unit * ProcessJails :=
  let j := reap_finished_children j in
  match spawn "jexec" (name :: command) (pj_host j) with
  | (Err e, h) => (Err (JSpawn "jexec" e), mkProcessJails h (pj_children j))
  | (Ok pid, h) => (Ok tt, mkProcessJails h (pj_children j ++ [(name, pid)]))
  end.

Definition process_set_resource_limits (name : string) (pcpu_percent memory_bytes : N)
    (j : ProcessJails) : result JailError unit * ProcessJails :=
  on_host (hbind (jail_checked "rctl" ["-a"; "jail:" +:+ name +:+ ":pcpu:deny=" +:+ u_to_string pcpu_percent]
                    (pj_host j)) (fun _ h =>
    jail_checked "rctl" ["-a"; "jail:" +:+ name +:+ ":vmemoryuse:deny=" +:+ u_to_string memory_bytes] h)) j.

Definition process_remove_resource_limits (name : string) (j : ProcessJails)
    : result JailError unit * ProcessJails :=
  on_host (run_tolerating JSpawn JCommandFailed (fun o => stderr_contains o "No such process")
             "rctl" ["-r"; "jail:" +:+ name] (pj_host j)) j.

Definition process_jail_runtime : JailRuntime ProcessJails := {|
  jail_create := process_create;
  jail_exists := process_exists;
  start_command := process_start_command;
  jail_destroy := process_destroy;
  is_running := process_is_running;
  set_resource_limits := process_set_resource_limits;
  remove_resource_limits := process_remove_resource_limits
|}.

(** ** [CliMountManager] *)

Definition cli_ensure_mount_point (target : string) (h : H) : result MountError unit * H :=
  let '(r, h) := create_dir_all target h in (map_err MIo r, h).

Definition cli_mount_nullfs (source target : string) : H -> result MountError unit * H :=
  run_checked MSpawn MCommandFailed "mount" ["-t"; "nullfs"; source; target].

Definition cli_unmount (target : string) (h : H) : result MountError unit * H :=
  match run "umount" [target] h with
  | (Err e, h) => (Err (MSpawn "umount" e), h)
  | (Ok o, h) =>
      (if success o then Ok tt
       else if stderr_contains o "not a file system root directory" then Err (NotMounted target)
       else Err (MCommandFailed ("umount " +:+ target) (out_status o) (stderr_text o)), h)
  end.

Definition cli_is_mounted (h : H) (target : string) : result MountError bool :=
  match (run "mount" ["-p"] h).1 with
  | Err e => Err (MSpawn "mount" e)
  | Ok o =>
      if negb (success o) then Err (MCommandFailed "mount -p" (out_status o) (stderr_text o))
      else Ok (existsb (fun line => bool_decide (split_whitespace line !! 1%nat = Some target))
                 (Text.lines (from_utf8_lossy (out_stdout o))))
  end.

Definition cli_mount_manager : MountManager H := {|
  ensure_mount_point := cli_ensure_mount_point;
  mount_nullfs := cli_mount_nullfs;
  unmount := cli_unmount;
  is_mounted := cli_is_mounted
|}.

(** ** [ProcessNetManager] *)

Definition net_checked : string -> list string -> H -> result NetError unit * H :=
  run_checked NSpawn NCommandFailed.
Definition net_tolerating (needles : list string) : string -> list string -> H -> result NetError unit * H :=
  run_tolerating NSpawn NCommandFailed (fun o => existsb (stderr_contains o) needles).

Definition net_ensure_bridge_exists (bridge : string) (h : H) : result NetError unit * H :=
  match run "ifconfig" [bridge] h with
  | (Err e, h) => (Err (NSpawn "ifconfig" e), h)
  | (Ok check, h) =>
      if success check then (Ok tt, h)
      else match run "ifconfig" ["bridge"; "create"] h with
           | (Err e, h) => (Err (NSpawn "ifconfig" e), h)
           | (Ok created, h) =>
               if negb (success created) then
                 (Err (NCommandFailed "ifconfig bridge create" (out_status created) (stderr_text created)), h)
               else
                 let created_name := trim (from_utf8_lossy (out_stdout created)) in
                 hbind (net_checked "ifconfig" [created_name; "name"; bridge] h) (fun _ h =>
                   net_checked "ifconfig" [bridge; "up"] h)
           end
  end.

(** Moving the jail's end of the pair into the jail; a failure is tolerated when
    it already is there. *)
Definition move_epair (jail_name epair_b : string) (h : H) : result NetError unit * H :=
  match run "ifconfig" [epair_b; "vnet"; jail_name] h with
  | (Err e, h) => (Err (NSpawn "ifconfig" e), h)
  | (Ok vnet_move, h) =>
      if success vnet_move then (Ok tt, h)
      else match run "jexec" [jail_name; "/sbin/ifconfig"; epair_b] h with
           | (Err e, h) => (Err (NSpawn "jexec" e), h)
           | (Ok already_there, h) =>
               (if success already_there then Ok tt
                else Err (NCommandFailed ("ifconfig " +:+ epair_b +:+ " vnet " +:+ jail_name)
                            (out_status vnet_move) (stderr_text vnet_move)), h)
           end
  end.

(** [attach_jail] after the bridge was found and the gateway computed. *)
Definition attach_steps (jail_name bridge epair_base address gateway : string) (h : H)
    : result NetError unit * H :=
  let epair_a := epair_base +:+ "a" in
  let epair_b := epair_base +:+ "b" in
  hbind (net_tolerating ["File exists"] "ifconfig" [bridge; "inet"; gateway; "alias"] h) (fun _ h =>
  hbind (net_tolerating ["already exists"] "ifconfig" [epair_base; "create"] h) (fun _ h =>
  hbind (net_tolerating ["File exists"] "ifconfig" [bridge; "addm"; epair_a] h) (fun _ h =>
  hbind (net_checked "ifconfig" [epair_a; "up"] h) (fun _ h =>
  hbind (move_epair jail_name epair_b h) (fun _ h =>
  hbind (net_checked "jexec" [jail_name; "/sbin/ifconfig"; epair_b; "inet"; address] h) (fun _ h =>
  hbind (net_checked "jexec" [jail_name; "/sbin/ifconfig"; epair_b; "up"] h) (fun _ h =>
  net_tolerating ["File exists"] "jexec"
    [jail_name; "/sbin/route"; "add"; "default"; default EmptyString (head (split "/"%char gateway))] h))))))).

Definition net_attach_jail {I : Ipnet} (jail_name bridge epair_base address : string) (h : H)
    : comp (result NetError unit * H) :=
  match run "ifconfig" [bridge] h with
  | (Err e, h) => Val (Err (NSpawn "ifconfig" e), h)
  | (Ok bridge_check, h) =>
      if negb (success bridge_check) then Val (Err (NNotFound bridge), h)
      else gateway ← bridge_gateway address;
           Val (attach_steps jail_name bridge epair_base address gateway h)
  end.

Definition net_detach_jail (epair_base : string) : H -> result NetError unit * H :=
  net_tolerating ["does not exist"] "ifconfig" [epair_base +:+ "a"; "destroy"].

Definition net_add_route (subnet gateway_addr : string) : H -> result NetError unit * H :=
  net_tolerating ["File exists"] "route" ["add"; "-net"; subnet; gateway_addr].

Definition net_remove_route (subnet : string) : H -> result NetError unit * H :=
  net_tolerating ["not in table"; "has not been found"] "route" ["delete"; "-net"; subnet].

Definition net_add_alias (bridge address : string) : H -> result NetError unit * H :=
  net_tolerating ["File exists"] "ifconfig" [bridge; "alias"; address; "netmask"; "255.255.255.255"].

Definition net_remove_alias (bridge address : string) : H -> result NetError unit * H :=
  net_tolerating ["Can't assign requested address"] "ifconfig" [bridge; "-alias"; address].

Definition process_net_manager {I : Ipnet} : NetManager H := {|
  ensure_bridge_exists := net_ensure_bridge_exists;
  attach_jail := net_attach_jail;
  detach_jail := net_detach_jail;
  add_route := net_add_route;
  remove_route := net_remove_route;
  add_alias := net_add_alias;
  remove_alias := net_remove_alias
|}.

(** ** [JexecNginxController] *)

Definition run_jexec (jail_name : string) (args : list string) (h : H) : result string Output * H :=
  run "jexec" (jail_name :: args) h.

Definition jexec_write_config (pool jail_name config : string) (h : H) : result NginxError unit * H :=
  let spec_name := default jail_name (strip_prefix "keel-" jail_name) in
  let config_dir := path_push (jail_rootfs_path pool spec_name) "usr/local/etc/nginx" in
  let tmp_path := path_push config_dir "nginx.conf.tmp" in
  match create_dir_all config_dir h with
  | (Err e, h) => (Err (NgWrite e), h)
  | (Ok _, h) =>
      match write_file tmp_path config h with
      | (Err e, h) => (Err (NgWrite e), h)
      | (Ok _, h) =>
          let '(r, h) := rename tmp_path (path_push config_dir "nginx.conf") h in (map_err NgWrite r, h)
      end
  end.

Definition jexec_nginx (failed : string -> NginxError) (jail_name : string) (args : list string) (h : H)
    : result NginxError unit * H :=
  match run_jexec jail_name (["/usr/local/sbin/nginx"; "-c"; NGINX_CONF_PATH] ++ args) h with
  | (Err e, h) => (Err (failed e), h)
  | (Ok o, h) => (if success o then Ok tt else Err (failed (stderr_text o)), h)
  end.
Definition jexec_test_config (jail_name : string) : H -> result NginxError unit * H :=
  jexec_nginx ValidationFailed jail_name ["-t"].
Definition jexec_reload (jail_name : string) : H -> result NginxError unit * H :=
  jexec_nginx ReloadFailed jail_name ["-s"; "reload"].

Definition jexec_nginx_controller (pool : string) : NginxController H := {|
  write_config := jexec_write_config pool;
  test_config := jexec_test_config;
  reload := jexec_reload
|}.

(** ** [PfctlController] *)

Inductive PfError : Type := PfCommand (e : string).

(** [FakePfController]: the rules asked for, unless it is told to fail. *)
Record FakePfController : Type := mkFakePf { fp_applied : list (string * string); fp_fail : bool }.
Definition fake_pf_new : FakePfController := mkFakePf [] false.
Definition fake_pf_set_fail (fail : bool) (f : FakePfController) : FakePfController :=
  mkFakePf (fp_applied f) fail.
Definition fake_ensure_redirect_rules (public_iface ingress_bridge_addr : string) (f : FakePfController)
    : result PfError unit * FakePfController :=
  if fp_fail f then (Err (PfCommand "simulated pfctl failure"), f)
  else (Ok tt, mkFakePf (fp_applied f ++ [(public_iface, ingress_bridge_addr)]) (fp_fail f)).

Definition PF_RULES_DIR : string := "/usr/local/etc/keel".
Definition PF_RULES_PATH : string := "/usr/local/etc/keel/pf-ingress.conf".

Definition rdr_rule (public_iface ingress_bridge_addr port : string) : string :=
  "rdr pass on " +:+ public_iface +:+ " inet proto tcp from any to " +:+ public_iface +:+ " port " +:+ port
  +:+ " -> " +:+ ingress_bridge_addr +:+ " port " +:+ port +:+ newline.

Definition ensure_redirect_rules (public_iface ingress_bridge_addr : string) (h : H)
    : result PfError unit * H :=
  let rules := rdr_rule public_iface ingress_bridge_addr "80"
               +:+ rdr_rule public_iface ingress_bridge_addr "443" in
  match create_dir_all PF_RULES_DIR h with
  | (Err e, h) => (Err (PfCommand e), h)
  | (Ok _, h) =>
      match write_file PF_RULES_PATH rules h with
      | (Err e, h) => (Err (PfCommand e), h)
      | (Ok _, h) =>
          match run "pfctl" ["-a"; "keel-ingress"; "-f"; PF_RULES_PATH] h with
          | (Err e, h) => (Err (PfCommand e), h)
          | (Ok o, h) => (if success o then Ok tt else Err (PfCommand (stderr_text o)), h)
          end
      end
  end.

(** ** [capacity::detect] *)

Definition run_sysctl (name : string) (h : H) : result string string :=
  match (run "sysctl" ["-n"; name] h).1 with
  | Err e => Err ("failed to run sysctl -n " +:+ name +:+ ": " +:+ e)
  | Ok o =>
      if negb (success o) then
        Err ("sysctl -n " +:+ name +:+ " exited with " +:+ exit_status_to_string (out_status o))
      else Ok (trim (from_utf8_lossy (out_stdout o)))
  end.

Definition detect (h : H) : result string (f64 * N) :=
  ncpu ← run_sysctl "hw.ncpu" h;
  cpu ← ok_or (parse_f64 ncpu) "invalid hw.ncpu value";
  physmem ← run_sysctl "hw.physmem" h;
  memory ← ok_or (parse_uint u64_max physmem) "invalid hw.physmem value";
  Ok (cpu, memory).
End managers.

(** ** The commands the storage manager runs

    On any host, whatever its [zfs] answers: a host that writes down every program
    it runs, with its arguments and what became of it. *)

Definition Call : Type := string * list string * result string Output.
Record Logged (H : Type) : Type := mkLogged { lo_host : H; lo_log : list Call }.
Arguments mkLogged {H}.
Arguments lo_host {H}.
Arguments lo_log {H}.

Definition logged {H} (program : string) (args : list string) (x : result string Output * H) (log : list Call)
    : result string Output * Logged H :=
  (x.1, mkLogged x.2 (log ++ [(program, args, x.1)])).
Definition unlogged {H T} (x : T * H) (log : list Call) : T * Logged H := (x.1, mkLogged x.2 log).

#[global] Instance logged_host {H} {HH : Host H} : Host (Logged H) := {|
  exec program args input l := logged program args (exec program args input (lo_host l)) (lo_log l);
  exec_piped program args out l := logged program args (exec_piped program args out (lo_host l)) (lo_log l);
  spawn program args l := unlogged (spawn program args (lo_host l)) (lo_log l);
  finished l := finished (lo_host l);
  wait pid l := mkLogged (wait pid (lo_host l)) (lo_log l);
  create_dir_all d l := unlogged (create_dir_all d (lo_host l)) (lo_log l);
  write_file f text l := unlogged (write_file f text (lo_host l)) (lo_log l);
  rename a b l := unlogged (rename a b (lo_host l)) (lo_log l)
|}.

(** How a call of [zfs] ended. *)
Definition succeeded (x : result string Output) : bool :=
  match x with Ok o => success o | Err _ => false end.
Definition failed_saying (needle : string) (x : result string Output) : bool :=
  match x with Ok o => negb (success o) && stderr_contains o needle | Err _ => false end.
Definition missing_says : string := "dataset does not exist".
Definition busy_says : string := "dataset is busy".

(** [zfs list] tells that a name exists, or that it does not (status 1). *)
Definition listed_absent (x : result string Output) : bool :=
  match x with Ok o => bool_decide (exit_code o = Some 1%N) | Err _ => false end.

(** The places an element can have in a list that is written out. *)
Ltac list_places Hl before :=
  destruct before as [|? [|? [|? [|? before]]]]; simplify_eq/=; try (by destruct before; simplify_eq/=).

Section zfs_commands.
Context {H : Type} {HH : Host H}.
Implicit Types l : Logged H.

Definition list_call (d : string) (x : result string Output) : Call :=
  ("zfs", ["list"; "-H"; "-o"; "name"; d], x).
Definition zfs_call (args : list string) (x : result string Output) : Call := ("zfs", args, x).

Lemma success_code o : success o = true -> exit_code o = Some 1%N -> False.
Proof.
  unfold success, exit_code. intros E%N.eqb_eq. rewrite E. discriminate.
Qed.

(** One call of [zfs list]. *)
Lemma zfs_exists_call d l : exists x l', lo_log l' = lo_log l ++ [list_call d x] /\
  zfs_exists d l = (match x with
                    | Ok o => if success o then Ok true
                              else if listed_absent x then Ok false
                              else Err (ZCommandFailed ("zfs list -H -o name " +:+ d) (out_status o) (stderr_text o))
                    | Err e => Err (ZSpawn "zfs" e)
                    end, l').
Proof.
  unfold zfs_exists, run. cbn. destruct (exec _ _ _ (lo_host l)) as [x h']. cbn.
  exists x, (mkLogged h' (lo_log l ++ [list_call d x])). split; [done|]. by destruct x as [o|].
Qed.

(** One checked call. *)
Lemma zfs_checked_call args l : exists x l', lo_log l' = lo_log l ++ [zfs_call args x] /\
  zfs_checked args l = (match x with
                        | Ok o => if success o then Ok tt
                                  else Err (ZCommandFailed (command_line "zfs" args) (out_status o) (stderr_text o))
                        | Err e => Err (ZSpawn "zfs" e)
                        end, l').
Proof.
  unfold zfs_checked, run_checked, run. cbn. destruct (exec _ _ _ (lo_host l)) as [x h']. cbn.
  exists x, (mkLogged h' (lo_log l ++ [zfs_call args x])). split; [done|]. by destruct x.
Qed.

(** What the last of at most [n] attempts says of the outcome. *)
Definition destroy_outcome (d : string) (n : nat) (xs : list (result string Output))
    (r : result ZfsError unit) : Prop :=
  match last xs with
  | None => n = O /\ r = Err (Busy d)
  | Some x =>
      (r = Ok tt <-> succeeded x = true) /\
      (r = Err (ZNotFound d) <-> failed_saying missing_says x = true) /\
      (r = Err (Busy d) <->
       length xs = n /\ failed_saying missing_says x = false /\ failed_saying busy_says x = true)
  end.

(** The attempts: all busy but the last one, which decides. *)
Lemma destroy_attempts_calls d n l : exists xs r l',
  destroy_attempts d n l = (r, l') /\ lo_log l' = lo_log l ++ (zfs_call ["destroy"; d] <$> xs) /\
  (length xs <= n)%nat /\ Forall (fun x => failed_saying busy_says x = true) (removelast xs) /\
  destroy_outcome d n xs r.
Proof.
  revert l. induction n as [|n IH]; intros l; cbn [destroy_attempts].
  { exists [], (Err (Busy d)), l. by rewrite app_nil_r. }
  destruct (zfs_checked_call ["destroy"; d] l) as (x & l1 & El & ->).
  assert (forall r : result ZfsError unit, destroy_outcome d (S n) [x] r -> exists xs r' l',
    (r, l1) = (r', l') /\ lo_log l' = lo_log l ++ (zfs_call ["destroy"; d] <$> xs) /\ (length xs <= S n)%nat /\
    Forall (fun x => failed_saying busy_says x = true) (removelast xs) /\
    destroy_outcome d (S n) xs r') as Hone.
  { intros r Hr. exists [x], r, l1. split; [done|]. split; [done|]. split; [cbn; lia|done]. }
  unfold destroy_outcome in Hone. cbn [last length] in Hone.
  destruct x as [o|e]; [|apply Hone; cbn; naive_solver].
  destruct (success o) eqn:Es; [apply Hone; cbn; rewrite Es; naive_solver|]. cbn [zfs_stderr].
  change (contains_str ?y (stderr_text o)) with (stderr_contains o y).
  assert (forall s, failed_saying s (Ok o) = stderr_contains o s) as Hsay by (intros s; cbn; by rewrite Es).
  rewrite !Hsay in Hone. unfold missing_says, busy_says, succeeded in Hone. rewrite Es in Hone.
  destruct (stderr_contains o "dataset does not exist") eqn:Em; [apply Hone; naive_solver|].
  destruct (stderr_contains o "dataset is busy") eqn:Eb; [|apply Hone; naive_solver].
  clear Hone. destruct (IH l1) as (xs & r & l2 & Er & El2 & Hn & Hbusy & Hr).
  exists (Ok o :: xs), r, l2. split; [done|]. split; [rewrite El2, El, <- app_assoc; done|].
  split; [cbn; lia|]. split; [destruct xs; [constructor|constructor; [|done]]; by rewrite Hsay|].
  unfold destroy_outcome in *. destruct xs as [|y xs].
  - destruct Hr as [-> ->]. cbn [last length]. rewrite !Hsay. unfold missing_says, busy_says, succeeded.
    rewrite Es, Em, Eb. naive_solver.
  - change (last (Ok o :: y :: xs)) with (last (y :: xs)). cbn [length] in *.
    destruct (last (y :: xs)) eqn:Ey; [|by apply last_None in Ey].
    destruct Hr as (H1 & H2 & H3). split; [done|]. split; [done|]. rewrite H3. naive_solver.
Qed.
(** How [clone_from_base] can go: the snapshot was there, or it is taken, or another
    caller took it meanwhile; or there is none to clone. *)
Inductive clone_run (snap target : string) : list Call -> result ZfsError unit -> Prop :=
  | clone_unknown x r : succeeded x = false -> listed_absent x = false -> r <> Ok tt ->
      clone_run snap target [list_call snap x] r
  | clone_present x y r : succeeded x = true -> (r = Ok tt <-> succeeded y = true) ->
      clone_run snap target [list_call snap x; zfs_call ["clone"; snap; target] y] r
  | clone_taken x s y r : listed_absent x = true -> succeeded s = true -> (r = Ok tt <-> succeeded y = true) ->
      clone_run snap target [list_call snap x; zfs_call ["snapshot"; snap] s;
                             zfs_call ["clone"; snap; target] y] r
  | clone_raced x s z y r : listed_absent x = true -> succeeded s = false -> succeeded z = true ->
      (r = Ok tt <-> succeeded y = true) ->
      clone_run snap target [list_call snap x; zfs_call ["snapshot"; snap] s; list_call snap z;
                             zfs_call ["clone"; snap; target] y] r
  | clone_none x s z r : listed_absent x = true -> succeeded s = false -> succeeded z = false -> r <> Ok tt ->
      clone_run snap target [list_call snap x; zfs_call ["snapshot"; snap] s; list_call snap z] r.

(** A checked call succeeds when the tool does. *)
Lemma zfs_checked_run args l : exists x r l', zfs_checked args l = (r, l') /\
  lo_log l' = lo_log l ++ [zfs_call args x] /\ (r = Ok tt <-> succeeded x = true).
Proof.
  destruct (zfs_checked_call args l) as (x & l' & El & ->). eexists x, _, l'. split; [done|]. split; [done|].
  destruct x as [o|e]; cbn; [|naive_solver]. destruct (success o); naive_solver.
Qed.

(** A query answers yes when the list succeeds, no when its status says so. *)
Lemma zfs_exists_run d l : exists x r l', zfs_exists d l = (r, l') /\
  lo_log l' = lo_log l ++ [list_call d x] /\
  match r with
  | Ok true => succeeded x = true
  | Ok false => succeeded x = false /\ listed_absent x = true
  | Err _ => succeeded x = false /\ listed_absent x = false
  end.
Proof.
  destruct (zfs_exists_call d l) as (x & l' & El & ->). eexists x, _, l'. split; [done|]. split; [done|].
  destruct x as [o|e]; cbn; [|done]. destruct (success o) eqn:Es; [done|]. by case_bool_decide.
Qed.

Lemma clone_from_base_runs base target l : exists log r l',
  zfs_clone_from_base base target l = (r, l') /\ lo_log l' = lo_log l ++ log /\
  clone_run (base +:+ "@keel") target log r.
Proof.
  unfold zfs_clone_from_base. set (snap := base +:+ "@keel").
  destruct (zfs_exists_run snap l) as (x & r1 & l1 & -> & E1 & H1).
  destruct r1 as [[|]|e]; cbn [hbind].
  - destruct (zfs_checked_run ["clone"; snap; target] l1) as (y & r & l2 & -> & E2 & H2).
    eexists _, r, l2. split; [done|]. rewrite E2, E1, <- app_assoc. split; [done|]. by constructor.
  - destruct (zfs_checked_run ["snapshot"; snap] l1) as (s & r2 & l2 & -> & E2 & H2). destruct r2 as [[]|e].
    + cbn [hbind]. destruct (zfs_checked_run ["clone"; snap; target] l2) as (y & r & l3 & -> & E3 & H3).
      eexists _, r, l3. split; [done|]. rewrite E3, E2, E1, <- !app_assoc. split; [done|].
      constructor; [by destruct H1|by apply H2|done].
    + assert (succeeded s = false) as Hs by (apply not_true_is_false; intros Hs%H2; done).
      destruct (zfs_exists_run snap l2) as (z & r3 & l3 & -> & E3 & H3). destruct r3 as [[|]|e3]; cbn [hbind].
      * destruct (zfs_checked_run ["clone"; snap; target] l3) as (y & r & l4 & -> & E4 & H4).
        eexists _, r, l4. split; [done|]. rewrite E4, E3, E2, E1, <- !app_assoc. split; [done|].
        by constructor; [destruct H1| | |].
      * eexists _, _, l3. split; [done|]. rewrite E3, E2, E1, <- !app_assoc. split; [done|].
        by constructor; [destruct H1| |destruct H3|].
      * eexists _, _, l3. split; [done|]. rewrite E3, E2, E1, <- !app_assoc. split; [done|].
        by constructor; [destruct H1| |destruct H3|].
  - eexists _, _, l1. split; [done|]. split; [done|]. by destruct H1; constructor.
Qed.

(** C30: what the deployed storage backend does with [zfs], whatever the tool answers.
    Creating a volume asks for it first, creates it only when the answer was that it
    does not exist, and succeeds exactly when it exists or [zfs create] succeeded.
    Destroying a dataset runs [zfs destroy] on it one to ten times and nothing else,
    again only after the answer that the dataset is busy; it succeeds exactly when the
    last run did, says [NotFound], which the reconciler tolerates, exactly when the last
    run said so, and [Busy] exactly when all ten did.  Cloning never clones before the
    base's snapshot was listed or taken, never takes the snapshot but after the answer
    that there is none, and succeeds exactly when the clone itself, its last run, did. *)
Theorem cli_zfs_commands (h : H) d quota base target :
  let l := mkLogged h [] in
  let snap := base +:+ "@keel" in
  let clone x := zfs_call ["clone"; snap; target] x in
  (exists r l' x rest, @create_volume _ cli_zfs_manager d quota l = (r, l') /\
     lo_log l' = list_call d x :: rest /\
     (r = Ok tt <-> succeeded x = true \/ exists y, succeeded y = true /\
        rest = [zfs_call ["create"; "-o"; "quota=" +:+ quota; d] y]) /\
     (rest = [] \/ listed_absent x = true /\
        exists y, rest = [zfs_call ["create"; "-o"; "quota=" +:+ quota; d] y])) /\
  (exists r l' xs, @destroy_dataset _ cli_zfs_manager d l = (r, l') /\
     lo_log l' = zfs_call ["destroy"; d] <$> xs /\ (1 <= length xs <= 10)%nat /\
     Forall (fun x => failed_saying busy_says x = true) (removelast xs) /\ destroy_outcome d 10 xs r) /\
  (exists r l', @clone_from_base _ cli_zfs_manager base target l = (r, l') /\
     (r = Ok tt <-> exists before x, lo_log l' = before ++ [clone x] /\ succeeded x = true) /\
     (forall before x after, lo_log l' = before ++ clone x :: after -> after = [] /\
        exists y, succeeded y = true /\ (list_call snap y ∈ before \/ zfs_call ["snapshot"; snap] y ∈ before)) /\
     (forall before x after, lo_log l' = before ++ zfs_call ["snapshot"; snap] x :: after ->
        exists y, listed_absent y = true /\ before = [list_call snap y])).
Proof.
  intros l snap clone. split; [|split].
  - cbn. unfold zfs_create_volume. destruct (zfs_exists_run d l) as (x & r1 & l1 & -> & E1 & H1).
    destruct r1 as [[|]|e]; cbn [hbind].
    + eexists _, l1, x, []. split; [done|]. split; [done|]. split; [by split; [left|]|by left].
    + destruct (zfs_checked_run ["create"; "-o"; "quota=" +:+ quota; d] l1) as (y & r & l2 & -> & E2 & H2).
      eexists r, l2, x, _. split; [done|]. split; [by rewrite E2, E1|]. destruct H1 as [Hs Ha].
      split; [|right; split; [done|by eexists]]. rewrite H2. split; [intros Hy; right; by exists y|].
      intros [|(y' & Hy & [= <-])]; [congruence|done].
    + eexists _, l1, x, []. split; [done|]. split; [done|]. destruct H1 as [Hs Ha]. split; [|by left].
      split; [done|]. intros [|(y & _ & [=])]. congruence.
  - destruct (destroy_attempts_calls d 10 l) as (xs & r & l' & E & El & Hn & Hb & Hr).
    exists r, l', xs. split; [exact E|]. split; [exact El|]. split; [|done]. split; [|done].
    destruct xs; [|cbn; lia]. by destruct Hr.
  - destruct (clone_from_base_runs base target l) as (log & r & l' & E & El & Hr).
    exists r, l'. split; [exact E|]. cbn in El. rewrite El. fold snap in Hr. clear E El l'. unfold clone.
    assert (forall before x after, log = before ++ zfs_call ["clone"; snap; target] x :: after -> after = [] /\
      (r = Ok tt <-> succeeded x = true) /\ exists y, succeeded y = true /\
        (list_call snap y ∈ before \/ zfs_call ["snapshot"; snap] y ∈ before)) as Hclone.
    { intros before w after. inversion Hr; subst; clear Hr; intros Hl; list_places Hl before;
        (split; [done|]; split; [done|]; eexists; split; [eassumption|]; set_solver). }
    split; [|split].
    + split.
      * intros Hok. inversion Hr; subst; try done;
          match goal with |- exists b x, ?l = _ ++ _ /\ _ => exists (removelast l) end;
          (eexists; split; [reflexivity|naive_solver]).
      * intros (before & x & Hl & Hx). by apply (Hclone before x [] Hl).
    + intros before x after Hl. by destruct (Hclone before x after Hl) as (H1 & _ & H3).
    + intros before w after. inversion Hr; subst; clear Hr; intros Hl; list_places Hl before; by eexists.
Qed.
End zfs_commands.

(** ** The mount table *)

Definition TAB : ascii := ascii_of_N 9.
Definition LFc : ascii := ascii_of_N 10.
Definition CRc : ascii := ascii_of_N 13.

(** A line of [mount -p]: the device, the mount point, and the other columns,
    padded with tabs. *)
Fixpoint tabs (n : nat) : string :=
  match n with
  | O => EmptyString
  | S n => String TAB (tabs n)
  end.
Record MountEntry : Type := mkEntry {
  me_device : string; me_pad1 : nat; me_point : string; me_pad2 : nat; me_rest : string
}.
Definition mount_line (e : MountEntry) : string :=
  me_device e +:+ tabs (S (me_pad1 e)) +:+ me_point e +:+ tabs (S (me_pad2 e)) +:+ me_rest e.
Fixpoint mount_text (entries : list MountEntry) : string :=
  match entries with
  | [] => EmptyString
  | e :: entries => mount_line e +:+ String LFc (mount_text entries)
  end.

(** Printable columns; the rest of the line may hold blanks. *)
Definition line_char (c : ascii) : bool := visible c || ascii_eqb c TAB || ascii_eqb c " "%char.
Definition entry_ok (e : MountEntry) : Prop :=
  some_all visible (me_device e) = true /\ some_all visible (me_point e) = true /\
  str_all line_char (me_rest e) = true.

Lemma split_ws_word word w t :
  str_all visible w = true -> split_ws word (w +:+ t) = split_ws (word +:+ w) t.
Proof.
  revert word. induction w as [|c w IH]; intros word Hw; [by rewrite app_nil_r_str|].
  cbn in Hw. apply andb_true_iff in Hw as [Hc Hw].
  destruct (visible_not_ws c Hc) as [H1 Hlt].
  assert (word +:+ String c w = (word +:+ String c EmptyString) +:+ w) as ->
    by (rewrite <- app_assoc_str; by str_simpl).
  rewrite <- IH by done. rewrite app_cons_str. cbn [split_ws]. rewrite H1.
  destruct (w +:+ t) as [|b [|d s3]]; [done| |].
  - by rewrite (proj1 (ws_lead c b b Hlt)).
  - by rewrite (proj1 (ws_lead c b d Hlt)), (proj2 (ws_lead c b d Hlt)).
Qed.

Lemma split_ws_tabs n word t :
  word <> EmptyString -> split_ws word (tabs (S n) +:+ t) = word :: split_ws EmptyString t.
Proof.
  assert (forall n t, split_ws EmptyString (tabs n +:+ t) = split_ws EmptyString t) as Hgap.
  { clear. intros n t. induction n as [|n IH]; [done|]. cbn [tabs]. rewrite app_cons_str. cbn [split_ws].
    change (ws1 TAB) with true. by rewrite IH. }
  intros Hw. cbn [tabs]. rewrite app_cons_str. cbn [split_ws]. change (ws1 TAB) with true.
  rewrite Hgap. by destruct word.
Qed.

Lemma mount_line_point e : entry_ok e -> split_whitespace (mount_line e) !! 1%nat = Some (me_point e).
Proof.
  intros (Hd & Hp & _). unfold some_all in *. apply andb_true_iff in Hd as [Hd1 Hd], Hp as [Hp1 Hp].
  unfold split_whitespace, mount_line. rewrite split_ws_word, app_nil_l_str by done.
  rewrite split_ws_tabs by (by destruct (me_device e)).
  rewrite split_ws_word, app_nil_l_str by done.
  by rewrite split_ws_tabs by (by destruct (me_point e)).
Qed.

Definition ascii_text (s : string) : Prop := str_all (fun c => (code c <? 128)%N) s = true.

Lemma line_char_facts c :
  line_char c = true -> (code c <? 128)%N = true /\ c <> LFc /\ c <> CRc.
Proof.
  unfold line_char, ascii_eqb. rewrite !orb_true_iff, !bool_decide_eq_true.
  intros [[Hv| ->]| ->]; [|by vm_compute; repeat split|by vm_compute; repeat split].
  destruct (visible_not_ws c Hv) as [_ Hlt]. split; [by apply N.ltb_lt|].
  split; intros ->; by vm_compute in Hv.
Qed.

Lemma mount_line_chars e : entry_ok e -> str_all line_char (mount_line e) = true.
Proof.
  intros (Hd & Hp & Hr). unfold some_all in *. apply andb_true_iff in Hd as [_ Hd], Hp as [_ Hp].
  assert (forall s, str_all visible s = true -> str_all line_char s = true) as Hv.
  { intros s. apply str_all_impl. intros c Hc. unfold line_char. by rewrite Hc. }
  assert (forall n, str_all line_char (tabs n) = true) as Ht.
  { intros n. induction n as [|n IH]; [done|]. cbn [tabs str_all]. rewrite IH. reflexivity. }
  unfold mount_line. by rewrite !str_all_app, (Hv _ Hd), (Hv _ Hp), !Ht, Hr.
Qed.

Lemma line_chars_plain s : str_all line_char s = true ->
  ascii_text s /\ contains_char LFc s = false /\ strip_suffix_char CRc s = None.
Proof.
  induction s as [|c s IH]; [done|]. cbn [str_all]. intros [Hc Hs]%andb_true_iff.
  destruct (line_char_facts c Hc) as (Ha & Hl & Hr), (IH Hs) as (IH1 & IH2 & IH3). split; [|split].
  - unfold ascii_text in *. cbn. by rewrite Ha.
  - unfold contains_char in *. cbn [str_any]. rewrite IH2. unfold ascii_eqb.
    by rewrite bool_decide_eq_false_2 by congruence.
  - cbn [strip_suffix_char]. rewrite IH3. destruct s; [|done]. unfold ascii_eqb.
    by rewrite bool_decide_eq_false_2 by congruence.
Qed.

Lemma mount_text_ascii entries : Forall entry_ok entries -> ascii_text (mount_text entries).
Proof.
  induction 1 as [|e entries He _ IH]; [done|]. cbn [mount_text]. unfold ascii_text in *.
  rewrite str_all_app. cbn [str_all].
  rewrite (proj1 (line_chars_plain _ (mount_line_chars e He))), IH. reflexivity.
Qed.

Lemma split_mount_text entries :
  Forall entry_ok entries -> split LFc (mount_text entries) = (mount_line <$> entries) ++ [EmptyString].
Proof.
  induction 1 as [|e entries He _ IH]; [done|]. cbn [mount_text].
  rewrite split_cons_sep by (by apply line_chars_plain, mount_line_chars). by rewrite IH.
Qed.

Lemma mount_text_lines entries :
  Forall entry_ok entries -> Text.lines (mount_text entries) = mount_line <$> entries.
Proof.
  intros Hok. unfold Text.lines. change (ascii_of_N 10) with LFc. rewrite split_mount_text by done.
  rewrite last_snoc, removelast_last. rewrite <- (list_fmap_id (mount_line <$> entries)) at 2.
  apply list_fmap_ext. intros i l Hl. apply list_lookup_fmap_Some in Hl as (e & -> & He).
  rewrite Forall_lookup in Hok. change (ascii_of_N 13) with CRc.
  by rewrite (proj2 (proj2 (line_chars_plain _ (mount_line_chars e (Hok _ _ He))))).
Qed.

(** The mount table is read right.  On the table [mount -p] prints, its columns
    padded with any number of tabs, a path is reported mounted exactly when it is
    the mount point of an entry, not when it appears in another column or as a part
    of a longer path. *)
Theorem is_mounted_exact {H} {HH : Host H} (h : H) entries target stderr h' :
  run "mount" ["-p"] h = (Ok (mkOutput 0 (mount_text entries) stderr), h') -> Forall entry_ok entries ->
  @is_mounted H cli_mount_manager h target = Ok (bool_decide (target ∈ me_point <$> entries)).
Proof.
  intros E Hok. cbn. unfold cli_is_mounted. rewrite E. cbn [fst success out_status negb out_stdout].
  change (0 =? 0)%N with true. cbn [negb].
  rewrite from_utf8_lossy_ascii by (by apply mount_text_ascii). rewrite mount_text_lines by done. f_equal.
  apply eq_iff_eq_true. rewrite existsb_exists, bool_decide_eq_true, list_elem_of_fmap. split.
  - intros (l & Hl & Hp). apply bool_decide_eq_true in Hp. apply list_elem_of_In, list_elem_of_fmap in Hl
      as (e & -> & He). exists e. rewrite Forall_forall in Hok.
    rewrite mount_line_point in Hp by (by apply Hok). by simplify_eq.
  - intros (e & -> & He). exists (mount_line e). rewrite Forall_forall in Hok. split.
    + by apply list_elem_of_In, list_elem_of_fmap_2.
    + apply bool_decide_eq_true, mount_line_point. by apply Hok.
Qed.

(** No word that [split_whitespace] yields holds a blank. *)
Lemma split_ws_no_blank n s word w :
  (String.length s <= n)%nat -> str_any ws1 word = false -> w ∈ split_ws word s -> str_any ws1 w = false.
Proof.
  revert s word. induction n as [|n IH]; intros s word Hn Hword Hw.
  - destruct s; [|cbn in Hn; lia]. cbn in Hw. destruct word; set_solver.
  - destruct s as [|a s1]; [cbn in Hw; destruct word; set_solver|]. cbn [String.length] in Hn.
    assert (forall s', (String.length s' <= n)%nat ->
      w ∈ (if str_is_empty word then [] else [word]) ++ split_ws EmptyString s' -> str_any ws1 w = false) as Hflush.
    { intros s' Hs' [Hin|Hin]%elem_of_app; [destruct word; set_solver|]. by apply (IH s' EmptyString). }
    cbn [split_ws] in Hw. destruct (ws1 a) eqn:Ea; [by apply (Hflush s1); [lia|]|].
    assert (w ∈ split_ws (word +:+ String a EmptyString) s1 -> str_any ws1 w = false) as Hmore.
    { apply IH; [lia|]. rewrite str_any_app, Hword. cbn [str_any orb]. by rewrite Ea. }
    destruct s1 as [|b s2]; [by apply Hmore|]. cbn [String.length] in Hn.
    destruct (ws2 a b); [by apply (Hflush s2); [lia|]|].
    destruct s2 as [|c s3]; [by apply Hmore|]. cbn [String.length] in Hn.
    destruct (ws3 a b c); [by apply (Hflush s3); [lia|]|by apply Hmore].
Qed.

(** A volume mounted under a path with a blank is never seen as mounted, whatever
    [mount -p] prints.  Mount paths are not validated, so the agent mounts such a
    volume once more each time it provisions the jail. *)
Theorem blank_mount_path_never_mounted {H} {HH : Host H} (h : H) target :
  str_any ws1 target = true -> @is_mounted H cli_mount_manager h target <> Ok true.
Proof.
  intros Hb. cbn. unfold cli_is_mounted. destruct (run _ _ _).1 as [o|e]; [|done].
  destruct (negb _); [done|]. intros [= E]. apply existsb_exists in E as (l & _ & Hl%bool_decide_eq_true).
  apply list_elem_of_lookup_2 in Hl. unfold split_whitespace in Hl.
  apply (split_ws_no_blank (String.length l)) in Hl; [congruence|done|done].
Qed.

(** ** Witnesses *)

(** A host that only knows [zfs] and [mount -p]. *)
Definition done_ok (stdout : string) : result string Output := Ok (mkOutput 0 stdout EmptyString).
Record ToyHost : Type := mkToy { toy_names : gset string; toy_mounts : list MountEntry }.
Definition toy_exec (program : string) (args : list string) (_ : string) (h : ToyHost)
    : result string Output * ToyHost :=
  let added d := (done_ok EmptyString, mkToy ({[d]} ∪ toy_names h) (toy_mounts h)) in
  if String.eqb program "mount" then (done_ok (mount_text (toy_mounts h)), h)
  else match args with
  | [c; d] =>
      if String.eqb c "snapshot" then added d
      else if bool_decide (d ∈ toy_names h)
           then (done_ok EmptyString, mkToy (toy_names h ∖ {[d]}) (toy_mounts h))
           else (Ok (mkOutput 256 EmptyString "cannot open: dataset does not exist"), h)
  | [_; _; d] => added d
  | [_; _; _; d] => added d
  | [_; _; _; _; d] => (Ok (mkOutput (if bool_decide (d ∈ toy_names h) then 0 else 256) EmptyString
                              EmptyString), h)
  | _ => (done_ok EmptyString, h)
  end.
#[global] Instance toy_host : Host ToyHost := {|
  exec := toy_exec;
  exec_piped program args _ := toy_exec program args EmptyString;
  spawn _ _ h := (Ok 1%N, h);
  finished _ _ := true;
  wait _ h := h;
  create_dir_all _ h := (Ok tt, h);
  write_file _ _ h := (Ok tt, h);
  rename _ _ h := (Ok tt, h)
|}.
Definition data_entry : MountEntry :=
  mkEntry "/zroot/keel/volumes/db" 0 "/zroot/keel/jails/db/data" 1 "nullfs rw 0 0".

Lemma is_mounted_exact_witness :
  @is_mounted ToyHost cli_mount_manager (mkToy ∅ [data_entry]) "/zroot/keel/jails/db/data" = Ok true /\
  @is_mounted ToyHost cli_mount_manager (mkToy ∅ [data_entry]) "/zroot/keel/jails/db" = Ok false.
Proof.
  split.
  - apply (is_mounted_exact (mkToy ∅ [data_entry]) [data_entry] "/zroot/keel/jails/db/data" EmptyString
      (mkToy ∅ [data_entry])); [reflexivity|by repeat constructor].
  - apply (is_mounted_exact (mkToy ∅ [data_entry]) [data_entry] "/zroot/keel/jails/db" EmptyString
      (mkToy ∅ [data_entry])); [reflexivity|by repeat constructor].
Defined.

Lemma blank_mount_path_never_mounted_witness :
  @is_mounted ToyHost cli_mount_manager (mkToy ∅ [data_entry]) "/zroot/keel/jails/db/my data" <> Ok true.
Proof. apply blank_mount_path_never_mounted. reflexivity. Defined.
