(* ===== verification/Tls.v ===== *)
(** * TLS configurations

    [tls.rs] of [keel-controlplane], [keel-agentd] and [keelctl]: certificates, keys
    and revocation lists are read from four files, made into configurations, and
    reloaded while the daemons run.  rustls and rustls_pemfile are a class of
    operations; the files are read at successive instants, so that a rotation may
    happen in the middle of a load. *)

From S2P Require Import Prelude RustStr Text HttpMsg Keelctl.

(** [F] is an open file; building a verifier includes [with_crls]. *)
Class Rustls (F Cert Key Crl Roots ClientVerifier ServerVerifier ServerConfig ClientConfig : Type) : Type := {
  pem_certs : F -> list (result string Cert);
  pem_private_key : F -> result string (option Key);
  pem_crls : F -> list (result string Crl);
  roots_empty : Roots;
  roots_add : Cert -> Roots -> result string Roots;
  build_client_verifier : Roots -> list Crl -> result string ClientVerifier;
  build_server_verifier : Roots -> list Crl -> result string ServerVerifier;
  with_single_cert : ClientVerifier -> list Cert -> Key -> result string ServerConfig;
  with_client_auth_cert : ServerVerifier -> list Cert -> Key -> result string ClientConfig
}.

(** [collect::<Result<Vec<_>, _>>()]: the items, or the first error. *)
Fixpoint collect {E A} (l : list (result E A)) : result E (list A) :=
  match l with
  | [] => Ok []
  | x :: l => a ← x; rest ← collect l; Ok (a :: rest)
  end.

(** ** Loading *)

Section load.
Context {F Cert Key Crl Roots ClientVerifier ServerVerifier ServerConfig ClientConfig : Type}.
Context {RT : Rustls F Cert Key Crl Roots ClientVerifier ServerVerifier ServerConfig ClientConfig}.
(** [File::open] of a path at an instant; what the daemons and [keelctl] say of a
    file without certificates. *)
Context (file_open : nat -> string -> result string F) (no_certs : string).

Definition load_certs (now : nat) (path : string) : result string (list Cert) :=
  file ← map_err (fun e => "failed to open certificate file " +:+ path +:+ ": " +:+ e) (file_open now path);
  certs ← map_err (fun e => "failed to parse certificate file " +:+ path +:+ ": " +:+ e) (collect (pem_certs file));
  match certs with
  | [] => Err (no_certs +:+ " in " +:+ path)
  | _ => Ok certs
  end.

Definition load_private_key (now : nat) (path : string) : result string Key :=
  file ← map_err (fun e => "failed to open key file " +:+ path +:+ ": " +:+ e) (file_open now path);
  key ← map_err (fun e => "failed to parse key file " +:+ path +:+ ": " +:+ e) (pem_private_key file);
  ok_or key ("no private key found in " +:+ path).

Fixpoint add_roots (ca_path : string) (certs : list Cert) (roots : Roots) : result string Roots :=
  match certs with
  | [] => Ok roots
  | cert :: certs =>
      roots ← map_err (fun e => "failed to add CA certificate from " +:+ ca_path +:+ ": " +:+ e) (roots_add cert roots);
      add_roots ca_path certs roots
  end.
Definition load_root_store (now : nat) (ca_path : string) : result string Roots :=
  certs ← load_certs now ca_path; add_roots ca_path certs roots_empty.

Definition load_crls (now : nat) (path : string) : result string (list Crl) :=
  file ← map_err (fun e => "failed to open CRL file " +:+ path +:+ ": " +:+ e) (file_open now path);
  crls ← map_err (fun e => "failed to parse CRL file " +:+ path +:+ ": " +:+ e) (collect (pem_crls file));
  match crls with
  | [] => Err ("failed to find a PEM-encoded CRL in " +:+ path)
  | _ => Ok crls
  end.

Definition load_server_config (now : nat) (cert_path key_path ca_path crl_path : string) : result string ServerConfig :=
  certs ← load_certs now cert_path;
  key ← load_private_key (now + 1) key_path;
  roots ← load_root_store (now + 2) ca_path;
  crls ← load_crls (now + 3) crl_path;
  client_verifier ← map_err (fun e => "failed to build client certificate verifier: " +:+ e)
                            (build_client_verifier roots crls);
  map_err (fun e => "failed to build TLS server config: " +:+ e) (with_single_cert client_verifier certs key).

Definition load_client_config (now : nat) (cert_path key_path ca_path crl_path : string) : result string ClientConfig :=
  certs ← load_certs now cert_path;
  key ← load_private_key (now + 1) key_path;
  roots ← load_root_store (now + 2) ca_path;
  crls ← load_crls (now + 3) crl_path;
  server_verifier ← map_err (fun e => "failed to build server certificate verifier: " +:+ e)
                            (build_server_verifier roots crls);
  map_err (fun e => "failed to build TLS client config: " +:+ e) (with_client_auth_cert server_verifier certs key).

End load.

(** ** [ReloadingTls] *)

Section tls.
Context {ServerConfig ClientConfig : Type}.

(** What [load_server_config] and [load_client_config] make of the four paths at
    one turn. *)
Record TlsFiles : Type := mkTlsFiles {
  tf_server : string -> string -> string -> string -> result string ServerConfig;
  tf_client : string -> string -> string -> string -> result string ClientConfig
}.

Record ReloadingTls : Type := mkReloadingTls {
  rt_cert_path : string;
  rt_key_path : string;
  rt_ca_path : string;
  rt_crl_path : string;
  rt_server : ServerConfig;
  rt_client : ClientConfig
}.

Definition tls_spawn (files : TlsFiles) (cert_path key_path ca_path crl_path : string)
    : result string ReloadingTls :=
  server ← tf_server files cert_path key_path ca_path crl_path;
  client ← tf_client files cert_path key_path ca_path crl_path;
  Ok (mkReloadingTls cert_path key_path ca_path crl_path server client).

Definition reload_once (files : TlsFiles) (t : ReloadingTls) : ReloadingTls :=
  let load {A} (f : string -> string -> string -> string -> result string A) :=
    f (rt_cert_path t) (rt_key_path t) (rt_ca_path t) (rt_crl_path t) in
  mkReloadingTls (rt_cert_path t) (rt_key_path t) (rt_ca_path t) (rt_crl_path t)
    match load (tf_server files) with Ok cfg => cfg | Err _ => rt_server t end
    match load (tf_client files) with Ok cfg => cfg | Err _ => rt_client t end.

(** The reloading thread: the files at each wake-up. *)
Definition reloads : list TlsFiles -> ReloadingTls -> ReloadingTls :=
  flip (foldl (flip reload_once)).
End tls.
Arguments TlsFiles : clear implicits.
Arguments ReloadingTls : clear implicits.

Section tls_laws.
Context {S C : Type}.
Implicit Types (files : TlsFiles S C) (t : ReloadingTls S C).

(** The configurations the wake-ups loaded, in order. *)
Definition loaded {A} (load : TlsFiles S C -> string -> string -> string -> string -> result string A)
    (cert key ca crl : string) (history : list (TlsFiles S C)) : list A :=
  omap (fun files => res_ok (load files cert key ca crl)) history.

Lemma last_cons_default {A} (l : list A) x y : default y (last (x :: l)) = default x (last l).
Proof. rewrite last_cons. by destruct (last l). Qed.

Lemma reloads_last history t :
  let last_of {A} (load : TlsFiles S C -> _ -> _ -> _ -> _ -> result string A) x :=
    default x (last (loaded load (rt_cert_path t) (rt_key_path t) (rt_ca_path t) (rt_crl_path t) history)) in
  rt_server (reloads history t) = last_of tf_server (rt_server t) /\
  rt_client (reloads history t) = last_of tf_client (rt_client t).
Proof.
  revert t. induction history as [|files history IH]; intros t; [done|].
  change (reloads (files :: history) t) with (reloads history (reload_once files t)).
  specialize (IH (reload_once files t)). cbn in *. destruct IH as [-> ->].
  by destruct (tf_server _ _ _ _ _), (tf_client _ _ _ _ _);
    cbn [res_ok]; rewrite ?last_cons_default.
Qed.

(** Certificates are reloaded safely.  After any number of wake-ups the server
    and the client side each use the configuration that was loaded last, those of
    the start if no reload succeeded: a broken or half-written file never takes a
    working configuration away, and a repaired one is picked up. *)
Lemma tls_last_good files history cert key ca crl t :
  tls_spawn files cert key ca crl = Ok t ->
  last (loaded tf_server cert key ca crl (files :: history)) = Some (rt_server (reloads history t)) /\
  last (loaded tf_client cert key ca crl (files :: history)) = Some (rt_client (reloads history t)).
Proof.
  unfold tls_spawn. intros E.
  destruct (tf_server files cert key ca crl) as [server|] eqn:Es; [|done].
  destruct (tf_client files cert key ca crl) as [client|] eqn:Ec; [|done].
  cbn in E. injection E as <-. unfold loaded. cbn [omap list_omap]. rewrite Es, Ec. cbn [res_ok].
  destruct (reloads_last history (mkReloadingTls cert key ca crl server client)) as [-> ->].
  cbn. rewrite !last_cons. by split; destruct (last _).
Qed.
End tls_laws.

(** ** What is in a configuration *)

Lemma collect_ok {E A} (l : list (result E A)) items : collect l = Ok items <-> l = Ok <$> items.
Proof.
  revert items. induction l as [|[a|e] l IH]; intros items; cbn.
  - split; [by intros [= <-]|]. by destruct items.
  - destruct (collect l) as [rest|]; cbn; split.
    + intros [= <-]. cbn. f_equal. by apply IH.
    + destruct items as [|b items]; [done|]. intros [= -> E']. f_equal. f_equal.
      apply (proj2 (IH items)) in E'. by injection E'.
    + done.
    + destruct items as [|b items]; [done|]. intros [= -> E']. by apply (proj2 (IH items)) in E'.
  - split; [done|]. by destruct items.
Qed.

Lemma collect_nonempty {A} (l : list (result string A)) (context : string -> string) (none : string) items :
  (found ← map_err context (collect l); match found with [] => Err none | _ => Ok found end) = Ok items <->
  l = Ok <$> items /\ items <> [].
Proof.
  pose proof (collect_ok l) as Hc. destruct (collect l) as [found|e]; cbn; split.
  - destruct found as [|x found]; [done|]. intros [= <-]. by rewrite <-Hc.
  - intros [Hl Hne]. apply Hc in Hl. injection Hl as ->. by destruct items.
  - done.
  - intros [Hl _]. by apply Hc in Hl.
Qed.

Lemma omap_fmap {A B C} (f : A -> B) (g : B -> option C) (l : list A) : omap g (f <$> l) = omap (fun x => g (f x)) l.
Proof. induction l as [|x l IH]; [done|]. cbn. rewrite IH. done. Qed.

Lemma last_omap_split {A B} (f : A -> option B) l b : last (omap f l) = Some b ->
  exists before x after, l = before ++ x :: after /\ f x = Some b /\ Forall (fun y => f y = None) after.
Proof.
  induction l as [|y l IH] using rev_ind; [done|]. rewrite omap_app. cbn.
  destruct (f y) as [b'|] eqn:E.
  - rewrite last_snoc. intros [= ->]. by exists l, y, [].
  - rewrite app_nil_r. intros (before & x & after & -> & Hx & Hafter)%IH.
    exists before, x, (after ++ [y]). rewrite <-app_assoc. split; [done|]. split; [done|].
    apply Forall_app. split; [done|]. by constructor.
Qed.

Section contents.
Context {F Cert Key Crl Roots ClientVerifier ServerVerifier ServerConfig ClientConfig : Type}.
Context {RT : Rustls F Cert Key Crl Roots ClientVerifier ServerVerifier ServerConfig ClientConfig}.
Context (file_open : nat -> string -> result string F) (no_certs : string).

(** The certificates, key, trusted roots and revocation lists the four files hold
    when they are read in turn, and what is built of them. *)
Definition certs_at (now : nat) (path : string) (certs : list Cert) : Prop :=
  exists file, file_open now path = Ok file /\ pem_certs file = Ok <$> certs /\ certs <> [].
Definition key_at (now : nat) (path : string) (key : Key) : Prop :=
  exists file, file_open now path = Ok file /\ pem_private_key file = Ok (Some key).
Definition crls_at (now : nat) (path : string) (crls : list Crl) : Prop :=
  exists file, file_open now path = Ok file /\ pem_crls file = Ok <$> crls /\ crls <> [].
Inductive trusts : list Cert -> Roots -> Roots -> Prop :=
  | trusts_nil roots : trusts [] roots roots
  | trusts_cons cert certs roots roots1 roots2 : roots_add cert roots = Ok roots1 -> trusts certs roots1 roots2 ->
      trusts (cert :: certs) roots roots2.
Definition built {V G} (verifier : Roots -> list Crl -> result string V) (config : V -> list Cert -> Key -> result string G)
    (cert_path key_path ca_path crl_path : string) (now : nat) (cfg : G) : Prop :=
  exists certs key authorities roots crls v,
    certs_at now cert_path certs /\ key_at (now + 1) key_path key /\
    certs_at (now + 2) ca_path authorities /\ trusts authorities roots_empty roots /\
    crls_at (now + 3) crl_path crls /\ verifier roots crls = Ok v /\ config v certs key = Ok cfg.

Lemma load_certs_ok now path certs : load_certs file_open no_certs now path = Ok certs <-> certs_at now path certs.
Proof.
  unfold load_certs, certs_at. destruct (file_open now path) as [file|e]; cbn; [|split; [done|by intros (? & ? & _)]].
  rewrite collect_nonempty. split; [intros H; by exists file|by intros (f & [= <-] & H)].
Qed.

Lemma load_crls_ok now path crls : load_crls file_open now path = Ok crls <-> crls_at now path crls.
Proof.
  unfold load_crls, crls_at. destruct (file_open now path) as [file|e]; cbn; [|split; [done|by intros (? & ? & _)]].
  rewrite collect_nonempty. split; [intros H; by exists file|by intros (f & [= <-] & H)].
Qed.

Lemma load_private_key_ok now path key : load_private_key file_open now path = Ok key <-> key_at now path key.
Proof.
  unfold load_private_key, key_at. destruct (file_open now path) as [file|e]; cbn; [|split; [done|by intros (? & ? & _)]].
  destruct (pem_private_key file) as [[k|]|e] eqn:E; cbn; split; try done.
  - intros [= <-]. by exists file.
  - intros (f & [= <-] & Hf). congruence.
  - intros (f & [= <-] & Hf). congruence.
  - intros (f & [= <-] & Hf). congruence.
Qed.

Lemma add_roots_ok path certs roots roots' : add_roots path certs roots = Ok roots' <-> trusts certs roots roots'.
Proof.
  revert roots. induction certs as [|cert certs IH]; intros roots; cbn.
  - split; [intros [= <-]; constructor|by inversion 1].
  - destruct (roots_add cert roots) as [roots1|e] eqn:E; cbn; split.
    + intros H. econstructor; [exact E|by apply IH].
    + inversion 1; subst. apply IH. congruence.
    + done.
    + inversion 1; subst. congruence.
Qed.

Lemma load_root_store_ok now path roots : load_root_store file_open no_certs now path = Ok roots <->
  exists authorities, certs_at now path authorities /\ trusts authorities roots_empty roots.
Proof.
  unfold load_root_store. destruct (load_certs _ _ now path) as [authorities|e] eqn:E; cbn.
  - apply load_certs_ok in E as Ha. rewrite add_roots_ok. split; [by exists authorities|].
    intros (l & Hl & H). apply load_certs_ok in Hl. congruence.
  - split; [done|]. intros (l & Hl & _). apply load_certs_ok in Hl. congruence.
Qed.

Lemma map_err_ok {E1 E2 A} (f : E1 -> E2) (r : result E1 A) a : map_err f r = Ok a <-> r = Ok a.
Proof. destruct r; cbn; [|done]. split; congruence. Qed.

Lemma result_bind_ok {E A B} (r : result E A) (f : A -> result E B) b :
  (x ← r; f x) = Ok b <-> exists x, r = Ok x /\ f x = Ok b.
Proof. destruct r; cbn; split; [intros H; eauto|intros (? & [= <-] & H); done|done|intros (? & ? & _); done]. Qed.

Ltac solve_built :=
  split;
  [ intros Hload;
    apply result_bind_ok in Hload as (certs & ?%load_certs_ok & Hload);
    apply result_bind_ok in Hload as (secret & ?%load_private_key_ok & Hload);
    apply result_bind_ok in Hload as (roots & (authorities & ? & ?)%load_root_store_ok & Hload);
    apply result_bind_ok in Hload as (crls & ?%load_crls_ok & Hload);
    apply result_bind_ok in Hload as (verifier & ?%map_err_ok & Hload);
    apply map_err_ok in Hload; by exists certs, secret, authorities, roots, crls, verifier
  | intros (certs & secret & authorities & roots & crls & v & ?%load_certs_ok & ?%load_private_key_ok & Ha & Ht &
            ?%load_crls_ok & ? & ?);
    apply result_bind_ok; exists certs; split; [done|];
    apply result_bind_ok; exists secret; split; [done|];
    apply result_bind_ok; exists roots; split; [by apply load_root_store_ok; exists authorities|];
    apply result_bind_ok; exists crls; split; [done|];
    apply result_bind_ok; exists v; split; [by apply map_err_ok|by apply map_err_ok] ].

Lemma load_server_config_ok cert key ca crl now cfg :
  load_server_config file_open no_certs now cert key ca crl = Ok cfg <->
  built build_client_verifier with_single_cert cert key ca crl now cfg.
Proof. unfold load_server_config, built. solve_built. Qed.

Lemma load_client_config_ok cert key ca crl now cfg :
  load_client_config file_open no_certs now cert key ca crl = Ok cfg <->
  built build_server_verifier with_client_auth_cert cert key ca crl now cfg.
Proof. unfold load_client_config, built. solve_built. Qed.

(** One turn of the thread: the server configuration first, then the client's. *)
Definition turn (now : nat) : TlsFiles ServerConfig ClientConfig :=
  mkTlsFiles (load_server_config file_open no_certs now) (load_client_config file_open no_certs (now + 4)).

(** The last turn at which a configuration could be built is the one in use. *)
Definition in_use {G} (builds : nat -> G -> Prop) (turns : list nat) (cfg : G) : Prop :=
  exists before now after, turns = before ++ now :: after /\ builds now cfg /\
    Forall (fun later => forall cfg', ~ builds later cfg') after.

Lemma last_loaded_in_use {G} (load : TlsFiles ServerConfig ClientConfig -> string -> string -> string -> string -> result string G)
    cert key ca crl (builds : nat -> G -> Prop) turns cfg :
  (forall now cfg, load (turn now) cert key ca crl = Ok cfg <-> builds now cfg) ->
  last (loaded load cert key ca crl (turn <$> turns)) = Some cfg -> in_use builds turns cfg.
Proof.
  intros Hb H. unfold loaded in H. rewrite omap_fmap in H.
  apply last_omap_split in H as (before & now & after & -> & Hx & Hafter). exists before, now, after. split; [done|]. cbn in *.
  rewrite <-Hb. split; [by destruct (load _ _ _ _ _); [injection Hx as ->|]|].
  eapply Forall_impl; [exact Hafter|]. cbn. intros later Hl cfg' Hc. apply Hb in Hc. by rewrite Hc in Hl.
Qed.

(** C22: a daemon trusts what its files say, and never less.  Whatever the
    reload thread sees of the files, the server configuration in use, and likewise
    the client's, is the one rustls built, with a verifier of the peer's
    certificate, of all the certificates, the key, every authority and the
    revocation lists of the four files, neither certificates, authorities nor lists
    empty, at the last turn where all four could be read and rustls built a
    configuration of them.  So a file that is missing, empty or does not parse never
    takes effect, and there is no fall back to a configuration without client
    authentication or without revocation.  The four files are read one after the
    other (the instants [now] to [now + 3], then [now + 4] to [now + 7] for the
    client's): a set read while it is being rotated may mix old files and new, and
    takes effect, until the next turn, when rustls builds a configuration of it. *)
Theorem tls_in_use cert key ca crl start turns t :
  tls_spawn (turn start) cert key ca crl = Ok t ->
  in_use (built build_client_verifier with_single_cert cert key ca crl) (start :: turns)
    (rt_server (reloads (turn <$> turns) t)) /\
  in_use (fun now => built build_server_verifier with_client_auth_cert cert key ca crl (now + 4)) (start :: turns)
    (rt_client (reloads (turn <$> turns) t)).
Proof.
  intros E. destruct (tls_last_good (turn start) (turn <$> turns) cert key ca crl t E) as [Hs Hc].
  change (turn start :: (turn <$> turns)) with (turn <$> start :: turns) in Hs, Hc. split.
  - eapply last_loaded_in_use, Hs. intros now cfg. apply load_server_config_ok.
  - eapply last_loaded_in_use, Hc. intros now cfg. apply load_client_config_ok.
Qed.
End contents.

(** ** The three programs *)

Section programs.
Context {F Cert Key Crl Roots ClientVerifier ServerVerifier ServerConfig ClientConfig : Type}.
Context {RT : Rustls F Cert Key Crl Roots ClientVerifier ServerVerifier ServerConfig ClientConfig}.
Context (file_open : nat -> string -> result string F).

(** The daemons have the same code, [keelctl] another message. *)
Definition daemon_no_certs : string := "failed to find any PEM-encoded certificates".
Definition agentd_server_config := load_server_config file_open daemon_no_certs.
Definition agentd_client_config := load_client_config file_open daemon_no_certs.
Definition agentd_turn : nat -> TlsFiles ServerConfig ClientConfig := turn file_open daemon_no_certs.

Definition keelctl_load_certs := load_certs file_open "no certificates found".
Definition keelctl_client_config := load_client_config file_open "no certificates found".

(** What [keelctl] loads before it connects to a control plane: the parameter
    [cl_tls] of [Keelctl.v]. *)
Definition keelctl_tls (now : nat) (target : Target) : result string unit :=
  match target with
  | Socket _ => Ok tt
  | ControlPlane _ _ ca_file cert_file key_file crl_file =>
      _ ← keelctl_client_config now cert_file key_file ca_file crl_file; Ok tt
  end.

(** [keelctl] speaks to a control plane only with certificates, authorities and
    revocation lists read from its files: a request is not even sent otherwise. *)
Lemma keelctl_speaks_tls {HP : Httparse} connect read_file now addr node ca cert key crl method path body r :
  dispatch (mkClient connect (keelctl_tls now) read_file) (ControlPlane addr node ca cert key crl) method path body = Ok r ->
  exists cfg, built file_open build_server_verifier with_client_auth_cert cert key ca crl now cfg.
Proof.
  cbn. unfold send_request_tcp. cbn. unfold keelctl_client_config.
  destruct (load_client_config _ _ _ _ _ _ _) as [cfg|e] eqn:E; cbn; [|done].
  intros _. exists cfg. by apply load_client_config_ok in E.
Qed.
End programs.

(** ** Evaluation *)

(** Turns at which the files are readable or not. *)
Definition tls_good (n : N) : TlsFiles N N :=
  mkTlsFiles (fun _ _ _ _ => Ok n) (fun _ _ _ _ => Ok n).
Definition tls_broken : TlsFiles N N :=
  mkTlsFiles (fun _ _ _ _ => Err "no certificate found") (fun _ _ _ _ => Err "no certificate found").

Example broken_turn_ignored :
  rt_server (reloads [tls_broken; tls_good 2; tls_broken] (mkReloadingTls "c" "k" "a" "r" 1%N 1%N)) = 2%N.
Proof. reflexivity. Qed.

(** Files of whole lines; a certificate and its key are the same number, and a
    configuration remembers what it was built of. *)
#[local] Instance demo_rustls : Rustls (list N) N N N (list N) (list N * list N) (list N * list N)
    (list N * list N * list N) (list N * list N * list N) := {|
  pem_certs file := Ok <$> file;
  pem_private_key file := Ok (head file);
  pem_crls file := Ok <$> file;
  roots_empty := [];
  roots_add cert roots := Ok (roots ++ [cert]);
  build_client_verifier roots crls := Ok (roots, crls);
  build_server_verifier roots crls := Ok (roots, crls);
  with_single_cert v certs key := if bool_decide (head certs = Some key) then Ok (v, certs) else Err "KeyMismatch";
  with_client_auth_cert v certs key := if bool_decide (head certs = Some key) then Ok (v, certs) else Err "KeyMismatch"
|}.

(** The certificate is replaced at instant 8, its key at 12, and the list of
    revocations is gone from 24 on. *)
Definition rotation (now : nat) (path : string) : result string (list N) :=
  match path with
  | "node.crt" => Ok [if (now <? 8)%nat then 1 else 2]%N
  | "node.key" => Ok [if (now <? 12)%nat then 1 else 2]%N
  | "ca.crt" => Ok [7; 8]%N
  | _ => if (now <? 24)%nat then Ok [9]%N else Err "No such file or directory (os error 2)"
  end.

Notation demo_turn := (turn rotation "failed to find any PEM-encoded certificates").
Definition demo_spawned : ReloadingTls (list N * list N * list N) (list N * list N * list N) :=
  mkReloadingTls "node.crt" "node.key" "ca.crt" "crl.pem" ([7; 8], [9], [1])%N ([7; 8], [9], [1])%N.

Example half_rotated : rt_server (reloads [demo_turn 8] demo_spawned) = ([7; 8], [9], [1])%N.
Proof. reflexivity. Qed.

Lemma tls_in_use_witness :
  tls_spawn (demo_turn 0) "node.crt" "node.key" "ca.crt" "crl.pem" = Ok demo_spawned /\
  in_use (built rotation build_client_verifier with_single_cert "node.crt" "node.key" "ca.crt" "crl.pem") [0; 8; 16; 24]
    ([7; 8], [9], [2])%N.
Proof.
  split; [reflexivity|].
  exact (proj1 (tls_in_use rotation "failed to find any PEM-encoded certificates" "node.crt" "node.key" "ca.crt" "crl.pem"
    0 [8; 16; 24] demo_spawned eq_refl)).
Defined.
