(* ===== verification/Executables.v ===== *)
(** * The daemons' start-up

    The two [main.rs] of the daemons: command line flags, the checks made of
    them, and what is started from them; [ReloadingTls] of the two [tls.rs]; and
    the loop that keeps the packet filter rules in place.  Reading certificate
    files, the OVH configuration and binding sockets are parameters. *)

From stdpp Require Import relations.
From S2P Require Import Prelude RustStr Text HttpMsg Float64 Ipnet Spec Wire Codecs Tables Registry Services.
From S2P Require Import CpWorker CpHttp CpSystem CpConcurrency Backoff AgentHost Store Ingress Reconciler.
From S2P Require Import ReconcilerInv AgentWorker Replication AgentHttp Registration Keelctl HostCli Tls.

(** ** Flags *)

(** The loop of both [parse_args_from]: flags and values alternate. *)
Fixpoint parse_flags {C} (set_flag : string -> string -> C -> comp C) (args : list string) (config : C)
    : comp C :=
  match args with
  | [] => Val config
  | [_] => Panic
  | flag :: value :: args =>
      config ← set_flag flag value config;
      parse_flags set_flag args config
  end.

Definition is_none {A} (o : option A) : bool := negb (is_some o).

(** [Option::expect]. *)
Definition expect {A} (o : option A) : comp A :=
  match o with Some x => Val x | None => Panic end.
(** [Result::expect] and [unwrap_or_else(|e| panic!(..))]. *)
Definition expect_ok {E A} (r : result E A) : comp A :=
  match r with Ok x => Val x | Err _ => Panic end.

(** ** The control plane *)

Record CpConfig : Type := mkCpConfig {
  cc_addr : string;
  cc_cluster_cidr : option Ipv4Net;
  cc_service_cidr : option Ipv4Net;
  cc_tls_ca_file : option string;
  cc_tls_cert_file : option string;
  cc_tls_key_file : option string;
  cc_tls_crl_file : option string
}.

Definition cp_config_default : CpConfig := mkCpConfig "0.0.0.0:7620" None None None None None None.

Section control_plane.
Context {I : Ipnet}.

Definition cp_set_flag (flag value : string) (c : CpConfig) : comp CpConfig :=
  let '(mkCpConfig addr cluster service ca cert key crl) := c in
  let m := String.eqb flag in
  if m "--addr" then Val (mkCpConfig value cluster service ca cert key crl)
  else if m "--cluster-cidr" then
    net ← expect (net_parse value); Val (mkCpConfig addr (Some net) service ca cert key crl)
  else if m "--service-cidr" then
    net ← expect (net_parse value); Val (mkCpConfig addr cluster (Some net) ca cert key crl)
  else if m "--tls-ca-file" then Val (mkCpConfig addr cluster service (Some value) cert key crl)
  else if m "--tls-cert-file" then Val (mkCpConfig addr cluster service ca (Some value) key crl)
  else if m "--tls-key-file" then Val (mkCpConfig addr cluster service ca cert (Some value) crl)
  else if m "--tls-crl-file" then Val (mkCpConfig addr cluster service ca cert key (Some value))
  else Panic.

Definition cp_parse_args_from (args : list string) : comp CpConfig :=
  config ← parse_flags cp_set_flag args cp_config_default;
  if is_none (cc_cluster_cidr config) || is_none (cc_service_cidr config)
     || is_none (cc_tls_ca_file config) || is_none (cc_tls_cert_file config)
     || is_none (cc_tls_key_file config) || is_none (cc_tls_crl_file config)
  then Panic
  else match cc_cluster_cidr config with
       | Some cidr => if (prefix_len cidr <=? 24)%N then Val config else Panic
       | None => Val config
       end.

(** [main], up to the loop that serves connections. *)
Definition cp_main {S C} (files : TlsFiles S C) (bind : string -> result string unit)
    (args : list string) : comp (Sys * ReloadingTls S C) :=
  config ← cp_parse_args_from args;
  cluster_cidr ← expect (cc_cluster_cidr config);
  service_cidr ← expect (cc_service_cidr config);
  ca_file ← expect (cc_tls_ca_file config);
  cert_file ← expect (cc_tls_cert_file config);
  key_file ← expect (cc_tls_key_file config);
  crl_file ← expect (cc_tls_crl_file config);
  tls ← expect_ok (tls_spawn files cert_file key_file ca_file crl_file);
  _ ← expect_ok (bind (cc_addr config));
  Val (sys_init cluster_cidr service_cidr, tls).
End control_plane.

(** ** The agent *)

Record AgentConfig : Type := mkAgentConfig {
  ac_pool : string;
  ac_state_dir : string;
  ac_socket : string;
  ac_node_id : option string;
  ac_control_plane_addr : option string;
  ac_advertise_addr : option string;
  ac_replicate_addr : option string;
  ac_tls_ca_file : option string;
  ac_tls_cert_file : option string;
  ac_tls_key_file : option string;
  ac_tls_crl_file : option string;
  ac_public_iface : option string;
  ac_dns_ovh_config : option string;
  ac_acme_directory_url : option string;
  ac_acme_account_key_file : option string
}.

Definition agent_config_default : AgentConfig :=
  mkAgentConfig "zroot" "/var/db/keel" "/var/run/keel-agentd.sock"
    None None None None None None None None None None None None.

Definition agent_set_flag (flag value : string) (c : AgentConfig) : comp AgentConfig :=
  let '(mkAgentConfig pool dir sock id cp adv rep ca cert key crl iface ovh url acct) := c in
  let m := String.eqb flag in
  let v := Some value in
  if m "--pool" then Val (mkAgentConfig value dir sock id cp adv rep ca cert key crl iface ovh url acct)
  else if m "--state-dir" then Val (mkAgentConfig pool value sock id cp adv rep ca cert key crl iface ovh url acct)
  else if m "--socket" then Val (mkAgentConfig pool dir value id cp adv rep ca cert key crl iface ovh url acct)
  else if m "--node-id" then Val (mkAgentConfig pool dir sock v cp adv rep ca cert key crl iface ovh url acct)
  else if m "--control-plane-addr" then Val (mkAgentConfig pool dir sock id v adv rep ca cert key crl iface ovh url acct)
  else if m "--advertise-addr" then Val (mkAgentConfig pool dir sock id cp v rep ca cert key crl iface ovh url acct)
  else if m "--replicate-addr" then Val (mkAgentConfig pool dir sock id cp adv v ca cert key crl iface ovh url acct)
  else if m "--tls-ca-file" then Val (mkAgentConfig pool dir sock id cp adv rep v cert key crl iface ovh url acct)
  else if m "--tls-cert-file" then Val (mkAgentConfig pool dir sock id cp adv rep ca v key crl iface ovh url acct)
  else if m "--tls-key-file" then Val (mkAgentConfig pool dir sock id cp adv rep ca cert v crl iface ovh url acct)
  else if m "--tls-crl-file" then Val (mkAgentConfig pool dir sock id cp adv rep ca cert key v iface ovh url acct)
  else if m "--public-iface" then Val (mkAgentConfig pool dir sock id cp adv rep ca cert key crl v ovh url acct)
  else if m "--dns-ovh-config" then Val (mkAgentConfig pool dir sock id cp adv rep ca cert key crl iface v url acct)
  else if m "--acme-directory-url" then Val (mkAgentConfig pool dir sock id cp adv rep ca cert key crl iface ovh v acct)
  else if m "--acme-account-key-file" then Val (mkAgentConfig pool dir sock id cp adv rep ca cert key crl iface ovh url v)
  else Panic.

Definition agent_parse_args_from (args : list string) : comp AgentConfig :=
  config ← parse_flags agent_set_flag args agent_config_default;
  if is_some (ac_control_plane_addr config) &&
     (is_none (ac_node_id config) || is_none (ac_advertise_addr config)
      || is_none (ac_replicate_addr config) || is_none (ac_tls_ca_file config)
      || is_none (ac_tls_cert_file config) || is_none (ac_tls_key_file config)
      || is_none (ac_tls_crl_file config))
  then Panic
  else Val config.

(** Which ACME and DNS clients are used. *)
Record OvhConfig : Type := mkOvhConfig {
  oc_app_key : string;
  oc_app_secret : string;
  oc_consumer_key : string;
  oc_zone : string
}.
Inductive AcmeChoice : Type :=
  | UseInstantAcme (ovh : OvhConfig) (directory_url account_key_file : string)
  | UseFakeAcme.

(** The flags of a node that joins a cluster. *)
Record ClusterFlags : Type := mkClusterFlags {
  cf_node_id : string;
  cf_control_plane_addr : string;
  cf_advertise_addr : string;
  cf_replicate_addr : string;
  cf_tls_ca_file : string;
  cf_tls_cert_file : string;
  cf_tls_key_file : string;
  cf_tls_crl_file : string
}.

(** [if let (Some(node_id), .., Some(crl_file)) = ..]. *)
Definition cluster_flags (c : AgentConfig) : option ClusterFlags :=
  id ← ac_node_id c; cp ← ac_control_plane_addr c; adv ← ac_advertise_addr c;
  rep ← ac_replicate_addr c; ca ← ac_tls_ca_file c; cert ← ac_tls_cert_file c;
  key ← ac_tls_key_file c; crl ← ac_tls_crl_file c;
  Some (mkClusterFlags id cp adv rep ca cert key crl).

Definition acme_choice (load_ovh_config : string -> comp OvhConfig) (c : AgentConfig) : comp AcmeChoice :=
  match ac_dns_ovh_config c, ac_acme_directory_url c, ac_acme_account_key_file c with
  | Some ovh_config_path, Some directory_url, Some account_key_file =>
      ovh ← load_ovh_config ovh_config_path;
      Val (UseInstantAcme ovh directory_url account_key_file)
  | None, None, None => Val UseFakeAcme
  | _, _, _ => Panic
  end.

Section agent.
Context {HO : HashOrder} {I : Ipnet} {YJR : SerdeYaml JailRecord} {YIR : SerdeYaml IngressRecord}
        {YRT : SerdeYaml ReplicaTarget}.
Context {J Zf Nt M A D X H S C : Type}.
Context {HJ : JailRuntime J} {HZ : ZfsManager Zf} {HN : NetManager Nt} {HM : MountManager M}
        {HA : AcmeClient A D} {HX : NginxController X} {HH : Host H}.

Notation Agent := (@Agent J Zf Nt M A D X).

(** What the process finds when it starts: the managers, the directories below
    the state directory, the host, the certificate files and the sockets; binding
    the Unix socket includes removing a stale one and setting its mode. *)
Record Startup : Type := mkStartup {
  su_jails : J;
  su_zfs : Zf;
  su_net : Nt;
  su_mounts : M;
  su_nginx : string -> X;
  su_load_ovh_config : string -> comp OvhConfig;
  su_acme : AcmeChoice -> comp A;
  su_dns : AcmeChoice -> D;
  su_disk : string -> Disk;
  su_ingress_disk : string -> Disk;
  su_cert_disk : string -> Disk;
  su_targets_disk : string -> Disk;
  su_host : H;
  su_tls_files : TlsFiles S C;
  su_bind : string -> result string unit
}.

(** What runs once [main] serves the Unix socket: the worker, the replication
    loops, and in a cluster the registration loop. *)
Record AgentProcess : Type := mkAgentProcess {
  ap_agent : Agent;
  ap_spawned : list Spawned;
  ap_pod_cidr_slot : PodCidrSlot;
  ap_replica_targets : ReplicaTargetRegistry;
  ap_registration : option (NodeConfig * ReloadingTls S C);
  ap_public_iface : option string
}.

(** The body of [if let (Some(node_id), ..)]. *)
Definition join_cluster (su : Startup) (f : ClusterFlags) : comp (NodeConfig * ReloadingTls S C) :=
  '(capacity_cpu, capacity_memory) ← expect_ok (detect (su_host su));
  tls ← expect_ok (tls_spawn (su_tls_files su) (cf_tls_cert_file f) (cf_tls_key_file f)
                     (cf_tls_ca_file f) (cf_tls_crl_file f));
  _ ← expect_ok (su_bind su (cf_advertise_addr f));
  _ ← expect_ok (su_bind su (cf_replicate_addr f));
  Val (mkNodeConfig (cf_control_plane_addr f) (cf_node_id f) (cf_advertise_addr f)
         (cf_replicate_addr f) capacity_cpu capacity_memory, tls).

Definition agent_main (ck : Clock) (su : Startup) (args : list string) : comp AgentProcess :=
  config ← agent_parse_args_from args;
  choice ← acme_choice (su_load_ovh_config su) config;
  acme ← su_acme su choice;
  loaded ← reconciler_new (su_jails su) (su_zfs su) (su_net su) (su_mounts su) (ac_pool config)
             (su_disk su (ac_state_dir config)) (su_ingress_disk su (ac_state_dir config))
             (su_cert_disk su (ac_state_dir config)) acme (su_dns su choice)
             (su_nginx su (ac_pool config)) vips_new;
  reconciler ← expect_ok loaded;
  '(_, spawned, agent) ← handle_command ck AgResumeReplicationLoops (mkAgent reconciler ∅);
  targets ← expect_ok (targets_load (su_targets_disk su (ac_state_dir config)));
  registration ← match cluster_flags config with
                 | Some f => joined ← join_cluster su f; Val (Some joined)
                 | None => Val None
                 end;
  _ ← expect_ok (su_bind su (ac_socket config));
  Val (mkAgentProcess agent spawned pod_cidr_slot_new targets registration (ac_public_iface config)).
End agent.

(** ** The packet filter rules *)

Section pf_loop.
Context {H : Type} {HH : Host H}.

(** One pass of the loop at [now]: the rules are written and loaded when the
    backoff allows it; the outcome is only logged. *)
Definition pf_pass (public_iface : string) (now : Instant) (st : BackoffState * H)
    : option (result PfError unit) * (BackoffState * H) :=
  let '(backoff, h) := st in
  if can_retry backoff now then
    let '(r, h) := ensure_redirect_rules public_iface INGRESS_JAIL_BRIDGE_ADDR h in
    (Some r, (record_attempt backoff now, h))
  else (None, (backoff, h)).

(** The passes at the given times: the log of the attempts. *)
Fixpoint pf_loop (public_iface : string) (times : list Instant) (st : BackoffState * H)
    : list (Instant * result PfError unit) :=
  match times with
  | [] => []
  | now :: times =>
      let '(r, st) := pf_pass public_iface now st in
      match r with
      | Some r => (now, r) :: pf_loop public_iface times st
      | None => pf_loop public_iface times st
      end
  end.
End pf_loop.

(** ** The rules stay in place *)

Section pf_laws.
Context {H : Type} {HH : Host H}.

(** The passes are at least the sleep of five seconds apart. *)
Fixpoint spaced (prev : Instant) (times : list Instant) : Prop :=
  match times with
  | [] => True
  | now :: times => (prev + secs 5 <= now)%N /\ spaced now times
  end.

Lemma pf_loop_gap iface times : forall b (h : H) t prev skipped,
  backoff_inv b -> bo_last_started_at b = Some t -> (t + secs (5 * skipped) <= prev)%N ->
  (skipped <= 13)%N -> spaced prev times ->
  (N.of_nat (length times) + skipped <= 14 * N.of_nat (length (pf_loop iface times (b, h))) + 13)%N.
Proof.
  induction times as [|now times IH]; intros b h t prev skipped Hinv Ht Hprev Hsk Hsp; [cbn; lia|].
  destruct Hsp as [Hnow Hsp]. cbn [pf_loop pf_pass]. destruct (can_retry b now) eqn:Hr.
  - destruct (ensure_redirect_rules _ _ h) as [r h']. cbn [length].
    pose proof (IH (record_attempt b now) h' now now 0%N (record_attempt_inv _ _ Hinv Hr) eq_refl
                  ltac:(unfold secs; lia) ltac:(lia) Hsp). lia.
  - destruct Hinv as [->|(k & lst & Hk & Hl & Hn & Hc)]; [done|].
    assert (lst = t) as -> by congruence. unfold can_retry in Hr. rewrite Hn in Hr. bool_to_prop.
    assert (2 ^ k <= 2 ^ 6)%N by (apply N.pow_le_mono_r; lia). change (2 ^ 6)%N with 64%N in *.
    pose proof (IH b h t now (skipped + 1)%N
      ltac:(right; eauto 10) Hl) as Hx. cbn [length]. unfold secs, nanos_per_sec in *.
    assert (skipped + 1 <= 13)%N by nia.
    specialize (Hx ltac:(lia) ltac:(lia) Hsp). lia.
Qed.

Lemma pf_loop_times iface times : forall st now r,
  (now, r) ∈ pf_loop iface times (H := H) st -> now ∈ times.
Proof.
  induction times as [|t times IH]; intros st now r; cbn; [set_solver|].
  destruct (pf_pass iface t st) as [[r'|] st']; [|set_solver].
  rewrite !elem_of_cons. intros [[= -> ->]|Hin]; [by left|right; eauto].
Qed.

(** The passes after those of [times] start from a state of the same kind. *)
Lemma pf_loop_suffix iface times rest : forall b (h : H) t prev,
  backoff_inv b -> bo_last_started_at b = Some t -> (t <= prev)%N -> spaced prev (times ++ rest) ->
  exists b' h' t' prev', backoff_inv b' /\ bo_last_started_at b' = Some t' /\ (t' <= prev')%N /\
    spaced prev' rest /\
    pf_loop iface (times ++ rest) (b, h) = pf_loop iface times (b, h) ++ pf_loop iface rest (b', h').
Proof.
  induction times as [|now times IH]; intros b h t prev Hinv Ht Hprev Hsp; [by exists b, h, t, prev|].
  destruct Hsp as [Hnow Hsp]. cbn [app pf_loop pf_pass]. destruct (can_retry b now) eqn:Hr.
  - destruct (ensure_redirect_rules _ _ h) as [r h1].
    destruct (IH (record_attempt b now) h1 now now (record_attempt_inv _ _ Hinv Hr) eq_refl
                (N.le_refl _) Hsp) as (b' & h' & t' & prev' & K1 & K2 & K3 & K4 & ->).
    by exists b', h', t', prev'.
  - apply (IH b h t now Hinv Ht); [lia|done].
Qed.

(** The redirect rules are kept in place.  The first pass of the agent's
    packet filter loop loads them; after that, whatever the earlier passes
    achieved, at least one of any fourteen consecutive passes, which are five
    seconds apart, loads them again.  A failed load is retried within that
    time, and a successful one is repeated too, although the comment in the code
    says the rules are applied once at startup. *)
Theorem pf_rules_reapplied iface start before window (h : H) :
  spaced start (before ++ window) -> length window = 14%nat ->
  let log := pf_loop iface (start :: before ++ window) (backoff_new, h) in
  log.*1 !! 0%nat = Some start /\ exists now r, now ∈ window /\ (now, r) ∈ log.
Proof.
  intros Hsp Hw. cbn [pf_loop pf_pass can_retry backoff_new bo_next_retry_at].
  destruct (ensure_redirect_rules _ _ h) as [r h1]. split; [done|].
  destruct (pf_loop_suffix iface before window (record_attempt backoff_new start) h1 start start
    (record_attempt_inv _ _ (or_introl eq_refl) eq_refl) eq_refl (N.le_refl _) Hsp)
    as (b & h2 & t & prev & Hinv & Ht & Hp & Hsp' & ->).
  pose proof (pf_loop_gap iface window b h2 t prev 0 Hinv Ht ltac:(unfold secs; lia) ltac:(lia) Hsp').
  destruct (pf_loop iface window (b, h2)) as [|[now r'] log] eqn:El; [cbn in *; lia|].
  exists now, r'. split; [|set_solver].
  apply (pf_loop_times iface window (b, h2) now r'). rewrite El. set_solver.
Qed.
End pf_laws.

(** ** A started control plane *)

Lemma parse_flags_keeps {C} set_flag (P : C -> Prop) args : forall c c',
  (forall flag value c c', set_flag flag value c = Val c' -> P c -> P c') ->
  parse_flags set_flag args c = Val c' -> P c -> P c'.
Proof.
  intros c c' Hset. revert args c. fix IH 1. intros [|flag [|value args]] c; cbn [parse_flags].
  { intros E. assert (c = c') as E' by congruence. by rewrite <-E'. }
  { done. }
  destruct (set_flag flag value c) as [c1|] eqn:E; [|done]. rewrite Val_bind. intros Hp Hc.
  by eapply IH; [|eapply Hset].
Qed.

Section started.
Context {HO : HashOrder} {I : Ipnet}.
Context {YE : SerdeYaml ErrorBody} {YRR : SerdeYaml RegisterResponse}
        {YNS : SerdeYaml (list NodeStatus)} {YSR : SerdeYaml (list ServiceReplica)}
        {YSS : SerdeYaml (list ServiceSummary)} {YPE : SerdeYaml (list ServiceProxyEntry)}
        {YNR : SerdeYaml NodeRegistration} {YHB : SerdeYaml Heartbeat}
        {YJ : SerdeYaml JailSpec} {YS : SerdeYaml ServiceSpec}.
Context {S C : Type} (str_debug : string -> string).
Notation step := (step str_debug).

Definition nets_wf (c : CpConfig) : Prop :=
  (forall n, cc_cluster_cidr c = Some n -> net_wf n) /\ (forall n, cc_service_cidr c = Some n -> net_wf n).

Lemma cp_set_flag_wf flag value c c' : cp_set_flag flag value c = Val c' -> nets_wf c -> nets_wf c'.
Proof.
  destruct c as [addr cluster service ca cert key crl]. unfold cp_set_flag, nets_wf.
  repeat case_match; try done; try (intros [= <-]; done); cbn [cc_cluster_cidr cc_service_cidr];
    (destruct (net_parse value) as [net|] eqn:En; [|done]); cbn; intros [= <-] [Hcl Hsv]; cbn;
    apply net_parse_wf in En; naive_solver.
Qed.

Lemma cp_main_init files bind args sys (tls : ReloadingTls S C) :
  cp_main files bind args = Val (sys, tls) ->
  exists config cluster service, cp_parse_args_from args = Val config /\
    cc_cluster_cidr config = Some cluster /\ cc_service_cidr config = Some service /\
    net_wf cluster /\ (prefix_len cluster <= 24)%N /\ net_wf service /\ sys = sys_init cluster service.
Proof.
  unfold cp_main. destruct (cp_parse_args_from args) as [config|] eqn:Ep; [|done]. rewrite Val_bind.
  intros E. pose proof Ep as Ep'. unfold cp_parse_args_from in Ep.
  destruct (parse_flags _ _ _) as [c|] eqn:Ef; [|done]. rewrite Val_bind in Ep.
  assert (nets_wf c) as [H1 H2] by (eapply (parse_flags_keeps _ _ _ _ _ cp_set_flag_wf Ef); done).
  destruct (_ || _); [done|].
  assert (c = config) as <- by (repeat case_match; congruence).
  destruct (cc_cluster_cidr c) as [cluster|] eqn:Ec; [|done].
  destruct (prefix_len cluster <=? 24)%N eqn:El; [|done]. bool_to_prop.
  destruct (cc_service_cidr c) as [service|] eqn:Es; [|done].
  exists c, cluster, service. do 3 (split; [done|]). split; [by apply H1|]. split; [done|].
  split; [by apply H2|]. cbn in E. 
  repeat match type of E with
  | (?x ≫= _) = _ => destruct x; [rewrite Val_bind in E|done]
  end. by injection E as <- _.
Qed.

(** C3: the command line decides.  Whenever the control plane starts, its state is
    the empty one over the two networks of the command line; if the service
    network is not the whole address space, then in every state reachable from
    there, whatever requests arrive and however they interleave, the worker is
    alive, its tables are well formed and every connection can be answered. *)
Theorem started_system_safe files bind args sys0 (tls : ReloadingTls S C) :
  cp_main files bind args = Val (sys0, tls) ->
  exists config cluster service, cp_parse_args_from args = Val config /\
    cc_cluster_cidr config = Some cluster /\ cc_service_cidr config = Some service /\
    sys0 = sys_init cluster service /\
    ((0 < prefix_len service)%N -> forall sys, rtc step sys0 sys ->
       (exists s, sys_cp sys = Some s /\ cp_wf s) /\
       forall i p, sys_threads sys !! i = Some p ->
         exists sys' resp, rtc step sys sys' /\ sys_threads sys' = <[i := Ret resp]> (sys_threads sys)).
Proof.
  intros (config & cluster & service & Hc & Hcl & Hsv & Hw & Hp & Hw' & ->)%cp_main_init.
  exists config, cluster, service. do 4 (split; [done|]). intros Hpos sys Hr.
  assert (sys_ok sys) as Hok by (by apply (reachable_ok str_debug cluster service)).
  split; [apply Hok|]. intros i p Hi. by eapply thread_finishes.
Qed.

Lemma dead_stays_dead sys sys' : rtc step sys sys' -> sys_cp sys = None -> sys_cp sys' = None.
Proof.
  induction 1 as [|x y z Hxy _ IH]; [done|]. intros Hx. apply IH. by destruct Hxy.
Qed.

Lemma name_conflict_empty cluster service name fuel i :
  name_conflict (cp_new cluster service) name fuel i = None.
Proof.
  revert i. induction fuel as [|fuel IH]; intros i; [done|]. cbn [name_conflict].
  assert (owner_of (replica_name name i) (cp_placements (cp_new cluster service))
            (cp_services (cp_new cluster service)) = None) as -> by done. apply IH.
Qed.

(** The whole address space as the service network stops the cluster.  The
    control plane starts with a service network of prefix length 0, which is the
    only thing it does not check; then the first valid service anybody applies
    kills the worker thread, after which no request is ever served from it
    again. *)
Theorem zero_service_network_kills_worker files bind args sys0 (tls : ReloadingTls S C) config service
    body spec :
  cp_main files bind args = Val (sys0, tls) -> cp_parse_args_from args = Val config ->
  cc_service_cidr config = Some service -> prefix_len service = 0%N ->
  parse_and_validate_service (from_utf8_lossy body) = Ok spec ->
  exists sys, rtc step sys0 sys /\ sys_cp sys = None /\
    forall sys', rtc step sys sys' -> sys_cp sys' = None.
Proof.
  intros (config' & cluster & service' & Hc & Hcl & Hsv & _ & _ & _ & ->)%cp_main_init Hc' Hs Hp Hspec.
  assert (config' = config) as -> by congruence. assert (service' = service) as -> by congruence.
  pose proof (proj1 (parse_and_validate_service_Ok _ _) Hspec) as (_ & Hname & _).
  set (name := meta_name (ss_metadata spec)) in *.
  assert (segments ("/services/" +:+ name) = ["services"; name]) as Hseg.
  { change ("/services/" +:+ name) with (String "/" (join "/" ["services"; name])).
    rewrite segments_join; [done|]. repeat constructor; try done; by apply name_path. }
  set (req := mkParsedRequest "PUT" ("/services/" +:+ name) body).
  assert (route str_debug req = apply_validated name (ss_spec spec)) as Hroute.
  { unfold route, req. cbn [pr_path pr_method pr_body]. rewrite Hseg.
    change (handle_apply_service name body = apply_validated name (ss_spec spec)).
    unfold handle_apply_service. rewrite Hspec. fold name. by rewrite String.eqb_refl. }
  eexists. split; [|split].
  - eapply rtc_l; [apply (step_accept str_debug _ _ _ req)|]. rewrite Hroute.
    eapply rtc_l; [|apply rtc_refl].
    eapply (step_panic str_debug _ _ _ 0 _ _ _ 0%N); [done|].
    cbn [CpWorker.handle_command]. unfold apply_service. rewrite name_conflict_empty.
    rewrite services_apply_zero_prefix by done. done.
  - done.
  - intros sys' Hr. by eapply dead_stays_dead.
Qed.
End started.

(** ** A started agent *)

Section booted.
Context {HO : HashOrder} {I : Ipnet} {YJR : SerdeYaml JailRecord} {YIR : SerdeYaml IngressRecord}
        {YRT : SerdeYaml ReplicaTarget}.
Context {J Zf Nt M A D X H S C : Type}.
Context {HJ : JailRuntime J} {HZ : ZfsManager Zf} {HN : NetManager Nt} {HM : MountManager M}
        {HA : AcmeClient A D} {HX : NginxController X} {HH : Host H}.

Notation Agent := (@Agent J Zf Nt M A D X).
Notation Startup := (@Startup J Zf Nt M A D X H S C).

Lemma resume_loops_exact statuses R :
  let '(spawned, R') := resume_loops statuses R in
  forall n, n ∈ spawned.*1 <->
    n ∉ R /\ exists st, st ∈ statuses /\ jr_name (jst_record st) = n /\
                        replicated (jr_spec (jst_record st)) = true.
Proof.
  revert R. induction statuses as [|st statuses IH]; intros R; cbn [resume_loops]; [set_solver|].
  set (name := meta_name _). destruct (replicated (jr_spec (jst_record st))) eqn:Er.
  - unfold spawn_loop. case_bool_decide as Hin.
    + specialize (IH R). destruct (resume_loops statuses R) as [sp R']. cbn. intros n. rewrite IH.
      split; [set_solver|]. intros (Hn & st' & [->|Hst]%elem_of_cons & <- & Hr); [done|eauto].
    + specialize (IH ({[name]} ∪ R)). destruct (resume_loops statuses _) as [sp R']. cbn. intros n.
      rewrite elem_of_cons, IH. split.
      * intros [->|(Hn & st' & Hst & Hnm & Hr)]; [|set_solver].
        split; [done|]. exists st. set_solver.
      * intros (Hn & st' & [->|Hst]%elem_of_cons & <- & Hr); [by left|].
        destruct (decide (jr_name (jst_record st') = name)) as [|Hne]; [by left|right]. set_solver.
  - specialize (IH R). destruct (resume_loops statuses R) as [sp R']. cbn. intros n. rewrite IH.
    split; [set_solver|]. intros (Hn & st' & [->|Hst]%elem_of_cons & <- & Hr); [congruence|eauto].
Qed.

Lemma elem_of_list_jails (s : @RC J Zf Nt M A D X) now record :
  (exists st, st ∈ list_jails s now /\ jst_record st = record) <->
  exists name, rc_records s !! name = Some record.
Proof.
  unfold list_jails. setoid_rewrite list_elem_of_omap. setoid_rewrite elem_of_sort_by_key.
  setoid_rewrite hash_iter_dom. unfold get_jail. split.
  - intros (st & (name & _ & E) & <-). exists name.
    destruct (rc_records s !! name) as [r|]; [|done]. cbn in E. by injection E as <-.
  - intros (name & E). eexists. split; [exists name; rewrite E; split; [by eexists|reflexivity]|].
    reflexivity.
Qed.

Lemma targets_load_spec disk targets :
  disk_holds rt_replica_name disk targets -> readable disk ->
  targets_load disk = Ok (mkTargets targets disk).
Proof.
  intros Hd Hr. unfold targets_load, load_targets.
  destruct (load_all_spec rt_replica_name TARGETS_DIR _ _ Hd Hr) as (l & -> & Hnd & Hl). cbn.
  rewrite (collect_records_spec rt_replica_name l targets); [done|done|done|].
  by intros name r Hx; eapply (dh_named _ _ _ Hd).
Qed.

(** What a start needs besides a valid command line: the files an agent left
    behind, certificates that load, addresses that bind. *)
Record bootable (su : Startup) (config : AgentConfig) (a : Agent) (targets : gmap string ReplicaTarget)
    : Prop := {
  bt_disk : dk_files (su_disk su (ac_state_dir config)) = dk_files (rc_disk (ag_rc a));
  bt_ingress_disk :
    dk_files (su_ingress_disk su (ac_state_dir config)) = dk_files (rc_ingress_disk (ag_rc a));
  bt_targets : disk_holds rt_replica_name (su_targets_disk su (ac_state_dir config)) targets;
  bt_readable : readable (su_disk su (ac_state_dir config)) /\
    readable (su_ingress_disk su (ac_state_dir config)) /\
    readable (su_targets_disk su (ac_state_dir config));
  bt_acme : exists choice acme,
    acme_choice (su_load_ovh_config su) config = Val choice /\ su_acme su choice = Val acme;
  bt_host : exists capacity, detect (su_host su) = Ok capacity;
  bt_bind : forall addr, su_bind su addr = Ok tt;
  bt_tls : forall cert key ca crl, exists t, tls_spawn (su_tls_files su) cert key ca crl = Ok t
}.

Lemma cluster_flags_complete args config :
  agent_parse_args_from args = Val config ->
  (is_Some (cluster_flags config) <-> is_Some (ac_control_plane_addr config)).
Proof.
  unfold agent_parse_args_from. destruct (parse_flags _ _ _) as [c|]; [|done]. rewrite Val_bind.
  destruct (_ && _) eqn:E; [done|]. intros [= <-].
  destruct c as [pool dir sock id cp adv rep ca cert key crl iface ovh url acct]. unfold cluster_flags.
  cbn in *. split.
  - intros [f Hf]. destruct id, cp; try discriminate Hf. by eexists.
  - intros [x ->]. destruct id, adv, rep, ca, cert, key, crl; try discriminate E. by eexists.
Qed.

Lemma join_cluster_ok su config a targets f :
  bootable su config a targets ->
  exists tls cpu memory, join_cluster su f =
    Val (mkNodeConfig (cf_control_plane_addr f) (cf_node_id f) (cf_advertise_addr f)
           (cf_replicate_addr f) cpu memory, tls).
Proof.
  intros Hb. unfold join_cluster. destruct (bt_host _ _ _ _ Hb) as [[cpu memory] ->].
  destruct (bt_tls _ _ _ _ Hb (cf_tls_cert_file f) (cf_tls_key_file f) (cf_tls_ca_file f)
              (cf_tls_crl_file f)) as [t Ht].
  cbn [expect_ok]. rewrite Val_bind, Ht. cbn [expect_ok]. rewrite Val_bind, !(bt_bind _ _ _ _ Hb).
  eauto.
Qed.

(** C13: a restarted agent resumes.  Started with a valid command line on the
    files of any earlier life, the agent comes up with exactly the desired jails,
    ingresses and replica targets it had; a replication loop runs for exactly the
    stateful jails that name a standby, one each; and the registration loop runs,
    with the flags given, exactly when a control plane is named.  The node has no
    pod subnet until it has registered. *)
Theorem agent_boots ck su args config (a : Agent) targets :
  agent_parse_args_from args = Val config -> agent_reach a -> bootable su config a targets ->
  exists p, agent_main ck su args = Val p /\
    rc_records (ag_rc (ap_agent p)) = rc_records (ag_rc a) /\
    rc_ingress_records (ag_rc (ap_agent p)) = rc_ingress_records (ag_rc a) /\
    tg_by_name (ap_replica_targets p) = targets /\ NoDup (ap_spawned p).*1 /\
    (forall name, name ∈ (ap_spawned p).*1 <->
       exists r, rc_records (ag_rc a) !! name = Some r /\ replicated (jr_spec r) = true) /\
    ap_pod_cidr_slot p = None /\
    match cluster_flags config with
    | None => ac_control_plane_addr config = None /\ ap_registration p = None
    | Some f => exists tls cpu memory, ap_registration p =
        Some (mkNodeConfig (cf_control_plane_addr f) (cf_node_id f) (cf_advertise_addr f)
                (cf_replicate_addr f) cpu memory, tls)
    end.
Proof.
  intros Hargs Ha Hb. pose proof (cluster_flags_complete _ _ Hargs) as Hcf.
  destruct (bt_acme _ _ _ _ Hb) as (choice & acme & Hch & Hacme).
  destruct (bt_readable _ _ _ _ Hb) as (Hr1 & Hr2 & Hr3). pose proof (agent_reach_inv a Ha) as Hinv.
  destruct (restart_spec (ag_rc a) (su_jails su) (su_zfs su) (su_net su) (su_mounts su) (ac_pool config)
    _ _ (su_cert_disk su (ac_state_dir config)) acme (su_dns su choice) (su_nginx su (ac_pool config))
    vips_new Hinv (bt_disk _ _ _ _ Hb) (bt_ingress_disk _ _ _ _ Hb) Hr1 Hr2)
    as (s & Es & Hrec & Hing & _).
  unfold agent_main. rewrite Hargs, Val_bind, Hch, Val_bind, Hacme, Val_bind, Es, Val_bind.
  cbn [expect_ok]. rewrite Val_bind. cbn [handle_command ag_rc ag_replicating].
  destruct (resume_loops (list_jails s (ck_now ck)) ∅) as [sp R] eqn:El.
  rewrite Val_bind, (targets_load_spec _ targets) by (done || apply Hb).
  cbn [expect_ok]. rewrite Val_bind.
  pose proof (resume_loops_exact (list_jails s (ck_now ck)) ∅) as Hx. rewrite El in Hx.
  destruct (resume_loops_new _ (mkAgent s ∅) s _ _ El) as (Hnd & _).
  assert (forall n, n ∈ sp.*1 <->
    exists r, rc_records (ag_rc a) !! n = Some r /\ replicated (jr_spec r) = true) as Hsp.
  { intros n. rewrite Hx, <-Hrec. split.
    - intros (_ & st & Hst & <- & Hrep). exists (jst_record st). split; [|done].
      destruct (proj1 (elem_of_list_jails s (ck_now ck) (jst_record st))) as [name Hn]; [eauto|].
      rewrite Hrec in Hn |- *. by destruct (dh_named _ _ _ (ai_disk _ Hinv) _ _ Hn) as [-> _].
    - intros (r & Hr & Hrep). split; [set_solver|].
      destruct (proj2 (elem_of_list_jails s (ck_now ck) r)) as (st & Hst & <-); [eauto|].
      exists st. rewrite Hrec in Hr. by destruct (dh_named _ _ _ (ai_disk _ Hinv) _ _ Hr) as [-> _]. }
  destruct (cluster_flags config) as [f|].
  - destruct (join_cluster_ok su config a targets f Hb) as (tls & cpu & memory & ->).
    rewrite !Val_bind, (bt_bind _ _ _ _ Hb). cbn [expect_ok]. rewrite Val_bind.
    eexists. split; [reflexivity|]. cbn. by eauto 12.
  - rewrite Val_bind, (bt_bind _ _ _ _ Hb). cbn [expect_ok]. rewrite Val_bind.
    eexists. split; [reflexivity|]. cbn. do 6 (split; [done|]). split; [|done].
    destruct (ac_control_plane_addr config); [|done]. by destruct (proj2 Hcf) as [? [=]]; eauto.
Qed.
End booted.

(** ** Evaluation *)

Lemma pf_rules_reapplied_witness :
  exists now r, now ∈ (secs <$> [5; 10; 15; 20; 25; 30; 35; 40; 45; 50; 55; 60; 65; 70]%N) /\
    (now, r) ∈ pf_loop "em0" (0%N :: (secs <$> [5; 10; 15; 20; 25; 30; 35; 40; 45; 50; 55; 60; 65; 70]%N))
                 (backoff_new, mkToy ∅ []).
Proof.
  refine (proj2 (pf_rules_reapplied "em0" 0 []
    (secs <$> [5; 10; 15; 20; 25; 30; 35; 40; 45; 50; 55; 60; 65; 70]%N) (mkToy ∅ []) _ eq_refl)).
  cbn. unfold secs, nanos_per_sec. repeat split; lia.
Defined.

Definition cp_args (service_cidr : string) : list string :=
  ["--cluster-cidr"; "10.0.0.0/16"; "--service-cidr"; service_cidr; "--tls-ca-file"; "ca.crt";
   "--tls-cert-file"; "cp.crt"; "--tls-key-file"; "cp.key"; "--tls-crl-file"; "crl.pem"].
Definition bind_any : string -> result string unit := fun _ => Ok tt.
Notation demo_cp_main := (@cp_main ipnet_model N N (tls_good 1) bind_any).
Notation demo_cp_parse := (@cp_parse_args_from ipnet_model).
Notation demo_step := (step (HO := list_order) (I := ipnet_model)
  (YE := yaml_error) (YRR := yaml_register) (YNS := yaml_statuses) (YSR := yaml_replicas)
  (YSS := yaml_summaries) (YPE := yaml_entries) (YNR := yaml_registration)
  (YHB := yaml_heartbeat) (YJ := yaml_jail) (YS := yaml_service) id).
Definition demo_tls : ReloadingTls N N := mkReloadingTls "cp.crt" "cp.key" "ca.crt" "crl.pem" 1%N 1%N.

Lemma started_system_safe_witness :
  exists s, sys_cp (sys_init (mkNet 167772160 16) (mkNet 167836160 24)) = Some s /\ @cp_wf ipnet_model s.
Proof.
  assert (demo_cp_main (cp_args "10.0.250.0/24")
          = Val (sys_init (mkNet 167772160 16) (mkNet 167836160 24), demo_tls)) as E
    by (vm_compute; reflexivity).
  destruct (@started_system_safe list_order ipnet_model yaml_error yaml_register yaml_statuses
    yaml_replicas yaml_summaries yaml_entries yaml_registration yaml_heartbeat yaml_jail yaml_service
    N N id _ _ _ _ _ E) as (config & cluster & service & _ & _ & _ & Ei & H).
  injection Ei as _ Es. rewrite <-Es in H.
  apply (proj1 (H ltac:(vm_compute; reflexivity) _ (rtc_refl _ _))).
Defined.

Definition web_service_spec : ServiceSpec :=
  mkServiceSpec "keel/v1" "Service" (mkMetadata "web") (mkServiceSpecBody 1 8080 template_web).

Lemma zero_service_network_kills_worker_witness :
  exists sys, rtc demo_step (sys_init (mkNet 167772160 16) (mkNet 0 0)) sys /\ sys_cp sys = None.
Proof.
  assert (demo_cp_main (cp_args "0.0.0.0/0")
          = Val (sys_init (mkNet 167772160 16) (mkNet 0 0), demo_tls)) as E by (vm_compute; reflexivity).
  assert (demo_cp_parse (cp_args "0.0.0.0/0")
          = Val (mkCpConfig "0.0.0.0:7620" (Some (mkNet 167772160 16)) (Some (mkNet 0 0)) (Some "ca.crt")
                   (Some "cp.crt") (Some "cp.key") (Some "crl.pem"))) as Ep by (vm_compute; reflexivity).
  assert (@parse_and_validate_service yaml_service
            (from_utf8_lossy (@to_yaml _ _ yaml_service web_service_spec)) = Ok web_service_spec) as Es
    by (vm_compute; reflexivity).
  destruct (@zero_service_network_kills_worker list_order ipnet_model yaml_error yaml_register
    yaml_statuses yaml_replicas yaml_summaries yaml_entries yaml_registration yaml_heartbeat yaml_jail
    yaml_service N N id _ _ _ _ _ _ (mkNet 0 0) _ _ E Ep eq_refl eq_refl Es) as (sys & Hr & Hd & _).
  by exists sys.
Defined.

(** A host on which every tool prints [4], and a node that joins a cluster. *)
#[local] Instance sysctl_host : Host unit := {|
  exec_piped _ _ _ h := (Err EmptyString, h);
  exec _ _ _ h := (done_ok "4", h);
  spawn _ _ h := (Ok 1%N, h);
  finished _ _ := true;
  wait _ h := h;
  create_dir_all _ h := (Ok tt, h);
  write_file _ _ h := (Ok tt, h);
  rename _ _ h := (Ok tt, h)
|}.
Definition node_args : list string :=
  ["--node-id"; "node-1"; "--control-plane-addr"; "10.0.0.1:7620"; "--advertise-addr"; "10.0.0.5:7621";
   "--replicate-addr"; "10.0.0.5:7622"; "--tls-ca-file"; "ca.crt"; "--tls-cert-file"; "node.crt";
   "--tls-key-file"; "node.key"; "--tls-crl-file"; "crl.pem"].
Definition node_config : AgentConfig :=
  mkAgentConfig "zroot" "/var/db/keel" "/var/run/keel-agentd.sock" (Some "node-1") (Some "10.0.0.1:7620")
    (Some "10.0.0.5:7621") (Some "10.0.0.5:7622") (Some "ca.crt") (Some "node.crt") (Some "node.key")
    (Some "crl.pem") None None None None.

Lemma agent_boots_witness :
  exists a su p (tls : ReloadingTls N N) cpu memory,
    @agent_main list_order ipnet_model yaml_jail_record yaml_ingress_record yaml_replica_target
      _ _ _ _ _ _ _ _ N N fake_jail_runtime fake_zfs_manager (@fake_net_manager ipnet_model)
      fake_mount_manager (@fake_acme FakeDnsProvider fake_dns) fake_nginx sysctl_host demo_clock su
      node_args = Val p /\
    demo_reach a /\ rc_records (ag_rc (ap_agent p)) = rc_records (ag_rc a) /\
    ap_registration p =
      Some (mkNodeConfig "10.0.0.1:7620" "node-1" "10.0.0.5:7621" "10.0.0.5:7622" cpu memory, tls).
Proof.
  destruct demo_two_jails as (a & Ha & _).
  set (su := mkStartup fake_jail_new (mkFakeZfsManager ∅ ∅ ∅) (mkFakeNetManager ∅ ∅ ∅ ∅ ∅)
    (mkFakeMountManager ∅) (fun _ => mkFakeNginx ∅ false ∅) (fun _ => Panic)
    (fun _ => Val (mkFakeAcme false)) (fun _ => mkFakeDns ∅ false)
    (fun _ => with_files (dk_files (rc_disk (ag_rc a))) empty_disk)
    (fun _ => with_files (dk_files (rc_ingress_disk (ag_rc a))) empty_disk)
    (fun _ => empty_disk) (fun _ => empty_disk) tt (tls_good 1) bind_any).
  destruct (@agent_boots list_order ipnet_model yaml_jail_record yaml_ingress_record yaml_replica_target
    _ _ _ _ _ _ _ _ _ _ fake_jail_runtime fake_zfs_manager (@fake_net_manager ipnet_model)
    fake_mount_manager (@fake_acme FakeDnsProvider fake_dns) fake_nginx sysctl_host demo_clock su
    node_args node_config a ∅)
    as (p & E & Hr & _ & _ & _ & _ & _ & tls & cpu & memory & Hreg);
    [vm_compute; reflexivity|exact Ha| |].
  - split; try done.
    + by exists UseFakeAcme, (mkFakeAcme false).
    + by eexists.
    + by eexists.
  - exists a, su, p, tls, cpu, memory. exact (conj E (conj Ha (conj Hr Hreg))).
Defined.
