(* ===== verification/Cluster.v ===== *)
(** * The cluster

    The control plane and the node agents as one transition system, with the
    requests between them in flight: the threads of [CpConcurrency] whose forwarded
    requests reach the agents of [AgentHttp], late or not at all;
    the registration loops of [Registration], which connect to those threads;
    crashes and restarts of the agents on their files and of the control plane on
    nothing; clients of either side.  Safety of the whole. *)

From stdpp Require Import relations.
From S2P Require Import Prelude RustStr Text HttpMsg HttpFraming Float64 Ipnet SockAddr Spec Subnet Wire Codecs.
From S2P Require Import Tables Registry Scheduler Addresses Services CpWorker CpReconcile CpCommands CpHttp CpSystem.
From S2P Require Import CpConcurrency Backoff AgentHost Store Ingress Reconciler ReconcilerInv AgentFakes AgentIsolation AgentWorker.
From S2P Require Import Replication AgentHttp Deploy Channel Proxy Registration HostCli Tls Executables.

(** ** What the registration loop asks of the worker *)

Definition loop_command (c : AgentCommand) : bool :=
  match c with
  | AgCommittedResources | AgGet _ => true
  | _ => net_command c
  end.

(** The length of a body is read back before the body itself. *)
Lemma request_text_body method path b1 b2 :
  request_text method path b1 = request_text method path b2 -> b1 = b2.
Proof.
  unfold request_text. intros H. do 8 apply app_inv_l_str in H.
  apply (sep_first_inj CR _ (String LF (CRLF +:+ b1)) _ (String LF (CRLF +:+ b2))) in H as [_ H];
    [|apply digits_no_char; [done|apply u_to_string_digits]..].
  injection H as H. by apply app_inv_l_str in H.
Qed.

Section loop_commands.
Context {HO : HashOrder} {HP : Httparse} {I : Ipnet}.
Context {YRR : SerdeYaml RegisterResponse} {YHB : SerdeYaml Heartbeat}
        {YNS : SerdeYaml (list NodeStatus)} {YPE : SerdeYaml (list ServiceProxyEntry)}.
Context (f64_to_string : f64 -> string).
Context {W : Type} {NW : NetWorker W} (share_vips : ServiceVipSlot -> W -> W).
(** What every such command keeps of the worker, the loop keeps. *)
Context (P : W -> Prop).
Context (Hsend : forall c w, loop_command c = true -> P w -> P (send c w).2).
Context (Hshare : forall vips w, P w -> P (share_vips vips w)).

Lemma remove_services_keeps gone proxied w : P w -> P (remove_services gone proxied w).2.
Proof.
  revert proxied w. induction gone as [|name gone IH]; intros proxied w Hw; cbn; [done|].
  destruct (proxied !! name); apply IH; [by apply Hsend|done].
Qed.

Lemma apply_entries_keeps bind entries proxied w :
  P w -> P (apply_entries bind entries proxied w).2.
Proof.
  revert proxied w. induction entries as [|e entries IH]; intros proxied w Hw; cbn; [done|].
  assert (P (apply_entry bind e proxied w).2) as H.
  { unfold apply_entry. destruct (proxied !! pe_name e); [done|].
    pose proof (Hsend (AgAddServiceAlias PROXY_BRIDGE (pe_vip e)) w eq_refl Hw) as H.
    destruct (send _ w) as [reply w']. cbn in H. by repeat case_match. }
  destruct (apply_entry bind e proxied w) as [proxied' w']. by apply IH.
Qed.

Lemma reconcile_services_keeps bind entries proxied w :
  P w -> P (Proxy.reconcile_services bind entries proxied w).2.
Proof.
  intros Hw. unfold Proxy.reconcile_services.
  pose proof (remove_services_keeps (filter (fun name => name ∉ (list_to_set (pe_name <$> entries) : gset string))
    (hash_iter proxied).*1) proxied w Hw) as H.
  destruct (remove_services _ _ w) as [proxied' w']. by apply apply_entries_keeps.
Qed.

Lemma heartbeat_once_keeps link addr id w : P w -> P (heartbeat_once link addr id w).2.
Proof.
  intros Hw. unfold heartbeat_once. pose proof (Hsend AgCommittedResources w eq_refl Hw) as H1.
  destruct (send AgCommittedResources w) as [reply w1]. destruct reply as [| |[| | | | |]]; try done.
  pose proof (Hsend (AgGet None) w1 eq_refl H1) as H2.
  destruct (send (AgGet None) w1) as [reply w2]. by destruct reply as [| |[| | | | |]].
Qed.

Lemma contact_keeps c link bind st :
  P (ls_worker st) -> P (ls_worker (contact f64_to_string share_vips c link bind st)).
Proof.
  intros Hw. unfold contact. destruct (negb _); [by destruct (register_once _ _ _)|].
  pose proof (heartbeat_once_keeps link (nc_control_plane_addr c) (nc_node_id c) _ Hw) as H.
  destruct (heartbeat_once _ _ _ _) as [[entries|e] w]; [|done].
  pose proof (reconcile_services_keeps bind entries (ls_proxied_services st)
    (share_vips (vips_set_all entries) w) (Hshare _ _ H)) as H'.
  by destruct (Proxy.reconcile_services _ _ _ _) as [proxied w'].
Qed.

Lemma remove_routes_keeps gone installed w : P w -> P (remove_routes gone installed w).2.
Proof.
  revert installed w. induction gone as [|c gone IH]; intros installed w Hw; cbn; [done|].
  pose proof (Hsend (AgRemoveRoute c) w eq_refl Hw) as H. destruct (send _ w) as [reply w'].
  by destruct reply as [| |[|[]| | | |]]; auto.
Qed.

Lemma add_routes_keeps peers to_add installed w : P w -> P (add_routes peers to_add installed w).2.
Proof.
  revert installed w. induction to_add as [|[c g] to_add IH]; intros installed w Hw; cbn; [done|].
  pose proof (Hsend (AgAddRoute c (gateway_of g)) w eq_refl Hw) as H. destruct (send _ w) as [reply w'].
  by destruct reply as [| |[|[]| | | |]]; auto.
Qed.

Lemma refresh_routes_keeps c link st :
  P (ls_worker st) -> P (ls_worker (refresh_routes c link st)).
Proof.
  intros Hw. unfold refresh_routes. destruct (fetch_nodes _ _) as [peers|]; [|done].
  unfold reconcile_routes. destruct (diff_routes _ _ _) as [to_add to_remove].
  pose proof (remove_routes_keeps to_remove (ls_installed_routes st) _ Hw) as H.
  destruct (remove_routes _ _ _) as [[[] inst] w]; [|done].
  pose proof (add_routes_keeps peers to_add inst w H) as H'.
  by destruct (add_routes _ _ _ _) as [inst' w'].
Qed.
End loop_commands.

(** ** State *)

Section cluster.
Context {HO : HashOrder} {HP : Httparse} {I : Ipnet} {YJR : SerdeYaml JailRecord} {YIR : SerdeYaml IngressRecord}
        {YRT : SerdeYaml ReplicaTarget}.
Context {YE : SerdeYaml ErrorBody} {YRR : SerdeYaml RegisterResponse}
        {YNS : SerdeYaml (list NodeStatus)} {YSR : SerdeYaml (list ServiceReplica)}
        {YSS : SerdeYaml (list ServiceSummary)} {YPE : SerdeYaml (list ServiceProxyEntry)}
        {YNR : SerdeYaml NodeRegistration} {YHB : SerdeYaml Heartbeat}
        {YJ : SerdeYaml JailSpec} {YS : SerdeYaml ServiceSpec}.
Context {YIS : SerdeYaml IngressSpec} {YRB : SerdeYaml ReplicateToBody} {YJS : SerdeYaml JailStatus}
        {YJL : SerdeYaml (list JailStatus)} {YIG : SerdeYaml IngressStatus}
        {YIL : SerdeYaml (list IngressStatus)} {YVS : SerdeYaml VolumeStatus}
        {YRS : SerdeYaml ReplicaTargetStatus}.
Context {J Zf M A D X Hst TS TC : Type}.
Context {HJ : JailRuntime J} {HZ : ZfsManager Zf} {HM : MountManager M}
        {HA : AcmeClient A D} {HX : NginxController X} {HH : Host Hst}.
Context (f64_to_string : f64 -> string) (str_debug : string -> string).
(** The networks the control plane is started with. *)
Context (cluster service : Ipv4Net).

Notation Agent := (@Agent J Zf FakeNetManager M A D X).
Notation Startup := (@Startup J Zf FakeNetManager M A D X Hst TS TC).
Notation AgentProcess := (@AgentProcess J Zf FakeNetManager M A D X TS TC).
Notation address_of record := (net_address (sp_network (js_spec (jr_spec record)))).

(** An agent's process: its worker and what the registration loop keeps, with the
    cells they share.  [nd_early] is a ghost: the jails that were recorded while
    the process had no pod subnet to check their addresses against. *)
Record Node : Type := mkNode {
  nd_config : NodeConfig;
  nd_loop : LoopState (W := option Agent);
  nd_targets : ReplicaTargetRegistry;
  nd_early : gset string
}.

(** [cl_requests] holds the request each thread of the control plane answers;
    [cl_flight] the forwarded requests whose sender has given up, and which may
    still reach the node. *)
Record Cluster : Type := mkCluster {
  cl_sys : Sys;
  cl_requests : list ParsedRequest;
  cl_nodes : gmap string Node;
  cl_flight : list request
}.

Definition nd_worker (nd : Node) : option Agent := ls_worker (nd_loop nd).
Definition nd_slot (nd : Node) : PodCidrSlot := ls_pod_cidr_slot (nd_loop nd).
Definition with_worker (w : option Agent) (nd : Node) : Node :=
  let l := nd_loop nd in
  mkNode (nd_config nd)
    (mkLoop (ls_registered l) (ls_installed_routes l) (ls_proxied_services l) (ls_pod_cidr_slot l)
       (ls_service_vips l) w) (nd_targets nd) (nd_early nd).
Definition with_loop (l : LoopState) (nd : Node) : Node :=
  mkNode (nd_config nd) l (nd_targets nd) (nd_early nd).
Definition with_early (names : gset string) (nd : Node) : Node :=
  mkNode (nd_config nd) (nd_loop nd) (nd_targets nd) (names ∪ nd_early nd).
Definition node_shared (nd : Node) : Shared :=
  mkShared (nd_slot nd) (ls_service_vips (nd_loop nd)) (nd_targets nd).

Definition records_of (w : option Agent) : gmap string JailRecord :=
  match w with
  | Some a => rc_records (ag_rc a)
  | None => ∅
  end.
Definition new_names (old new : option Agent) : gset string :=
  dom (records_of new) ∖ dom (records_of old).

(** The agent answers a request. *)
Definition node_serve (ck : Clock) (req : ParsedRequest) (nd : Node) : response * Node :=
  let '(resp, w) := serve ck (agent_route req (node_shared nd)) (nd_worker nd) in
  (resp, with_early match nd_slot nd with
                    | None => new_names (nd_worker nd) w
                    | Some _ => ∅
                    end (with_worker w nd)).

(** The reconciler reads the services' addresses from the cell the loop writes. *)
Definition share_agent_vips (vips : ServiceVipSlot) (w : option Agent) : option Agent :=
  (fun a => let s := ag_rc a in
     mkAgent (mkReconciler (rc_jails s) (rc_zfs s) (rc_net s) (rc_mounts s) (rc_pool s) (rc_disk s)
                (rc_ingress_disk s) (rc_cert_disk s) (rc_records s) (rc_backoff s)
                (rc_next_epair_ordinal s) (rc_ingress_records s) (rc_ingress_backoff s) (rc_acme s)
                (rc_dns s) (rc_nginx s) vips) (ag_replicating a)) <$> w.

Definition node_contact (ck : Clock) (link : Link) (bind : string -> result string unit) (nd : Node) : Node :=
  with_loop (contact (NW := agent_channel ck) f64_to_string share_agent_vips (nd_config nd) link bind
               (nd_loop nd)) nd.
Definition node_refresh (ck : Clock) (link : Link) (nd : Node) : Node :=
  with_loop (refresh_routes (NW := agent_channel ck) (nd_config nd) link (nd_loop nd)) nd.

Definition parsed (rq : request) : ParsedRequest :=
  mkParsedRequest (rq_method rq) (rq_path rq) (rq_body rq).

(** ** Connections to the control plane *)

(** A thread of the control plane has answered that request. *)
Definition answered (cl : Cluster) (req : ParsedRequest) (resp : response) : Prop :=
  exists i, cl_requests cl !! i = Some req /\ sys_threads (cl_sys cl) !! i = Some (Ret resp).

(** What an agent's connection brings back for such a request: nothing, an answer
    to one, or a part of it.  The agent may have computed the body of a heartbeat
    some time before. *)
Definition link_of (cl : Cluster) (method path : string) (link : Link) : Prop := forall body reads,
  link (request_text method path body) = Ok reads ->
  exists req resp, answered cl req resp /\ pr_method req = method /\ pr_path req = path /\
    (path = "/nodes/register" -> pr_body req = body) /\
    (delivers_whole reads resp \/ delivers_cut reads resp) /\ (str_len resp.2 <= u64_max)%N.

(** The path of the next [POST] of the registration loop. *)
Definition contact_path (nd : Node) : string :=
  if ls_registered (nd_loop nd) then "/nodes/" +:+ nc_node_id (nd_config nd) +:+ "/heartbeat"
  else "/nodes/register".

(** ** Processes *)

(** What an operator keeps to: the registration text of a node's flags reads back
    as that node's id, and ids are distinct ([cl_nodes] is a map). *)
Definition plain_id (c : NodeConfig) : Prop := forall reg,
  from_yaml (registration_text f64_to_string c) = Ok reg -> reg_id reg = nc_node_id c.

Record readable_disks (su : Startup) (dir : string) : Prop := {
  rd_disk : readable (su_disk su dir);
  rd_ingress : readable (su_ingress_disk su dir)
}.

(** The process of a node that [main] has started. *)
Definition booted (p : AgentProcess) (c : NodeConfig) (early : gset string) : Node :=
  mkNode c (loop_start (ap_pod_cidr_slot p) vips_new (Some (ap_agent p))) (ap_replica_targets p) early.

Definition starts (ck : Clock) (su : Startup) (args : list string) (dir : string) (c : NodeConfig)
    (p : AgentProcess) : Prop :=
  agent_main ck su args = Val p /\ fst <$> ap_registration p = Some c /\ plain_id c /\
  readable_disks su dir /\ exists config, agent_parse_args_from args = Val config /\ ac_state_dir config = dir.

(** ** Steps *)

Definition forwarded (sys : Sys) (i : nat) (rq : request) (k : result string response -> prog response)
    (resp : result string response) : Sys :=
  mkSys (sys_cp sys) (<[i := k resp]> (sys_threads sys)) (sys_log sys ++ [(rq, resp)]).

Inductive cstep : Cluster -> Cluster -> Prop :=
  (** A client connects to the control plane. *)
  | cs_accept cl req :
      cstep cl (mkCluster (mkSys (sys_cp (cl_sys cl)) (sys_threads (cl_sys cl) ++ [route str_debug req])
                             (sys_log (cl_sys cl)))
                  (cl_requests cl ++ [req]) (cl_nodes cl) (cl_flight cl))
  (** A thread of the control plane is answered by its worker. *)
  | cs_worker cl sys :
      step str_debug (cl_sys cl) sys -> sys_log sys = sys_log (cl_sys cl) ->
      length (sys_threads sys) = length (sys_threads (cl_sys cl)) ->
      cstep cl (mkCluster sys (cl_requests cl) (cl_nodes cl) (cl_flight cl))
  (** A forwarded request reaches the node; its answer comes back or is lost. *)
  | cs_forward cl i rq k id nd ck resp nd' answer :
      sys_threads (cl_sys cl) !! i = Some (Forward rq k) ->
      cl_nodes cl !! id = Some nd -> nc_advertise_addr (nd_config nd) = rq_addr rq ->
      unix_ok (ck_unix ck) -> node_serve ck (parsed rq) nd = (resp, nd') ->
      answer = Ok resp \/ is_ok answer = false ->
      cstep cl (mkCluster (forwarded (cl_sys cl) i rq k answer) (cl_requests cl)
                  (<[id := nd']> (cl_nodes cl)) (cl_flight cl))
  (** The connection fails; the request may or may not have left. *)
  | cs_unanswered cl i rq k answer flight :
      sys_threads (cl_sys cl) !! i = Some (Forward rq k) -> is_ok answer = false ->
      flight = cl_flight cl \/ flight = rq :: cl_flight cl ->
      cstep cl (mkCluster (forwarded (cl_sys cl) i rq k answer) (cl_requests cl) (cl_nodes cl) flight)
  (** A request arrives after its sender has given up. *)
  | cs_late cl sys requests nodes before rq after id nd ck resp nd' :
      cl = mkCluster sys requests nodes (before ++ rq :: after) ->
      nodes !! id = Some nd -> nc_advertise_addr (nd_config nd) = rq_addr rq ->
      unix_ok (ck_unix ck) -> node_serve ck (parsed rq) nd = (resp, nd') ->
      cstep cl (mkCluster sys requests (<[id := nd']> nodes) (before ++ after))
  (** A client of the agent's own sockets. *)
  | cs_client cl req id nd ck resp nd' :
      cl_nodes cl !! id = Some nd -> unix_ok (ck_unix ck) -> node_serve ck req nd = (resp, nd') ->
      cstep cl (mkCluster (cl_sys cl) (cl_requests cl) (<[id := nd']> (cl_nodes cl)) (cl_flight cl))
  (** The two halves of an iteration of the registration loop. *)
  | cs_contact cl id nd ck link bind :
      cl_nodes cl !! id = Some nd -> unix_ok (ck_unix ck) -> link_of cl "POST" (contact_path nd) link ->
      cstep cl (mkCluster (cl_sys cl) (cl_requests cl)
                  (<[id := node_contact ck link bind nd]> (cl_nodes cl)) (cl_flight cl))
  | cs_refresh cl id nd ck link :
      cl_nodes cl !! id = Some nd -> unix_ok (ck_unix ck) -> link_of cl "GET" "/nodes" link ->
      cstep cl (mkCluster (cl_sys cl) (cl_requests cl)
                  (<[id := node_refresh ck link nd]> (cl_nodes cl)) (cl_flight cl))
  (** The worker's timer. *)
  | cs_tick cl id nd ck :
      cl_nodes cl !! id = Some nd -> unix_ok (ck_unix ck) ->
      cstep cl (mkCluster (cl_sys cl) (cl_requests cl)
                  (<[id := with_worker (send_agent ck AgTick (nd_worker nd)).2 nd]> (cl_nodes cl))
                  (cl_flight cl))
  (** The host of a node changes, or its table of replica targets. *)
  | cs_host cl id nd a s targets :
      cl_nodes cl !! id = Some nd -> nd_worker nd = Some a -> host_change (ag_rc a) s ->
      cstep cl (mkCluster (cl_sys cl) (cl_requests cl)
                  (<[id := mkNode (nd_config nd) (nd_loop (with_worker (Some (mkAgent s (ag_replicating a))) nd))
                             targets (nd_early nd)]> (cl_nodes cl)) (cl_flight cl))
  (** A new node joins with empty disks. *)
  | cs_join cl ck su args dir c p :
      starts ck su args dir c p -> cl_nodes cl !! nc_node_id c = None ->
      dk_files (su_disk su dir) = ∅ -> dk_files (su_ingress_disk su dir) = ∅ ->
      cstep cl (mkCluster (cl_sys cl) (cl_requests cl)
                  (<[nc_node_id c := booted p c ∅]> (cl_nodes cl)) (cl_flight cl))
  (** An agent stops, or crashes, and starts again on its files. *)
  | cs_restart cl ck su args dir c p nd a :
      starts ck su args dir c p -> cl_nodes cl !! nc_node_id c = Some nd -> nd_worker nd = Some a ->
      dk_files (su_disk su dir) = dk_files (rc_disk (ag_rc a)) ->
      dk_files (su_ingress_disk su dir) = dk_files (rc_ingress_disk (ag_rc a)) ->
      cstep cl (mkCluster (cl_sys cl) (cl_requests cl)
                  (<[nc_node_id c := booted p c (nd_early nd)]> (cl_nodes cl)) (cl_flight cl))
  (** The control plane stops and starts again, with nothing. *)
  | cs_control_plane_restart cl :
      cstep cl (mkCluster (sys_init cluster service) [] (cl_nodes cl) (cl_flight cl)).

Definition cluster_init : Cluster := mkCluster (sys_init cluster service) [] ∅ [].

(** ** Jails stay in their node's block *)

(** The address of the record lies in the block derived from the node's id. *)
Definition in_block (id : string) (record : JailRecord) : Prop :=
  exists n net, ipnet_parse (address_of record) = Ok (inl n) /\
    derive_pod_cidr id cluster = Val net /\ net_contains net (net_addr n) = true.

Definition worker_ok (id : string) (early : gset string) (w : option Agent) : Prop := forall a,
  w = Some a -> agent_inv (ag_rc a) /\
  forall name record, rc_records (ag_rc a) !! name = Some record -> name ∉ early -> name <> "ingress" ->
    in_block id record.

Lemma in_block_same id r r' : address_of r' = address_of r -> in_block id r -> in_block id r'.
Proof. intros E (n & net & H). exists n, net. by rewrite E. Qed.

Lemma send_worker_ok id early names ck c w :
  command_ok ck c -> worker_ok id early w ->
  (forall name record, records_of (send_agent ck c w).2 !! name = Some record ->
     records_of w !! name = None -> c = AgApply (jr_spec record) -> jail_valid (jr_spec record) ->
     name ∉ names -> in_block id record) ->
  worker_ok id (names ∪ early) (send_agent ck c w).2.
Proof.
  intros Hc Hw Hnew a' Ea'. destruct w as [a|]; [|done]. destruct (Hw a eq_refl) as [Hinv Hrec].
  unfold send_agent in *. destruct (AgentWorker.handle_command ck c a) as [[[reply sp] a1]|] eqn:E; [|done].
  cbn [snd] in Ea', Hnew. injection Ea' as ->.
  assert (agent_inv (ag_rc a')) as Hinv' by (by eapply handle_command_keeps). split; [done|].
  intros name record Hr Hne Hing.
  destruct (handle_command_addresses _ _ _ _ _ _ _ _ Hc E Hinv Hr Hing) as [(old & Ho & Ea)|[-> Ho]].
  - eapply in_block_same; [exact Ea|]. eapply Hrec; [exact Ho|set_solver|done].
  - eapply (Hnew name); [done|done|done|by eapply ai_valid|set_solver].
Qed.

(** A command that applies nothing. *)
Lemma send_quiet_ok id early ck c w :
  command_ok ck c -> (forall spec, c <> AgApply spec) -> worker_ok id early w ->
  worker_ok id early (send_agent ck c w).2.
Proof.
  intros Hc Hq Hw. rewrite <- (union_empty_l_L early). apply send_worker_ok; [done|done|].
  intros name record _ _ E. by destruct (Hq _ E).
Qed.

(** ** What a request makes an agent do *)

Definition one_command (Q : AgentCommand -> Prop) (p : aprog) : Prop :=
  match p with
  | ARet _ => True
  | ASend c k => Q c /\ forall reply, exists resp, k reply = ARet resp
  end.

Lemma serve_one (Q : AgentCommand -> Prop) ck p (w : option Agent) :
  one_command Q p -> (serve ck p w).2 = w \/ exists c, Q c /\ (serve ck p w).2 = (send_agent ck c w).2.
Proof.
  destruct p as [r|c k]; cbn; [by left|]. intros [Hc Hk]. right. exists c. split; [done|].
  destruct (send_agent ck c w) as [reply w']. by destruct (Hk reply) as [resp ->].
Qed.

Definition checked_command (slot : PodCidrSlot) (c : AgentCommand) : Prop :=
  match c with
  | AgApply spec => outside_subnet slot (net_address (sp_network (js_spec spec))) = None
  | AgApplyIngress spec => repr spec
  | _ => True
  end.

Lemma send_result_one Q c ok : Q c -> one_command Q (send_result c ok).
Proof. intros Hc. split; [done|]. intros reply. by eexists. Qed.

Lemma agent_route_commands req sh :
  one_command (checked_command (sh_pod_cidr_slot sh)) (agent_route req sh).
Proof.
  unfold agent_route. cbn zeta.
  assert (forall name body, one_command (checked_command (sh_pod_cidr_slot sh)) (handle_apply name body sh)) as Ha.
  { intros name body. unfold handle_apply. cbn zeta. repeat case_match; try done. by apply send_result_one. }
  assert (forall name body, one_command (checked_command (sh_pod_cidr_slot sh)) (handle_apply_ingress name body sh))
    as Hi.
  { intros name body. unfold handle_apply_ingress. cbn zeta. repeat case_match; try done.
    apply send_result_one. by eapply from_yaml_repr. }
  assert (forall name body, one_command (checked_command (sh_pod_cidr_slot sh)) (handle_set_replicate_to name body))
    as Hs by (intros name body; unfold handle_set_replicate_to; repeat case_match; try done; by apply send_result_one).
  assert (forall n, one_command (checked_command (sh_pod_cidr_slot sh)) (handle_get n)) as Hg
    by (intros n; split; [done|]; intros reply; by eexists).
  assert (forall n, one_command (checked_command (sh_pod_cidr_slot sh)) (handle_get_ingress n)) as Hgi
    by (intros n; split; [done|]; intros reply; by eexists).
  repeat case_match; auto; try by apply send_result_one. all: done.
Qed.

(** A jail that passed the test of [handle_apply] is in the block. *)
Lemma outside_subnet_in_block id net record :
  derive_pod_cidr id cluster = Val net -> jail_valid (jr_spec record) ->
  outside_subnet (Some net) (address_of record) = None -> in_block id record.
Proof.
  intros Hd (_ & Ha & _) Ho. unfold outside_subnet, pod_cidr_slot_get in Ho. unfold validate_address in Ha.
  unfold in_block. destruct (ipnet_parse (address_of record)) as [[n|n]|] eqn:E; [|done|done].
  exists n, net. split; [done|]. split; [done|]. by destruct (net_contains net (net_addr n)).
Qed.

Record node_ok (id : string) (nd : Node) : Prop := {
  no_id : nc_node_id (nd_config nd) = id;
  no_plain : plain_id (nd_config nd);
  no_slot : forall net, nd_slot nd = Some net -> derive_pod_cidr id cluster = Val net;
  no_worker : worker_ok id (nd_early nd) (nd_worker nd)
}.

Lemma node_serve_ok id ck req nd resp nd' :
  unix_ok (ck_unix ck) -> node_ok id nd -> node_serve ck req nd = (resp, nd') -> node_ok id nd'.
Proof.
  intros Hu [Hid Hpl Hslot Hw] E. unfold node_serve in E.
  pose proof (serve_one _ ck _ (nd_worker nd) (agent_route_commands req (node_shared nd))) as Hs.
  destruct (serve _ _ _) as [r w']. injection E as _ <-. cbn [snd] in Hs.
  split; [done|done|done|]. unfold with_early, with_worker. cbn [nd_early nd_worker nd_loop ls_worker].
  change (sh_pod_cidr_slot (node_shared nd)) with (nd_slot nd) in Hs.
  destruct Hs as [->|(c & Hc & ->)].
  { intros a Ha. destruct (Hw a Ha) as [Hinv Hr]. split; [done|]. intros name record Hn He. apply (Hr name); [done|].
    set_solver. }
  apply send_worker_ok; [|done|].
  - split; [done|]. by destruct c.
  - intros name record Hr Ho -> Hv Hn. destruct (nd_slot nd) as [net|] eqn:Esl.
    + eapply outside_subnet_in_block; [by apply Hslot|done|exact Hc].
    + exfalso. apply Hn. unfold new_names. apply elem_of_difference. by rewrite elem_of_dom, not_elem_of_dom, Hr.
Qed.

Lemma share_vips_ok id early vips w : worker_ok id early w -> worker_ok id early (share_agent_vips vips w).
Proof.
  intros Hw a (a0 & -> & ->)%fmap_Some. destruct (Hw a0 eq_refl) as [Hinv Hr]. split; [|done].
  by apply (host_change_keeps (ag_rc a0)).
Qed.

(** ** The control plane's tables *)

Record cp_inv (s : CP) : Prop := {
  ci_wf : cp_wf s;
  ci_cluster : rg_cluster_cidr (cp_registry s) = cluster;
  ci_services : services_valid s
}.

Definition valid_service (name : string) (t : JailTemplate) : Prop :=
  name_valid name = true /\
  is_ok (parse_cpu_cores (res_cpu (t_resources t))) = true /\
  is_ok (parse_memory_bytes (res_memory (t_resources t))) = true.
Definition valid_command {R} (c : Command R) : Prop :=
  command_in_range c /\
  match c with
  | ApplyService name _ t _ => valid_service name t
  | _ => True
  end.

Lemma services_apply_valid sv name replicas t port res sv' svc rec :
  services_apply sv name replicas t port = Val (res, sv') -> svs_by_name sv' !! svc = Some rec ->
  (exists rec0, svs_by_name sv !! svc = Some rec0 /\ sv_template rec0 = sv_template rec) \/
  (svc = name /\ sv_template rec = t).
Proof.
  unfold services_apply. destruct (svs_by_name sv !! name) as [old|] eqn:E.
  - destruct (bool_decide_reflect (sv_template old = t)) as [Et|_]; cbn [negb]; [|intros [= _ <-]; eauto].
    destruct (negb _); intros [= _ <-]; [eauto|]. cbn.
    intros [[<- <-]|[_ H]]%lookup_insert_Some; [by right|eauto].
  - intros (n & _ & H1)%bind_Val. apply bind_Val in H1 as (found & _ & H2).
    destruct found as [vip|]; injection H2 as _ <-; [|eauto]. cbn.
    intros [[<- <-]|[_ H]]%lookup_insert_Some; [by right|eauto].
Qed.

Lemma handle_command_inv {R} now (c : Command R) s :
  cp_inv s -> valid_command c -> exists r s', CpWorker.handle_command now c s = Val (r, s') /\ cp_inv s'.
Proof.
  intros [Hwf Hcl Hsv] [Hr Hv]. destruct (handle_command_step now c s Hwf Hr) as (r & s' & E & Hwf').
  exists r, s'. split; [done|]. split; [done| |].
  - destruct c; cbn in E; try (injection E as _ <-; done).
    + apply bind_Val in E as ([res rg] & E & H). injection H as _ <-.
      destruct (register_inv _ _ _ _ _ _ _ _ _ (cwf_registry _ Hwf) E) as [_ Ec]. cbn. congruence.
    + destruct (heartbeat _ _ _ _ _ _) as [res rg] eqn:Eh. injection E as _ <-.
      destruct (heartbeat_inv _ _ _ _ _ _ _ _ (cwf_registry _ Hwf) Eh) as [_ Ec]. cbn. congruence.
    + unfold apply_service in E. destruct (name_conflict _ _ _ _); [by injection E as _ <-|].
      apply bind_Val in E as ([res sv] & E & H). by injection H as _ <-.
    + unfold delete_service in E. destruct (services_get _ _); by injection E as _ <-.
  - intros svc rec Hl. destruct c; cbn in E; try (injection E as _ <-; by eapply Hsv).
    + apply bind_Val in E as ([res rg] & _ & H). injection H as _ <-. by eapply Hsv.
    + destruct (heartbeat _ _ _ _ _ _). injection E as _ <-. by eapply Hsv.
    + unfold apply_service in E. destruct (name_conflict _ _ _ _); [injection E as _ <-; by eapply Hsv|].
      apply bind_Val in E as ([res sv] & E & H). injection H as _ <-.
      destruct (services_apply_valid _ _ _ _ _ _ _ _ _ E Hl) as [(rec0 & H0 & <-)|[-> ->]]; [|done].
      by eapply Hsv.
    + unfold delete_service in E. destruct (services_get _ _); injection E as _ <-; [|by eapply Hsv].
      unfold services_get in Hl. cbn in Hl. apply lookup_delete_Some in Hl as [_ Hl]. by eapply Hsv.
Qed.

Lemma route_valid req : prog_sends (@valid_command) (route str_debug req).
Proof.
  apply route_sends.
  - by intros R [].
  - intros body reg E. split; [apply (from_yaml_repr _ _ E)|done].
  - intros id body hb E. split; [apply (from_yaml_repr _ _ E)|done].
  - intros text spec (E & Hn & ((c & Hc) & (b & Hb) & _) & _)%parse_and_validate_service_Ok.
    apply from_yaml_repr in E as [E _]. split; [done|]. unfold valid_service. by rewrite Hc, Hb.
Qed.

(** ** What a registration is answered *)

(** An answer with a 2xx carries the block of the node that asked. *)
Definition answer_ok (req : ParsedRequest) (resp : response) : Prop :=
  pr_method req = "POST" -> pr_path req = "/nodes/register" ->
  (100 <= resp.1 <= 999)%N /\
  (is_2xx resp.1 = true -> exists reg net, from_yaml (pr_body req) = Ok reg /\
     derive_pod_cidr (reg_id reg) cluster = Val net /\
     resp.2 = to_yaml (mkRegisterResponse (net_to_string net))).

Lemma route_answers req : answers_with cp_inv (answer_ok req) (route str_debug req).
Proof.
  destruct (decide (pr_method req = "POST" /\ pr_path req = "/nodes/register")) as [[Hm Hp]|Hne].
  2: { apply answers_with_any. intros resp Hm Hp. by destruct Hne. }
  assert (route str_debug req = handle_register (pr_body req)) as ->
    by (destruct req as [m p body]; cbn in Hm, Hp; by subst).
  unfold handle_register. destruct (from_yaml (pr_body req)) as [reg|e] eqn:Ey.
  2: { intros _ _. split; [cbn; lia|done]. }
  split; [|split; intros _ _; (split; [cbn; lia|done])].
  intros now s r s' Hs E. cbn in E. apply bind_Val in E as ([res rg] & E & H). injection H as -> _.
  pose proof (cwf_registry _ (ci_wf _ Hs)) as Hr.
  pose proof (derive_pod_cidr_value (reg_id reg) _ (rwf_cluster _ Hr) (rwf_prefix _ Hr)) as Hd.
  destruct (register_cases (cp_registry s) (reg_id reg) (reg_addr reg) (reg_replicate_addr reg)
    (reg_capacity_cpu reg) (reg_capacity_memory reg) now _ Hd) as [(o & _ & E2)|[_ E2]];
    rewrite E2 in E; injection E as <- _; intros _ _; (split; [cbn; lia|]); intros H2; [done|].
  rewrite (ci_cluster _ Hs) in Hd. eexists reg, _. split; [done|]. split; [exact Hd|].
  cbn. by rewrite (ci_cluster _ Hs).
Qed.

(** ** The invariant *)

Record cluster_ok (cl : Cluster) : Prop := {
  co_cp : exists s, sys_cp (cl_sys cl) = Some s /\ cp_inv s;
  co_sends : Forall (prog_sends (@valid_command)) (sys_threads (cl_sys cl));
  co_answers : Forall2 (fun req p => answers_with cp_inv (answer_ok req) p)
                 (cl_requests cl) (sys_threads (cl_sys cl));
  co_nodes : forall id nd, cl_nodes cl !! id = Some nd -> node_ok id nd
}.

Lemma answered_ok cl req resp : cluster_ok cl -> answered cl req resp -> answer_ok req resp.
Proof.
  intros Hcl (i & Hr & Ht). exact (Forall2_lookup_lr _ _ _ _ _ _ (co_answers _ Hcl) Hr Ht).
Qed.

Lemma register_link cl link c net :
  cluster_ok cl -> link_of cl "POST" "/nodes/register" link -> plain_id c -> register_once f64_to_string link c = Ok net ->
  derive_pod_cidr (nc_node_id c) cluster = Val net.
Proof.
  intros Hcl Hlink Hpl E. unfold register_once in E.
  apply bind_Ok in E as (text & Etext & E).
  destruct (server_name_from_addr (nc_control_plane_addr c)) eqn:En; [|by unfold send_request in Etext; rewrite En in Etext].
  destruct (link (request_text "POST" "/nodes/register" (registration_text f64_to_string c))) as [reads|] eqn:El.
  2: { unfold send_request in Etext. by rewrite En, Ok_bind, El in Etext. }
  destruct (Hlink _ _ El) as (req & resp & Hans & Hm & Hp & Hb & Hd & Hlen).
  destruct (answered_ok _ _ _ Hcl Hans Hm Hp) as [Hrange H2xx].
  destruct Hd as [Hd|Hd].
  2: { pose proof (send_request_cut link reads resp (nc_control_plane_addr c) _ _ _ El Hd Hrange Hlen) as Hcut.
       by rewrite Etext in Hcut. }
  rewrite (send_request_delivered link reads resp) in Etext; [|by rewrite En|done..].
  destruct (is_2xx resp.1); [|done]. injection Etext as <-.
  destruct (H2xx eq_refl) as (reg & net' & Hy & Hder & Eb). rewrite (Hb eq_refl) in Hy. apply Hpl in Hy as <-.
  rewrite Eb, from_to_yaml in E by done. cbn [map_err] in E. rewrite Ok_bind in E. cbn [rr_pod_cidr] in E.
  destruct (co_cp _ Hcl) as (s & _ & Hs). pose proof (cwf_registry _ (ci_wf _ Hs)) as Hr.
  rewrite <- (ci_cluster _ Hs) in Hder |- *.
  destruct (derive_pod_cidr_shape _ _ _ (rwf_cluster _ Hr) (rwf_prefix _ Hr) Hder) as [Hw _].
  rewrite net_parse_to_string in E by done. cbn in E. by injection E as <-.
Qed.

(** ** Steps of a node *)

Lemma contact_slot {W} {NW : NetWorker W} share c link bind (st : LoopState (W := W)) net :
  ls_pod_cidr_slot (contact f64_to_string share c link bind st) = Some net ->
  ls_pod_cidr_slot st = Some net \/
  (ls_registered st = false /\ register_once f64_to_string link c = Ok net).
Proof.
  unfold contact. destruct (ls_registered st); cbn [negb].
  - destruct (heartbeat_once _ _ _ _) as [[entries|e] w]; [|by left].
    destruct (Proxy.reconcile_services _ _ _ _). by left.
  - destruct (register_once _ _ _) as [net'|]; [|by left]. intros [= ->]. by right.
Qed.

Lemma refresh_slot {W} {NW : NetWorker W} c link (st : LoopState (W := W)) :
  ls_pod_cidr_slot (refresh_routes c link st) = ls_pod_cidr_slot st.
Proof. unfold refresh_routes. destruct (fetch_nodes _ _); [|done]. by destruct (reconcile_routes _ _ _ _). Qed.

Lemma loop_send_ok id early ck c (w : option Agent) :
  unix_ok (ck_unix ck) -> loop_command c = true -> worker_ok id early w ->
  worker_ok id early (send (NetWorker := agent_channel ck) c w).2.
Proof. intros Hu Hc. apply send_quiet_ok; [split; [done|]; by destruct c|]. by intros spec ->. Qed.

Lemma node_contact_ok id cl ck link bind nd :
  cluster_ok cl -> unix_ok (ck_unix ck) -> link_of cl "POST" (contact_path nd) link ->
  node_ok id nd -> node_ok id (node_contact ck link bind nd).
Proof.
  intros Hcl Hu Hl [Hid Hpl Hslot Hw]. split; [done|done| |].
  - intros net [Hold|[Hreg Hnew]]%contact_slot; [by apply Hslot|]. rewrite <- Hid.
    unfold contact_path in Hl. rewrite Hreg in Hl. by eapply register_link.
  - apply (contact_keeps f64_to_string (NW := agent_channel ck) share_agent_vips (worker_ok id (nd_early nd)));
      [|by intros; apply share_vips_ok|done].
    intros c w. by apply loop_send_ok.
Qed.

Lemma node_refresh_ok id ck link nd :
  unix_ok (ck_unix ck) -> node_ok id nd -> node_ok id (node_refresh ck link nd).
Proof.
  intros Hu [Hid Hpl Hslot Hw]. split; [done|done| |].
  - intros net. unfold nd_slot, node_refresh. cbn. rewrite refresh_slot. apply Hslot.
  - apply (refresh_routes_keeps (NW := agent_channel ck) (worker_ok id (nd_early nd))); [|done]. intros c w. by apply loop_send_ok.
Qed.

Lemma node_tick_ok id ck nd :
  unix_ok (ck_unix ck) -> node_ok id nd ->
  node_ok id (with_worker (send_agent ck AgTick (nd_worker nd)).2 nd).
Proof. intros Hu [Hid Hpl Hslot Hw]. split; [done|done|done|]. by apply send_quiet_ok. Qed.

Lemma node_host_ok id nd a s targets :
  nd_worker nd = Some a -> host_change (ag_rc a) s -> node_ok id nd ->
  node_ok id (mkNode (nd_config nd) (nd_loop (with_worker (Some (mkAgent s (ag_replicating a))) nd))
                targets (nd_early nd)).
Proof.
  intros Ea Hh [Hid Hpl Hslot Hw]. split; [done|done|done|]. intros a' [= <-].
  destruct (Hw a Ea) as [Hinv Hr]. split; [by eapply host_change_keeps|]. cbn. by rewrite (hc_records _ _ Hh).
Qed.

(** What [main] has loaded and set up. *)
Lemma agent_main_state ck su args (p : AgentProcess) config :
  agent_main ck su args = Val p -> agent_parse_args_from args = Val config ->
  ap_pod_cidr_slot p = None /\ exists choice acme,
    reconciler_new (su_jails su) (su_zfs su) (su_net su) (su_mounts su) (ac_pool config)
      (su_disk su (ac_state_dir config)) (su_ingress_disk su (ac_state_dir config))
      (su_cert_disk su (ac_state_dir config)) acme (su_dns su choice) (su_nginx su (ac_pool config))
      vips_new = Val (Ok (ag_rc (ap_agent p))).
Proof.
  intros E Hargs. unfold agent_main in E. rewrite Hargs, Val_bind in E.
  apply bind_Val in E as (choice & _ & E). apply bind_Val in E as (acme & _ & E).
  apply bind_Val in E as (loaded & Eload & E). destruct loaded as [s|]; [|done]. cbn [expect_ok] in E.
  rewrite Val_bind in E. cbn [AgentWorker.handle_command ag_rc ag_replicating] in E.
  destruct (resume_loops _ _) as [sp R]. rewrite Val_bind in E.
  apply bind_Val in E as (targets & _ & E). apply bind_Val in E as (registration & _ & E).
  apply bind_Val in E as (u & _ & E). injection E as <-. split; [done|]. exists choice, acme. exact Eload.
Qed.

(** A process started on the files [a] left knows the jails of [a]. *)
Lemma booted_ok ck su args dir c p (a : Agent) early :
  starts ck su args dir c p -> worker_ok (nc_node_id c) early (Some a) ->
  dk_files (su_disk su dir) = dk_files (rc_disk (ag_rc a)) ->
  dk_files (su_ingress_disk su dir) = dk_files (rc_ingress_disk (ag_rc a)) ->
  node_ok (nc_node_id c) (booted p c early).
Proof.
  intros (Emain & _ & Hpl & [Hr Hri] & config & Eargs & <-) Hw Ed Edi.
  destruct (agent_main_state _ _ _ _ _ Emain Eargs) as (Eslot & choice & acme & Eload).
  destruct (Hw a eq_refl) as [Hinv Hrec].
  destruct (restart_spec (ag_rc a) (su_jails su) (su_zfs su) (su_net su) (su_mounts su) (ac_pool config)
    _ _ (su_cert_disk su (ac_state_dir config)) acme (su_dns su choice) (su_nginx su (ac_pool config))
    vips_new Hinv Ed Edi Hr Hri) as (s & Es & Er & _ & _ & Hs & _).
  rewrite Es in Eload. injection Eload as Eload. split; [done|done| |].
  - unfold nd_slot. cbn. by rewrite Eslot.
  - intros a' [= <-]. rewrite <- Eload. split; [done|]. by rewrite Er.
Qed.

(** A process started on empty disks has none. *)
Lemma joined_ok ck su args dir c p :
  starts ck su args dir c p -> dk_files (su_disk su dir) = ∅ -> dk_files (su_ingress_disk su dir) = ∅ ->
  node_ok (nc_node_id c) (booted p c ∅).
Proof.
  intros Hstart Ed Edi. pose proof Hstart as (Emain & _ & _ & _ & config & Eargs & Edir).
  destruct (agent_main_state _ _ _ _ _ Emain Eargs) as (_ & choice & acme & _). rewrite <- Edir in Ed, Edi.
  set (s := mkReconciler (su_jails su) (su_zfs su) (su_net su) (su_mounts su) (ac_pool config)
    (su_disk su (ac_state_dir config)) (su_ingress_disk su (ac_state_dir config))
    (su_cert_disk su (ac_state_dir config)) ∅ ∅ 1 ∅ ∅ acme (su_dns su choice)
    (su_nginx su (ac_pool config)) vips_new).
  apply (booted_ok _ _ _ _ _ _ (mkAgent s ∅) _ Hstart); [|by rewrite <- Edir..].
  intros a [= <-]. split; [by apply empty_inv|]. intros name record Hr. cbn in Hr. by rewrite lookup_empty in Hr.
Qed.

(** ** The invariant is kept *)

(** Only one node changes. *)
Lemma node_step_ok cl id nd' flight :
  cluster_ok cl -> node_ok id nd' ->
  cluster_ok (mkCluster (cl_sys cl) (cl_requests cl) (<[id := nd']> (cl_nodes cl)) flight).
Proof.
  intros [Hcp Hs Ha Hn] Hnd. split; [done|done|done|]. cbn.
  intros i nd [[<- <-]|[_ H]]%lookup_insert_Some; [done|by apply Hn].
Qed.

(** A thread waiting for a node is answered. *)
Lemma forwarded_ok cl i rq k resp :
  cluster_ok cl -> sys_threads (cl_sys cl) !! i = Some (Forward rq k) ->
  cluster_ok (mkCluster (forwarded (cl_sys cl) i rq k resp) (cl_requests cl) (cl_nodes cl) (cl_flight cl)).
Proof.
  intros [Hcp Hs Ha Hn] Hi. split; [done| | |done]; cbn.
  - apply Forall_insert; [done|]. exact (Forall_lookup_1 _ _ _ _ Hs Hi resp).
  - destruct (Forall2_lookup_r _ _ _ _ _ Ha Hi) as (req & Hr & Hans).
    rewrite <- (list_insert_id (cl_requests cl) i req Hr). apply Forall2_insert; [done|]. exact (Hans resp).
Qed.

Lemma flight_ok cl flight :
  cluster_ok cl -> cluster_ok (mkCluster (cl_sys cl) (cl_requests cl) (cl_nodes cl) flight).
Proof. by intros []. Qed.

Lemma worker_step_ok cl sys :
  cluster_ok cl -> step str_debug (cl_sys cl) sys -> sys_log sys = sys_log (cl_sys cl) ->
  length (sys_threads sys) = length (sys_threads (cl_sys cl)) ->
  cluster_ok (mkCluster sys (cl_requests cl) (cl_nodes cl) (cl_flight cl)).
Proof.
  intros [(s0 & Ecp & Hinv) Hs Ha Hn] Hstep El Et. destruct (cl_sys cl) as [cp0 ts0 log0] eqn:Esys.
  destruct Hstep as [cp ts log req|s ts log i R c k now r s' Hi Hc|s ts log i R c k now Hi Hc
    |ts log i R c k Hi|ts log i R c k Hi|cp ts log i rq k resp Hi]; cbn in *; simplify_eq.
  - rewrite length_app in Et. cbn in Et. lia.
  - destruct (Forall_lookup_1 _ _ _ _ Hs Hi) as [Hv Hk].
    destruct (handle_command_inv now c _ Hinv Hv) as (r1 & s1 & E & Hinv1). rewrite Hc in E. simplify_eq.
    split; cbn; [by eauto| | |done].
    + apply Forall_insert; [done|apply Hk].
    + destruct (Forall2_lookup_r _ _ _ _ _ Ha Hi) as (req & Hr & Hans & _).
      rewrite <- (list_insert_id (cl_requests cl) i req Hr). apply Forall2_insert; [done|]. exact (Hans _ _ _ _ Hinv Hc).
  - destruct (Forall_lookup_1 _ _ _ _ Hs Hi) as [Hv Hk].
    destruct (handle_command_inv now c _ Hinv Hv) as (r1 & s1 & E & _). congruence.
  - apply (f_equal length) in El. rewrite length_app in El. cbn in El. lia.
Qed.

Context (Hcluster : net_wf cluster /\ (prefix_len cluster <= 24)%N).
Context (Hservice : net_wf service /\ (0 < prefix_len service)%N).

Lemma fresh_sys_ok nodes flight :
  (forall id nd, nodes !! id = Some nd -> node_ok id nd) ->
  cluster_ok (mkCluster (sys_init cluster service) [] nodes flight).
Proof.
  intros Hn. split; [|constructor|constructor|done]. eexists. split; [done|]. split.
  - apply cp_new_wf; [apply Hcluster|apply Hcluster|apply Hservice|apply Hservice].
  - done.
  - intros svc rec H. unfold services_get in H. cbn in H. by rewrite lookup_empty in H.
Qed.

Lemma cstep_ok cl cl' : cluster_ok cl -> cstep cl cl' -> cluster_ok cl'.
Proof.
  intros Hcl Hstep. pose proof (co_nodes _ Hcl) as Hn. destruct Hstep.
  - destruct Hcl as [Hcp Hs Ha _]. split; [done| | |done]; cbn.
    + apply Forall_app. split; [done|]. constructor; [apply route_valid|done].
    + apply Forall2_app; [done|]. constructor; [apply route_answers|done].
  - by apply worker_step_ok.
  - apply (node_step_ok (mkCluster (forwarded (cl_sys cl) i rq k answer) (cl_requests cl) (cl_nodes cl) (cl_flight cl)));
      [by apply forwarded_ok|]. eapply node_serve_ok; eauto.
  - apply (flight_ok (mkCluster (forwarded (cl_sys cl) i rq k answer) (cl_requests cl) (cl_nodes cl) (cl_flight cl))).
    by apply forwarded_ok.
  - subst cl. apply (node_step_ok (mkCluster sys requests nodes (before ++ rq :: after))); [done|].
    eapply node_serve_ok; eauto.
  - apply node_step_ok; [done|]. eapply node_serve_ok; eauto.
  - apply node_step_ok; [done|]. eapply node_contact_ok; eauto.
  - apply node_step_ok; [done|]. apply node_refresh_ok; eauto.
  - apply node_step_ok; [done|]. apply node_tick_ok; eauto.
  - apply node_step_ok; [done|]. eapply node_host_ok; eauto.
  - apply node_step_ok; [done|]. eapply joined_ok; eauto.
  - apply node_step_ok; [done|].
    eapply (booted_ok _ _ _ _ _ _ a); [eassumption| |assumption|assumption].
    pose proof (Hn _ _ ltac:(eassumption)) as Hnd. intros a' Ea'. injection Ea' as <-.
    by apply (no_worker _ _ Hnd).
  - by apply fresh_sys_ok.
Qed.

Lemma reach_ok cl : rtc cstep cluster_init cl -> cluster_ok cl.
Proof.
  intros Hr. assert (cluster_ok cluster_init) as H0 by (apply fresh_sys_ok; intros ? ?; by rewrite lookup_empty).
  revert H0. induction Hr as [|x y z Hxy _ IH]; [done|]. intros Hx. by eapply IH, cstep_ok.
Qed.

(** ** Addresses are unique in the cluster *)

Definition knows (cl : Cluster) (id : string) : Prop :=
  exists s, sys_cp (cl_sys cl) = Some s /\ is_Some (rg_nodes (cp_registry s) !! id).

(** The node's agent wants this jail, and recorded it knowing its block. *)
Definition jail_on (cl : Cluster) (id name : string) (record : JailRecord) : Prop :=
  exists nd, cl_nodes cl !! id = Some nd /\ records_of (nd_worker nd) !! name = Some record /\
    name ∉ nd_early nd /\ name <> "ingress".

Lemma jail_on_block cl id name record : cluster_ok cl -> jail_on cl id name record -> in_block id record.
Proof.
  intros Hcl (nd & Hnd & Hr & He & Hi). pose proof (no_worker _ _ (co_nodes _ Hcl _ _ Hnd)) as Hw.
  destruct (nd_worker nd) as [a|]; [|done]. by eapply (Hw a eq_refl).
Qed.

(** C1: two nodes never run jails at the same address.  However requests, forwards,
    registrations, crashes and restarts of the agents and of the control plane
    interleave, whatever is lost or late and whatever clients send to either side,
    two nodes that the control plane knows have no two jails at one address, but
    for the ingress jails, whose address is fixed, and the jails a process
    recorded before it had been given its block. *)
Theorem cluster_addresses_distinct cl id1 id2 name1 name2 r1 r2 :
  rtc cstep cluster_init cl -> id1 <> id2 -> knows cl id1 -> knows cl id2 ->
  jail_on cl id1 name1 r1 -> jail_on cl id2 name2 r2 ->
  exists n1 n2, ipnet_parse (address_of r1) = Ok (inl n1) /\ ipnet_parse (address_of r2) = Ok (inl n2) /\
    net_addr n1 <> net_addr n2.
Proof.
  intros Hcl%reach_ok Hne (s & Es & [rec1 H1]) (s' & Es' & [rec2 H2]) J1 J2.
  rewrite Es in Es'. injection Es' as <-. destruct (co_cp _ Hcl) as (s'' & Es'' & Hinv).
  rewrite Es in Es''. injection Es'' as <-. pose proof (cwf_registry _ (ci_wf _ Hinv)) as Hr.
  destruct (jail_on_block _ _ _ _ Hcl J1) as (n1 & net1 & E1 & D1 & C1).
  destruct (jail_on_block _ _ _ _ Hcl J2) as (n2 & net2 & E2 & D2 & C2).
  exists n1, n2. split; [done|]. split; [done|]. intros Eq. apply Hne.
  pose proof (rwf_derived _ Hr _ _ H1) as R1. pose proof (rwf_derived _ Hr _ _ H2) as R2.
  rewrite (ci_cluster _ Hinv) in R1, R2. rewrite D1 in R1. rewrite D2 in R2.
  injection R1 as R1. injection R2 as R2. apply (rwf_distinct _ Hr id1 id2 rec1 rec2 H1 H2).
  destruct (registry_wf_pod_shape _ _ _ Hr H1) as (W1 & P1 & N1).
  destruct (registry_wf_pod_shape _ _ _ Hr H2) as (W2 & P2 & N2). rewrite <- R1, <- R2 in *.
  rewrite <- Eq in C2. eapply (aligned_nets_disjoint net1 net2); eauto. congruence.
Qed.

(** ** What is scheduled can be run *)

Lemma registered_derived cl s id net :
  cluster_ok cl -> sys_cp (cl_sys cl) = Some s -> pod_cidr (cp_registry s) id = Some net ->
  derive_pod_cidr id cluster = Val net.
Proof.
  intros Hcl Es (rec & Hrec & ->)%fmap_Some. destruct (co_cp _ Hcl) as (s' & Es' & Hinv).
  rewrite Es in Es'. injection Es' as <-. rewrite <- (ci_cluster _ Hinv).
  by apply (rwf_derived _ (cwf_registry _ (ci_wf _ Hinv))).
Qed.

(** What was true of a node when its replica was scheduled stays true. *)
Lemma decision_holds cl0 s now name node naddr t a plen sid saddr cl nd ag :
  rtc cstep cluster_init cl0 -> sys_cp (cl_sys cl0) = Some s ->
  Schedule name node naddr t a plen sid saddr ∈ CpWorker.reconcile_services s now -> rtc cstep cl0 cl ->
  cl_nodes cl !! node = Some nd -> nd_worker nd = Some ag ->
  cp_wf s /\ services_valid s /\ (nd_slot nd = None \/ nd_slot nd = pod_cidr (cp_registry s) node) /\
  agent_inv (ag_rc ag) /\ cluster_ok cl.
Proof.
  intros H0 Es Hin Hr Hnd Eag.
  assert (rtc cstep cluster_init cl) as Hr' by (by transitivity cl0).
  pose proof (reach_ok _ H0) as Hok0. pose proof (reach_ok _ Hr') as Hok.
  destruct (co_cp _ Hok0) as (s' & Es' & [Hwf Hcl Hsv]). rewrite Es in Es'. injection Es' as <-.
  pose proof (co_nodes _ Hok _ _ Hnd) as Hno. destruct (no_worker _ _ Hno ag Eag) as [Hinv _].
  do 2 (split; [done|]). split; [|done]. destruct (reconcile_log s now Hwf) as [W Hlog].
  destruct (log_elem_schedule _ _ _ _ _ _ _ _ _ _ _ _ Hlog Hin)
    as (svc & rec & idx & net & _ & _ & _ & _ & _ & Hso).
  rewrite (sch_cidr _ _ _ _ _ _ _ _ _ Hso). destruct (nd_slot nd) as [net'|] eqn:Esl; [|by left]. right.
  pose proof (no_slot _ _ Hno _ Esl) as D1.
  pose proof (registered_derived _ _ _ _ Hok0 Es (sch_cidr _ _ _ _ _ _ _ _ _ Hso)) as D2.
  rewrite D1 in D2. by injection D2 as ->.
Qed.

(** A decision of the control plane holds for as long as it takes to get there.
    Take any reachable state [cl0] of the cluster and a replica the control plane
    schedules in it.  In every later state, whatever has happened in between
    (other requests, crashes, restarts of the node or of the control plane), the
    request for it, when it reaches the node, is answered 200, and the node has
    recorded exactly the specification that was scheduled, provided its disk
    works, it has no jail of that name and its worker is up. *)
Theorem cluster_deploys cl0 s now name node naddr t a plen sid saddr cl nd ck ag :
  rtc cstep cluster_init cl0 -> sys_cp (cl_sys cl0) = Some s ->
  Schedule name node naddr t a plen sid saddr ∈ CpWorker.reconcile_services s now ->
  (String.length name <= 63)%nat -> rtc cstep cl0 cl ->
  cl_nodes cl !! node = Some nd -> nd_worker nd = Some ag -> gateways_ok (ag_rc ag) ->
  unix_ok (ck_unix ck) -> (rc_next_epair_ordinal (ag_rc ag) + 1 < u32_max)%N ->
  (forall op file, dk_fault (rc_disk (ag_rc ag)) op file = None) ->
  rc_records (ag_rc ag) !! name = None ->
  exists nd' record,
    node_serve ck (parsed (action_request (Schedule name node naddr t a plen sid saddr))) nd = (empty_ok, nd') /\
    records_of (nd_worker nd') !! name = Some record /\
    jr_spec record = replica_spec t name (cidr_text a plen) saddr /\ node_ok node nd'.
Proof.
  intros H0 Es Hin Hlen Hr Hnd Eag Hg Hu Ho Hd Hnew.
  destruct (decision_holds cl0 s now name node naddr t a plen sid saddr cl nd ag H0 Es Hin Hr Hnd Eag)
    as (Hwf & Hsv & Hslot & Hinv & Hok).
  destruct (scheduled_replica_deployed fake_attach_total ck s now name node naddr t a plen sid saddr
    (node_shared nd) ag Hwf Hsv Hin Hlen Hslot (conj Hinv Hg) Hu Ho Hd Hnew) as (ag' & record & E & Hrec & Hspec & _).
  assert (exists nd', node_serve ck (parsed (action_request (Schedule name node naddr t a plen sid saddr))) nd
            = (empty_ok, nd') /\ nd_worker nd' = Some ag') as (nd' & Es1 & Ew).
  { unfold node_serve. rewrite Eag. unfold delivered in E. unfold parsed. rewrite E. by eexists. }
  exists nd', record. split; [done|]. rewrite Ew. split; [done|]. split; [done|].
  pose proof (co_nodes _ Hok _ _ Hnd) as Hno. by eapply (node_serve_ok node ck _ nd).
Qed.

(** ** Joining *)

(** The node with the block it was given. *)
Definition joined (net : Ipv4Net) (nd : Node) : Node :=
  let l := nd_loop nd in
  with_loop (mkLoop true (ls_installed_routes l) (ls_proxied_services l) (Some net) (ls_service_vips l)
               (ls_worker l)) nd.

Definition joined_record (c : NodeConfig) (now : Instant) (net : Ipv4Net) : NodeRecord :=
  fresh_record (nc_advertise_addr c) (Some (nc_replicate_addr c)) (nc_capacity_cpu c)
    (nc_capacity_memory c) now net.

(** What a registration needs: the control plane's address parses, the text reads
    back as the node's flags, the answer is not longer than 64 bits can say. *)
Record can_register (c : NodeConfig) (net : Ipv4Net) : Prop := {
  cr_addr : is_ok (server_name_from_addr (nc_control_plane_addr c)) = true;
  cr_text : from_yaml (registration_text f64_to_string c) = Ok (registration_of c);
  cr_len : (str_len (to_yaml (mkRegisterResponse (net_to_string net))) <= u64_max)%N
}.

Definition register_request (c : NodeConfig) : ParsedRequest :=
  mkParsedRequest "POST" "/nodes/register" (registration_text f64_to_string c).

Lemma register_thread c : from_yaml (registration_text f64_to_string c) = Ok (registration_of c) ->
  exists k, route str_debug (register_request c) =
      Send (Register (nc_node_id c) (nc_advertise_addr c) (Some (nc_replicate_addr c)) (nc_capacity_cpu c)
              (nc_capacity_memory c)) k /\
    forall net, k (Reply (Ok net)) = Ret (yaml_response 200 (mkRegisterResponse (net_to_string net))).
Proof.
  intros Hy. unfold register_request. rewrite register_route. unfold handle_register. rewrite Hy.
  eexists. split; [reflexivity|done].
Qed.

(** The connection that brings back one answer to one registration, and nothing else. *)
Definition answer_link (c : NodeConfig) (resp : response) : Link := fun sent =>
  if String.eqb sent (request_text "POST" "/nodes/register" (registration_text f64_to_string c))
  then Ok (delivers [cp_write_response resp.1 resp.2] []) else Err EmptyString.

Lemma answer_whole resp : delivers_whole (delivers [cp_write_response resp.1 resp.2] []) resp.
Proof.
  exists [cp_write_response resp.1 resp.2], []. split; [done|]. split; [by repeat constructor|].
  split; [by left|]. cbn. apply app_nil_r_str.
Qed.

Lemma answer_link_of cl c resp :
  answered cl (register_request c) resp -> (str_len resp.2 <= u64_max)%N ->
  link_of cl "POST" "/nodes/register" (answer_link c resp).
Proof.
  intros Ha Hlen body reads El. unfold answer_link in El.
  destruct (String.eqb_spec (request_text "POST" "/nodes/register" body)
    (request_text "POST" "/nodes/register" (registration_text f64_to_string c))) as [Eb|]; [|done].
  injection El as <-. apply request_text_body in Eb. exists (register_request c), resp.
  do 3 (split; [done|]). split; [done|]. split; [left; apply answer_whole|done].
Qed.

Lemma node_contact_registers ck bind nd net :
  net_wf net -> ls_registered (nd_loop nd) = false -> can_register (nd_config nd) net ->
  node_contact ck (answer_link (nd_config nd) (yaml_response 200 (mkRegisterResponse (net_to_string net)))) bind nd
    = joined net nd.
Proof.
  intros Hw Hreg [Haddr Htext Hlen]. unfold joined, node_contact. f_equal. unfold contact. rewrite Hreg.
  cbn [negb]. unfold register_once. set (resp := yaml_response _ _).
  rewrite (send_request_delivered _ (delivers [cp_write_response resp.1 resp.2] []) resp);
    [|done|unfold answer_link; by rewrite String.eqb_refl|apply answer_whole|cbn; lia|exact Hlen].
  change (is_2xx resp.1) with true. cbn iota. rewrite Ok_bind. unfold resp. cbn [yaml_response snd].
  rewrite from_to_yaml by done. cbn [map_err]. rewrite Ok_bind. cbn [rr_pod_cidr].
  by rewrite net_parse_to_string.
Qed.

(** A connection whose handler asks the worker first is accepted, and its command
    answered. *)
Lemma request_answered {R} cl req (c : Command R) k r s s' now :
  cluster_ok cl -> route str_debug req = Send c k -> sys_cp (cl_sys cl) = Some s ->
  CpWorker.handle_command now c s = Val (r, s') ->
  exists cl', rtc cstep cl cl' /\ sys_cp (cl_sys cl') = Some s' /\
    cl_nodes cl' = cl_nodes cl /\ cl_flight cl' = cl_flight cl /\
    exists i, cl_requests cl' !! i = Some req /\ sys_threads (cl_sys cl') !! i = Some (k (Reply r)).
Proof.
  intros Hcl Ek Es Hc. pose proof (Forall2_length _ _ _ (co_answers _ Hcl)) as El.
  destruct cl as [[cp ts log] requests nodes flight]. cbn in *. subst cp.
  set (ts0 := ts ++ [route str_debug req]).
  assert (ts0 !! length ts = Some (route str_debug req)) as Hi by (by apply list_lookup_middle).
  rewrite Ek in Hi. set (ts' := <[length ts := k (Reply r)]> ts0).
  exists (mkCluster (mkSys (Some s') ts' log) (requests ++ [req]) nodes flight).
  split; [|split; [done|split; [done|split; [done|]]]].
  - eapply rtc_l; [apply (cs_accept _ req)|]. cbn. eapply rtc_l; [|apply rtc_refl].
    apply (cs_worker (mkCluster (mkSys (Some s) ts0 log) (requests ++ [req]) nodes flight)
             (mkSys (Some s') ts' log)); cbn; [|done|unfold ts'; by rewrite length_insert].
    exact (step_command str_debug s ts0 log (length ts) _ _ k now r s' Hi Hc).
  - exists (length ts). cbn. split; [by apply list_lookup_middle|]. apply list_lookup_insert_eq.
    unfold ts0. rewrite length_app. cbn. lia.
Qed.

(** The control plane's half of a registration. *)
Lemma registration_answered cl c net s now :
  cluster_ok cl -> from_yaml (registration_text f64_to_string c) = Ok (registration_of c) ->
  derive_pod_cidr (nc_node_id c) cluster = Val net -> sys_cp (cl_sys cl) = Some s ->
  (forall other, ~ pod_conflict (cp_registry s) (nc_node_id c) net other) ->
  exists cl', rtc cstep cl cl' /\
    sys_cp (cl_sys cl') = Some (with_registry
      (mkRegistry cluster (<[nc_node_id c := joined_record c now net]> (rg_nodes (cp_registry s)))) s) /\
    cl_nodes cl' = cl_nodes cl /\ cl_flight cl' = cl_flight cl /\
    answered cl' (register_request c) (yaml_response 200 (mkRegisterResponse (net_to_string net))).
Proof.
  intros Hcl Htext Hd Es Hno. destruct (co_cp _ Hcl) as (s1 & Es1 & Hinv). rewrite Es in Es1. injection Es1 as <-.
  pose proof (ci_cluster _ Hinv) as Ec. rewrite <- Ec in Hd. destruct (register_thread _ Htext) as (k & Ek & Hk).
  set (s' := with_registry _ s).
  assert (CpWorker.handle_command now (Register (nc_node_id c) (nc_advertise_addr c) (Some (nc_replicate_addr c))
            (nc_capacity_cpu c) (nc_capacity_memory c)) s = Val (Ok net, s')) as Hc.
  { cbn. destruct (register_cases (cp_registry s) (nc_node_id c) (nc_advertise_addr c) (Some (nc_replicate_addr c))
      (nc_capacity_cpu c) (nc_capacity_memory c) now net Hd) as [(o & Hc & _)|[_ ->]]; [by destruct (Hno o)|].
    rewrite Val_bind. unfold s'. by rewrite Ec. }
  destruct (request_answered cl _ _ _ _ _ _ now Hcl Ek Es Hc) as (cl' & Hr & Es' & En & Ef & i & Hi & Ht).
  exists cl'. do 4 (split; [done|]). exists i. by rewrite <- (Hk net).
Qed.

(** One connection: accepted, answered by the worker, received by the node. *)
Lemma registration_runs cl id nd net s now ck :
  cluster_ok cl -> unix_ok (ck_unix ck) -> cl_nodes cl !! id = Some nd ->
  ls_registered (nd_loop nd) = false -> can_register (nd_config nd) net ->
  derive_pod_cidr id cluster = Val net -> sys_cp (cl_sys cl) = Some s ->
  (forall other, ~ pod_conflict (cp_registry s) id net other) ->
  exists cl', rtc cstep cl cl' /\
    sys_cp (cl_sys cl') = Some (with_registry
      (mkRegistry cluster (<[id := joined_record (nd_config nd) now net]> (rg_nodes (cp_registry s)))) s) /\
    cl_nodes cl' = <[id := joined net nd]> (cl_nodes cl) /\ cl_flight cl' = cl_flight cl.
Proof.
  intros Hcl Hu Hnd Hreg Hcan Hd Es Hno. pose proof Hcan as [Haddr Htext Hlen].
  pose proof (no_id _ _ (co_nodes _ Hcl _ _ Hnd)) as Hid. subst id.
  destruct (registration_answered cl (nd_config nd) net s now Hcl Htext Hd Es Hno)
    as (cl1 & Hr1 & Es1 & En1 & Ef1 & Hans).
  assert (net_wf net) as Hw.
  { destruct (derive_pod_cidr_shape _ _ _ (proj1 Hcluster) (proj2 Hcluster) Hd) as [Hw _]. exact Hw. }
  eexists. split; [eapply rtc_r; [exact Hr1|]|].
  - apply (cs_contact _ (nc_node_id (nd_config nd)) nd ck
      (answer_link (nd_config nd) (yaml_response 200 (mkRegisterResponse (net_to_string net)))) (fun _ => Ok tt));
      [by rewrite En1|done|]. unfold contact_path. rewrite Hreg. by apply answer_link_of.
  - cbn. rewrite node_contact_registers by done. by rewrite En1.
Qed.

(** C10: a node whose flags can be sent can join.  Take an agent that has not
    registered, whose block no node known to the control plane holds, whose clock is
    within range, and whose flags satisfy [can_register]: the control plane's
    address is an IP address with a port (a host name is refused before any
    connection), and the registration's text, which is written without quoting
    (see [registration_text]), reads back as YAML to the flags (an id such as [12]
    does not: it reads as an integer).  Then from every reachable state in which the
    control plane runs the agent can register: the cluster can reach a state where
    the node has exactly the block derived from its id, the control plane knows it
    with the addresses and the capacity of its flags and as just heard of, and
    nothing else has changed, at the control plane or at any node. *)
Theorem node_joins cl id nd net s now ck :
  rtc cstep cluster_init cl -> unix_ok (ck_unix ck) -> cl_nodes cl !! id = Some nd ->
  ls_registered (nd_loop nd) = false -> can_register (nd_config nd) net ->
  derive_pod_cidr id cluster = Val net -> sys_cp (cl_sys cl) = Some s ->
  (forall other, ~ pod_conflict (cp_registry s) id net other) ->
  exists cl', rtc cstep cl cl' /\ cl_nodes cl' = <[id := joined net nd]> (cl_nodes cl) /\
    sys_cp (cl_sys cl') = Some (with_registry
      (mkRegistry cluster (<[id := joined_record (nd_config nd) now net]> (rg_nodes (cp_registry s)))) s) /\
    node_alive (mkRegistry cluster (<[id := joined_record (nd_config nd) now net]> (rg_nodes (cp_registry s)))) now id.
Proof.
  intros Hr%reach_ok Hu Hnd Hreg Hcan Hd Es Hno.
  destruct (registration_runs cl id nd net s now ck Hr Hu Hnd Hreg Hcan Hd Es Hno) as (cl' & Hr' & Es' & En' & _).
  exists cl'. split; [done|]. split; [done|]. split; [done|]. eexists. split; [apply lookup_insert_eq|].
  cbn. unfold DEAD_THRESHOLD, nanos_per_sec. lia.
Qed.

(** C35: a restart of the control plane lets two nodes hold one block.  Collisions
    are only looked for among the nodes of the table in memory.  After a restart
    the table is empty, a node whose id hashes to the block of a running node can
    register before that node does, and from then on both agents hold the same
    block: the earlier one keeps it, with its jails, although the control plane
    will refuse it from now on. *)
Theorem restart_shares_block cl id1 id2 nd1 nd2 net ck :
  rtc cstep cluster_init cl -> unix_ok (ck_unix ck) -> id1 <> id2 ->
  cl_nodes cl !! id1 = Some nd1 -> nd_slot nd1 = Some net ->
  cl_nodes cl !! id2 = Some nd2 -> ls_registered (nd_loop nd2) = false ->
  can_register (nd_config nd2) net -> derive_pod_cidr id2 cluster = Val net ->
  exists cl' nd2', rtc cstep cl cl' /\ cl_nodes cl' !! id1 = Some nd1 /\ cl_nodes cl' !! id2 = Some nd2' /\
    nd_slot nd2' = Some net /\ knows cl' id2 /\
    forall s now, sys_cp (cl_sys cl') = Some s -> exists e,
      register (cp_registry s) id1 (nc_advertise_addr (nd_config nd1)) (Some (nc_replicate_addr (nd_config nd1)))
        (nc_capacity_cpu (nd_config nd1)) (nc_capacity_memory (nd_config nd1)) now = Val (Err e, cp_registry s).
Proof.
  intros Hr Hu Hne H1 Hslot H2 Hreg Hcan Hd. pose proof (reach_ok _ Hr) as Hok.
  set (cl0 := mkCluster (sys_init cluster service) [] (cl_nodes cl) (cl_flight cl)).
  assert (rtc cstep cl cl0) as Hr0 by (eapply rtc_l; [apply cs_control_plane_restart|apply rtc_refl]).
  assert (cluster_ok cl0) as Hok0 by (apply reach_ok; by transitivity cl).
  destruct (registration_runs cl0 id2 nd2 net (cp_new cluster service) 0 ck Hok0 Hu H2 Hreg Hcan Hd eq_refl)
    as (cl' & Hr' & Es' & En' & _).
  { intros other (_ & rec & Hrec & _). cbn in Hrec. by rewrite lookup_empty in Hrec. }
  exists cl', (joined net nd2). split; [by transitivity cl0|]. rewrite En'.
  split; [by rewrite lookup_insert_ne|]. split; [apply lookup_insert_eq|]. split; [done|]. split.
  - eexists. split; [exact Es'|]. cbn. rewrite lookup_insert_eq. eauto.
  - intros s now Es. rewrite Es' in Es. injection Es as <-. cbn [cp_registry with_registry].
    pose proof (no_slot _ _ (co_nodes _ Hok _ _ H1) _ Hslot) as Hd1.
    match goal with |- context [register ?r ?a ?b ?c ?d ?e ?f] =>
      destruct (register_cases r a b c d e f net Hd1) as [(o & _ & E)|[Hno _]] end; [by eauto|].
    destruct (Hno id2). split; [done|]. eexists. split; [apply lookup_insert_eq|]. done.
Qed.
End cluster.

(** ** On the in-memory host *)

Section runs.
Context {HO : HashOrder} {HP : Httparse} {I : Ipnet} {YJR : SerdeYaml JailRecord} {YIR : SerdeYaml IngressRecord}
        {YRT : SerdeYaml ReplicaTarget}.
Context {YE : SerdeYaml ErrorBody} {YRR : SerdeYaml RegisterResponse}
        {YNS : SerdeYaml (list NodeStatus)} {YSR : SerdeYaml (list ServiceReplica)}
        {YSS : SerdeYaml (list ServiceSummary)} {YPE : SerdeYaml (list ServiceProxyEntry)}
        {YNR : SerdeYaml NodeRegistration} {YHB : SerdeYaml Heartbeat}
        {YJ : SerdeYaml JailSpec} {YS : SerdeYaml ServiceSpec}.
Context {YIS : SerdeYaml IngressSpec} {YRB : SerdeYaml ReplicateToBody} {YJS : SerdeYaml JailStatus}
        {YJL : SerdeYaml (list JailStatus)} {YIG : SerdeYaml IngressStatus}
        {YIL : SerdeYaml (list IngressStatus)} {YVS : SerdeYaml VolumeStatus}
        {YRS : SerdeYaml ReplicaTargetStatus}.
Context {A D X Hst TS TC : Type} {HA : AcmeClient A D} {HX : NginxController X} {HH : Host Hst}.
Context (f64_to_string : f64 -> string) (str_debug : string -> string).
Context (cluster service : Ipv4Net).
Context (Hcluster : net_wf cluster /\ (prefix_len cluster <= 24)%N).
Context (Hservice : net_wf service /\ (0 < prefix_len service)%N).
Notation Node := (@Node FakeJailRuntime FakeZfsManager FakeMountManager A D X).
Notation Cluster := (@Cluster FakeJailRuntime FakeZfsManager FakeMountManager A D X).
Notation cstep := (cstep (J := FakeJailRuntime) (Zf := FakeZfsManager) (M := FakeMountManager) (A := A) (D := D) (X := X)
  (Hst := Hst) (TS := TS) (TC := TC) f64_to_string str_debug cluster service).

(** C2: what the control plane decides, runs, on a node that can run it.  Take any
    reachable state [cl0] of the cluster and a replica the control plane schedules
    in it, whose name is at most 63 characters (a longer one is never run: the
    service's name is then too long).  Take any later state, in which the node's
    agent runs (its worker has not stopped) on the in-memory host of the
    repository's tests, whose tools fail only where that host makes them fail; no
    jail recorded on the node has an address that has no bridge gateway (an IPv6
    one, whose pass panics); at least two interface ordinals of 2^32 are left; the
    disk works, the clock is within range; and the agent has neither a record nor a
    jail of the replica's name and has the image, which is no jail's own dataset.
    Then, when the request reaches the node, its answer is 200 and by then the
    replica's jail runs: under the limits of the template, attached to its bridge at
    exactly the address the control plane chose, with its dataset and volumes
    mounted, recorded with the specification scheduled. *)
Theorem cluster_runs (cl0 cl : Cluster) s now name node naddr t a plen sid saddr (nd : Node) ck ag :
  rtc cstep (cluster_init cluster service) cl0 -> sys_cp (cl_sys cl0) = Some s ->
  Schedule name node naddr t a plen sid saddr ∈ CpWorker.reconcile_services s now ->
  (String.length name <= 63)%nat -> rtc cstep cl0 cl ->
  cl_nodes cl !! node = Some nd -> nd_worker nd = Some ag -> gateways_ok (ag_rc ag) ->
  unix_ok (ck_unix ck) -> (rc_next_epair_ordinal (ag_rc ag) + 1 < u32_max)%N ->
  (forall op file, dk_fault (rc_disk (ag_rc ag)) op file = None) ->
  rc_records (ag_rc ag) !! name = None -> can_run t name (ag_rc ag) ->
  exists nd' ag' record,
    node_serve ck (parsed (action_request (Schedule name node naddr t a plen sid saddr))) nd = (empty_ok, nd') /\
    nd_worker nd' = Some ag' /\ rc_records (ag_rc ag') !! name = Some record /\
    jr_spec record = replica_spec t name (cidr_text a plen) saddr /\ replica_up (ag_rc ag') name record.
Proof.
  intros H0 Es Hin Hlen Hr Hnd Eag Hg Hu Ho Hd Hnew Hcan.
  destruct (decision_holds f64_to_string str_debug cluster service Hcluster Hservice cl0 s now name node naddr t a plen
    sid saddr cl nd ag H0 Es Hin Hr Hnd Eag) as (Hwf & Hsv & Hslot & Hinv & _).
  destruct (scheduled_replica_runs ck s now name node naddr t a plen sid saddr (node_shared nd) ag Hwf Hsv Hin Hlen
    Hslot (conj Hinv Hg) Hu Ho Hd Hnew Hcan) as (ag' & record & E & Hrec & Hspec & Hup).
  unfold node_serve. rewrite Eag. unfold delivered in E. unfold parsed. rewrite E.
  eexists _, ag', record. do 2 (split; [reflexivity|]). split; [exact Hrec|split; [exact Hspec|exact Hup]].
Qed.
End runs.

(** ** Evaluation *)

(** Three nodes; the blocks of the first and the third are the same. *)
Definition config_of (id host : string) : NodeConfig :=
  mkNodeConfig "10.0.0.1:7620" id (host +:+ ":7621") (host +:+ ":7622") (f64_of_N 4) 4.
Definition node_1 : NodeConfig := config_of "node-1" "10.1.0.1".
Definition node_2 : NodeConfig := config_of "node-2" "10.1.0.2".
Definition node_63 : NodeConfig := config_of "node-63" "10.1.0.63".
Definition args_of (c : NodeConfig) : list string :=
  ["--node-id"; nc_node_id c; "--control-plane-addr"; nc_control_plane_addr c;
   "--advertise-addr"; nc_advertise_addr c; "--replicate-addr"; nc_replicate_addr c; "--tls-ca-file"; "ca.crt";
   "--tls-cert-file"; "node.crt"; "--tls-key-file"; "node.key"; "--tls-crl-file"; "crl.pem"].

(** A codec that reads their texts. *)
Definition cluster_configs : list NodeConfig := [node_1; node_2; node_63].
Definition cluster_registration_from_yaml (s : string) : result string NodeRegistration :=
  match find (fun c => String.eqb s (registration_text demo_f64_to_string c)) cluster_configs with
  | Some c => Ok (registration_of c)
  | None => countable_from_yaml s
  end.
Program Definition yaml_cluster_registration : SerdeYaml NodeRegistration := {|
  to_yaml x := bits_to_string (encode x);
  from_yaml := cluster_registration_from_yaml
|}.
Next Obligation.
  intros x Hx. unfold cluster_registration_from_yaml. destruct (find _ _) as [c|] eqn:E.
  - exfalso. apply find_some in E as [_ E%String.eqb_eq]. by destruct (encode x).
  - by apply countable_from_to_yaml.
Qed.
Next Obligation.
  intros s x. unfold cluster_registration_from_yaml. destruct (find _ _) as [c|] eqn:E.
  - intros [= <-]. apply find_some in E as [Hc _]. cbn in Hc. by destruct Hc as [<-|[<-|[<-|[]]]]; vm_compute.
  - apply countable_from_yaml_repr.
Qed.

#[local] Existing Instances list_order httparse_model ipnet_model yaml_jail_record yaml_ingress_record
  yaml_replica_target yaml_error yaml_register yaml_statuses yaml_replicas yaml_summaries yaml_entries
  yaml_cluster_registration yaml_heartbeat yaml_jail yaml_service yaml_ingress yaml_replicate_to
  yaml_jail_status yaml_jail_statuses yaml_ingress_status yaml_ingress_statuses yaml_volume_status
  yaml_target_status fake_jail_runtime fake_zfs_manager fake_mount_manager fake_acme fake_nginx fake_dns
  sysctl_host.

Definition demo_su : @Startup FakeJailRuntime FakeZfsManager FakeNetManager FakeMountManager
    FakeAcmeClient FakeDnsProvider FakeNginxController unit N N :=
  mkStartup fake_jail_new (mkFakeZfsManager {["zroot/keel/base/14.2-web"; "zroot/keel/base"]} ∅ ∅) (mkFakeNetManager ∅ ∅ ∅ ∅ ∅)
    (mkFakeMountManager ∅) (fun _ => mkFakeNginx ∅ false ∅) (fun _ => Panic)
    (fun _ => Val (mkFakeAcme false)) (fun _ => mkFakeDns ∅ false)
    (fun _ => empty_disk) (fun _ => empty_disk) (fun _ => empty_disk) (fun _ => empty_disk) tt (tls_good 1) bind_any.

Definition cluster_net : Ipv4Net := cidr_10_0_0_0_16.
Definition service_net : Ipv4Net := cidr_10_0_250_0_24.
Notation DemoCluster := (@Cluster FakeJailRuntime FakeZfsManager FakeMountManager FakeAcmeClient FakeDnsProvider
  FakeNginxController).
Notation DemoNode := (@Node FakeJailRuntime FakeZfsManager FakeMountManager FakeAcmeClient FakeDnsProvider
  FakeNginxController).
Notation demo_cstep := (@cstep list_order httparse_model ipnet_model yaml_jail_record yaml_ingress_record
  yaml_replica_target yaml_error yaml_register yaml_statuses yaml_replicas yaml_summaries yaml_entries
  yaml_cluster_registration yaml_heartbeat yaml_jail yaml_service yaml_ingress yaml_replicate_to
  yaml_jail_status yaml_jail_statuses yaml_ingress_status yaml_ingress_statuses yaml_volume_status
  yaml_target_status _ _ _ _ _ _ unit N N fake_jail_runtime fake_zfs_manager fake_mount_manager
  (@fake_acme FakeDnsProvider fake_dns) fake_nginx sysctl_host demo_f64_to_string id cluster_net service_net).
Notation demo_main := (@agent_main list_order ipnet_model yaml_jail_record yaml_ingress_record yaml_replica_target
  _ _ _ _ _ _ _ _ N N fake_jail_runtime fake_zfs_manager (@fake_net_manager ipnet_model)
  fake_mount_manager (@fake_acme FakeDnsProvider fake_dns) fake_nginx sysctl_host demo_clock demo_su).
Notation demo_starts := (@starts list_order ipnet_model yaml_jail_record yaml_ingress_record yaml_replica_target
  yaml_cluster_registration _ _ _ _ _ _ unit N N fake_jail_runtime fake_zfs_manager
  fake_mount_manager (@fake_acme FakeDnsProvider fake_dns) fake_nginx sysctl_host demo_f64_to_string demo_clock demo_su).
Notation demo_node_serve := (@node_serve list_order ipnet_model yaml_jail_record yaml_ingress_record yaml_error
  yaml_jail yaml_ingress yaml_replicate_to
  yaml_jail_status yaml_jail_statuses yaml_ingress_status yaml_ingress_statuses yaml_volume_status
  yaml_target_status _ _ _ _ _ _ fake_jail_runtime fake_zfs_manager fake_mount_manager
  (@fake_acme FakeDnsProvider fake_dns) fake_nginx demo_clock).

Definition jail_at (name address : string) : JailSpec :=
  mkJailSpec "keel/v1" "Jail" (mkMetadata name)
    (mkSpec "base/14.2-web" ["/usr/local/bin/myapp"] (mkNetworkSpec true "keel0" address)
       (mkResourcesSpec "2" "512M") Always [] None).
Definition put_request (name address : string) : ParsedRequest :=
  mkParsedRequest "PUT" ("/jails/" +:+ name) (@to_yaml _ _ yaml_jail (jail_at name address)).

Lemma demo_readable : readable_disks demo_su "/var/db/keel".
Proof. split; by intros op file _. Qed.

Lemma demo_text c : List.In c cluster_configs ->
  @from_yaml _ _ yaml_cluster_registration (registration_text demo_f64_to_string c) = Ok (registration_of c).
Proof. intros [<-|[<-|[<-|[]]]]; vm_compute; reflexivity. Qed.
Lemma demo_plain c : List.In c cluster_configs -> plain_id (YNR := yaml_cluster_registration) demo_f64_to_string c.
Proof. intros Hc reg Hy. rewrite (demo_text c Hc) in Hy. by injection Hy as <-. Qed.

Lemma demo_flags c : List.In c cluster_configs ->
  exists config, agent_parse_args_from (args_of c) = Val config /\ ac_state_dir config = "/var/db/keel".
Proof. intros [<-|[<-|[<-|[]]]]; eexists; split; vm_compute; reflexivity. Qed.

(** ** Runs *)

Definition demo_tls_of : ReloadingTls N N := mkReloadingTls "node.crt" "node.key" "ca.crt" "crl.pem" 1%N 1%N.
Definition demo_ag : @Agent FakeJailRuntime FakeZfsManager FakeNetManager FakeMountManager FakeAcmeClient
    FakeDnsProvider FakeNginxController :=
  mkAgent (mkReconciler (su_jails demo_su) (su_zfs demo_su) (su_net demo_su) (su_mounts demo_su) "zroot"
             empty_disk empty_disk empty_disk ∅ ∅ 1 ∅ ∅ (mkFakeAcme false) (mkFakeDns ∅ false)
             (mkFakeNginx ∅ false ∅) ∅) ∅.
Definition demo_process (c : NodeConfig) : @AgentProcess FakeJailRuntime FakeZfsManager FakeNetManager
    FakeMountManager FakeAcmeClient FakeDnsProvider FakeNginxController N N :=
  mkAgentProcess demo_ag [] None (mkTargets ∅ empty_disk) (Some (c, demo_tls_of)) None.

Lemma demo_main_is c : List.In c cluster_configs -> demo_main (args_of c) = Val (demo_process c).
Proof. intros [<-|[<-|[<-|[]]]]; vm_compute; reflexivity. Qed.

Lemma demo_starts_is c : List.In c cluster_configs ->
  demo_starts (args_of c) "/var/db/keel" c (demo_process c).
Proof.
  intros Hc. split; [by apply demo_main_is|]. split; [done|]. split; [by apply demo_plain|].
  split; [exact demo_readable|by apply demo_flags].
Qed.

Definition fresh_on (c : NodeConfig) : DemoNode := booted (demo_process c) c ∅.

Lemma demo_join c (cl : DemoCluster) : List.In c cluster_configs -> cl_nodes cl !! nc_node_id c = None ->
  demo_cstep cl (mkCluster (cl_sys cl) (cl_requests cl) (<[nc_node_id c := fresh_on c]> (cl_nodes cl)) (cl_flight cl)).
Proof.
  intros Hc Hn. by eapply (cs_join _ _ _ _ _ demo_clock demo_su (args_of c) "/var/db/keel" c (demo_process c));
    [apply demo_starts_is| | |].
Qed.

Notation demo_reach := (rtc demo_cstep (cluster_init cluster_net service_net)).
Definition cluster_net_ok : net_wf cluster_net /\ (prefix_len cluster_net <= 24)%N.
Proof. by split; [split|]; vm_compute. Qed.
Definition service_net_ok : net_wf service_net /\ (0 < prefix_len service_net)%N.
Proof. by split; [split|]; vm_compute. Qed.

Definition block_of (c : NodeConfig) : Ipv4Net := mkNet (network cluster_net + pod_index (nc_node_id c) cluster_net * 256) 24.
Lemma demo_block c : derive_pod_cidr (nc_node_id c) cluster_net = Val (block_of c).
Proof. by apply derive_pod_cidr_value; apply cluster_net_ok. Qed.
Lemma demo_can c : List.In c cluster_configs ->
  can_register (YNR := yaml_cluster_registration) (YRR := yaml_register) demo_f64_to_string c (block_of c).
Proof.
  intros Hc. split.
  - by destruct Hc as [<-|[<-|[<-|[]]]]; vm_compute.
  - by apply demo_text.
  - by destruct Hc as [<-|[<-|[<-|[]]]]; vm_compute.
Qed.
Lemma demo_unix : unix_ok (ck_unix demo_clock).
Proof. by vm_compute. Qed.

(** Two nodes have started. *)
Definition nodes_12 : gmap string DemoNode := <["node-2" := fresh_on node_2]> {["node-1" := fresh_on node_1]}.
Definition started_12 : DemoCluster := mkCluster (sys_init cluster_net service_net) [] nodes_12 [].

Lemma started_12_reach : demo_reach started_12.
Proof.
  eapply rtc_l; [apply (demo_join node_1); [vm_compute; tauto|done]|].
  eapply rtc_l; [apply (demo_join node_2); [vm_compute; tauto|done]|]. apply rtc_refl.
Qed.

Definition s_0 : CP := cp_new cluster_net service_net.
Definition s_1 : CP := with_registry (mkRegistry cluster_net {["node-1" := joined_record node_1 0 (block_of node_1)]}) s_0.

Lemma node_joins_witness :
  exists cl', rtc demo_cstep started_12 cl' /\
    cl_nodes cl' = <["node-1" := joined (block_of node_1) (fresh_on node_1)]> nodes_12 /\
    sys_cp (cl_sys cl') = Some s_1.
Proof.
  destruct (@node_joins list_order httparse_model ipnet_model yaml_jail_record yaml_ingress_record
    yaml_replica_target yaml_error yaml_register yaml_statuses yaml_replicas yaml_summaries yaml_entries
    yaml_cluster_registration yaml_heartbeat yaml_jail yaml_service yaml_ingress yaml_replicate_to
    yaml_jail_status yaml_jail_statuses yaml_ingress_status yaml_ingress_statuses yaml_volume_status
    yaml_target_status _ _ _ _ _ _ unit N N fake_jail_runtime fake_zfs_manager fake_mount_manager
    (@fake_acme FakeDnsProvider fake_dns) fake_nginx sysctl_host demo_f64_to_string id cluster_net service_net
    cluster_net_ok service_net_ok started_12 "node-1" (fresh_on node_1) (block_of node_1) s_0 0 demo_clock)
    as (cl' & Hr & En & Es & _).
  - exact started_12_reach.
  - exact demo_unix.
  - reflexivity.
  - reflexivity.
  - apply demo_can. vm_compute. tauto.
  - exact (demo_block node_1).
  - reflexivity.
  - intros other (_ & rec & Hrec & _). cbn in Hrec. by rewrite lookup_empty in Hrec.
  - exists cl'. split; [exact Hr|]. split; [exact En|exact Es].
Defined.

Lemma demo_register (cl : DemoCluster) c s :
  List.In c cluster_configs -> demo_reach cl -> cl_nodes cl !! nc_node_id c = Some (fresh_on c) ->
  sys_cp (cl_sys cl) = Some s ->
  (forall other, ~ pod_conflict (cp_registry s) (nc_node_id c) (block_of c) other) ->
  exists cl', demo_reach cl' /\
    cl_nodes cl' = <[nc_node_id c := joined (block_of c) (fresh_on c)]> (cl_nodes cl) /\
    sys_cp (cl_sys cl') = Some (with_registry
      (mkRegistry cluster_net (<[nc_node_id c := joined_record c 0 (block_of c)]> (rg_nodes (cp_registry s)))) s).
Proof.
  intros Hc Hr Hn Es Hno.
  pose proof (reach_ok demo_f64_to_string id cluster_net service_net cluster_net_ok service_net_ok cl Hr) as Hok.
  destruct (registration_runs (YRR := yaml_register) (YNR := yaml_cluster_registration) (TS := N) (TC := N) (HH := sysctl_host)
    (YRT := yaml_replica_target) demo_f64_to_string id
    cluster_net service_net cluster_net_ok service_net_ok cl (nc_node_id c) (fresh_on c) (block_of c) s 0 demo_clock
    Hok demo_unix Hn eq_refl (demo_can c Hc) (demo_block c) Es Hno) as (cl' & Hr' & Es' & En' & _).
  exists cl'. split; [by transitivity cl|]. by split.
Qed.

(** Node 63 starts while node 1 holds the block they share. *)
Lemma restart_shares_block_witness :
  exists (cl : DemoCluster) nd1 nd2, demo_reach cl /\ cl_nodes cl !! "node-1" = Some nd1 /\
    cl_nodes cl !! "node-63" = Some nd2 /\ nd_slot nd1 = Some (mkNet 167805696 24) /\
    nd_slot nd2 = Some (mkNet 167805696 24).
Proof.
  destruct (demo_register started_12 node_1 s_0) as (cl1 & Hr1 & En1 & Es1);
    [vm_compute; tauto|exact started_12_reach|reflexivity|reflexivity| |].
  { intros other (_ & rec & Hrec & _). cbn in Hrec. by rewrite lookup_empty in Hrec. }
  pose proof (demo_join node_63 cl1 ltac:(vm_compute; tauto) ltac:(by rewrite En1)) as Hj.
  pose proof (rtc_r _ _ _ Hr1 Hj) as Hr2. clear Hj. revert Hr2. rewrite En1.
  set (cl2 := mkCluster _ _ _ _). intros Hr2.
  destruct (@restart_shares_block list_order httparse_model ipnet_model yaml_jail_record yaml_ingress_record
    yaml_replica_target yaml_error yaml_register yaml_statuses yaml_replicas yaml_summaries yaml_entries
    yaml_cluster_registration yaml_heartbeat yaml_jail yaml_service yaml_ingress yaml_replicate_to
    yaml_jail_status yaml_jail_statuses yaml_ingress_status yaml_ingress_statuses yaml_volume_status
    yaml_target_status _ _ _ _ _ _ unit N N fake_jail_runtime fake_zfs_manager fake_mount_manager
    (@fake_acme FakeDnsProvider fake_dns) fake_nginx sysctl_host demo_f64_to_string id cluster_net service_net
    cluster_net_ok service_net_ok cl2 "node-1" "node-63" (joined (block_of node_1) (fresh_on node_1))
    (fresh_on node_63) (block_of node_63) demo_clock Hr2 demo_unix)
    as (cl' & nd2 & Hr & H1 & H2 & Hslot & _).
  - discriminate.
  - reflexivity.
  - vm_compute. reflexivity.
  - reflexivity.
  - reflexivity.
  - apply demo_can. vm_compute. tauto.
  - exact (demo_block node_63).
  - exists cl', (joined (block_of node_1) (fresh_on node_1)), nd2. split; [transitivity cl2; [exact Hr2|exact Hr]|].
    split; [exact H1|]. split; [exact H2|]. split; [vm_compute; reflexivity|].
    rewrite Hslot. vm_compute. reflexivity.
Defined.

(** A client gives a jail to a node that has joined. *)
Definition demo_served (c : NodeConfig) (name address : string) : response * DemoNode :=
  demo_node_serve (put_request name address) (joined (block_of c) (fresh_on c)).
Definition demo_holds (c : NodeConfig) (name address : string) : Prop :=
  records_of (nd_worker (demo_served c name address).2) !! name = Some (mkJailRecord (jail_at name address) 1) /\
  nd_early (demo_served c name address).2 = ∅.

Lemma demo_holds_1 : demo_holds node_1 "web-1" "10.0.131.5/24".
Proof. split; vm_compute; reflexivity. Qed.
Lemma demo_holds_2 : demo_holds node_2 "web-2" "10.0.22.5/24".
Proof. split; vm_compute; reflexivity. Qed.

Lemma demo_put (cl : DemoCluster) c name address :
  cl_nodes cl !! nc_node_id c = Some (joined (block_of c) (fresh_on c)) ->
  demo_cstep cl (mkCluster (cl_sys cl) (cl_requests cl)
    (<[nc_node_id c := (demo_served c name address).2]> (cl_nodes cl)) (cl_flight cl)).
Proof.
  intros Hn. apply (cs_client _ _ _ _ cl (put_request name address) _ _ demo_clock
    (demo_served c name address).1 _ Hn demo_unix). by destruct (demo_served c name address) eqn:E.
Qed.

Lemma demo_two_jails_reach :
  exists cl : DemoCluster, demo_reach cl /\ knows cl "node-1" /\ knows cl "node-2" /\
    jail_on cl "node-1" "web-1" (mkJailRecord (jail_at "web-1" "10.0.131.5/24") 1) /\
    jail_on cl "node-2" "web-2" (mkJailRecord (jail_at "web-2" "10.0.22.5/24") 1).
Proof.
  destruct (demo_register started_12 node_1 s_0) as (cl1 & Hr1 & En1 & Es1);
    [vm_compute; tauto|exact started_12_reach|reflexivity|reflexivity| |].
  { intros other (_ & rec & Hrec & _). cbn in Hrec. by rewrite lookup_empty in Hrec. }
  destruct (demo_register cl1 node_2 _ ltac:(vm_compute; tauto) Hr1 ltac:(by rewrite En1) Es1)
    as (cl2 & Hr2 & En2 & Es2).
  { intros other (_ & rec & Hrec & Hnet). cbn in Hrec. apply lookup_insert_Some in Hrec as [[_ <-]|[_ Hrec]];
      [by vm_compute in Hnet|by rewrite lookup_empty in Hrec]. }
  rewrite En1 in En2.
  pose proof (demo_put cl2 node_1 "web-1" "10.0.131.5/24" ltac:(by rewrite En2)) as H3. set (cl3 := mkCluster _ _ _ _) in H3.
  pose proof (demo_put cl3 node_2 "web-2" "10.0.22.5/24" ltac:(unfold cl3; cbn [cl_nodes]; by rewrite En2)) as H4.
  set (cl4 := mkCluster _ _ _ _) in H4. exists cl4.
  split; [eapply rtc_r; [eapply rtc_r; [exact Hr2|exact H3]|exact H4]|].
  unfold knows, jail_on, cl4, cl3. cbn [cl_sys cl_nodes]. rewrite Es2, En2.
  split; [by eexists; split; [reflexivity|]; eexists|]. split; [by eexists; split; [reflexivity|]; eexists|].
  change (nc_node_id node_1) with "node-1". change (nc_node_id node_2) with "node-2". split.
  - exists (demo_served node_1 "web-1" "10.0.131.5/24").2. split.
    { rewrite lookup_insert_ne by discriminate. apply lookup_insert_eq. }
    destruct demo_holds_1 as [-> ->]. split; [reflexivity|]. split; [apply not_elem_of_empty|discriminate].
  - exists (demo_served node_2 "web-2" "10.0.22.5/24").2. split; [apply lookup_insert_eq|].
    destruct demo_holds_2 as [-> ->]. split; [reflexivity|]. split; [apply not_elem_of_empty|discriminate].
Qed.

Lemma cluster_addresses_distinct_witness :
  exists n1 n2, @ipnet_parse ipnet_model "10.0.131.5/24" = Ok (inl n1) /\
    @ipnet_parse ipnet_model "10.0.22.5/24" = Ok (inl n2) /\ net_addr n1 <> net_addr n2.
Proof.
  destruct demo_two_jails_reach as (cl & Hr & K1 & K2 & J1 & J2).
  exact (@cluster_addresses_distinct list_order httparse_model ipnet_model yaml_jail_record yaml_ingress_record
    yaml_replica_target yaml_error yaml_register yaml_statuses yaml_replicas yaml_summaries yaml_entries
    yaml_cluster_registration yaml_heartbeat yaml_jail yaml_service yaml_ingress yaml_replicate_to
    yaml_jail_status yaml_jail_statuses yaml_ingress_status yaml_ingress_statuses yaml_volume_status
    yaml_target_status _ _ _ _ _ _ unit N N fake_jail_runtime fake_zfs_manager fake_mount_manager
    (@fake_acme FakeDnsProvider fake_dns) fake_nginx sysctl_host demo_f64_to_string id cluster_net service_net
    cluster_net_ok service_net_ok cl "node-1" "node-2" "web-1" "web-2" _ _ Hr ltac:(discriminate) K1 K2 J1 J2).
Defined.

(** A client applies a service of one replica. *)
Definition web_service : ServiceSpec :=
  mkServiceSpec "keel/v1" "Service" (mkMetadata "web") (mkServiceSpecBody 1 8080 template_web).
Definition web_service_request : ParsedRequest :=
  mkParsedRequest "PUT" "/services/web" (@to_yaml _ _ yaml_service web_service).
Definition s_web : CP :=
  match @CpWorker.handle_command list_order ipnet_model _ 0 (ApplyService "web" 1 template_web 8080) s_1 with
  | Val (_, s) => s
  | Panic => s_1
  end.
Definition web_action : ReplicaAction :=
  Schedule "web-0" "node-1" "10.1.0.1:7621" template_web 167805698 24 None None.

Lemma demo_service_reach :
  exists cl : DemoCluster, demo_reach cl /\ sys_cp (cl_sys cl) = Some s_web /\
    cl_nodes cl !! "node-1" = Some (joined (block_of node_1) (fresh_on node_1)).
Proof.
  destruct (demo_register started_12 node_1 s_0) as (cl1 & Hr1 & En1 & Es1);
    [vm_compute; tauto|exact started_12_reach|reflexivity|reflexivity| |].
  { intros other (_ & rec & Hrec & _). cbn in Hrec. by rewrite lookup_empty in Hrec. }
  pose proof (reach_ok demo_f64_to_string id cluster_net service_net cluster_net_ok service_net_ok cl1 Hr1) as Hok.
  assert (exists k, @route yaml_error yaml_register yaml_statuses yaml_replicas yaml_summaries yaml_entries
    yaml_cluster_registration yaml_heartbeat yaml_jail yaml_service ipnet_model id web_service_request
    = Send (ApplyService "web" 1 template_web 8080) k) as [k Ek].
  { assert (@parse_and_validate_service yaml_service
            (from_utf8_lossy (@to_yaml _ _ yaml_service web_service)) = Ok web_service) as Es
      by (vm_compute; reflexivity).
    eexists. change (route id web_service_request)
      with (handle_apply_service "web" (@to_yaml _ _ yaml_service web_service)).
    unfold handle_apply_service. rewrite Es. reflexivity. }
  assert (CpWorker.handle_command 0 (ApplyService "web" 1 template_web 8080) s_1 = Val (Ok tt, s_web)) as Hc
    by (vm_compute; reflexivity).
  destruct (request_answered (YRT := yaml_replica_target) (HH := sysctl_host) (TS := N) (TC := N) demo_f64_to_string
    id cluster_net service_net cluster_net_ok service_net_ok cl1 web_service_request _ k _ s_1 s_web 0 Hok Ek Es1 Hc) as (cl2 & Hr2 & Es2 & En2 & _).
  exists cl2. split; [transitivity cl1; [exact Hr1|exact Hr2]|]. split; [exact Es2|].
  rewrite En2, En1. apply lookup_insert_eq.
Qed.

Lemma cluster_deploys_witness :
  exists (cl : DemoCluster) nd' record, demo_reach cl /\
    demo_node_serve (parsed (@action_request yaml_jail web_action)) (joined (block_of node_1) (fresh_on node_1))
      = (empty_ok, nd') /\
    records_of (nd_worker nd') !! "web-0" = Some record /\
    jr_spec record = replica_spec template_web "web-0" (cidr_text 167805698 24) None.
Proof.
  destruct demo_service_reach as (cl & Hr & Es & Hn).
  assert (@CpWorker.reconcile_services list_order ipnet_model s_web 0 = [web_action]) as Ea by (vm_compute; reflexivity).
  destruct (@cluster_deploys list_order httparse_model ipnet_model yaml_jail_record yaml_ingress_record
    yaml_replica_target yaml_error yaml_register yaml_statuses yaml_replicas yaml_summaries yaml_entries
    yaml_cluster_registration yaml_heartbeat yaml_jail yaml_service yaml_ingress yaml_replicate_to
    yaml_jail_status yaml_jail_statuses yaml_ingress_status yaml_ingress_statuses yaml_volume_status
    yaml_target_status _ _ _ _ _ _ unit N N fake_jail_runtime fake_zfs_manager fake_mount_manager
    (@fake_acme FakeDnsProvider fake_dns) fake_nginx sysctl_host demo_f64_to_string id cluster_net service_net
    cluster_net_ok service_net_ok cl s_web 0 "web-0" "node-1" "10.1.0.1:7621" template_web 167805698 24 None None
    cl (joined (block_of node_1) (fresh_on node_1)) demo_clock demo_ag Hr Es)
    as (nd' & record & E & Hrec & Hspec & _).
  - rewrite Ea. apply elem_of_cons. left. reflexivity.
  - cbn. lia.
  - apply rtc_refl.
  - exact Hn.
  - reflexivity.
  - intros name record Hrec. cbn in Hrec. by rewrite lookup_empty in Hrec.
  - exact demo_unix.
  - vm_compute. reflexivity.
  - intros op file. reflexivity.
  - apply lookup_empty.
  - exists cl, nd', record. split; [exact Hr|]. split; [exact E|]. split; [exact Hrec|exact Hspec].
Defined.

Lemma cluster_runs_witness :
  exists (cl : DemoCluster) nd' ag' record, demo_reach cl /\
    demo_node_serve (parsed (@action_request yaml_jail web_action)) (joined (block_of node_1) (fresh_on node_1))
      = (empty_ok, nd') /\
    nd_worker nd' = Some ag' /\ attached (ag_rc ag') "web-0" record /\
    net_address (sp_network (js_spec (jr_spec record))) = "10.0.131.2/24".
Proof.
  destruct demo_service_reach as (cl & Hr & Es & Hn).
  assert (@CpWorker.reconcile_services list_order ipnet_model s_web 0 = [web_action]) as Ea by (vm_compute; reflexivity).
  destruct (@cluster_runs list_order httparse_model ipnet_model yaml_jail_record yaml_ingress_record
    yaml_replica_target yaml_error yaml_register yaml_statuses yaml_replicas yaml_summaries yaml_entries
    yaml_cluster_registration yaml_heartbeat yaml_jail yaml_service yaml_ingress yaml_replicate_to
    yaml_jail_status yaml_jail_statuses yaml_ingress_status yaml_ingress_statuses yaml_volume_status
    yaml_target_status _ _ _ unit N N (@fake_acme FakeDnsProvider fake_dns) fake_nginx sysctl_host
    demo_f64_to_string id cluster_net service_net
    cluster_net_ok service_net_ok cl cl s_web 0 "web-0" "node-1" "10.1.0.1:7621" template_web 167805698 24 None None
    (joined (block_of node_1) (fresh_on node_1)) demo_clock demo_ag Hr Es)
    as (nd' & ag' & record & E & Ew & _ & Hspec & _ & Hat & _).
  - rewrite Ea. apply elem_of_cons. left. reflexivity.
  - cbn. lia.
  - apply rtc_refl.
  - exact Hn.
  - reflexivity.
  - intros name record Hrec. cbn in Hrec. by rewrite lookup_empty in Hrec.
  - exact demo_unix.
  - vm_compute. reflexivity.
  - intros op file. reflexivity.
  - apply lookup_empty.
  - split; [vm_compute; tauto|]. split; [intros n; cbn; discriminate|apply lookup_empty].
  - exists cl, nd', ag', record. split; [exact Hr|]. split; [exact E|]. split; [exact Ew|]. split; [exact Hat|].
    rewrite Hspec. vm_compute. reflexivity.
Defined.
